(* ===== verification/_CoqProject ===== *)
-Q . S2P
Prelude.v
GoStr.v
GoHash.v
GoTime.v
GoPath.v
GoPathFacts.v
Paths.v
Index.v
Reconcile.v
ReconcileFacts.v
PathsFacts.v
GoNet.v
AuthLimit.v
AuthLimitFacts.v
AuthLimitProps.v
Chunker.v
GoBase64.v
GoHttp.v
Crypto.v
CryptoFacts.v
World.v
WorldFacts.v
Store.v
StoreFacts.v
ManifestStore.v
RootPaths.v
Cache.v
CacheFacts.v
LoadFacts.v
AppDir.v
Anchor.v
Fields.v
Compact.v
CompactFacts.v
GC.v
GCFacts.v
VaultOps.v
VaultFacts.v
Export.v
RecoveryWords.v
RecoveryWordsFacts.v
RecoveryPhrase.v
RecoveryPhraseFacts.v
AnchorFacts.v
Rotation.v
RotationFacts.v
UserPath.v
MetaDir.v
Device.v
OpenVault.v
UserPathFacts.v
DeviceFacts.v
ChunkCache.v
Reader.v
LocalDav.v
ReaderFacts.v
OpenVaultFacts.v
LocalDavFacts.v
DavFileFacts.v
Profile.v
Remotes.v
SettingsFacts.v
Trees.v
TreesFacts.v
VaultMove.v
VaultMoveFacts.v
VaultMoveProps.v
AppConfig.v
AppConfigFacts.v
TLSConfig.v
TLSReloadFacts.v
Transport.v
TransportFacts.v
Rclone.v
RcloneFacts.v
Importer.v
ImporterFacts.v
Setup.v
SetupFacts.v
ExportFacts.v
