(* ===== verification/Prelude.v ===== *)
(** * open-seavault-rclone: verification library

    open-seavault-rclone keeps a folder of files encrypted in a directory that some
    other program (a sync client, rclone) replicates between devices.  This library
    models the Go packages that decide what is stored, what is read back, who may
    open it and what is ever deleted, and proves what they promise.

    ** The program and its parts

    A _vault_ is a directory with a metadata directory (SeaVaultData, or the older
    .seavault) holding vault.json (the configuration: format level, key-derivation
    parameters, the wrapped keys and an integrity tag), objects/chunks (encrypted
    content-addressed chunks), manifests (one encrypted file per virtual path and
    writer) and gc-intents.  Opening it derives a wrap key from the password, unwraps
    the master and chunk-id keys, checks the configuration against its tag and
    against a device-local freshness anchor, and ensures the content layout.  Storing
    a file cuts it into chunks, writes the chunks that are missing, then commits a
    manifest with an advanced vector clock and a new generation.  Loading decrypts
    every manifest, reconciles the copies of each path by clock, and reports what
    compaction may then apply.  Garbage collection deletes chunk files in two phases
    behind a fence.  Recovery phrases are further secrets that unwrap the same keys.
    The rate limiter guards every surface that checks a credential.

    ** How the model corresponds to the code

    - The disk is [World.files], a finite map from a path (its list of segments) to a
      [File]; directories are implicit.  [World.St] is the disk, a count of the
      system calls made, and the mutable fields of a Go Vault (index cache, highest
      generation, last fingerprint).  A function that does I/O is an [M A]: a state
      passing function that returns a [result], Go's value and error.
    - [World.Env] is what the outside decides: the clock, the bytes of crypto/rand,
      map iteration order, and for every system call whether it fails.  A crash is an
      [Env] in which every call fails from some point on; a theorem that quantifies
      over [Env] therefore covers every failure and every crash between two calls.
      [World.os_Write] may fail after a part of the bytes.
    - [Store.Vault] is what does not change while a vault is open (metadata root,
      configuration, keys, device id); [Anchor.Handle] adds the anchor's place;
      [OpenVault.Opened] is what an open returns.
    - Interfaces the code uses and does not define are type classes with their laws:
      [Crypto.AEAD] (cipher.AEAD), [Crypto.Argon2] (the vendored Argon2id),
      [ManifestStore.JSON] and [Anchor.CompactJSON] (encoding/json), [GoStr.GoUnicode]
      (Unicode tables and strings.ToLower/ToUpper), [AppDir.Platform] (environment
      variables and the home directory), [UserPath.Host] (os.Stat and filepath.Glob
      on a user's path), [LocalDav.Fold] (strings.EqualFold), [AppConfig.ConfigJSON]
      (the configuration as JSON), [AppConfig.SelfSigner] and [TLSConfig.X509]
      (certificates), [VaultMove.FileId] (os.SameFile), [Importer.Rsync] (which rsync is
      installed).  The process of rclone is the record [Rclone.Runner], what it
      documents of cat, mkdir and copy, under the program's own options, the laws
      [RcloneFacts.rclone_ok].  Crypto.v, Fields.v and the facts files give an instance
      of each, on which the witnesses run.
    - int64 arithmetic wraps ([Prelude.wrap64]) wherever an operand is not bounded; a
      Go string is a byte string; an error is its sentinel or its format string.

    ** The files

    Go's standard library, as far as the program uses it: GoStr.v (strings, bytes,
    utf8), GoHash.v (sha256, hmac, hex), GoTime.v (time.Parse, Format, ParseDuration),
    GoPath.v and GoPathFacts.v (path), GoNet.v (net addresses), GoHttp.v (net/url,
    net/http headers and ranges, encoding/xml), GoBase64.v (base 64 and 32).  They are
    executable and checked on published vectors.

    - Paths.v, PathsFacts.v: internal/vault path.go, content.go, portable.go and the
      directory names of metadir.go.  A normalised path is inside the content root;
      cleaning is idempotent; the join is injective.
    - Index.v, Reconcile.v, ReconcileFacts.v: index.go and the reconciliation of
      manifest.go.  Clocks form a partial order; the winner is causally maximal, every
      copy is kept or dominated, a concurrent edit survives as a conflict, and the
      result does not depend on the order of reading.
    - Chunker.v: chunker.go.  The streaming loop refines a definition on the whole
      input; the chunks concatenate to it; sizes stay within the parameters.
    - Crypto.v, CryptoFacts.v: crypto.go, scrypt.go and the
      unlock of vault.go.  Accepted parameters are within bounds, wrapping round
      trips, a refusal does not tell which entry failed.
    - Store.v, StoreFacts.v: rename.go and the object half of vault.go.  A durable
      write leaves the old or the new file whatever fails; a loaded chunk is the one
      its id names.
    - ManifestStore.v, LoadFacts.v, Cache.v, CacheFacts.v: the I/O of manifest.go and
      cache.go.  Loading writes nothing; generations and clocks only rise.
    - Compact.v, CompactFacts.v, AppDir.v, GC.v, GCFacts.v: compact.go, appdir.go,
      gc.go.  A conflict copy is saved before the manifest it came from is removed; a
      chunk file disappears only when unreferenced and past every fence.
    - VaultOps.v, VaultFacts.v: the operations of vault.go, directories.go and
      put_directory_contents.go.  What is put is read back.
    - Export.v, ExportFacts.v: export.go.  Every exported record has a target of its
      own, also where names are compared without case, inside the destination.
    - RecoveryWords.v, RecoveryWordsFacts.v, RecoveryPhrase.v, RecoveryPhraseFacts.v:
      recovery_words.go, recovery_phrase.go.  The word form is a bijection with its
      checksum; both printed forms of a secret lead back to it.
    - Anchor.v, AnchorFacts.v: anchor.go, configmac.go.  The tag binds every field of
      the configuration; the gate refines a short table; a replay is refused; the
      configuration file changes in one step.
    - Rotation.v, RotationFacts.v: rotation.go, seal.go, readers.go.  A password
      change, a redeemed phrase and a seal rewrite exactly the entries they name.
    - MetaDir.v, UserPath.v, UserPathFacts.v, Device.v, DeviceFacts.v, OpenVault.v,
      OpenVaultFacts.v: metadir.go, userpath.go, deviceid.go and the create and open
      half of vault.go.  A vault just created opens with its password.
    - ChunkCache.v, Reader.v, ReaderFacts.v: reader.go.  The cache stays within its
      capacity; a read at an offset returns that slice of the file.
    - AuthLimit.v, AuthLimitFacts.v, AuthLimitProps.v: internal/authlimit.  Invariant
      of the reachable limiters, grants bounded under concurrency, locks persist.
    - LocalDav.v, LocalDavFacts.v, DavFileFacts.v: internal/loopback (which Host headers
      a local listener accepts) and internal/localdav,
      the WebDAV verbs over an open vault.  Its gates come first; a listed name leads
      back to its entry; the chunks checked cover the ranges sent; a GET hands out
      what was PUT; what a copy leads to.
    - Profile.v, Remotes.v, SettingsFacts.v: internal/profile and internal/remotes,
      the settings files of a device (appdir.go is AppDir.v).
      Writing them touches nothing outside the configuration directory.
    - Trees.v, TreesFacts.v: directories moved, removed, listed and walked, as os and
      path/filepath do it, for the three packages below.
    - VaultMove.v, VaultMoveFacts.v, VaultMoveProps.v: internal/vaultmove.  A copied
      tree is complete; a move leaves the whole vault at the old or the new place.
    - AppConfig.v, AppConfigFacts.v: internal/appconfig and the limiter setup of cmd/seavault/main.go.  A normalised
      configuration is within its bounds, whatever was written in it; the limiter it
      starts has the limits configured and the status line shows them, none starts only
      where that was asked for, and an unknown flag is refused; what is saved is loaded.
    - TLSConfig.v, TLSReloadFacts.v: internal/tlsconfig.  The tick of the
      certificate reloader refines a short table; it never replaces a served
      certificate that is in its window by one that is not, and what it puts in
      service stood in its two files, with its key.
    - Transport.v, TransportFacts.v: internal/transport and its local backend.  A transfer
      that reports success is complete; one that stops left each file old or new.  A
      synchronisation ends with the remote's version of what both sides had.
    - Rclone.v, RcloneFacts.v: internal/transport/rclone, and RedactText of
      internal/rclonebin.  A push sends the configuration last, so one at the remote never
      stands without its chunks and manifests (or files rclone takes for them); a remote
      whose configuration can be read to be another vault's is refused; what is kept of rclone's output does not depend on the values of secrets.
    - Importer.v, ImporterFacts.v: internal/importer.  An import ends with a report that
      adds up; a dry run writes nothing; a single file is not counted in its report.
    - Setup.v, SetupFacts.v: plan.go, execute.go and providers.go of internal/setup.  A
      setup leaves a whole vault at its place or what was there, whatever fails; a name
      in a printed remedy is one word to a shell.
    - RootPaths.v (paths below a vault's root) and Fields.v (records as fields) are
      shared by the facts and the demonstrations.

    Prelude.v itself holds errors and results, machine integers, list lemmas and the
    tactics; WorldFacts.v the reasoning about runs ([preserves] and [triple], tactic
    [keep]).  Each component's definitions come first, its facts in the file of the
    same name with Facts.  Names are the code's; a comment on each gives file, lines
    and function.

    ** Bounds and fuel

    Loops that are not structural take fuel computed from their input: the walk of
    nearestExistingParent ([UserPath.nearest_fuel], proved sufficient), ReadAt (one
    step per requested byte), copyDir ([VaultMove.copyDir], the depth of the disk, proved
    sufficient), filepath.WalkDir ([Trees.WalkDir], the depth of the disk, proved
    sufficient), ancestorIs (the length of the path), io.Copy ([copy_section], size / 32768 + 2), sort.Search
    (the length of the slice), strings.ReplaceAll (the length of the string and four), nextPowerOfTwo (63 doublings), renameWithRetry
    ([renameAttempts]), the scanners of strings
    (the length of the string) and of PEM blocks (the length of the data).

    ** Not modelled

    The command line apart from the limiter setup, the web interface, the prompts of
    the setup wizard and the installers and drivers of rclone and rsync: argument
    parsing, HTML, prompts and processes around the parts above.  Operating-system services (key stores, terminals, fsync) appear only as
    calls that can fail.  Permission bits, symbolic links and case-insensitive file
    systems are not part of the disk; the standard library's cryptography and JSON are
    interfaces.  Concurrency inside one process is modelled at the grain of the
    mutexes: a function the code runs under its lock is one step. *)
From stdpp Require Export base gmap strings list sorting fin_maps.
From Stdlib Require Export ZArith Lia.

(** ** Results and errors *)

(** A Go [error] value.  [ENew] is an [errors.New] or [fmt.Errorf] without
    [%w]; [ESentinel] is one of the package-level error variables, named by its
    Go identifier; [EWrap] is [fmt.Errorf("pre%w", e)]. *)
Inductive err : Type :=
  | ENew (msg : string)
  | ESentinel (name : string)
  | EWrap (pre : string) (e : err).

#[global] Instance err_eq_dec : EqDecision err.
Proof. solve_decision. Defined.

(** The result of a Go function that returns a value and an [error]. *)
Inductive result (A : Type) : Type :=
  | Ok (a : A)
  | Err (e : err).
Arguments Ok {A} a.
Arguments Err {A} e.

#[global] Instance result_eq_dec {A} `{EqDecision A} : EqDecision (result A).
Proof. solve_decision. Defined.

#[global] Instance result_ret : MRet result := fun A a => Ok a.
#[global] Instance result_bind : MBind result := fun A B f r =>
  match r with Ok a => f a | Err e => Err e end.
#[global] Instance result_fmap : FMap result := fun A B f r =>
  match r with Ok a => Ok (f a) | Err e => Err e end.

Definition is_ok {A} (r : result A) : bool :=
  match r with Ok _ => true | Err _ => false end.
Lemma is_ok_tt (r : result unit) : is_ok r = true → r = Ok tt.
Proof. by destruct r as [[]|]. Qed.
Lemma ran_tt {S} (x : S * result unit) : is_ok x.2 = true → x = (x.1, Ok tt).
Proof. destruct x as [s r]. cbn. by intros ->%is_ok_tt. Qed.

(** [errors.Is(e, target)] for a sentinel target: the chain of wrapped errors. *)
Fixpoint errors_is (target : string) (e : err) : bool :=
  match e with
  | ENew _ => false
  | ESentinel n => String.eqb n target
  | EWrap _ e' => errors_is target e'
  end.

Lemma bind_ok {A B} (f : A → result B) (r : result A) (b : B) :
  r ≫= f = Ok b ↔ ∃ a, r = Ok a ∧ f a = Ok b.
Proof.
  destruct r as [a|e]; split; [by exists a | | done | ].
  - intros (a' & Ha & H). by injection Ha as <-.
  - by intros (a' & Ha & H).
Qed.

Lemma bind_err {A B} (f : A → result B) (r : result A) (e : err) :
  r ≫= f = Err e ↔ r = Err e ∨ ∃ a, r = Ok a ∧ f a = Err e.
Proof.
  destruct r as [a|e']; split; [by right; exists a | | by intros [= ->]; left | ].
  - intros [H|(a' & Ha & H)]; [done|]. by injection Ha as <-.
  - intros [H|(a' & Ha & H)]; [by injection H as ->|done].
Qed.

(** ** Machine integers *)

Declare Scope seavault_scope.
Delimit Scope seavault_scope with sv.

Definition int64_min : Z := -9223372036854775808.
Definition int64_max : Z := 9223372036854775807.
Definition two64 : Z := 18446744073709551616.

(** Two's-complement wrap-around of a Go [int64] (and of [int], which is 64 bits
    on every platform the release builds). *)
Definition wrap64 (z : Z) : Z := (z - int64_min) `mod` two64 + int64_min.
Definition in_int64 (z : Z) : Prop := (int64_min ≤ z ≤ int64_max)%Z.
(** Wrap-around of a Go [uint64]. *)
Definition wrapu64 (z : Z) : Z := z `mod` two64.

Notation "x +64 y" := (wrap64 (x + y)) (at level 50, left associativity) : seavault_scope.
Notation "x *64 y" := (wrap64 (x * y)) (at level 40, left associativity) : seavault_scope.

Lemma wrap64_id z : in_int64 z → wrap64 z = z.
Proof.
  unfold in_int64, wrap64, int64_min, int64_max, two64. intros Hz.
  rewrite Z.mod_small; lia.
Qed.

Lemma wrap64_range z : in_int64 (wrap64 z).
Proof.
  unfold in_int64, wrap64, int64_min, int64_max, two64.
  pose proof (Z.mod_pos_bound (z - -9223372036854775808) 18446744073709551616). lia.
Qed.

Lemma wrapu64_range z : (0 ≤ wrapu64 z < two64)%Z.
Proof. apply Z.mod_pos_bound. reflexivity. Qed.

(** ** Go's stable sort

    [sort.SliceStable] inserts each element into the sorted prefix by swapping it
    leftwards while [less] holds; this is literally what Go runs on up to 20
    elements, and any stable sort agrees with it when [less] is a strict weak
    order.  The prefix is kept reversed, so the scan starts at its right end. *)
Section go_sort.
Context {A : Type} (less : A → A → bool).

Fixpoint ins (x : A) (r : list A) : list A :=
  match r with
  | [] => [x]
  | y :: r' => if less x y then y :: ins x r' else x :: r
  end.

Definition go_sort (l : list A) : list A := rev (fold_left (fun r x => ins x r) l []).

Lemma ins_perm x r : ins x r ≡ₚ x :: r.
Proof.
  induction r as [|y r IH]; simpl; [done|]. destruct (less x y); [|done].
  rewrite IH. apply perm_swap.
Qed.

Lemma fold_ins_perm l r : fold_left (fun r x => ins x r) l r ≡ₚ l ++ r.
Proof.
  revert r. induction l as [|x l IH]; intros r; simpl; [done|].
  rewrite IH, ins_perm. by rewrite <- Permutation_middle.
Qed.

Lemma go_sort_perm l : go_sort l ≡ₚ l.
Proof.
  unfold go_sort. rewrite <- Permutation_rev, fold_ins_perm. by rewrite app_nil_r.
Qed.

Lemma go_sort_in x l : x ∈ go_sort l ↔ x ∈ l.
Proof. by rewrite go_sort_perm. Qed.

Lemma go_sort_length l : length (go_sort l) = length l.
Proof. by rewrite go_sort_perm. Qed.

Lemma go_sort_nil_inv l : go_sort l = [] → l = [].
Proof. intros H. apply Permutation_nil_r. by rewrite <- H, go_sort_perm. Qed.

(** [less] restricted to the members of [P] is a strict weak order. *)
Record weak_order (P : A → Prop) : Prop := {
  wo_asym x y : P x → P y → less x y = true → less y x = false;
  wo_ntrans x y z : P x → P y → P z →
    less x y = false → less y z = false → less x z = false
}.

Lemma ins_sorted P x r :
  weak_order P → P x → Forall P r →
  StronglySorted (fun a b => less a b = false) r →
  StronglySorted (fun a b => less a b = false) (ins x r).
Proof.
  intros Hwo Hx HP Hs. induction Hs as [|y r Hs IH Hy]; simpl.
  { repeat constructor. }
  inversion HP as [|?? Py Pr]; subst. destruct (less x y) eqn:E.
  - constructor; [by apply IH|]. rewrite ins_perm. constructor; [|done].
    by apply (wo_asym _ Hwo).
  - constructor; [by constructor|]. constructor; [done|].
    rewrite Forall_forall in Hy, Pr |- *. intros z Hz.
    apply (wo_ntrans _ Hwo x y z); auto.
Qed.

Lemma fold_ins_sorted P l r :
  weak_order P → Forall P l → Forall P r →
  StronglySorted (fun a b => less a b = false) r →
  StronglySorted (fun a b => less a b = false) (fold_left (fun r x => ins x r) l r).
Proof.
  intros Hwo Hl. revert r. induction Hl as [|x l Px Hl IH]; intros r Pr Hr; simpl; [done|].
  apply IH; [|by eapply ins_sorted]. rewrite ins_perm. by constructor.
Qed.

Lemma go_sort_rev_sorted P l :
  weak_order P → Forall P l →
  StronglySorted (fun a b => less a b = false) (rev (go_sort l)).
Proof.
  intros Hwo Hl. unfold go_sort. rewrite rev_involutive.
  eapply fold_ins_sorted; eauto; constructor.
Qed.

(** Uniqueness: permuted inputs sort to the same list once ties are equalities. *)
Lemma go_sort_unique P l1 l2 :
  weak_order P → Forall P l1 → l1 ≡ₚ l2 →
  (∀ x y, x ∈ l1 → y ∈ l1 → less x y = false → less y x = false → x = y) →
  go_sort l1 = go_sort l2.
Proof.
  intros Hwo H1 Hp Htie.
  assert (H2 : Forall P l2) by (by rewrite <- Hp).
  rewrite <- (rev_involutive (go_sort l1)), <- (rev_involutive (go_sort l2)). f_equal.
  eapply StronglySorted_unique_strong; [|eapply go_sort_rev_sorted; eauto ..|].
  - intros x y Hx Hy. rewrite <- Permutation_rev, go_sort_in in Hx.
    rewrite <- Permutation_rev, go_sort_in, <- Hp in Hy. eauto.
  - by rewrite <- !Permutation_rev, !go_sort_perm.
Qed.

(** The head of the sorted list beats or ties every other member. *)
Lemma go_sort_head P l x t :
  weak_order P → Forall P l → go_sort l = x :: t → ∀ y, y ∈ t → less y x = false.
Proof.
  intros Hwo Hl E y Hy. pose proof (go_sort_rev_sorted P l Hwo Hl) as Hs.
  rewrite E in Hs. simpl in Hs. apply StronglySorted_app in Hs as (Hall & _ & _).
  apply Hall; [|by apply list_elem_of_singleton]. by rewrite <- Permutation_rev.
Qed.
End go_sort.

(** Sorting commutes with a projection the comparison factors through. *)
Lemma go_sort_map {A B} (f : A → B) (less : B → B → bool) l :
  map f (go_sort (fun x y => less (f x) (f y)) l) = go_sort less (map f l).
Proof.
  unfold go_sort. rewrite map_rev. f_equal.
  assert (Hins : ∀ x r, map f (ins (fun x y => less (f x) (f y)) x r) = ins less (f x) (map f r)).
  { intros x r. induction r as [|y r IH]; simpl; [done|].
    destruct (less (f x) (f y)); simpl; congruence. }
  assert (∀ r, map f (fold_left (fun r x => ins (fun x y => less (f x) (f y)) x r) l r)
    = fold_left (fun r x => ins less x r) (map f l) (map f r)) as ->; [|done].
  induction l as [|x l IH]; intros r; simpl; [done|]. by rewrite IH, Hins.
Qed.

(** The sort only consults [less] on members. *)
Lemma go_sort_ext {A} (f g : A → A → bool) l :
  (∀ x y, x ∈ l → y ∈ l → f x y = g x y) → go_sort f l = go_sort g l.
Proof.
  intros H. unfold go_sort. f_equal.
  assert (Hins : ∀ x r, x ∈ l → (∀ y, y ∈ r → y ∈ l) → ins f x r = ins g x r).
  { intros x r Hx. induction r as [|y r IH]; intros Hr; simpl; [done|].
    rewrite H; [|done|apply Hr; left]. destruct (g x y); [|done].
    rewrite IH; [done|]. intros z Hz. apply Hr. by right. }
  assert (Hf : ∀ k r, (∀ y, y ∈ k → y ∈ l) → (∀ y, y ∈ r → y ∈ l) →
    fold_left (fun r x => ins f x r) k r = fold_left (fun r x => ins g x r) k r).
  { induction k as [|x k IH]; intros r Hk Hr; simpl; [done|].
    rewrite Hins by (done || apply Hk; left). apply IH; [intros; apply Hk; by right|].
    intros y. rewrite ins_perm. intros [->|Hy]%elem_of_cons; [apply Hk; left|by apply Hr]. }
  apply Hf; [done|]. by intros y ?%elem_of_nil.
Qed.

(** ** Boolean filters *)

Lemma elem_of_bfilter {A} (f : A → bool) (l : list A) x :
  x ∈ List.filter f l ↔ x ∈ l ∧ f x = true.
Proof. rewrite !list_elem_of_In. apply filter_In. Qed.

Lemma bfilter_perm {A} (f : A → bool) (l1 l2 : list A) :
  l1 ≡ₚ l2 → List.filter f l1 ≡ₚ List.filter f l2.
Proof.
  induction 1 as [|x l1 l2 _ IH|x y l|l1 l2 l3 _ IH1 _ IH2]; simpl; [done| | |by etrans].
  - destruct (f x); by rewrite IH.
  - destruct (f x), (f y); try done. apply perm_swap.
Qed.

Lemma bfilter_ext {A} (f g : A → bool) (l : list A) :
  (∀ x, x ∈ l → f x = g x) → List.filter f l = List.filter g l.
Proof. intros H. apply filter_ext_in. intros x Hx. apply H. by apply list_elem_of_In. Qed.

Lemma bfilter_split {A} (f : A → bool) (l : list A) :
  l ≡ₚ List.filter f l ++ List.filter (fun x => negb (f x)) l.
Proof.
  induction l as [|x l IH]; simpl; [done|].
  destruct (f x); simpl; [by rewrite <- IH|]. by rewrite <- Permutation_middle, <- IH.
Qed.

Lemma bfilter_lt {A} (f g : A → bool) (l : list A) x :
  x ∈ l → f x = true → g x = false → (∀ y, y ∈ l → g y = true → f y = true) →
  (length (List.filter g l) < length (List.filter f l))%nat.
Proof.
  intros Hx Hf Hg Hsub. induction l as [|y l IH]; [by apply elem_of_nil in Hx|].
  assert (Hle : (length (List.filter g l) ≤ length (List.filter f l))%nat).
  { clear IH Hx. assert (Hs : ∀ z, z ∈ l → g z = true → f z = true) by (intros; apply Hsub; [by right|done]).
    clear Hsub. induction l as [|z l IH]; simpl; [done|].
    assert (IH' := IH ltac:(intros; apply Hs; [by right|done])).
    destruct (g z) eqn:Eg; [rewrite Hs by (done || left)|destruct (f z)]; simpl; lia. }
  apply elem_of_cons in Hx as [->|Hx]; simpl.
  - rewrite Hf, Hg. simpl. lia.
  - specialize (IH Hx ltac:(intros; apply Hsub; [by right|done])).
    destruct (g y) eqn:Eg; [rewrite Hsub by (done || left)|destruct (f y)]; simpl; lia.
Qed.

Lemma existsb_elem {A} (f : A → bool) (l : list A) :
  existsb f l = true ↔ ∃ x, x ∈ l ∧ f x = true.
Proof. rewrite existsb_exists. by setoid_rewrite list_elem_of_In. Qed.

(** Closed decidable goals, by evaluation. *)
Ltac by_decide := refine (bool_decide_unpack _ _); vm_compute; exact I.
