(* ===== verification/GoStr.v ===== *)
(** Go strings, byte slices and the functions of [strings], [bytes], [path] and
    [fmt] the program calls.  A Go string is a byte sequence, here [string];
    comparison is bytewise, slicing out of range is a panic ([None]). *)
From stdpp Require Export pretty.
From Stdlib Require Export Strings.Byte Strings.Ascii Strings.String.
From Stdlib Require Import OrdersEx.
From stdpp Require Export strings list.
From S2P Require Export Prelude.

Abbreviation bytes := (list Byte.byte).
Abbreviation bytes_of := String.list_byte_of_string.
Abbreviation str_of := String.string_of_list_byte.

#[global] Arguments String.append _ _ : simpl nomatch.

#[global] Instance byte_eq_decision : EqDecision Byte.byte := Byte.byte_eq_dec.

Definition slash : ascii := "/".
Definition dot : ascii := ".".
Definition backslash : ascii := "\".

(** [s[:n]] and [s[n:]] with Go's bounds check. *)
Fixpoint str_take (n : nat) (s : string) : string :=
  match n, s with
  | S n', String c s' => String c (str_take n' s')
  | _, _ => ""
  end.
Fixpoint str_drop (n : nat) (s : string) : string :=
  match n, s with
  | S n', String _ s' => str_drop n' s'
  | _, _ => s
  end.
Definition slice_to (s : string) (n : nat) : option string :=
  if (n <=? String.length s)%nat then Some (str_take n s) else None.

(** [strings.HasPrefix], [HasSuffix], [Index], [Contains], [TrimPrefix],
    [TrimSuffix]. *)
Definition has_prefix (s p : string) : bool := String.prefix p s.
Definition has_suffix (s p : string) : bool :=
  (String.length p <=? String.length s)%nat &&
  String.eqb (str_drop (String.length s - String.length p) s) p.
Definition str_index (s sub : string) : option nat := String.index 0 sub s.
Definition str_contains (s sub : string) : bool :=
  match str_index s sub with Some _ => true | None => false end.
Definition trim_prefix (s p : string) : string :=
  if has_prefix s p then str_drop (String.length p) s else s.
Definition trim_suffix (s p : string) : string :=
  if has_suffix s p then str_take (String.length s - String.length p) s else s.

(** [strings.ReplaceAll] / [strings.NewReplacer] for one-byte patterns: [f]
    gives the replacement of each byte. *)
Fixpoint str_flat_map (f : ascii → string) (s : string) : string :=
  match s with
  | EmptyString => ""
  | String c s' => f c +:+ str_flat_map f s'
  end.
Definition replace_byte (old new : ascii) : string → string :=
  str_flat_map (fun c => if ascii_dec c old then String new "" else String c "").

Definition byte_at (s : string) (i : nat) : option ascii := String.get i s.

(** ASCII letters. *)
Definition ascii_code (c : ascii) : Z := Z.of_N (N_of_ascii c).
Definition ascii_lower (c : ascii) : ascii :=
  let n := ascii_code c in
  if ((65 <=? n) && (n <=? 90))%Z then ascii_of_N (Z.to_N (n + 32)) else c.
Definition is_ascii (s : string) : bool :=
  forallb (fun c => (ascii_code c <? 128)%Z) (list_ascii_of_string s).
Definition lower_ascii (s : string) : string := str_flat_map (fun c => String (ascii_lower c) "") s.

(** [strings.ToLower] is Unicode-aware: on ASCII strings it is [lower_ascii], on
    others it maps each rune by the Unicode simple lower-case table, which this
    library does not restate; an ASCII byte is a rune of its own wherever it stands. *)
Class GoUnicode := {
  to_lower : string → string;
  to_lower_ascii s : is_ascii s = true → to_lower s = lower_ascii s;
  to_lower_app_ascii s t : is_ascii t = true → to_lower (s +:+ t) = to_lower s +:+ lower_ascii t;
  to_lower_ascii_app s t : is_ascii s = true → to_lower (s +:+ t) = lower_ascii s +:+ to_lower t
}.

(** [strings.TrimSpace]: the UTF-8 encodings of the runes of [unicode.IsSpace]. *)
Definition space_runes : list string :=
  let e (l : list N) := string_of_list_ascii (map ascii_of_N l) in
  map (fun n : N => e [n]) [9; 10; 11; 12; 13; 32]%N ++
  [e [194; 133]; e [194; 160]; e [225; 154; 128]; e [226; 128; 168]; e [226; 128; 169];
   e [226; 128; 175]; e [226; 129; 159]; e [227; 128; 128]]%N ++
  map (fun n => e [226; 128; n]%N) [128; 129; 130; 131; 132; 133; 134; 135; 136; 137; 138]%N.
Fixpoint trim_left_fuel (fuel : nat) (s : string) : string :=
  match fuel with
  | O => s
  | S f => match List.find (has_prefix s) space_runes with
           | Some r => trim_left_fuel f (str_drop (String.length r) s)
           | None => s
           end
  end.
Fixpoint trim_right_fuel (fuel : nat) (s : string) : string :=
  match fuel with
  | O => s
  | S f => match List.find (has_suffix s) space_runes with
           | Some r => trim_right_fuel f (str_take (String.length s - String.length r) s)
           | None => s
           end
  end.
Definition trim_space (s : string) : string :=
  let s1 := trim_left_fuel (String.length s) s in
  trim_right_fuel (String.length s1) s1.

(** Bytewise order, Go's [<] and [>] on strings. *)
Definition str_gtb (a b : string) : bool :=
  match String.compare a b with Gt => true | _ => false end.

(** ['%d'] and [strconv.Itoa]. *)
Definition itoa (z : Z) : string := pretty z.

(** ['%v'] of a boolean. *)
Definition show_bool (b : bool) : string := if b then "true" else "false".

(** [sort.Strings]. *)
Definition sort_strings (l : list string) : list string := go_sort (fun a b => str_gtb b a) l.

(** Concatenation of the pieces of a formatted string. *)
Definition str_concat (l : list string) : string := String.concat "" l.

(** The width of the UTF-8 rune at the front of a string, [None] when the bytes
    are not valid UTF-8 (Go then yields [U+FFFD] and advances by one byte). *)
Definition in_range (lo hi : Z) (c : ascii) : bool := ((lo <=? ascii_code c) && (ascii_code c <=? hi))%Z.
Definition rune_width (s : string) : option nat :=
  match s with
  | EmptyString => None
  | String c0 s1 =>
      if in_range 0 127 c0 then Some 1
      else match s1 with
      | EmptyString => None
      | String c1 s2 =>
          if in_range 194 223 c0 then (if in_range 128 191 c1 then Some 2 else None)
          else match s2 with
          | EmptyString => None
          | String c2 s3 =>
              let lo3 := if in_range 224 224 c0 then 160%Z else 128%Z in
              let hi3 := if in_range 237 237 c0 then 159%Z else 191%Z in
              if in_range 224 239 c0 then
                if in_range lo3 hi3 c1 && in_range 128 191 c2 then Some 3 else None
              else match s3 with
              | EmptyString => None
              | String c3 _ =>
                  let lo4 := if in_range 240 240 c0 then 144%Z else 128%Z in
                  let hi4 := if in_range 244 244 c0 then 143%Z else 191%Z in
                  if in_range 240 244 c0 && in_range lo4 hi4 c1 &&
                     in_range 128 191 c2 && in_range 128 191 c3 then Some 4 else None
              end
          end
      end
  end.

(** [utf8.RuneError] as written by [WriteRune]. *)
Definition rune_error : string := string_of_list_ascii (map ascii_of_N [239; 191; 189]%N).

(** [strings.EqualFold(s, target)] for an ASCII target: besides ASCII case, only
    the long s (U+017F) and the Kelvin sign (U+212A) fold to an ASCII letter. *)
Definition long_s : string := string_of_list_ascii (map ascii_of_N [197; 191]%N).
Definition kelvin : string := string_of_list_ascii (map ascii_of_N [226; 132; 170]%N).
Fixpoint equal_fold (s target : string) : bool :=
  match target with
  | EmptyString => String.eqb s ""
  | String t target' =>
      match s with
      | EmptyString => false
      | String c s' =>
          if ascii_dec (ascii_lower c) (ascii_lower t) then equal_fold s' target'
          else if Ascii.eqb (ascii_lower t) "s" && has_prefix s long_s
               then equal_fold (str_drop 2 s) target'
          else if Ascii.eqb (ascii_lower t) "k" && has_prefix s kelvin
               then equal_fold (str_drop 3 s) target'
          else false
      end
  end.

Definition ascii_upper (c : ascii) : ascii :=
  let n := ascii_code c in
  if ((97 <=? n) && (n <=? 122))%Z then ascii_of_N (Z.to_N (n - 32)) else c.
Definition upper_ascii (s : string) : string := str_flat_map (fun c => String (ascii_upper c) "") s.

(** [strings.TrimRight(s, cutset)] for an ASCII cutset. *)
Fixpoint drop_while (p : ascii → bool) (l : list ascii) : list ascii :=
  match l with c :: t => if p c then drop_while p t else l | [] => [] end.
Definition trim_right (p : ascii → bool) (s : string) : string :=
  string_of_list_ascii (rev (drop_while p (rev (list_ascii_of_string s)))).

(** [strings.IndexByte] and the part before the first occurrence. *)
Fixpoint before_byte (c : ascii) (s : string) : string :=
  match s with
  | EmptyString => ""
  | String d s' => if ascii_dec d c then "" else String d (before_byte c s')
  end.

Lemma str_app_assoc (a b c : string) : (a +:+ b) +:+ c = a +:+ (b +:+ c).
Proof. induction a; simpl; congruence. Qed.
Lemma str_app_nil (a : string) : a +:+ "" = a.
Proof. induction a; simpl; congruence. Qed.
Lemma str_length_app (a b : string) : String.length (a +:+ b) = String.length a + String.length b.
Proof. induction a; simpl; congruence. Qed.
Lemma has_prefix_app (p s : string) : has_prefix (p +:+ s) p = true.
Proof.
  unfold has_prefix. induction p as [|c p IH]; simpl; [by destruct s|].
  by destruct (ascii_dec c c).
Qed.
Lemma has_prefix_inv (s p : string) : has_prefix s p = true → ∃ t, s = p +:+ t.
Proof.
  unfold has_prefix. revert s. induction p as [|c p IH]; intros s H.
  { by exists s. }
  destruct s as [|d s]; [discriminate H|]. simpl in H.
  destruct (ascii_dec c d) as [->|]; [|discriminate H].
  apply IH in H as [t ->]. by exists t.
Qed.
Lemma str_drop_app (p s : string) : str_drop (String.length p) (p +:+ s) = s.
Proof. by induction p. Qed.
Lemma str_take_drop n s : str_take n s +:+ str_drop n s = s.
Proof. revert s. induction n; intros [|c s]; simpl; congruence. Qed.
Lemma str_take_length n s : (n ≤ String.length s)%nat → String.length (str_take n s) = n.
Proof. revert s. induction n; intros [|c s]; simpl; intros; [lia..|]. rewrite IHn; lia. Qed.
Lemma str_drop_length n s : String.length (str_drop n s) = (String.length s - n)%nat.
Proof. revert s. induction n as [|n IH]; intros [|c s]; cbn; first [done | apply IH]. Qed.
Lemma trim_prefix_app (p s : string) : trim_prefix (p +:+ s) p = s.
Proof. unfold trim_prefix. by rewrite has_prefix_app, str_drop_app. Qed.

(** [str_gtb] is a strict total order. *)
Lemma str_compare_refl a : String.compare a a = Eq.
Proof. induction a as [|c a IH]; simpl; [done|]. unfold Ascii.compare. by rewrite N.compare_refl. Qed.

Lemma str_compare_lt_trans a b c :
  String.compare a b = Lt → String.compare b c = Lt → String.compare a c = Lt.
Proof.
  revert b c. induction a as [|x a IH]; intros [|y b] [|z c]; simpl; try done.
  unfold Ascii.compare.
  destruct (N.compare_spec (N_of_ascii x) (N_of_ascii y)) as [E1|L1|G1]; [| |done];
  destruct (N.compare_spec (N_of_ascii y) (N_of_ascii z)) as [E2|L2|G2]; try done.
  - rewrite E1, E2, N.compare_refl. eauto.
  - intros _ _. rewrite E1. by apply N.compare_lt_iff in L2 as ->.
  - intros _ _. rewrite <- E2. by apply N.compare_lt_iff in L1 as ->.
  - intros _ _. assert (L3 : (N_of_ascii x < N_of_ascii z)%N) by lia.
    by apply N.compare_lt_iff in L3 as ->.
Qed.

Lemma str_gtb_irrefl a : str_gtb a a = false.
Proof. unfold str_gtb. by rewrite str_compare_refl. Qed.

Lemma str_gtb_spec a b : str_gtb a b = true ↔ String.compare b a = Lt.
Proof.
  unfold str_gtb. rewrite (String.compare_antisym a b).
  destruct (String.compare b a); simpl; naive_solver.
Qed.

Lemma str_gtb_trans a b c : str_gtb a b = true → str_gtb b c = true → str_gtb a c = true.
Proof. rewrite !str_gtb_spec. intros H1 H2. eauto using str_compare_lt_trans. Qed.

Lemma str_gtb_asym a b : str_gtb a b = true → str_gtb b a = false.
Proof.
  intros H. destruct (str_gtb b a) eqn:E; [|done].
  pose proof (str_gtb_trans a b a H E) as Hc. by rewrite str_gtb_irrefl in Hc.
Qed.

Lemma str_gtb_total a b : str_gtb a b = false → str_gtb b a = false → a = b.
Proof.
  unfold str_gtb. rewrite (String.compare_antisym b a).
  destruct (String.compare a b) eqn:E; simpl; intros H1 H2; try done.
  by apply String.compare_eq_iff.
Qed.

Lemma str_gtb_ntrans a b c : str_gtb a b = false → str_gtb b c = false → str_gtb a c = false.
Proof.
  intros H1 H2. apply not_true_is_false. intros H3.
  destruct (str_gtb b a) eqn:E1.
  - pose proof (str_gtb_trans b a c E1 H3). congruence.
  - pose proof (str_gtb_total a b H1 E1) as ->. congruence.
Qed.

(** A lower-casing that is exact on ASCII, on which the witnesses evaluate. *)
Lemma lower_ascii_app a b : lower_ascii (a +:+ b) = lower_ascii a +:+ lower_ascii b.
Proof. induction a as [|c a IH]; [done|]. unfold lower_ascii in *. cbn. by rewrite IH. Qed.
Definition demo_unicode : GoUnicode :=
  {| to_lower := lower_ascii; to_lower_ascii s _ := eq_refl; to_lower_app_ascii a b _ := lower_ascii_app a b;
     to_lower_ascii_app a b _ := lower_ascii_app a b |}.

Lemma chars_app (a b : string) : list_ascii_of_string (a +:+ b) = list_ascii_of_string a ++ list_ascii_of_string b.
Proof. induction a as [|c a IH]; [done|]. cbn. by rewrite IH. Qed.

(** [strings.TrimSpace] leaves a string of visible ASCII characters as it is. *)
Definition visible (c : ascii) : bool := ((33 <=? ascii_code c) && (ascii_code c <=? 126))%Z.
Lemma find_space_none (p : string → string → bool) s :
  (∀ r, p s r = true → ∃ a b, s = a +:+ (r +:+ b)) →
  forallb visible (list_ascii_of_string s) = true → List.find (p s) space_runes = None.
Proof.
  intros Hp Hs. destruct (List.find (p s) space_runes) as [r|] eqn:E; [|done]. exfalso.
  apply List.find_some in E as [Hin Hr]. apply Hp in Hr as (a & b & ->).
  rewrite !chars_app, !forallb_app in Hs. apply andb_true_iff in Hs as [_ [Hs _]%andb_true_iff].
  assert (Hall : forallb (fun r => negb (forallb visible (list_ascii_of_string r))) space_runes = true) by (by vm_compute).
  rewrite forallb_forall in Hall. specialize (Hall r Hin). by rewrite Hs in Hall.
Qed.
Lemma trim_space_visible s : forallb visible (list_ascii_of_string s) = true → trim_space s = s.
Proof.
  intros Hs. unfold trim_space.
  assert (Hl : trim_left_fuel (String.length s) s = s).
  { destruct (String.length s); [done|]. cbn [trim_left_fuel]. rewrite find_space_none; [done| |done].
    intros r (t & ->)%has_prefix_inv. by exists "", t. }
  rewrite Hl. destruct (String.length s) eqn:E; [done|]. cbn [trim_right_fuel]. rewrite find_space_none; [done| |done].
  intros r Hr. unfold has_suffix in Hr. apply andb_true_iff in Hr as [_ Hr%String.eqb_eq].
  exists (str_take (String.length s - String.length r) s), "". rewrite str_app_nil.
  rewrite <- (str_take_drop (String.length s - String.length r) s) at 1. by rewrite Hr.
Qed.
