(* ===== verification/GoHash.v ===== *)
(** The hash functions of the Go standard library the program calls
    (crypto/sha256, crypto/hmac, encoding/hex), executable, with
    the facts the other files use about digest lengths. *)
From S2P Require Export GoStr.
Local Open Scope N_scope.

Definition w32 (x : N) : N := N.land x 4294967295.
Definition add32 (x y : N) : N := w32 (x + y).
Definition rotr (k x : N) : N := N.lor (N.shiftr x k) (w32 (N.shiftl x (32 - k))).
Definition not32 (x : N) : N := N.lxor x 4294967295.

Module Sha256.
Definition bs0 x := N.lxor (rotr 2 x) (N.lxor (rotr 13 x) (rotr 22 x)).
Definition bs1 x := N.lxor (rotr 6 x) (N.lxor (rotr 11 x) (rotr 25 x)).
Definition ss0 x := N.lxor (rotr 7 x) (N.lxor (rotr 18 x) (N.shiftr x 3)).
Definition ss1 x := N.lxor (rotr 17 x) (N.lxor (rotr 19 x) (N.shiftr x 10)).

(** The round constants, in decimal. *)
Definition round_consts : list N :=
  [1116352408; 1899447441; 3049323471; 3921009573; 961987163; 1508970993; 2453635748; 2870763221;
   3624381080; 310598401; 607225278; 1426881987; 1925078388; 2162078206; 2614888103; 3248222580;
   3835390401; 4022224774; 264347078; 604807628; 770255983; 1249150122; 1555081692; 1996064986;
   2554220882; 2821834349; 2952996808; 3210313671; 3336571891; 3584528711; 113926993; 338241895;
   666307205; 773529912; 1294757372; 1396182291; 1695183700; 1986661051; 2177026350; 2456956037;
   2730485921; 2820302411; 3259730800; 3345764771; 3516065817; 3600352804; 4094571909; 275423344;
   430227734; 506948616; 659060556; 883997877; 958139571; 1322822218; 1537002063; 1747873779;
   1955562222; 2024104815; 2227730452; 2361852424; 2428436474; 2756734187; 3204031479; 3329325298].

Record hst := HSt { va : N; vb : N; vc : N; vd : N; ve : N; vf : N; vg : N; vh : N }.
Definition init : hst :=
  HSt 1779033703 3144134277 1013904242 2773480762 1359893119 2600822924 528734635 1541459225.

(** One round; [kw] is the round constant plus the schedule word. *)
Definition round (s : hst) (kw : N) : hst :=
  let ch := N.lxor (N.land (ve s) (vf s)) (N.land (not32 (ve s)) (vg s)) in
  let maj := N.lxor (N.land (va s) (vb s)) (N.lxor (N.land (va s) (vc s)) (N.land (vb s) (vc s))) in
  let t1 := w32 (vh s + bs1 (ve s) + ch + kw) in
  HSt (add32 t1 (add32 (bs0 (va s)) maj)) (va s) (vb s) (vc s) (add32 (vd s) t1) (ve s) (vf s) (vg s).

(** The message schedule as a sliding window of sixteen words. *)
Fixpoint schedule (n : nat) (win : list N) : list N :=
  match n, win with
  | S n', w0 :: rest =>
      let x := w32 (ss1 (nth 14 win 0) + nth 9 win 0 + ss0 (nth 1 win 0) + w0) in
      w0 :: schedule n' (rest ++ [x])
  | _, _ => []
  end.

Definition block (s : hst) (win : list N) : hst :=
  let r := fold_left round (zip_with add32 round_consts (schedule 64 win)) s in
  HSt (add32 (va s) (va r)) (add32 (vb s) (vb r)) (add32 (vc s) (vc r)) (add32 (vd s) (vd r))
      (add32 (ve s) (ve r)) (add32 (vf s) (vf r)) (add32 (vg s) (vg r)) (add32 (vh s) (vh r)).

Fixpoint be_words (l : bytes) : list N :=
  match l with
  | b0 :: b1 :: b2 :: b3 :: t =>
      (Byte.to_N b0 * 16777216 + Byte.to_N b1 * 65536 + Byte.to_N b2 * 256 + Byte.to_N b3) :: be_words t
  | _ => []
  end.

Definition byte_of (n : N) : Byte.byte :=
  match Byte.of_N (N.land n 255) with Some b => b | None => Byte.x00 end.
Definition be_bytes (k : nat) (n : N) : bytes :=
  map (fun i => byte_of (N.shiftr n (8 * N.of_nat i))) (rev (seq 0 k)).

Definition pad (m : bytes) : bytes :=
  let len := length m in
  let zeros := ((119 - len mod 64) mod 64)%nat in
  m ++ Byte.x80 :: repeat Byte.x00 zeros ++ be_bytes 8 (8 * N.of_nat len).

Fixpoint blocks (fuel : nat) (s : hst) (ws : list N) : hst :=
  match fuel with
  | O => s
  | S f => match ws with [] => s | _ => blocks f (block s (take 16 ws)) (drop 16 ws) end
  end.

Definition digest (s : hst) : bytes :=
  flat_map (be_bytes 4) [va s; vb s; vc s; vd s; ve s; vf s; vg s; vh s].
End Sha256.

(** [sha256.Sum256]. *)
Definition sha256 (m : bytes) : bytes :=
  let ws := Sha256.be_words (Sha256.pad m) in
  Sha256.digest (Sha256.blocks (length ws) Sha256.init ws).

Definition xor_byte (a b : Byte.byte) : Byte.byte := Sha256.byte_of (N.lxor (Byte.to_N a) (Byte.to_N b)).

(** [hmac.New(sha256.New, key)] over [data]. *)
Definition hmac_sha256 (key data : bytes) : bytes :=
  let k0 := if (64 <? length key)%nat then sha256 key else key in
  let k := k0 ++ repeat Byte.x00 (64 - length k0) in
  sha256 (map (xor_byte Byte.x5c) k ++ sha256 (map (xor_byte Byte.x36) k ++ data)).

(** [hex.EncodeToString]. *)
Definition hex_digit (n : N) : ascii := ascii_of_N (if n <? 10 then 48 + n else 87 + n).
Definition hex_encode (l : bytes) : string :=
  string_of_list_ascii (flat_map (fun b => let n := Byte.to_N b in
    [hex_digit (N.shiftr n 4); hex_digit (N.land n 15)]) l).

Lemma be_bytes_length k n : length (Sha256.be_bytes k n) = k.
Proof. unfold Sha256.be_bytes. by rewrite length_map, length_rev, length_seq. Qed.

Lemma sha256_length m : length (sha256 m) = 32%nat.
Proof. unfold sha256, Sha256.digest. cbn [flat_map]. by rewrite !length_app, !be_bytes_length. Qed.

Lemma hmac_length k m : length (hmac_sha256 k m) = 32%nat.
Proof. apply sha256_length. Qed.

Lemma string_length_of_ascii l : String.length (string_of_list_ascii l) = length l.
Proof. induction l; simpl; congruence. Qed.

Lemma hex_encode_length l : String.length (hex_encode l) = (2 * length l)%nat.
Proof.
  unfold hex_encode. rewrite string_length_of_ascii.
  induction l; simpl; [done|]. simpl in IHl. lia.
Qed.

(** FIPS 180-4 and RFC 4231 test vectors. *)
Example sha256_abc : hex_encode (sha256 (bytes_of "abc")) =
  "ba7816bf8f01cfea414140de5dae2223b00361a396177a9cb410ff61f20015ad".
Proof. vm_compute. reflexivity. Qed.
Example sha256_two_blocks :
  hex_encode (sha256 (bytes_of "abcdbcdecdefdefgefghfghighijhijkijkljklmklmnlmnomnopnopq")) =
  "248d6a61d20638b8e5c026930c3e6039a33ce45964ff2167f6ecedd419db06c1".
Proof. vm_compute. reflexivity. Qed.
Example hmac_jefe : hex_encode (hmac_sha256 (bytes_of "Jefe") (bytes_of "what do ya want for nothing?")) =
  "5bdcc146bf60754e6a042426089575c75a003f089d2739839dec58b964ec3843".
Proof. vm_compute. reflexivity. Qed.
