(* ===== verification/GoTime.v ===== *)
(** [time.Parse(time.RFC3339Nano, s)], [time.Parse(time.RFC3339, s)],
    [t.Format] in the layouts the program uses, [time.ParseDuration] and [UnixNano].  An instant is its
    distance from the Unix epoch in nanoseconds, an unbounded [Z] (Go's [Time] has
    the range for it); only [UnixNano] narrows to an [int64]. *)
From Stdlib Require Import Floats.SpecFloat.
From S2P Require Export GoStr.
Local Open Scope Z_scope.

Definition nano : Z := 1000000000.

(** Civil calendar (proleptic Gregorian), years from March. *)
Definition leap (y : Z) : bool := (y mod 4 =? 0) && (negb (y mod 100 =? 0) || (y mod 400 =? 0)).
Definition days_in (m y : Z) : Z :=
  if m =? 2 then (if leap y then 29 else 28)
  else if (m =? 4) || (m =? 6) || (m =? 9) || (m =? 11) then 30 else 31.
Definition days_from_civil (y m d : Z) : Z :=
  let y' := if m <=? 2 then y - 1 else y in
  let era := y' / 400 in
  let yoe := y' - era * 400 in
  let doy := (153 * (if 2 <? m then m - 3 else m + 9) + 2) / 5 + d - 1 in
  era * 146097 + (yoe * 365 + yoe / 4 - yoe / 100 + doy) - 719468.
Definition civil_from_days (z0 : Z) : Z * Z * Z :=
  let z := z0 + 719468 in
  let era := z / 146097 in
  let doe := z - era * 146097 in
  let yoe := (doe - doe / 1460 + doe / 36524 - doe / 146096) / 365 in
  let doy := doe - (365 * yoe + yoe / 4 - yoe / 100) in
  let mp := (5 * doy + 2) / 153 in
  let m := if mp <? 10 then mp + 3 else mp - 9 in
  ((if m <=? 2 then yoe + era * 400 + 1 else yoe + era * 400), m, doy - (153 * mp + 2) / 5 + 1).

(** Digits of a string as byte codes. *)
Definition codes (s : string) : list Z := map ascii_code (list_ascii_of_string s).
Definition is_digit (c : Z) : bool := (48 <=? c) && (c <=? 57).
Definition dec_digits (l : list Z) : Z := fold_left (fun a c => a * 10 + (c - 48)) l 0.

(** [getnum(s, fixed)]: one or two digits, exactly two when [fixed]. *)
Definition getnum (fixed : bool) (l : list Z) : option (Z * list Z) :=
  match l with
  | a :: t =>
      if is_digit a then
        match t with
        | b :: t' => if is_digit b then Some ((a - 48) * 10 + (b - 48), t')
                     else if fixed then None else Some (a - 48, t)
        | [] => if fixed then None else Some (a - 48, t)
        end
      else None
  | [] => None
  end.
Definition lit (c : Z) (l : list Z) : option (list Z) :=
  match l with a :: t => if a =? c then Some t else None | [] => None end.
Definition getyear (l : list Z) : option (Z * list Z) :=
  match l with
  | a :: b :: c :: d :: t =>
      if forallb is_digit [a; b; c; d] then Some (dec_digits [a; b; c; d], t) else None
  | _ => None
  end.
Fixpoint span_digits (l : list Z) : list Z * list Z :=
  match l with
  | a :: t => if is_digit a then let '(p, q) := span_digits t in (a :: p, q) else ([], l)
  | [] => ([], [])
  end.
(** The optional fraction: [.] or [,] and any number of digits, the first nine
    kept. *)
Definition getfrac (l : list Z) : Z * list Z :=
  match l with
  | p :: d :: t =>
      if ((p =? 46) || (p =? 44)) && is_digit d then
        let '(ds, rest) := span_digits (d :: t) in
        let ds9 := take 9 ds in
        (dec_digits ds9 * 10 ^ (9 - Z.of_nat (length ds9)), rest)
      else (0, l)
  | _ => (0, l)
  end.
(** ["Z07:00"]: [Z], or a signed hh:mm with hh up to 24 and mm up to 60; the
    offset in seconds. *)
Definition getzone (l : list Z) : option (Z * list Z) :=
  match l with
  | 90 :: t => Some (0, t)
  | s :: h1 :: h2 :: col :: m1 :: m2 :: t =>
      if negb (col =? 58) then None else
      match getnum true [h1; h2], getnum true [m1; m2] with
      | Some (hh, _), Some (mm, _) =>
          if (24 <? hh) || (60 <? mm) then None
          else if s =? 43 then Some ((hh * 60 + mm) * 60, t)
          else if s =? 45 then Some (- ((hh * 60 + mm) * 60), t)
          else None
      | _, _ => None
      end
  | _ => None
  end.

(** [time.Parse] with layout [RFC3339Nano] or [RFC3339]; both accept an optional
    fraction. *)
Definition parse_rfc3339 (s : string) : option Z :=
  '(y, l) ← getyear (codes s); l ← lit 45 l;
  '(mo, l) ← getnum true l; l ← lit 45 l;
  '(d, l) ← getnum true l; l ← lit 84 l;
  '(h, l) ← getnum false l; l ← lit 58 l;
  '(mi, l) ← getnum true l; l ← lit 58 l;
  '(sec, l) ← getnum true l;
  let '(ns, l) := getfrac l in
  '(off, l) ← getzone l;
  match l with
  | [] =>
      if (1 <=? mo) && (mo <=? 12) && (h <? 24) && (mi <? 60) && (sec <? 60) &&
         (1 <=? d) && (d <=? days_in mo y)
      then Some ((days_from_civil y mo d * 86400 + h * 3600 + mi * 60 + sec - off) * nano + ns)
      else None
  | _ => None
  end.

(** [t.UnixNano()]: the nanoseconds as an [int64]. *)
Definition unix_nano (t : Z) : Z := wrap64 t.

(** Zero-padded decimals, [appendInt(b, x, width)]. *)
Fixpoint zeros (n : nat) : string := match n with O => "" | S n' => String "0" (zeros n') end.
Definition pad_int (w : nat) (x : Z) : string :=
  let d := itoa (Z.abs x) in
  (if x <? 0 then "-" else "") +:+ zeros (w - String.length d) +:+ d.

Definition clock_of (t : Z) : (Z * Z * Z) * (Z * Z * Z) * Z :=
  let secs := t / nano in
  let days := secs / 86400 in
  let sod := secs mod 86400 in
  (civil_from_days days, (sod / 3600, (sod / 60) mod 60, sod mod 60), t mod nano).

(** [t.UTC().Format("20060102T150405Z")]. *)
Definition format_stamp (t : Z) : string :=
  let '((y, mo, d), (h, mi, s), _) := clock_of t in
  str_concat [pad_int 4 y; pad_int 2 mo; pad_int 2 d; "T"; pad_int 2 h; pad_int 2 mi; pad_int 2 s; "Z"].

(** [t.UTC().Format(time.RFC3339)]. *)
Definition format_rfc3339 (t : Z) : string :=
  let '((y, mo, d), (h, mi, s), _) := clock_of t in
  str_concat [pad_int 4 y; "-"; pad_int 2 mo; "-"; pad_int 2 d; "T";
              pad_int 2 h; ":"; pad_int 2 mi; ":"; pad_int 2 s; "Z"].

(** The fraction of [RFC3339Nano]: nine digits with trailing zeros removed, and no
    point when nothing is left. *)
Fixpoint drop_zeros (l : list ascii) : list ascii :=
  match l with c :: t => if ascii_dec c "0" then drop_zeros t else l | [] => [] end.
Definition frac_nano (ns : Z) : string :=
  match drop_zeros (rev (list_ascii_of_string (pad_int 9 ns))) with
  | [] => ""
  | l => String "." (string_of_list_ascii (rev l))
  end.

(** [t.UTC().Format(time.RFC3339Nano)]. *)
Definition format_rfc3339nano (t : Z) : string :=
  let '((y, mo, d), (h, mi, s), ns) := clock_of t in
  str_concat [pad_int 4 y; "-"; pad_int 2 mo; "-"; pad_int 2 d; "T";
              pad_int 2 h; ":"; pad_int 2 mi; ":"; pad_int 2 s; frac_nano ns; "Z"].

Example parse_epoch : parse_rfc3339 "1970-01-01T00:00:00Z" = Some 0.
Proof. vm_compute. reflexivity. Qed.
Example parse_offset : parse_rfc3339 "2024-02-29T23:59:59.5+01:30" = Some (1709245799500000000).
Proof. vm_compute. reflexivity. Qed.
Example parse_bad_day : parse_rfc3339 "2023-02-29T00:00:00Z" = None.
Proof. vm_compute. reflexivity. Qed.
Example format_example : format_rfc3339nano 1709245799500000000 = "2024-02-29T22:29:59.5Z".
Proof. vm_compute. reflexivity. Qed.

(** ** Durations

    [time.ParseDuration]: a signed sequence of decimal numbers with units.  A
    [Duration] is an int64 count of nanoseconds; the sums are kept in a uint64 and
    refused past 2^63, and a fraction goes through IEEE 754 doubles ([SpecFloat]). *)

(** ** Doubles *)

Definition f64_of_Z (z : Z) : spec_float := binary_normalize 53 1024 z 0 false.
Definition f64_mul : spec_float → spec_float → spec_float := SFmul 53 1024.
Definition f64_div : spec_float → spec_float → spec_float := SFdiv 53 1024.
(** The conversion of a float64 that is not negative and fits to a uint64. *)
Definition f64_trunc (f : spec_float) : Z :=
  match f with
  | S754_finite false m e => Z.shiftl (Z.pos m) e
  | _ => 0
  end.

(** ** The parser *)

Definition two63 : Z := 2 ^ 63.

(** [leadingInt]: [None] when the number passes 2^63. *)
Fixpoint leadingInt (x : Z) (l : list Z) : option (Z * list Z) :=
  match l with
  | c :: t =>
      if is_digit c then
        if two63 / 10 <? x then None
        else let x' := x * 10 + (c - 48) in if two63 <? x' then None else leadingInt x' t
      else Some (x, l)
  | [] => Some (x, [])
  end.
(** [leadingFraction]: digits past what fits are skipped. *)
Fixpoint leadingFraction (x : Z) (scale : spec_float) (overflow : bool) (l : list Z) : Z * spec_float * list Z :=
  match l with
  | c :: t =>
      if is_digit c then
        if overflow then leadingFraction x scale true t
        else if (two63 - 1) / 10 <? x then leadingFraction x scale true t
        else
          let y := x * 10 + (c - 48) in
          if two63 <? y then leadingFraction x scale true t
          else leadingFraction y (f64_mul scale (f64_of_Z 10)) false t
      else (x, scale, l)
  | [] => (x, scale, [])
  end.

Definition time_Hour : Z := 3600 * nano.
(** [unitMap]: "us" is written with either of the two signs for micro. *)
Definition unit_of (u : string) : option Z :=
  if String.eqb u "ns" then Some 1
  else if String.eqb u "us" || String.eqb u "µs" || String.eqb u "μs" then Some 1000
  else if String.eqb u "ms" then Some 1000000
  else if String.eqb u "s" then Some nano
  else if String.eqb u "m" then Some (60 * nano)
  else if String.eqb u "h" then Some time_Hour
  else None.

Definition unit_byte (c : Z) : bool := negb ((c =? 46) || is_digit c).
Fixpoint span_unit (l : list Z) : list Z * list Z :=
  match l with
  | c :: t => if unit_byte c then let '(u, r) := span_unit t in (c :: u, r) else ([], l)
  | [] => ([], [])
  end.
Definition of_codes (l : list Z) : string := string_of_list_ascii (map (fun c => ascii_of_N (Z.to_N c)) l).

(** One number with its unit: its value and the rest. *)
Definition duration_part (l : list Z) : option (Z * list Z) :=
  match l with
  | c :: _ =>
      if negb ((c =? 46) || is_digit c) then None
      else
        '(v, l1) ← leadingInt 0 l;
        let pre := negb (Nat.eqb (length l1) (length l)) in
        let '(f, scale, l2, post) :=
          match l1 with
          | 46 :: t => let '(f, scale, r) := leadingFraction 0 (f64_of_Z 1) false t in (f, scale, r, negb (Nat.eqb (length r) (length t)))
          | _ => (0, f64_of_Z 1, l1, false)
          end in
        if negb pre && negb post then None
        else
          let '(u, l3) := span_unit l2 in
          if bool_decide (u = []) then None
          else
            unit ← unit_of (of_codes u);
            if two63 / unit <? v then None
            else
              let v := v * unit in
              if f <=? 0 then Some (v, l3)
              else
                let v := v + f64_trunc (f64_mul (f64_of_Z f) (f64_div (f64_of_Z unit) scale)) in
                if two63 <? v then None else Some (v, l3)
  | [] => None
  end.
Fixpoint duration_sum (fuel : nat) (d : Z) (l : list Z) : option Z :=
  match l with
  | [] => Some d
  | _ =>
      match fuel with
      | O => None
      | S fuel => '(v, r) ← duration_part l; let d := d + v in if two63 <? d then None else duration_sum fuel d r
      end
  end.

(** [time.ParseDuration]; a part takes at least two bytes, so the length is enough. *)
Definition ParseDuration (s : string) : option Z :=
  let l := codes s in
  let '(neg, l) := match l with c :: t => if (c =? 45) || (c =? 43) then (c =? 45, t) else (false, l) | [] => (false, l) end in
  if bool_decide (l = [48]) then Some 0
  else if bool_decide (l = []) then None
  else
    d ← duration_sum (length l) 0 l;
    if neg : bool then Some (wrap64 (- d)) else if two63 - 1 <? d then None else Some d.

(** ** Examples of the documentation, and its tests *)

Example parse_hours : ParseDuration "1h15m30.918273645s" = Some 4530918273645.
Proof. vm_compute. reflexivity. Qed.
Example parse_half : ParseDuration "-1.5h" = Some (- 5400 * nano).
Proof. vm_compute. reflexivity. Qed.
Example parse_micro : ParseDuration "1µs" = Some 1000 ∧ ParseDuration "+.5s" = Some 500000000 ∧ ParseDuration "0" = Some 0.
Proof. vm_compute. done. Qed.
Example parse_largest : ParseDuration "9223372036854775807ns" = Some (2 ^ 63 - 1) ∧ ParseDuration "9223372036854775808ns" = None ∧
  ParseDuration "-9223372036854775808ns" = Some (- 2 ^ 63).
Proof. vm_compute. done. Qed.
Example parse_fraction : ParseDuration "0.3333333333333333333h" = Some (20 * 60 * nano) ∧ ParseDuration "0.100000000000000000000h" = Some (6 * 60 * nano).
Proof. vm_compute. done. Qed.
Example parse_refused : ParseDuration "3" = None ∧ ParseDuration "." = None ∧ ParseDuration "3000000h" = None ∧ ParseDuration "1x" = None ∧ ParseDuration "" = None.
Proof. vm_compute. done. Qed.
