(* ===== verification/GoPath.v ===== *)
(** The package [path] of the Go standard library: [Clean], [Join], [Split],
    [Base], [Dir], and the segment view ([strings.Split(p, "/")]) the facts about
    them are stated on. *)
From S2P Require Export GoStr.

(** [strings.Split(s, "/")]. *)
Fixpoint split_slash (s : string) : list string :=
  match s with
  | EmptyString => [""]
  | String c s' =>
      if ascii_dec c slash then "" :: split_slash s'
      else match split_slash s' with
           | h :: t => String c h :: t
           | [] => [String c ""]
           end
  end.
Definition join_slash (l : list string) : string := String.concat "/" l.

Fixpoint no_slash (s : string) : bool :=
  match s with
  | EmptyString => true
  | String c s' => if ascii_dec c slash then false else no_slash s'
  end.

(** One element of [path.Clean]'s scan; [out] is the output, last element first. *)
Definition clean_seg (rooted : bool) (out : list string) (seg : string) : list string :=
  if String.eqb seg "" || String.eqb seg "." then out
  else if String.eqb seg ".." then
    match out with
    | t :: out' => if String.eqb t ".." then seg :: out else out'
    | [] => if rooted then [] else [seg]
    end
  else seg :: out.
Definition clean_segs (rooted : bool) (l : list string) : list string :=
  rev (fold_left (clean_seg rooted) l []).

Definition path_is_abs (s : string) : bool := has_prefix s "/".
Definition path_clean (s : string) : string :=
  let out := clean_segs (path_is_abs s) (split_slash s) in
  if path_is_abs s then String slash (join_slash out)
  else match out with [] => "." | _ => join_slash out end.
Definition path_join (l : list string) : string :=
  match List.filter (fun s => negb (String.eqb s "")) l with
  | [] => ""
  | l' => path_clean (join_slash l')
  end.

(** [path.Split]: everything up to and including the last slash, and the rest. *)
Fixpoint path_split (s : string) : string * string :=
  match s with
  | EmptyString => ("", "")
  | String c s' =>
      let '(d, f) := path_split s' in
      if String.eqb d "" then
        if ascii_dec c slash then (String c "", f) else ("", String c f)
      else (String c d, f)
  end.
Fixpoint trim_right_slashes (l : list ascii) : list ascii :=
  match l with c :: t => if ascii_dec c slash then trim_right_slashes t else l | [] => [] end.
Definition rtrim_slash (s : string) : string :=
  string_of_list_ascii (rev (trim_right_slashes (rev (list_ascii_of_string s)))).
Definition ltrim_slash (s : string) : string :=
  string_of_list_ascii (trim_right_slashes (list_ascii_of_string s)).
(** [strings.Trim(s, "/")]. *)
Definition trim_slash (s : string) : string := rtrim_slash (ltrim_slash s).
Definition path_base (s : string) : string :=
  if String.eqb s "" then "." else
  let s' := rtrim_slash s in
  if String.eqb s' "" then "/" else snd (path_split s').
Definition path_dir (s : string) : string := path_clean (fst (path_split s)).

(** A segment that a cleaned relative path may hold. *)
Definition plain_seg (s : string) : Prop := s ≠ "" ∧ s ≠ "." ∧ s ≠ ".." ∧ no_slash s = true.

Lemma split_slash_nonnil s : split_slash s ≠ [].
Proof. destruct s as [|c s]; simpl; [done|]. destruct (ascii_dec _ _); [done|]. by destruct (split_slash s). Qed.

Lemma split_slash_no_slash s : Forall (fun x => no_slash x = true) (split_slash s).
Proof.
  induction s as [|c s IH]; simpl; [by constructor|].
  destruct (ascii_dec c slash); [by constructor|].
  destruct (split_slash s) as [|h t]; simpl.
  - constructor; [|done]. simpl. by destruct (ascii_dec c slash).
  - inversion IH; subst. constructor; [|done]. simpl. by destruct (ascii_dec c slash).
Qed.

Lemma split_slash_single s : no_slash s = true → split_slash s = [s].
Proof.
  induction s as [|c s IH]; simpl; [done|].
  destruct (ascii_dec c slash); [done|]. intros H. by rewrite IH.
Qed.

Lemma split_slash_app a b :
  no_slash a = true → split_slash (a +:+ String slash b) = a :: split_slash b.
Proof.
  induction a as [|c a IH]; simpl; intros H; [done|].
  destruct (ascii_dec c slash); [done|]. by rewrite IH.
Qed.

Lemma join_slash_cons a b l : join_slash (a :: b :: l) = a +:+ String slash (join_slash (b :: l)).
Proof. done. Qed.

Lemma split_join l : l ≠ [] → Forall (fun x => no_slash x = true) l → split_slash (join_slash l) = l.
Proof.
  intros Hne H. induction H as [|a l Ha Hl IH]; [done|].
  destruct l as [|b l]; [by apply split_slash_single|].
  rewrite join_slash_cons, split_slash_app by done. f_equal. by apply IH.
Qed.

Lemma clean_seg_plain out seg :
  Forall plain_seg out → plain_seg seg → clean_seg false out seg = seg :: out.
Proof.
  intros _ (H1 & H2 & H3 & _). unfold clean_seg.
  apply String.eqb_neq in H1, H2, H3. by rewrite H1, H2, H3.
Qed.

Lemma clean_segs_plain l : Forall plain_seg l → clean_segs false l = l.
Proof.
  intros H. unfold clean_segs.
  enough (∀ out, fold_left (clean_seg false) l out = rev l ++ out) as ->.
  { by rewrite app_nil_r, rev_involutive. }
  induction H as [|x l Hx Hl IH]; intros out; simpl; [done|].
  rewrite IH. destruct Hx as (H1 & H2 & H3 & _). apply String.eqb_neq in H1, H2, H3.
  unfold clean_seg. rewrite H1, H2, H3. simpl. by rewrite <- app_assoc.
Qed.

(** The reversed output of an unrooted clean: plain segments, then parent segments only. *)
Definition out_shape (out : list string) : Prop :=
  ∃ a n, out = a ++ repeat ".." n ∧ Forall plain_seg a.

Lemma clean_seg_shape out seg :
  no_slash seg = true → out_shape out → out_shape (clean_seg false out seg).
Proof.
  intros Hs (a & n & -> & Ha). unfold clean_seg.
  destruct (String.eqb_spec seg "") as [->|H1]; [by exists a, n|].
  destruct (String.eqb_spec seg ".") as [->|H2]; [by exists a, n|].
  destruct (String.eqb_spec seg "..") as [->|H3]; simpl.
  - destruct a as [|x a]; simpl.
    + destruct n as [|n]; simpl; [by exists [], 1|]. by exists [], (S (S n)).
    + inversion Ha as [|?? (?&?&Hx&?) Ha']; subst. apply String.eqb_neq in Hx. rewrite Hx.
      by exists a, n.
  - exists (seg :: a), n. split; [done|]. by constructor.
Qed.

Lemma clean_segs_shape l :
  Forall (fun x => no_slash x = true) l → out_shape (rev (clean_segs false l)).
Proof.
  intros H. unfold clean_segs. rewrite rev_involutive.
  assert (Hi : out_shape []) by (by exists [], 0). revert Hi. generalize (@nil string).
  induction H as [|x l Hx Hl IH]; intros out Hi; simpl; [done|]. by apply IH, clean_seg_shape.
Qed.

Lemma split_slash_concat_length s : split_slash s = [""] → s = "".
Proof.
  destruct s as [|c s]; simpl; [done|]. destruct (ascii_dec c slash).
  - intros [= H]. by apply split_slash_nonnil in H.
  - destruct (split_slash s); discriminate.
Qed.

Create HintDb gopath.
#[export] Hint Resolve split_slash_no_slash split_slash_nonnil : gopath.
