(* ===== verification/GoPathFacts.v ===== *)
(** The last element of a joined path, and names without a slash. *)
From S2P Require Export GoPath GoHash.

Lemma split_slash_snoc a x : no_slash x = true →
  ∃ l, l ≠ [] ∧ split_slash (a +:+ String slash x) = l ++ [x] ∧ l = split_slash a.
Proof.
  intros Hx. exists (split_slash a). split; [apply split_slash_nonnil|]. split; [|done].
  induction a as [|c a IH]; [cbn; by rewrite split_slash_single|].
  change (String c a +:+ String slash x) with (String c (a +:+ String slash x)). cbn [split_slash].
  rewrite IH. destruct (ascii_dec c slash); [done|].
  pose proof (split_slash_nonnil a). by destruct (split_slash a).
Qed.

Lemma join_slash_cat l l' : l ≠ [] → l' ≠ [] → join_slash (l ++ l') = join_slash l +:+ String slash (join_slash l').
Proof.
  intros Hl Hl'. induction l as [|a l IH]; [done|]. destruct l as [|b l]; [by destruct l'|].
  change ((a :: b :: l) ++ l') with (a :: (b :: l) ++ l').
  change (join_slash (a :: (b :: l) ++ l')) with (a +:+ String slash (join_slash ((b :: l) ++ l'))).
  rewrite IH by done. by rewrite join_slash_cons, str_app_assoc.
Qed.

Lemma join_slash_snoc l x : l ≠ [] → join_slash (l ++ [x]) = join_slash l +:+ String slash x.
Proof.
  induction l as [|a l IH]; [done|]. intros _. destruct l as [|b l]; [done|].
  change ((a :: b :: l) ++ [x]) with (a :: (b :: l) ++ [x]).
  change (join_slash (a :: (b :: l) ++ [x])) with (a +:+ String slash (join_slash ((b :: l) ++ [x]))).
  rewrite IH by done. by rewrite join_slash_cons, str_app_assoc.
Qed.

Lemma clean_seg_no_slash rooted out seg :
  Forall (fun x => no_slash x = true) out → no_slash seg = true →
  Forall (fun x => no_slash x = true) (clean_seg rooted out seg).
Proof.
  intros Ho Hs. unfold clean_seg. destruct (_ || _); [done|]. destruct (String.eqb seg ".."); [|by constructor].
  destruct out as [|t out']; [by destruct rooted; repeat constructor|].
  inversion Ho; subst. destruct (String.eqb t ".."); [by constructor|done].
Qed.

Lemma clean_segs_no_slash rooted l :
  Forall (fun x => no_slash x = true) l → Forall (fun x => no_slash x = true) (clean_segs rooted l).
Proof.
  intros Hl. unfold clean_segs. apply Forall_rev.
  assert (Hi : Forall (fun x => no_slash x = true) (@nil string)) by constructor. revert Hi. generalize (@nil string).
  induction Hl as [|x l Hx Hl IH]; intros out Hi; [done|]. cbn [fold_left]. by apply IH, clean_seg_no_slash.
Qed.

Lemma clean_segs_snoc rooted l x : plain_seg x → clean_segs rooted (l ++ [x]) = clean_segs rooted l ++ [x].
Proof.
  intros (H1 & H2 & H3 & _). unfold clean_segs. rewrite fold_left_app. cbn [fold_left]. unfold clean_seg at 1.
  apply String.eqb_neq in H1, H2, H3. by rewrite H1, H2, H3.
Qed.

Lemma last_split s x : List.last (split_slash s) "" = x → ∃ l, split_slash s = l ++ [x].
Proof. intros <-. exists (removelast (split_slash s)). apply app_removelast_last, split_slash_nonnil. Qed.

Lemma clean_last s x : plain_seg x → List.last (split_slash s) "" = x →
  List.last (split_slash (path_clean s)) "" = x.
Proof.
  intros Hx (l & Hl)%last_split. unfold path_clean. rewrite Hl, clean_segs_snoc by done.
  set (r := path_is_abs s).
  assert (Hns : Forall (fun y => no_slash y = true) (clean_segs r l ++ [x])).
  { apply Forall_app. split; [|constructor; [apply Hx|done]]. apply clean_segs_no_slash.
    pose proof (split_slash_no_slash s) as Ha. rewrite Hl in Ha. by apply Forall_app in Ha as [? _]. }
  assert (Hne : clean_segs r l ++ [x] ≠ []) by (intros E; by apply app_eq_nil in E as [_ ?]).
  pose proof (split_join _ Hne Hns) as Hj. destruct r.
  - change (split_slash (String slash (join_slash (clean_segs true l ++ [x]))))
      with ("" :: split_slash (join_slash (clean_segs true l ++ [x]))). rewrite Hj. by rewrite app_comm_cons, last_last.
  - destruct (clean_segs false l ++ [x]) as [|y m] eqn:E; [done|]. rewrite Hj, <- E. apply last_last.
Qed.

Lemma split_clean_snoc a x : plain_seg x → List.last (split_slash (path_clean (a +:+ String slash x))) "" = x.
Proof.
  intros Hx. apply clean_last; [done|]. destruct (split_slash_snoc a x) as (l & _ & -> & _); [apply Hx|]. apply last_last.
Qed.

(** The last name of a joined path is the last element joined, when it is a plain
    name. *)
Lemma path_join_last l x : l ≠ [] → Forall (fun s => s ≠ "") l → plain_seg x →
  List.last (split_slash (path_join (l ++ [x]))) "" = x.
Proof.
  intros Hl Hne Hx. unfold path_join.
  assert (Hf : List.filter (fun s => negb (String.eqb s "")) (l ++ [x]) = l ++ [x]).
  { rewrite List.filter_app. f_equal.
    - clear Hl. induction Hne as [|y l Hy _ IH]; [done|]. cbn. apply String.eqb_neq in Hy. by rewrite Hy; cbn; rewrite IH.
    - cbn. destruct Hx as [Hx _]. apply String.eqb_neq in Hx. by rewrite Hx. }
  rewrite Hf. destruct (l ++ [x]) as [|y m] eqn:E; [by apply app_eq_nil in E as [_ ?]|].
  rewrite <- E, join_slash_snoc by done. by apply split_clean_snoc.
Qed.

(** The same when the first element may be empty, as an unset directory is. *)
Lemma path_join3_last a d x : d ≠ "" → plain_seg x → List.last (split_slash (path_join [a; d; x])) "" = x.
Proof.
  intros Hd Hx. destruct (decide (a = "")) as [->|Ha].
  - change (path_join [""; d; x]) with (path_join ([d] ++ [x])). apply path_join_last; [done|by repeat constructor|done].
  - change [a; d; x] with ([a; d] ++ [x]). apply path_join_last; [done|by repeat constructor|done].
Qed.

(** ** Cleaning is idempotent *)

(** The reversed outputs of a clean: plain names, below them the parents a
    relative path may start with. *)
Fixpoint canon (rooted : bool) (out : list string) : Prop :=
  match out with
  | [] => True
  | x :: out' => (plain_seg x ∨ rooted = false ∧ x = ".." ∧ Forall (eq "..") out') ∧ canon rooted out'
  end.

Lemma clean_seg_canon rooted out seg : no_slash seg = true → canon rooted out → canon rooted (clean_seg rooted out seg).
Proof.
  intros Hs Ho. unfold clean_seg. destruct (String.eqb_spec seg "") as [|H1]; [done|].
  destruct (String.eqb_spec seg ".") as [|H2]; [done|]. cbn [orb].
  destruct (String.eqb_spec seg "..") as [->|H3]; [|by split; [left|]].
  destruct out as [|t out].
  - destruct rooted; [done|]. split; [right|]; by repeat split.
  - destruct Ho as [[Ht|(-> & -> & Ho)] Hc].
    + destruct (String.eqb_spec t "..") as [->|]; [by destruct Ht as (_&_&?&_)|done].
    + split; [right|split; [right|]]; by repeat split; try constructor.
Qed.

Lemma clean_segs_canon rooted l : Forall (fun x => no_slash x = true) l → canon rooted (rev (clean_segs rooted l)).
Proof.
  intros H. unfold clean_segs. rewrite rev_involutive.
  assert (Hi : canon rooted []) by done. revert Hi. generalize (@nil string).
  induction H as [|x l Hx Hl IH]; intros out Hi; [done|]. cbn [fold_left]. by apply IH, clean_seg_canon.
Qed.

Lemma clean_canon rooted out : canon rooted out → clean_segs rooted (rev out) = rev out.
Proof.
  intros H. unfold clean_segs. f_equal.
  induction out as [|x out IH]; [done|]. destruct H as [Hx Ho]. cbn [rev].
  rewrite fold_left_app, IH by done. cbn [fold_left]. unfold clean_seg.
  destruct Hx as [(H1 & H2 & H3 & _)|(-> & -> & Hp)].
  - apply String.eqb_neq in H1, H2, H3. by rewrite H1, H2, H3.
  - destruct out as [|y out]; [done|]. by inversion Hp; subst.
Qed.

Lemma canon_plain out : canon true out → Forall plain_seg out.
Proof. induction out as [|x out IH]; [by constructor|]. intros [[?|(?&_)] ?]; [constructor; auto|done]. Qed.

Lemma join_canon_rel out : out ≠ [] → canon false out → path_is_abs (join_slash (rev out)) = false.
Proof.
  intros Hne H. assert (Hh : ∃ x l, rev out = x :: l ∧ (plain_seg x ∨ x = "..")).
  { induction out as [|x out IH]; [done|]. destruct H as [Hx Ho]. cbn [rev]. destruct out as [|y out].
    - exists x, []. split; [done|]. destruct Hx as [?|(_ & -> & _)]; [by left|by right].
    - destruct (IH ltac:(done) Ho) as (z & l & -> & Hz). by exists z, (l ++ [x]). }
  destruct Hh as (x & l & -> & Hx). assert (Hn : x ≠ "" ∧ no_slash x = true).
  { destruct Hx as [(?&_&_&?)| ->]; done. }
  destruct Hn as [Hn Hs]. destruct x as [|c x]; [done|]. cbn in Hs. destruct (ascii_dec c slash) as [|Hc]; [done|].
  assert (E : ∃ t, join_slash (String c x :: l) = String c t) by (destruct l; eexists; reflexivity).
  destruct E as [t ->]. unfold path_is_abs, has_prefix. cbn -[ascii_dec]. fold slash. by destruct (ascii_dec slash c).
Qed.

Lemma path_clean_idem s : path_clean (path_clean s) = path_clean s.
Proof.
  assert (Hns := split_slash_no_slash s).
  assert (Hsplit : ∀ r l, l = clean_segs r (split_slash s) → l ≠ [] → split_slash (join_slash l) = l).
  { intros r l -> Hne. apply split_join; [done|]. by apply clean_segs_no_slash. }
  assert (Hid : ∀ r l, l = clean_segs r (split_slash s) → clean_segs r l = l).
  { intros r l ->. rewrite <- (rev_involutive (clean_segs r (split_slash s))). apply clean_canon. by apply clean_segs_canon. }
  unfold path_clean at 2 3. destruct (path_is_abs s) eqn:Ha.
  - destruct (clean_segs true (split_slash s)) as [|x l] eqn:E; [done|]. unfold path_clean.
    change (path_is_abs (String slash (join_slash (x :: l)))) with (has_prefix (String slash (join_slash (x :: l))) "/").
    assert (Hp : has_prefix (String slash (join_slash (x :: l))) "/" = true) by apply (has_prefix_app "/" _).
    rewrite Hp. f_equal. f_equal.
    change (split_slash (String slash (join_slash (x :: l)))) with ("" :: split_slash (join_slash (x :: l))).
    rewrite (Hsplit true) by done. transitivity (clean_segs true (x :: l)); [done|]. by apply (Hid true).
  - destruct (clean_segs false (split_slash s)) as [|x l] eqn:E; [done|]. unfold path_clean.
    assert (Hr : path_is_abs (join_slash (x :: l)) = false).
    { rewrite <- (rev_involutive (x :: l)). apply join_canon_rel; [intros F; apply (f_equal (@rev string)) in F; by rewrite rev_involutive in F|].
      rewrite <- E. by apply clean_segs_canon. }
    rewrite Hr, (Hsplit false), (Hid false) by done. done.
Qed.

(** ** Names without a slash *)

Lemma no_slash_app a b : no_slash (a +:+ b) = no_slash a && no_slash b.
Proof. induction a as [|c a IH]; [done|]. cbn [no_slash append]. destruct (ascii_dec c slash); [done|apply IH]. Qed.
Lemma no_slash_take n s : no_slash s = true → no_slash (str_take n s) = true.
Proof. intros Hs. rewrite <- (str_take_drop n s), no_slash_app in Hs. by apply andb_true_iff in Hs as [? _]. Qed.
Lemma no_slash_drop n s : no_slash s = true → no_slash (str_drop n s) = true.
Proof. intros Hs. rewrite <- (str_take_drop n s), no_slash_app in Hs. by apply andb_true_iff in Hs as [_ ?]. Qed.
Lemma hex_no_slash l : no_slash (hex_encode l) = true.
Proof.
  unfold hex_encode. induction l as [|b l IH]; [done|]. cbn [flat_map app string_of_list_ascii].
  revert IH. generalize (string_of_list_ascii (flat_map (fun b => let n := Byte.to_N b in
    [hex_digit (N.shiftr n 4); hex_digit (N.land n 15)]) l)) as t. intros t Ht.
  cbn [no_slash]. destruct b; cbn; exact Ht.
Qed.
Lemma no_slash_elem s : no_slash s = true ↔ slash ∉ list_ascii_of_string s.
Proof.
  induction s as [|c s IH]; [split; [by intros _ ?%not_elem_of_nil|done]|]. cbn [no_slash list_ascii_of_string].
  rewrite not_elem_of_cons. destruct (ascii_dec c slash) as [->|Hc]; [split; [done|by intros [[]]]|].
  rewrite IH. split; [by split; [congruence|]|by intros [_ ?]].
Qed.

(** ** Decimal numbers *)

Local Open Scope Z_scope.

Definition digits (s : string) : Prop := Forall (fun c => in_range 48 57 c = true) (list_ascii_of_string s).

Lemma pretty_char_digit n : in_range 48 57 (pretty_N_char n) = true.
Proof. unfold pretty_N_char. by repeat case_match. Qed.
Lemma pretty_go_digits x : ∀ s, digits s → digits (pretty_N_go x s).
Proof.
  induction (N.lt_wf_0 x) as [x _ IH]. intros s Hs.
  destruct (decide (x = 0%N)) as [->|Hx]; [by rewrite pretty_N_go_0|].
  rewrite pretty_N_go_step by lia. apply IH; [apply N.div_lt; lia|].
  unfold digits in *. cbn [list_ascii_of_string]. constructor; [apply pretty_char_digit|done].
Qed.
Lemma itoa_digits n : 0 ≤ n → digits (itoa n).
Proof.
  intros Hn. assert (Hp : ∀ x : N, digits (pretty x)).
  { intros x. unfold pretty, pretty_N. case_decide; [by repeat constructor|]. apply pretty_go_digits. constructor. }
  unfold itoa. destruct n as [|p|p]; [apply (Hp 0%N)|apply (Hp (Npos p))|lia].
Qed.
Lemma digits_ascii s : digits s → is_ascii s = true.
Proof.
  unfold digits, is_ascii. intros H. apply forallb_forall. intros c Hc%list_elem_of_In.
  apply (proj1 (Forall_forall _ _) H) in Hc. unfold in_range in Hc. lia.
Qed.
Lemma digits_lower s : digits s → lower_ascii s = s.
Proof.
  unfold digits. induction s as [|c s IH]; [done|]. cbn [list_ascii_of_string]. intros [Hc Hs]%Forall_cons.
  change (lower_ascii (String c s)) with (String (ascii_lower c) (lower_ascii s)). rewrite (IH Hs). f_equal.
  unfold ascii_lower, in_range in *. assert ((65 <=? ascii_code c) = false) as -> by lia. done.
Qed.
Lemma digits_no_slash s : digits s → no_slash s = true.
Proof.
  intros Hs. apply no_slash_elem. intros Hin. apply (proj1 (Forall_forall _ _) Hs) in Hin. done.
Qed.
Lemma itoa_no_slash n : no_slash (itoa n) = true.
Proof.
  destruct (Z.le_gt_cases 0 n) as [Hn|Hn]; [by apply digits_no_slash, itoa_digits|].
  destruct n as [|p|p]; [lia|lia|]. change (itoa (Z.neg p)) with (String "-" (itoa (Z.pos p))). cbn [no_slash].
  destruct (ascii_dec "-" slash); [done|]. by apply digits_no_slash, itoa_digits.
Qed.
