(* ===== verification/Paths.v ===== *)
(** Virtual paths: cleaning and joining (internal/vault/path.go), the protected
    content root and its reserved names (internal/vault/content.go), metadata
    directory names (internal/vault/metadir.go) and portable names
    (internal/vault/portable.go).

    The message an error carries is its Go format string; the arguments are
    dropped, nothing in the program reads them back. *)
From S2P Require Export GoPath.

(** internal/vault/path.go:13-27 [CleanVirtualPath] *)
Definition CleanVirtualPath (input : string) : result string :=
  let s := trim_prefix (trim_space (replace_byte backslash slash input)) "/" in
  if String.eqb s "" || String.eqb s "." then Ok ""
  else
    let cleaned := path_clean s in
    if String.eqb cleaned "." then Ok ""
    else if has_prefix cleaned "../" || String.eqb cleaned ".." || path_is_abs cleaned
    then Err (ENew "invalid virtual path %q")
    else Ok cleaned.

(** internal/vault/path.go:29-46 [virtualJoin]; the OS separator is [/]. *)
Definition virtualJoin (base rel : string) : result string :=
  base ← CleanVirtualPath base;
  rel ← CleanVirtualPath (replace_byte slash slash rel);
  if String.eqb base "" then Ok rel
  else if String.eqb rel "" then Ok base
  else Ok (path_join [base; rel]).

(** internal/vault/metadir.go:20-20 [MetadataDirNames] *)
Definition MetadataDirNames : list string := ["SeaVaultData"; ".seavault"].

(** internal/vault/metadir.go:54-61 [isMetadataDirName] *)
Definition isMetadataDirName (segment : string) : bool :=
  existsb (fun n => equal_fold segment n) MetadataDirNames.

(** internal/vault/content.go:13-16 [ContentRootName] *)
Definition ContentRootName : string := "content".
(** internal/vault/content.go:13-16 [DirectoryMarkerName] *)
Definition DirectoryMarkerName : string := ".seavault-dir".

(** internal/vault/content.go:21-41 [NormalizeContentPath] *)
Definition NormalizeContentPath (input : string) : result string :=
  vp ← CleanVirtualPath input;
  if String.eqb vp "" || String.eqb vp "." then Ok ContentRootName
  else if String.eqb vp ContentRootName || has_prefix vp (ContentRootName +:+ "/") then Ok vp
  else Ok (path_join [ContentRootName; vp]).

(** internal/vault/content.go:103-115 [containsReservedSegment] *)
Definition containsReservedSegment (vp : string) : bool :=
  existsb (fun seg => equal_fold seg DirectoryMarkerName || isMetadataDirName seg) (split_slash vp).

(** internal/vault/content.go:67-69 [ReservedContentSegment] *)
Definition ReservedContentSegment (vp : string) : bool := containsReservedSegment vp.

(** internal/vault/content.go:52-57 [reservedNewPathError]; [None] is a nil error. *)
Definition reservedNewPathError (vp : string) : option err :=
  if ReservedContentSegment vp then Some (ENew "reserved virtual path %q is not allowed") else None.

Section markers.
Context `{GoUnicode}.

(** internal/vault/content.go:117-120 [IsDirectoryMarkerPath] *)
Definition IsDirectoryMarkerPath (vp : string) : bool :=
  let vp := trim_slash vp in
  equal_fold vp DirectoryMarkerName ||
  has_suffix (to_lower vp) ("/" +:+ to_lower DirectoryMarkerName).

(** internal/vault/content.go:129-134 [IsInternalVirtualPath] *)
Definition IsInternalVirtualPath (vp : string) : bool :=
  if String.eqb vp "" then false else IsDirectoryMarkerPath vp.

(** internal/vault/content.go:71-83 [normalizeContentFilePath] *)
Definition normalizeContentFilePath (input : string) : result string :=
  vp ← NormalizeContentPath input;
  if String.eqb vp "" || String.eqb vp ContentRootName || has_suffix vp "/"
  then Err (ENew "virtual file path must be inside %s/")
  else if IsDirectoryMarkerPath vp then Err (ENew "reserved virtual path %q is not allowed")
  else Ok vp.

(** internal/vault/content.go:85-94 [normalizeContentDirPath] *)
Definition normalizeContentDirPath (input : string) : result string :=
  vp ← NormalizeContentPath input;
  if IsDirectoryMarkerPath vp then Err (ENew "reserved virtual path %q is not allowed")
  else Ok vp.

(** internal/vault/content.go:136-142 [directoryMarkerPath] *)
Definition directoryMarkerPath (dir : string) : result string :=
  vp ← normalizeContentDirPath dir;
  Ok (path_join [vp; DirectoryMarkerName]).
End markers.

(** internal/vault/portable.go:17-17 [portableIllegalChars] *)
Definition portableIllegalChars : list ascii :=
  ["<"; ">"; ":"; ascii_of_nat 34; "|"; "?"; "*"]%char.

(** internal/vault/portable.go:23-30 [reservedStems] *)
Definition reservedStems : list string :=
  ["CON"; "PRN"; "AUX"; "NUL"] ++
  flat_map (fun i => ["COM" +:+ itoa i; "LPT" +:+ itoa i]) [1; 2; 3; 4; 5; 6; 7; 8; 9]%Z.

(** internal/vault/portable.go:35-41 [isReservedStem] *)
Definition isReservedStem (segment : string) : bool :=
  let stem := before_byte dot segment in
  existsb (String.eqb (upper_ascii stem)) reservedStems.

(** The two rune tests of the loops below; both sets are ASCII, so they can be
    asked of each byte. *)
Definition control_char (c : ascii) : bool := ((ascii_code c <? 32) || (ascii_code c =? 127))%Z.
Definition illegal_char (c : ascii) : bool := existsb (Ascii.eqb c) portableIllegalChars.
Definition dot_or_space (c : ascii) : bool := Ascii.eqb c dot || Ascii.eqb c " ".

Fixpoint scan_portable (l : list ascii) : option err :=
  match l with
  | [] => None
  | c :: t =>
      if control_char c then Some (ENew "the control character %#U in %q cannot be restored on Windows; use %q")
      else if illegal_char c then Some (ENew "the character %q in %q cannot be restored on Windows; use %q")
      else scan_portable t
  end.

(** internal/vault/portable.go:58-77 [ValidatePortableName]; [None] is a nil error. *)
Definition ValidatePortableName (segment : string) : option err :=
  match list_ascii_of_string segment with
  | [] => Some (ENew "an empty name cannot be restored on Windows; use %q")
  | l =>
      match scan_portable l with
      | Some e => Some e
      | None =>
          if dot_or_space (List.last l dot)
          then Some (ENew "a trailing %q in %q cannot be restored on Windows; use %q")
          else if isReservedStem segment
          then Some (ENew "%q is a reserved device name on Windows; use %q")
          else None
      end
  end.

(** The rune loop of [sanitizePortableSegment]: an illegal or control rune becomes
    an underscore, an undecodable byte becomes U+FFFD, any other rune is copied. *)
Fixpoint sanitize_runes (fuel : nat) (s : string) : string :=
  match fuel, s with
  | S f, String c s' =>
      if control_char c || illegal_char c then String "_" (sanitize_runes f s')
      else match rune_width s with
           | Some n => str_take n s +:+ sanitize_runes f (str_drop n s)
           | None => rune_error +:+ sanitize_runes f s'
           end
  | _, _ => ""
  end.

(** internal/vault/portable.go:86-103 [sanitizePortableSegment] *)
Definition sanitizePortableSegment (segment : string) : string :=
  let out := trim_right dot_or_space (sanitize_runes (String.length segment) segment) in
  let out := if String.eqb out "" then "_" else out in
  if isReservedStem out then "_" +:+ out else out.

Example clean_ex : CleanVirtualPath " /a//b/./c/../d " = Ok "a/b/d".
Proof. vm_compute. reflexivity. Qed.
Example clean_escape : CleanVirtualPath "a/../../etc" = Err (ENew "invalid virtual path %q").
Proof. vm_compute. reflexivity. Qed.
Example sanitize_ex : sanitizePortableSegment "con.txt. ." = "_con.txt".
Proof. vm_compute. reflexivity. Qed.
Example join_ex : virtualJoin "content/x" "y/z" = Ok "content/x/y/z".
Proof. vm_compute. reflexivity. Qed.

(** ** Cleaned paths *)

(** A cleaned virtual path: empty, or plain segments joined by slashes. *)
Definition clean_path (p : string) : Prop :=
  p = "" ∨ ∃ segs, segs ≠ [] ∧ p = join_slash segs ∧ Forall plain_seg segs.

Lemma plain_no_slash l : Forall plain_seg l → Forall (fun x => no_slash x = true) l.
Proof. intros H. eapply Forall_impl; [exact H|]. by intros x (?&?&?&?). Qed.

Lemma join_parent_prefix l : has_prefix (join_slash (".." :: l)) "../" || String.eqb (join_slash (".." :: l)) ".." = true.
Proof. destruct l as [|x l]; [done|]. rewrite join_slash_cons. by destruct (join_slash (x :: l)). Qed.

Lemma path_clean_rel s :
  path_is_abs s = false →
  path_clean s = match clean_segs false (split_slash s) with [] => "." | l => join_slash l end.
Proof. intros H. unfold path_clean. rewrite H. by destruct (clean_segs _ _). Qed.

Lemma path_is_abs_cons c t : path_is_abs (String c t) = bool_decide (slash = c).
Proof.
  unfold path_is_abs, has_prefix. cbn -[ascii_dec]. fold slash.
  destruct (ascii_dec slash c) as [->|H]; case_bool_decide; try done. by destruct t.
Qed.

Lemma join_plain_rel l : l ≠ [] → Forall plain_seg l → path_is_abs (join_slash l) = false.
Proof.
  intros Hne Hl. destruct l as [|a l]; [done|]. inversion Hl as [|?? (Ha&_&_&Hs)]; subst.
  destruct a as [|c a]; [done|]. simpl in Hs. destruct (ascii_dec c slash) as [|Hc]; [done|].
  destruct l as [|b l].
  - change (join_slash [String c a]) with (String c a). rewrite path_is_abs_cons.
    by apply bool_decide_eq_false.
  - rewrite join_slash_cons.
    change (String c a +:+ ?t) with (String c (a +:+ t)).
    rewrite path_is_abs_cons. by apply bool_decide_eq_false.
Qed.

Lemma path_clean_join l :
  l ≠ [] → Forall plain_seg l → path_clean (join_slash l) = join_slash l.
Proof.
  intros Hne Hl.
  pose proof (join_plain_rel l Hne Hl).
  rewrite path_clean_rel by done. rewrite split_join, clean_segs_plain; auto using plain_no_slash.
  by destruct l.
Qed.

Lemma CleanVirtualPath_clean s p : CleanVirtualPath s = Ok p → clean_path p.
Proof.
  unfold CleanVirtualPath. set (t := trim_prefix _ _).
  destruct (_ || _); [by intros [= <-]; left|].
  destruct (String.eqb_spec (path_clean t) ".") as [_|Hdot]; [by intros [= <-]; left|].
  destruct (_ || path_is_abs (path_clean t)) eqn:E; [done|]. intros [= <-].
  apply orb_false_iff in E as [E Eabs].
  assert (Habs : path_is_abs t = false).
  { destruct (path_is_abs t) eqn:Ha; [|done]. unfold path_clean in Eabs. rewrite Ha, path_is_abs_cons in Eabs.
    by apply bool_decide_eq_false in Eabs. }
  right. rewrite path_clean_rel in * by done.
  destruct (clean_segs_shape (split_slash t)) as (a & n & Hout & Ha); [apply split_slash_no_slash|].
  apply (f_equal (@rev string)) in Hout. rewrite rev_involutive, rev_app_distr in Hout.
  rewrite Hout in *. destruct n as [|n].
  - exists (rev a). simpl in *. destruct (rev a) eqn:Er; [done|]. rewrite <- Er.
    split; [by rewrite Er|]. split; [done|]. by apply Forall_rev.
  - rewrite rev_repeat in E. cbn [repeat app] in E. by rewrite join_parent_prefix in E.
Qed.

Lemma content_prefix_split t segs :
  segs ≠ [] → Forall plain_seg segs → join_slash segs = "content/" +:+ t →
  ∃ segs', segs = "content" :: segs'.
Proof.
  intros Hne Hs E. apply (f_equal split_slash) in E.
  rewrite split_join in E by auto using plain_no_slash.
  change ("content/" +:+ t) with ("content" +:+ String slash t) in E.
  rewrite split_slash_app in E by done. eauto.
Qed.

Lemma NormalizeContentPath_segs s p :
  NormalizeContentPath s = Ok p → ∃ segs, p = join_slash ("content" :: segs) ∧ Forall plain_seg segs.
Proof.
  unfold NormalizeContentPath. intros H. apply bind_ok in H as (vp & Hc & H).
  apply CleanVirtualPath_clean in Hc as [->|(segs & Hne & Hvp & Hs)].
  { injection H as <-. by exists []. }
  destruct (_ || _) in H; [injection H as <-; by exists []|].
  destruct (String.eqb vp ContentRootName || has_prefix vp (ContentRootName +:+ "/")) eqn:E.
  - injection H as <-. apply orb_true_iff in E as [E|E].
    + apply String.eqb_eq in E. exists []. by rewrite E.
    + apply has_prefix_inv in E as [t Ht]. rewrite Hvp in Ht.
      destruct (content_prefix_split t segs Hne Hs Ht) as [segs' ->].
      exists segs'. split; [by rewrite Hvp|]. by inversion Hs.
  - injection H as <-. exists segs. split; [|done].
    assert (Hv : vp ≠ "").
    { intros ->. destruct segs as [|[|c a] l]; [done|inversion Hs as [|?? (?&_)]; done|].
      by destruct l. }
    apply String.eqb_neq in Hv.
    assert (path_join [ContentRootName; vp] = path_clean (join_slash ["content"; vp])) as ->.
    { unfold path_join. cbn -[path_clean join_slash]. by rewrite Hv. }
    rewrite join_slash_cons, Hvp. change (join_slash [join_slash segs]) with (join_slash segs).
    destruct segs as [|a l]; [done|].
    rewrite <- join_slash_cons.
    apply path_clean_join; [done|]. constructor; [by repeat split|done].
Qed.

(** ** Portable names *)

Definition ok_char (c : ascii) : bool := negb (control_char c || illegal_char c).
Definition ok_str (s : string) : Prop := Forall (fun c => ok_char c = true) (list_ascii_of_string s).

Lemma high_ok c : (128 ≤ ascii_code c)%Z → ok_char c = true.
Proof.
  destruct c as [[] [] [] [] [] [] [] []]; vm_compute; intros H; try reflexivity; by contradict H.
Qed.

Lemma list_ascii_app a b : list_ascii_of_string (a +:+ b) = list_ascii_of_string a ++ list_ascii_of_string b.
Proof. induction a; simpl; congruence. Qed.

Lemma in_range_high lo hi c : (128 ≤ lo)%Z → in_range lo hi c = true → ok_char c = true.
Proof. unfold in_range. rewrite andb_true_iff, Z.leb_le. intros ? [? _]. apply high_ok. lia. Qed.

Lemma rune_ok c s n :
  ok_char c = true → rune_width (String c s) = Some n → ok_str (str_take n (String c s)).
Proof.
  unfold ok_str. intros Hc. cbn [rune_width].
  destruct (in_range 0 127 c); [intros [= <-]; by repeat constructor|].
  destruct s as [|c1 s]; [done|].
  destruct (in_range 194 223 c).
  { destruct (in_range 128 191 c1) eqn:E1; [|done]. intros [= <-].
    repeat constructor; eauto using in_range_high with lia. eapply in_range_high, E1. lia. }
  destruct s as [|c2 s]; [done|]. destruct (in_range 224 239 c).
  { destruct (in_range _ _ c1 && _) eqn:E; [|done]. apply andb_true_iff in E as [E1 E2].
    intros [= <-]. repeat constructor; [done| |eapply in_range_high, E2; lia].
    eapply in_range_high, E1. by destruct (in_range 224 224 c). }
  destruct s as [|c3 s]; [done|]. destruct (_ && in_range 128 191 c3) eqn:E; [|done].
  apply andb_true_iff in E as [E E3]. apply andb_true_iff in E as [E E2].
  apply andb_true_iff in E as [_ E1]. intros [= <-].
  repeat constructor; [done| |eapply in_range_high, E2; lia|eapply in_range_high, E3; lia].
  eapply in_range_high, E1. by destruct (in_range 240 240 c).
Qed.

Lemma sanitize_runes_ok f s : ok_str (sanitize_runes f s).
Proof.
  revert s. induction f as [|f IH]; intros [|c s]; try by constructor.
  cbn [sanitize_runes]. destruct (control_char c || illegal_char c) eqn:E.
  { constructor; [reflexivity|]. apply IH. }
  assert (Hc : ok_char c = true) by (unfold ok_char; by rewrite E).
  destruct (rune_width (String c s)) as [n|] eqn:En; unfold ok_str; rewrite list_ascii_app, Forall_app.
  - split; [by apply rune_ok|apply IH].
  - split; [by repeat constructor|apply IH].
Qed.

Lemma drop_while_suffix p l : drop_while p l `suffix_of` l.
Proof. induction l as [|c l IH]; simpl; [done|]. destruct (p c); [by apply suffix_cons_r|done]. Qed.

Lemma drop_while_head p l c t : drop_while p l = c :: t → p c = false.
Proof. induction l as [|d l IH]; simpl; [done|]. destruct (p d) eqn:E; [done|]. by intros [= -> ->]. Qed.

Lemma trim_right_list p s :
  list_ascii_of_string (trim_right p s) = rev (drop_while p (rev (list_ascii_of_string s))).
Proof. unfold trim_right. by rewrite list_ascii_of_string_of_list_ascii. Qed.

Lemma trim_right_ok p s : ok_str s → ok_str (trim_right p s).
Proof.
  unfold ok_str. rewrite trim_right_list. intros H. apply Forall_rev.
  destruct (drop_while_suffix p (rev (list_ascii_of_string s))) as [k Hk].
  apply Forall_rev in H. rewrite Hk in H. by apply Forall_app in H as [_ H].
Qed.

Lemma trim_right_last p s d :
  trim_right p s ≠ "" → p (List.last (list_ascii_of_string (trim_right p s)) d) = false.
Proof.
  rewrite trim_right_list. unfold trim_right. intros H.
  destruct (drop_while p _) as [|c t] eqn:E; [done|]. apply drop_while_head in E.
  cbn [rev]. by rewrite last_last.
Qed.

Lemma scan_portable_ok l : Forall (fun c => ok_char c = true) l → scan_portable l = None.
Proof.
  induction 1 as [|c l Hc _ IH]; simpl; [done|]. unfold ok_char in Hc.
  apply negb_true_iff, orb_false_iff in Hc as [-> ->]. done.
Qed.

Lemma underscore_not_reserved s : isReservedStem ("_" +:+ s) = false.
Proof.
  unfold isReservedStem. change ("_" +:+ s) with (String "_" s). cbn [before_byte].
  destruct (ascii_dec "_" dot) as [E|_]; [discriminate E|].
  unfold upper_ascii. cbn [str_flat_map].
  change (String (ascii_upper "_") "") with "_". generalize (str_flat_map (λ c, String (ascii_upper c) "") (before_byte dot s)).
  intros r. apply not_true_is_false. rewrite existsb_exists. intros (x & Hx & E).
  apply String.eqb_eq in E. subst x. change ("_" +:+ r) with (String "_" r) in Hx.
  assert (Hall : Forall (fun x => has_prefix x "_" = false) reservedStems) by (vm_compute; repeat constructor).
  rewrite List.Forall_forall in Hall. specialize (Hall _ Hx). unfold has_prefix in Hall. simpl in Hall.
  by destruct r.
Qed.

(** A non-empty string of admissible bytes, with an admissible last byte and no
    reserved stem, passes the gate. *)
Lemma ValidatePortableName_intro s :
  s ≠ "" → ok_str s → dot_or_space (List.last (list_ascii_of_string s) dot) = false →
  isReservedStem s = false → ValidatePortableName s = None.
Proof.
  unfold ValidatePortableName, ok_str. intros Hne Hok Hl Hr.
  destruct (list_ascii_of_string s) as [|c l] eqn:E; [by destruct s|].
  by rewrite scan_portable_ok, Hl, Hr.
Qed.

Lemma last_cons_nonempty (c d : ascii) l : l ≠ [] → List.last (c :: l) d = List.last l d.
Proof. by destruct l. Qed.

Lemma sanitize_valid s : ValidatePortableName (sanitizePortableSegment s) = None.
Proof.
  unfold sanitizePortableSegment. set (r := trim_right _ _).
  assert (Hr : ok_str r) by (apply trim_right_ok, sanitize_runes_ok).
  set (out := if String.eqb r "" then "_" else r).
  assert (Hout : out ≠ "" ∧ ok_str out ∧ dot_or_space (List.last (list_ascii_of_string out) dot) = false).
  { subst out. destruct (String.eqb_spec r "") as [|Hne]; [by repeat constructor|].
    split; [done|]. split; [done|]. by apply trim_right_last. }
  destruct Hout as (Hne & Hok & Hl). destruct (isReservedStem out) eqn:E.
  - apply ValidatePortableName_intro; [done| | |apply underscore_not_reserved].
    + unfold ok_str. rewrite list_ascii_app, Forall_app. by repeat constructor.
    + change (list_ascii_of_string ("_" +:+ out)) with ("_"%char :: list_ascii_of_string out).
      rewrite last_cons_nonempty; [done|]. by destruct out.
  - by apply ValidatePortableName_intro.
Qed.
