(* ===== verification/Index.v ===== *)
(** The decrypted index (internal/vault/index.go), the vector clock operations
    (internal/vault/manifest.go, internal/vault/cache.go) and their order theory.

    A Go map from device ids to [int64] counters is a [gmap string Z]; a nil and
    an empty map behave alike everywhere the program looks (it tests [len]). *)
From S2P Require Export GoTime.
Local Open Scope Z_scope.

Abbreviation clock := (gmap string Z).

(** internal/vault/index.go:40-43 [ChunkRef] *)
Record ChunkRef := MkChunkRef { ref_ID : string; ref_Size : Z }.

(** internal/vault/index.go:14-38 [FileRecord] *)
Record FileRecord := MkFileRecord {
  fr_Size : Z;
  fr_Mode : Z;
  fr_ModTime : string;
  fr_UpdatedAt : string;
  fr_Generation : Z;
  fr_Chunks : list ChunkRef;
  fr_ConflictOf : string;
  fr_Clock : clock;
  fr_ClockAge : gmap string Z
}.

(** internal/vault/index.go:8-12 [Index] *)
Record Index := MkIndex {
  ix_Version : Z;
  ix_UpdatedAt : string;
  ix_Files : gmap string FileRecord
}.

#[global] Instance ChunkRef_eq_dec : EqDecision ChunkRef.
Proof. solve_decision. Defined.
#[global] Instance FileRecord_eq_dec : EqDecision FileRecord.
Proof. solve_decision. Defined.

(** The zero [FileRecord] of Go. *)
Definition zero_FileRecord : FileRecord := MkFileRecord 0 0 "" "" 0 [] "" ∅ ∅.

(** internal/vault/index.go:45-47 [NewIndex]; [now] is [time.Now()]. *)
Definition NewIndex (now : Z) : Index := MkIndex 2 (format_rfc3339nano now) ∅.

(** [m[k]] of Go: the zero value for an absent key. *)
Definition at0 (c : clock) (k : string) : Z := default 0 (c !! k).

(** internal/vault/manifest.go:559-585 [clockDominates]; both loops return a value
    that does not depend on the order Go iterates the maps in. *)
Definition clockDominates (a b : clock) : bool :=
  if bool_decide (a = ∅) || bool_decide (b = ∅) then false
  else if negb (forallb (fun '(k, bv) => bv <=? at0 a k) (map_to_list b)) then false
  else if existsb (fun '(k, bv) => bv <? at0 a k) (map_to_list b) then true
  else existsb (fun '(k, av) => (0 <? av) && negb (bool_decide (is_Some (b !! k)))) (map_to_list a).

(** internal/vault/manifest.go:650-656 [joinClock]; the new value of [dst]. *)
Definition joinClock (dst src : clock) : clock :=
  map_fold (fun k v d => if at0 d k <? v then <[k := v]> d else d) dst src.

(** internal/vault/manifest.go:631-645 [clockString] *)
Definition clockString (c : clock) : string :=
  str_concat (map (fun k => k +:+ "=" +:+ itoa (at0 c k) +:+ ";") (sort_strings (map fst (map_to_list c)))).

(** ** The order of clocks *)

(** Every counter is non-negative; what the program writes is positive. *)
Definition nonneg (c : clock) : Prop := map_Forall (fun _ v => 0 ≤ v) c.

#[global] Instance nonneg_dec c : Decision (nonneg c).
Proof. unfold nonneg. apply _. Defined.

Definition clock_le (a b : clock) : Prop := ∀ k, at0 a k ≤ at0 b k.
Definition clock_lt (a b : clock) : Prop := clock_le a b ∧ ∃ k, at0 a k < at0 b k.

Lemma at0_nonneg c k : nonneg c → 0 ≤ at0 c k.
Proof. unfold at0. intros H. destruct (c !! k) eqn:E; simpl; [by eapply H|lia]. Qed.

Lemma at0_insert c k v j : at0 (<[k := v]> c) j = if decide (k = j) then v else at0 c j.
Proof. unfold at0. rewrite lookup_insert. by case_decide. Qed.

Lemma clock_lt_irrefl a : ¬ clock_lt a a.
Proof. intros [_ [k H]]. lia. Qed.

Lemma clock_lt_trans a b c : clock_lt a b → clock_lt b c → clock_lt a c.
Proof.
  intros [H1 [k Hk]] [H2 _]. split; [intros j|exists k].
  - specialize (H1 j). specialize (H2 j). lia.
  - specialize (H2 k). lia.
Qed.

Lemma forallb_map_to_list (P : string → Z → bool) (m : clock) :
  forallb (fun '(k, v) => P k v) (map_to_list m) = true ↔ ∀ k v, m !! k = Some v → P k v = true.
Proof.
  rewrite forallb_forall. split.
  - intros H k v Hk. apply (H (k, v)). by apply list_elem_of_In, elem_of_map_to_list.
  - intros H [k v] Hin. apply list_elem_of_In, elem_of_map_to_list in Hin. auto.
Qed.

Lemma existsb_map_to_list (P : string → Z → bool) (m : clock) :
  existsb (fun '(k, v) => P k v) (map_to_list m) = true ↔ ∃ k v, m !! k = Some v ∧ P k v = true.
Proof.
  rewrite existsb_exists. split.
  - intros ([k v] & Hin & H). apply list_elem_of_In, elem_of_map_to_list in Hin. eauto.
  - intros (k & v & Hk & H). exists (k, v). split; [|done]. by apply list_elem_of_In, elem_of_map_to_list.
Qed.

(** What the code computes, without any assumption on the counters. *)
Lemma clockDominates_iff a b :
  clockDominates a b = true ↔
  a ≠ ∅ ∧ b ≠ ∅ ∧ (∀ k v, b !! k = Some v → v ≤ at0 a k) ∧
  ((∃ k v, b !! k = Some v ∧ v < at0 a k) ∨ (∃ k v, a !! k = Some v ∧ 0 < v ∧ b !! k = None)).
Proof.
  unfold clockDominates.
  case_bool_decide as Ha; simpl; [naive_solver|]. case_bool_decide as Hb; simpl; [naive_solver|].
  destruct (forallb _ (map_to_list b)) eqn:Hf; simpl.
  2: { split; [done|]. intros (_ & _ & H & _). apply not_true_iff_false in Hf. destruct Hf.
       apply forallb_map_to_list. intros k v Hk. apply Z.leb_le. eauto. }
  rewrite forallb_map_to_list in Hf.
  assert (Hle : ∀ k v, b !! k = Some v → v ≤ at0 a k) by (intros; apply Z.leb_le; eauto).
  destruct (existsb _ (map_to_list b)) eqn:He.
  - apply existsb_map_to_list in He as (k & v & Hk & Hv). apply Z.ltb_lt in Hv. naive_solver.
  - rewrite existsb_map_to_list. split.
    + intros (k & v & Hk & Hv). apply andb_true_iff in Hv as [H1 H2]. apply Z.ltb_lt in H1.
      apply negb_true_iff, bool_decide_eq_false, eq_None_not_Some in H2. naive_solver.
    + intros (_ & _ & _ & [(k & v & Hk & Hv)|(k & v & Hk & Hv & Hn)]).
      * exfalso. apply not_true_iff_false in He. destruct He. apply existsb_map_to_list.
        exists k, v. split; [done|]. by apply Z.ltb_lt.
      * exists k, v. split; [done|]. apply andb_true_iff. split; [by apply Z.ltb_lt|].
        apply negb_true_iff, bool_decide_eq_false. by apply eq_None_not_Some.
Qed.

(** On non-negative clocks the code decides the strict pointwise order, except
    that an empty clock is never dominated and never dominates. *)
Lemma clockDominates_lt a b :
  nonneg a → nonneg b → clockDominates a b = true ↔ b ≠ ∅ ∧ clock_lt b a.
Proof.
  intros Na Nb. rewrite clockDominates_iff. split.
  - intros (Ha & Hb & Hle & Hs). split; [done|].
    assert (Hle' : clock_le b a).
    { intros k. unfold at0 at 1. destruct (b !! k) eqn:E; simpl; [eauto|by apply at0_nonneg]. }
    split; [done|]. destruct Hs as [(k & v & Hk & Hv)|(k & v & Hk & Hv & Hn)]; exists k; unfold at0 at 1.
    + by rewrite Hk.
    + rewrite Hn. simpl. unfold at0. by rewrite Hk.
  - intros (Hb & Hle & k & Hk).
    assert (Hpos : 0 < at0 a k) by (pose proof (at0_nonneg b k Nb); lia).
    assert (Hak : ∃ v, a !! k = Some v ∧ 0 < v).
    { unfold at0 in Hpos. destruct (a !! k) as [v|]; simpl in Hpos; [by exists v|lia]. }
    destruct Hak as (v & Hav & Hv).
    split; [by intros ->|]. split; [done|]. split.
    + intros j w Hj. specialize (Hle j). unfold at0 at 1 in Hle. by rewrite Hj in Hle.
    + destruct (b !! k) as [w|] eqn:E.
      * left. exists k, w. split; [done|]. unfold at0 at 1 in Hk. by rewrite E in Hk.
      * right. by exists k, v.
Qed.

Lemma clockDominates_irrefl a : clockDominates a a = false.
Proof.
  apply not_true_is_false. rewrite clockDominates_iff.
  intros (_ & _ & _ & [(k & v & Hk & Hv)|(k & v & Hk & Hv & Hn)]).
  - unfold at0 in Hv. rewrite Hk in Hv. simpl in Hv. lia.
  - congruence.
Qed.

Lemma clockDominates_trans a b c :
  nonneg a → nonneg b → nonneg c →
  clockDominates a b = true → clockDominates b c = true → clockDominates a c = true.
Proof.
  intros Na Nb Nc. rewrite !clockDominates_lt by done. intros [_ H1] [H2 H3].
  split; [done|]. by eapply clock_lt_trans.
Qed.

Lemma clockDominates_asym a b :
  nonneg a → nonneg b → clockDominates a b = true → clockDominates b a = false.
Proof.
  intros Na Nb H. apply not_true_is_false. intros H'.
  pose proof (clockDominates_trans a b a Na Nb Na H H') as Hc. by rewrite clockDominates_irrefl in Hc.
Qed.

Lemma clockDominates_empty_l b : clockDominates ∅ b = false.
Proof. unfold clockDominates. by rewrite bool_decide_eq_true_2. Qed.
Lemma clockDominates_empty_r a : clockDominates a ∅ = false.
Proof. unfold clockDominates. rewrite (bool_decide_eq_true_2 (∅ = ∅)) by done. by rewrite orb_true_r. Qed.

(** The join is the pointwise maximum with absent entries read as zero, except
    that an entry of [src] at or below zero is never copied. *)
Lemma joinClock_at0 dst src k :
  at0 (joinClock dst src) k = Z.max (at0 dst k) (default (at0 dst k) (src !! k)).
Proof.
  unfold joinClock. revert src.
  refine (map_fold_weak_ind (fun d src => at0 d k = Z.max (at0 dst k) (default (at0 dst k) (src !! k))) _ _ _ _).
  - rewrite lookup_empty. simpl. lia.
  - intros j v m d Hj IH. rewrite lookup_insert.
    case_decide as E; [subst j; rewrite Hj in IH; simpl in *|].
    + destruct (Z.ltb_spec (at0 d k) v); [rewrite at0_insert, decide_True by done|]; lia.
    + rewrite <- IH. destruct (at0 d j <? v); [|done]. by rewrite at0_insert, decide_False.
Qed.

Lemma joinClock_nonneg dst src : nonneg dst → nonneg (joinClock dst src).
Proof.
  intros Nd. unfold joinClock. revert src.
  refine (map_fold_weak_ind (fun d _ => nonneg d) _ _ Nd _).
  intros j v m d _ Nd'. destruct (Z.ltb_spec (at0 d j) v); [|done].
  apply map_Forall_insert_2; [|done]. pose proof (at0_nonneg d j Nd'). lia.
Qed.

Lemma joinClock_ge_l dst src : clock_le dst (joinClock dst src).
Proof. intros k. rewrite joinClock_at0. lia. Qed.

Lemma joinClock_empty_at0 src k : nonneg src → at0 (joinClock ∅ src) k = at0 src k.
Proof.
  intros N. rewrite joinClock_at0. pose proof (at0_nonneg src k N) as Hp.
  unfold at0 in *. rewrite lookup_empty. simpl. destruct (src !! k); simpl in *; lia.
Qed.
