(* ===== verification/Reconcile.v ===== *)
(** Reconciliation of the on-disk manifest copies of one virtual path
    (internal/vault/manifest.go): the causal order, the winner, the conflicts and
    the removals.  [now] is what [time.Now()] returns where a timestamp does not
    parse; one reading serves a whole reconciliation. *)
From S2P Require Export Index GoHash GoPath.
Local Open Scope Z_scope.

(** internal/vault/manifest.go:22-43 [ManifestRecord] *)
Record ManifestRecord := MkManifestRecord {
  mr_Version : Z;
  mr_Path : string;
  mr_UpdatedAt : string;
  mr_Deleted : bool;
  mr_DeletedGeneration : Z;
  mr_Clock : clock;
  mr_File : FileRecord
}.

#[global] Instance ManifestRecord_eq_dec : EqDecision ManifestRecord.
Proof. solve_decision. Defined.

(** internal/vault/manifest.go:45-50 [manifestCandidate] *)
Record manifestCandidate := MkCandidate {
  mc_Record : ManifestRecord;
  mc_ID : string;
  mc_Name : string;
  mc_Source : string
}.

#[global] Instance manifestCandidate_eq_dec : EqDecision manifestCandidate.
Proof. solve_decision. Defined.

(** internal/vault/manifest.go:57-61 [plannedConflict] *)
Record plannedConflict := MkConflict {
  pc_Path : string;
  pc_Rec : FileRecord;
  pc_Source : string
}.

#[global] Instance plannedConflict_eq_dec : EqDecision plannedConflict.
Proof. solve_decision. Defined.

(** internal/vault/manifest.go:280-290 [isHex] *)
Definition isHex (s : string) : bool :=
  match s with
  | EmptyString => false
  | _ => forallb (fun c => in_range 48 57 c || in_range 97 102 c || in_range 65 70 c)
           (list_ascii_of_string s)
  end.

Section file_names.
Context `{GoUnicode}.

(** internal/vault/manifest.go:261-278 [manifestIDFromFileName]; [None] is the
    panic of a slice expression out of range. *)
Definition manifestIDFromFileName (name : string) : option string :=
  match str_index (to_lower name) ".manifest" with
  | None => Some ""
  | Some O => Some ""
  | Some idx =>
      prefix ← slice_to name idx;
      if (64 <=? String.length prefix)%nat && isHex (str_take 64 prefix)
      then Some (to_lower (str_take 64 prefix))
      else if isHex prefix then Some (to_lower prefix)
      else Some ""
  end.
End file_names.

Section reconcile.
Context (now : Z).

(** internal/vault/manifest.go:840-845 [unixNanoOrNow] *)
Definition unixNanoOrNow (ts : string) : Z :=
  match parse_rfc3339 ts with
  | Some t => unix_nano t
  | None => unix_nano now
  end.

(** internal/vault/manifest.go:292-300 [normalizeRecordMetadata] *)
Definition normalizeRecordMetadata (rec : FileRecord) (updatedAt : string) : FileRecord :=
  let u := if String.eqb (fr_UpdatedAt rec) "" then updatedAt else fr_UpdatedAt rec in
  let g := if fr_Generation rec =? 0 then unixNanoOrNow u else fr_Generation rec in
  MkFileRecord (fr_Size rec) (fr_Mode rec) (fr_ModTime rec) u g (fr_Chunks rec)
    (fr_ConflictOf rec) (fr_Clock rec) (fr_ClockAge rec).

(** internal/vault/manifest.go:539-544 [clockOf] *)
Definition clockOf (rec : ManifestRecord) : clock :=
  if bool_decide (fr_Clock (mr_File rec) = ∅) then mr_Clock rec else fr_Clock (mr_File rec).

(** internal/vault/manifest.go:549-551 [bothClocked] *)
Definition bothClocked (a b : ManifestRecord) : bool :=
  negb (bool_decide (clockOf a = ∅)) && negb (bool_decide (clockOf b = ∅)).

(** internal/vault/manifest.go:592-610 [isCausallyDominated] *)
Definition isCausallyDominated (target : manifestCandidate) (all : list manifestCandidate) : bool :=
  let tc := clockOf (mc_Record target) in
  if bool_decide (tc = ∅) then false
  else existsb (fun c =>
    if String.eqb (mc_Source c) (mc_Source target) then false
    else let oc := clockOf (mc_Record c) in
         if bool_decide (oc = ∅) then false else clockDominates oc tc) all.

Definition newline : string := String (ascii_of_nat 10) "".

(** internal/vault/manifest.go:617-625 [contentKey] *)
Definition contentKey (rec : ManifestRecord) : string :=
  let f := mr_File rec in
  hex_encode (sha256 (bytes_of (
    str_concat (map (fun c => ref_ID c +:+ ":" +:+ itoa (ref_Size c) +:+ newline) (fr_Chunks f)) +:+
    "gen=" +:+ itoa (fr_Generation f) +:+ newline +:+
    "updated=" +:+ fr_UpdatedAt f +:+ newline +:+
    "deleted=" +:+ show_bool (mr_Deleted rec) +:+ newline))).

(** internal/vault/manifest.go:510-532 [concurrentTiebreak] *)
Definition concurrentTiebreak (a b : manifestCandidate) : Z :=
  let ra := mc_Record a in let rb := mc_Record b in
  if negb (Bool.eqb (mr_Deleted ra) (mr_Deleted rb)) then (if mr_Deleted ra then 1 else -1)
  else
    let ak := contentKey ra in let bk := contentKey rb in
    if negb (String.eqb ak bk) then (if str_gtb ak bk then 1 else -1)
    else
      let sa := clockString (clockOf ra) in let sb := clockString (clockOf rb) in
      if negb (String.eqb sa sb) then (if str_gtb sa sb then 1 else -1)
      else 0.

(** internal/vault/manifest.go:458-499 [generationCompare] *)
Definition generationCompare (a b : manifestCandidate) : Z :=
  let ra := mc_Record a in let rb := mc_Record b in
  let gen r := let g := fr_Generation (mr_File r) in
               if mr_Deleted r && (g =? 0) then unixNanoOrNow (mr_UpdatedAt r) else g in
  let ag := gen ra in let bg := gen rb in
  if negb (ag =? bg) then (if bg <? ag then 1 else -1)
  else
    let by_rest :=
      if negb (String.eqb (mr_UpdatedAt ra) (mr_UpdatedAt rb))
      then (if str_gtb (mr_UpdatedAt ra) (mr_UpdatedAt rb) then 1 else -1)
      else if negb (Bool.eqb (mr_Deleted ra) (mr_Deleted rb))
      then (if mr_Deleted ra then 1 else -1)
      else if str_gtb (mc_ID a) (mc_ID b) then 1
      else if str_gtb (mc_ID b) (mc_ID a) then -1
      else 0 in
    match parse_rfc3339 (mr_UpdatedAt ra), parse_rfc3339 (mr_UpdatedAt rb) with
    | Some ta, Some tb =>
        if negb (ta =? tb) then (if tb <? ta then 1 else -1) else by_rest
    | _, _ => by_rest
    end.

(** internal/vault/manifest.go:440-452 [candidateCompare] *)
Definition candidateCompare (a b : manifestCandidate) : Z :=
  let ac := clockOf (mc_Record a) in let bc := clockOf (mc_Record b) in
  if negb (bool_decide (ac = ∅)) && negb (bool_decide (bc = ∅)) then
    if clockDominates ac bc then 1
    else if clockDominates bc ac then -1
    else concurrentTiebreak a b
  else generationCompare a b.

(** internal/vault/manifest.go:828-838 [sameFileRecord] *)
Definition sameFileRecord (a b : FileRecord) : bool :=
  (fr_Size a =? fr_Size b) && bool_decide (fr_Chunks a = fr_Chunks b).

(** [strings.NewReplacer(":", "", "/", "-", "\\", "-", ".", "-")]. *)
Definition stamp_replace : string → string :=
  str_flat_map (fun c =>
    if ascii_dec c ":" then "" else if ascii_dec c slash then "-"
    else if ascii_dec c backslash then "-" else if ascii_dec c dot then "-" else String c "").

(** internal/vault/manifest.go:684-697 [conflictSuffix] *)
Definition conflictSuffix (rec : FileRecord) : string :=
  let updatedAt := fr_UpdatedAt rec in
  let stamp := match parse_rfc3339 updatedAt with
               | Some t => format_stamp t
               | None => updatedAt
               end in
  let h := hex_encode (sha256 (bytes_of (
    str_concat (map (fun c => ref_ID c +:+ ":" +:+ itoa (ref_Size c) +:+ newline) (fr_Chunks rec)) +:+
    "gen=" +:+ itoa (fr_Generation rec) +:+ newline +:+
    "updated=" +:+ updatedAt +:+ newline))) in
  "conflict-" +:+ stamp_replace stamp +:+ "-" +:+ str_take 12 h.

(** internal/vault/manifest.go:668-674 [conflictPath] *)
Definition conflictPath (original : string) (rec : FileRecord) : string :=
  let '(dir, file) := path_split original in
  let file := if String.eqb file "" then "conflict" else file in
  path_join [trim_suffix dir "/"; file +:+ "." +:+ conflictSuffix rec].

Definition with_ConflictOf (rec : FileRecord) (p : string) : FileRecord :=
  MkFileRecord (fr_Size rec) (fr_Mode rec) (fr_ModTime rec) (fr_UpdatedAt rec)
    (fr_Generation rec) (fr_Chunks rec) p (fr_Clock rec) (fr_ClockAge rec).

(** What the loop of [reconcilePathCandidates] decides for one loser. *)
Inductive loser_fate :=
  | Removed
  | Conflict (path : string) (rec : FileRecord).

(** internal/vault/manifest.go:375-415 [reconcilePathCandidates] *)
Definition judge_loser (p : string) (winner loser : ManifestRecord) : loser_fate :=
  if Bool.eqb (mr_Deleted loser) (mr_Deleted winner) &&
     sameFileRecord (mr_File loser) (mr_File winner) then Removed
  else if mr_Deleted loser then Removed
  else
    let loserGen := if fr_Generation (mr_File loser) =? 0
                    then unixNanoOrNow (mr_UpdatedAt loser)
                    else fr_Generation (mr_File loser) in
    if mr_Deleted winner && (0 <? mr_DeletedGeneration winner) && negb (bothClocked winner loser) &&
       (loserGen <=? mr_DeletedGeneration winner)
    then Removed
    else
      let rec := normalizeRecordMetadata (mr_File loser) (mr_UpdatedAt loser) in
      Conflict (conflictPath p rec) (with_ConflictOf rec p).

Fixpoint losers (p : string) (winner : ManifestRecord) (l : list manifestCandidate)
    : list plannedConflict * list string :=
  match l with
  | [] => ([], [])
  | c :: t =>
      let '(conflicts, removes) := losers p winner t in
      match judge_loser p winner (mc_Record c) with
      | Removed => (conflicts, mc_Source c :: removes)
      | Conflict cp rec => (MkConflict cp rec (mc_Source c) :: conflicts, removes)
      end
  end.

Definition antichain_of (cands : list manifestCandidate) : list manifestCandidate :=
  List.filter (fun c => negb (isCausallyDominated c cands)) cands.
Definition dominated_of (cands : list manifestCandidate) : list manifestCandidate :=
  List.filter (fun c => isCausallyDominated c cands) cands.
Definition winner_sort (l : list manifestCandidate) : list manifestCandidate :=
  go_sort (fun a b => 0 <? candidateCompare a b) l.

(** internal/vault/manifest.go:339-417 [reconcilePathCandidates]; [None] is the
    panic of [sorted[0]] on an empty antichain. *)
Definition reconcilePathCandidates (p : string) (cands : list manifestCandidate)
    : option (option FileRecord * list plannedConflict * list string) :=
  match cands with
  | [] => Some (None, [], [])
  | _ =>
      let removeSources := map mc_Source (dominated_of cands) in
      match winner_sort (antichain_of cands) with
      | [] => None
      | winner :: rest =>
          let live := if mr_Deleted (mc_Record winner) then None
            else Some (normalizeRecordMetadata (mr_File (mc_Record winner))
                         (mr_UpdatedAt (mc_Record winner))) in
          let '(conflicts, removes) := losers p (mc_Record winner) rest in
          Some (live, conflicts, removeSources ++ removes)
      end
  end.
End reconcile.
