(* ===== verification/ReconcileFacts.v ===== *)
(** Facts about [reconcilePathCandidates] (Reconcile.v): the surviving antichain is
    never empty, the winner is causally maximal, every copy is accounted for, and
    the outcome does not depend on the order the copies were read in when all of
    them carry clocks; two refutations delimit the last two. *)
From S2P Require Export Reconcile.
Local Open Scope Z_scope.

Definition cclock (c : manifestCandidate) : clock := clockOf (mc_Record c).
Definition clocked (c : manifestCandidate) : Prop := cclock c ≠ ∅.
Definition sane (l : list manifestCandidate) : Prop := Forall (fun c => nonneg (cclock c)) l.
Definition distinct_sources (l : list manifestCandidate) : Prop := NoDup (map mc_Source l).

(** ** The dominance relation on candidates *)

Definition dominates (d c : manifestCandidate) : bool :=
  negb (String.eqb (mc_Source d) (mc_Source c)) && clockDominates (cclock d) (cclock c).

Lemma isCausallyDominated_iff c l :
  isCausallyDominated c l = true ↔ ∃ d, d ∈ l ∧ dominates d c = true.
Proof.
  unfold isCausallyDominated, dominates. fold (cclock c).
  case_bool_decide as Hc.
  - split; [done|]. intros (d & _ & H). rewrite Hc, clockDominates_empty_r, andb_false_r in H. done.
  - rewrite existsb_elem. apply exist_proper. intros d. fold (cclock d).
    destruct (String.eqb _ _); simpl; [done|].
    case_bool_decide as Hd; [|done]. rewrite Hd, clockDominates_empty_l. done.
Qed.

Lemma dominates_clock d c : dominates d c = true → clockDominates (cclock d) (cclock c) = true.
Proof. unfold dominates. by intros [_ ?]%andb_true_iff. Qed.

Lemma clockDominates_dominates d c :
  clockDominates (cclock d) (cclock c) = true → mc_Source d ≠ mc_Source c → dominates d c = true.
Proof. unfold dominates. intros H Hs. apply String.eqb_neq in Hs. by rewrite Hs. Qed.

(** Members with the same source are the same candidate. *)
Lemma same_source l c d :
  distinct_sources l → c ∈ l → d ∈ l → mc_Source c = mc_Source d → c = d.
Proof.
  unfold distinct_sources. intros Hn Hc Hd E.
  apply list_elem_of_lookup in Hc as [i Hi]. apply list_elem_of_lookup in Hd as [j Hj].
  assert (i = j) as ->; [|congruence].
  eapply NoDup_lookup; [exact Hn| |].
  - rewrite list_lookup_fmap, Hi. done.
  - rewrite list_lookup_fmap, Hj. simpl. by f_equal.
Qed.

Lemma not_nil_elem {A} (l : list A) : l ≠ [] ↔ ∃ x, x ∈ l.
Proof. split; [destruct l as [|x l]; [done|exists x; left]|by intros (x & Hx) ->; apply elem_of_nil in Hx]. Qed.

Section maximal.
Context (l : list manifestCandidate) (Hsane : sane l) (Hsrc : distinct_sources l).

Lemma sane_elem c : c ∈ l → nonneg (cclock c).
Proof. intros H. unfold sane in Hsane. rewrite Forall_forall in Hsane. auto. Qed.

Lemma dominates_of_clock d c :
  d ∈ l → c ∈ l → clockDominates (cclock d) (cclock c) = true → dominates d c = true.
Proof.
  intros Hd Hc H. apply clockDominates_dominates; [done|]. intros E.
  rewrite (same_source l d c) in H by done. by rewrite clockDominates_irrefl in H.
Qed.

Lemma dominates_trans c d e :
  c ∈ l → d ∈ l → e ∈ l → dominates e d = true → dominates d c = true → dominates e c = true.
Proof.
  intros Hc Hd He H1 H2. apply dominates_of_clock; [done..|].
  apply (clockDominates_trans _ (cclock d)); auto using sane_elem, dominates_clock.
Qed.

(** Every dominated member is dominated by a surviving one. *)
Lemma dominated_by_survivor c :
  c ∈ l → isCausallyDominated c l = true →
  ∃ m, m ∈ antichain_of l ∧ dominates m c = true.
Proof.
  remember (length (List.filter (fun d => dominates d c) l)) as n eqn:Hn.
  revert c Hn. induction (lt_wf n) as [n _ IH]. intros c -> Hc Hdom.
  apply isCausallyDominated_iff in Hdom as (d & Hd & Hdc).
  destruct (isCausallyDominated d l) eqn:Ed.
  - destruct (IH (length (List.filter (fun e => dominates e d) l))) with (c := d)
      as (m & Hm & Hmd); [|done|done|done|].
    + apply (bfilter_lt _ _ l d); [done|done| |].
      * unfold dominates. by rewrite clockDominates_irrefl, andb_false_r.
      * intros e He Hed. by apply (dominates_trans c d e).
    + exists m. split; [done|]. apply (dominates_trans c d m); try done.
      by apply elem_of_bfilter in Hm as [Hm _].
  - exists d. split; [|done]. apply elem_of_bfilter. by rewrite Ed.
Qed.

Lemma antichain_nonempty : l ≠ [] → antichain_of l ≠ [].
Proof.
  intros Hne E. destruct (proj1 (not_nil_elem l) Hne) as [c Hc].
  destruct (isCausallyDominated c l) eqn:Ed.
  - destruct (dominated_by_survivor c Hc Ed) as (m & Hm & _). rewrite E in Hm. by apply elem_of_nil in Hm.
  - assert (Hm : c ∈ antichain_of l) by (apply elem_of_bfilter; by rewrite Ed).
    rewrite E in Hm. by apply elem_of_nil in Hm.
Qed.

Lemma antichain_concurrent c d :
  c ∈ antichain_of l → d ∈ antichain_of l → clockDominates (cclock d) (cclock c) = false.
Proof.
  intros [Hc Ec]%elem_of_bfilter [Hd _]%elem_of_bfilter. apply negb_true_iff in Ec.
  apply not_true_is_false. intros H. apply not_true_iff_false in Ec. destruct Ec.
  apply isCausallyDominated_iff. exists d. split; [done|]. by apply dominates_of_clock.
Qed.
End maximal.

Lemma isCausallyDominated_perm c l1 l2 : l1 ≡ₚ l2 → isCausallyDominated c l1 = isCausallyDominated c l2.
Proof.
  intros Hp. apply eq_iff_eq_true. rewrite !isCausallyDominated_iff. by setoid_rewrite Hp.
Qed.

Lemma antichain_perm l1 l2 : l1 ≡ₚ l2 → antichain_of l1 ≡ₚ antichain_of l2.
Proof.
  intros Hp. unfold antichain_of. rewrite (bfilter_perm _ l1 l2 Hp).
  erewrite bfilter_ext; [done|]. intros x _. by rewrite (isCausallyDominated_perm x l1 l2 Hp).
Qed.

Lemma dominated_perm l1 l2 : l1 ≡ₚ l2 → dominated_of l1 ≡ₚ dominated_of l2.
Proof.
  intros Hp. unfold dominated_of. rewrite (bfilter_perm _ l1 l2 Hp).
  erewrite bfilter_ext; [done|]. intros x _. by rewrite (isCausallyDominated_perm x l1 l2 Hp).
Qed.

Lemma dominated_antichain l : l ≡ₚ dominated_of l ++ antichain_of l.
Proof. apply bfilter_split. Qed.

(** ** The tie-break is a total order on keys *)

Definition tie_key (r : ManifestRecord) : bool * string * string :=
  (mr_Deleted r, contentKey r, clockString (clockOf r)).

Definition key_gt (a b : bool * string * string) : bool :=
  let '(d1, s1, t1) := a in let '(d2, s2, t2) := b in
  if negb (Bool.eqb d1 d2) then d1
  else if negb (String.eqb s1 s2) then str_gtb s1 s2
  else str_gtb t1 t2.

Lemma concurrentTiebreak_key a b :
  (0 <? concurrentTiebreak a b) = key_gt (tie_key (mc_Record a)) (tie_key (mc_Record b)).
Proof.
  unfold concurrentTiebreak, key_gt, tie_key.
  destruct (negb (Bool.eqb _ _)); [by destruct (mr_Deleted (mc_Record a))|].
  destruct (negb (String.eqb (contentKey _) _)); [by destruct (str_gtb _ _)|].
  destruct (String.eqb_spec (clockString (clockOf (mc_Record a))) (clockString (clockOf (mc_Record b)))) as [->|];
    simpl; [by rewrite str_gtb_irrefl|by destruct (str_gtb _ _)].
Qed.

Lemma key_gt_order (P : bool * string * string → Prop) : weak_order key_gt P.
Proof.
  split.
  - intros [[d1 s1] t1] [[d2 s2] t2] _ _. unfold key_gt.
    destruct d1, d2; simpl; try done; rewrite (String.eqb_sym s2 s1);
      destruct (String.eqb s1 s2); simpl; apply str_gtb_asym.
  - intros [[d1 s1] t1] [[d2 s2] t2] [[d3 s3] t3] _ _ _. unfold key_gt.
    destruct d1, d2, d3; simpl; try done;
      destruct (String.eqb_spec s1 s2) as [->|N1]; simpl;
      destruct (String.eqb_spec s2 s3) as [->|N2]; simpl;
      rewrite ?String.eqb_refl; simpl; eauto using str_gtb_ntrans.
    all: try (apply String.eqb_neq in N1 as E1; rewrite ?E1; simpl; by eauto).
    all: try (apply String.eqb_neq in N2 as E2; rewrite ?E2; simpl; by eauto).
    all: destruct (String.eqb_spec s1 s3) as [->|N3]; simpl; eauto using str_gtb_ntrans.
    all: intros H1 H2; exfalso; apply N1; by apply str_gtb_total.
Qed.

Lemma key_gt_total a b : key_gt a b = false → key_gt b a = false → a = b.
Proof.
  destruct a as [[d1 s1] t1], b as [[d2 s2] t2]. unfold key_gt.
  destruct d1, d2; simpl; try done; rewrite (String.eqb_sym s2 s1);
    destruct (String.eqb_spec s1 s2) as [->|N]; simpl; intros H1 H2.
  all: try (by rewrite (str_gtb_total t1 t2 H1 H2)).
  all: exfalso; apply N; by apply str_gtb_total.
Qed.

(** On a clocked antichain [candidateCompare] is the tie-break. *)
Lemma candidateCompare_concurrent now l a b :
  sane l → distinct_sources l → Forall clocked l →
  a ∈ antichain_of l → b ∈ antichain_of l →
  candidateCompare now a b = concurrentTiebreak a b.
Proof.
  intros Hs Hd Hc Ha Hb. unfold candidateCompare. fold (cclock a) (cclock b).
  rewrite (antichain_concurrent l Hd b a), (antichain_concurrent l Hd a b) by done.
  rewrite Forall_forall in Hc.
  apply elem_of_bfilter in Ha as [Ha _]. apply elem_of_bfilter in Hb as [Hb _].
  by rewrite !bool_decide_eq_false_2 by (by apply Hc).
Qed.

Definition key_sort (l : list ManifestRecord) : list ManifestRecord :=
  go_sort (fun a b => key_gt (tie_key a) (tie_key b)) l.

Lemma winner_sort_keys now l :
  sane l → distinct_sources l → Forall clocked l →
  map mc_Record (winner_sort now (antichain_of l)) = key_sort (map mc_Record (antichain_of l)).
Proof.
  intros Hs Hd Hc. unfold winner_sort, key_sort.
  rewrite <- (go_sort_map mc_Record). f_equal. apply go_sort_ext. intros a b Ha Hb.
  rewrite (candidateCompare_concurrent now l) by done. apply concurrentTiebreak_key.
Qed.

Lemma weak_order_preimage {A B} (f : A → B) less :
  weak_order less (fun _ => True) → weak_order (fun a b => less (f a) (f b)) (fun _ => True).
Proof. intros [H1 H2]. split; intros; [eapply H1|eapply H2]; eauto. Qed.

(** Two records of the set with the same tie-break key are the same record. *)
Definition no_ties (l : list manifestCandidate) : Prop :=
  ∀ a b, a ∈ l → b ∈ l → tie_key (mc_Record a) = tie_key (mc_Record b) → mc_Record a = mc_Record b.

Lemma key_sort_perm l1 l2 :
  (∀ x y, x ∈ l1 → y ∈ l1 → tie_key x = tie_key y → x = y) →
  l1 ≡ₚ l2 → key_sort l1 = key_sort l2.
Proof.
  intros Ht Hp. apply (go_sort_unique _ (fun _ => True)); [|by apply Forall_true|done|].
  - apply weak_order_preimage, key_gt_order.
  - intros x y Hx Hy H1 H2. apply Ht; try done. by apply key_gt_total.
Qed.

(** ** What the loop over the losers decides *)

Definition conflict_view (c : plannedConflict) : string * FileRecord := (pc_Path c, pc_Rec c).
Definition conflict_of (now : Z) (p : string) (w r : ManifestRecord) : option (string * FileRecord) :=
  match judge_loser now p w r with Conflict cp rec => Some (cp, rec) | Removed => None end.
Definition removed_by (now : Z) (p : string) (w r : ManifestRecord) : bool :=
  match judge_loser now p w r with Conflict _ _ => false | Removed => true end.

Lemma losers_conflicts now p w l :
  map conflict_view (fst (losers now p w l)) = omap (conflict_of now p w) (map mc_Record l).
Proof.
  induction l as [|c l IH]; simpl; [done|]. destruct (losers now p w l) as [cs rs]. simpl in *.
  unfold conflict_of at 1. destruct (judge_loser now p w (mc_Record c)); simpl; by rewrite IH.
Qed.

Lemma losers_removes now p w l :
  length (snd (losers now p w l)) = length (List.filter (removed_by now p w) (map mc_Record l)).
Proof.
  induction l as [|c l IH]; simpl; [done|]. destruct (losers now p w l) as [cs rs]. simpl in *.
  unfold removed_by at 1. destruct (judge_loser now p w (mc_Record c)); simpl; by rewrite IH.
Qed.

(** Each loser's file is either replaced by its conflict copy or removed. *)
Lemma losers_sources now p w l :
  map mc_Source l ≡ₚ map pc_Source (fst (losers now p w l)) ++ snd (losers now p w l).
Proof.
  induction l as [|c l IH]; simpl; [done|]. destruct (losers now p w l) as [cs rs]. simpl in *.
  destruct (judge_loser now p w (mc_Record c)); simpl.
  - rewrite IH. apply Permutation_middle.
  - by rewrite IH.
Qed.

Lemma losers_elem now p w l c cp rec :
  c ∈ l → judge_loser now p w (mc_Record c) = Conflict cp rec →
  MkConflict cp rec (mc_Source c) ∈ fst (losers now p w l).
Proof.
  intros Hc Hj. induction l as [|d l IH]; [by apply elem_of_nil in Hc|]. simpl.
  destruct (losers now p w l) as [cs rs]. apply elem_of_cons in Hc as [->|Hc].
  - rewrite Hj. simpl. by left.
  - specialize (IH Hc). destruct (judge_loser now p w (mc_Record d)); simpl in *; [done|by right].
Qed.

(** The shape of a non-empty reconciliation. *)
Lemma reconcile_shape now p l r :
  l ≠ [] → reconcilePathCandidates now p l = Some r →
  ∃ w rest, winner_sort now (antichain_of l) = w :: rest ∧
    r = (if mr_Deleted (mc_Record w) then None
         else Some (normalizeRecordMetadata now (mr_File (mc_Record w)) (mr_UpdatedAt (mc_Record w))),
         fst (losers now p (mc_Record w) rest),
         map mc_Source (dominated_of l) ++ snd (losers now p (mc_Record w) rest)).
Proof.
  unfold reconcilePathCandidates. intros Hne. destruct l as [|c t] eqn:E; [done|]. rewrite <- E in *.
  destruct (winner_sort now (antichain_of l)) as [|w rest]; [done|].
  destruct (losers now p (mc_Record w) rest) as [cs rs] eqn:El. intros [= <-].
  exists w, rest. by rewrite El.
Qed.

Lemma reconcile_total now p l :
  sane l → distinct_sources l → ∃ r, reconcilePathCandidates now p l = Some r.
Proof.
  intros Hs Hd. unfold reconcilePathCandidates. destruct l as [|c t] eqn:E; [by eexists|].
  rewrite <- E in *. destruct (winner_sort now (antichain_of l)) as [|w rest] eqn:Ew.
  - apply go_sort_nil_inv in Ew. exfalso. revert Ew. apply antichain_nonempty; [done..|]. by rewrite E.
  - destruct (losers now p (mc_Record w) rest). by eexists.
Qed.

Lemma antichain_sub l c : c ∈ antichain_of l → c ∈ l.
Proof. by intros [? _]%elem_of_bfilter. Qed.

Lemma no_ties_records l :
  no_ties l → ∀ x y, x ∈ map mc_Record (antichain_of l) → y ∈ map mc_Record (antichain_of l) →
  tie_key x = tie_key y → x = y.
Proof.
  intros Ht x y Hx Hy. apply list_elem_of_In, in_map_iff in Hx as (a & <- & Ha).
  apply list_elem_of_In, in_map_iff in Hy as (b & <- & Hb).
  apply list_elem_of_In, antichain_sub in Ha, Hb. by apply Ht.
Qed.

Lemma sane_perm l1 l2 : l1 ≡ₚ l2 → sane l1 → sane l2.
Proof. unfold sane. by intros ->. Qed.
Lemma distinct_sources_perm l1 l2 : l1 ≡ₚ l2 → distinct_sources l1 → distinct_sources l2.
Proof. unfold distinct_sources. by intros ->. Qed.

Lemma winner_records_perm now l1 l2 :
  l1 ≡ₚ l2 → sane l1 → distinct_sources l1 → Forall clocked l1 → no_ties l1 →
  map mc_Record (winner_sort now (antichain_of l1)) = map mc_Record (winner_sort now (antichain_of l2)).
Proof.
  intros Hp Hs Hd Hc Ht.
  rewrite !winner_sort_keys; eauto using sane_perm, distinct_sources_perm; [|by rewrite <- Hp].
  apply key_sort_perm; [by apply no_ties_records|]. by rewrite (antichain_perm l1 l2 Hp).
Qed.

Lemma map_inj_list {A B} (f : A → B) (S : A → Prop) (l1 l2 : list A) :
  (∀ x y, S x → S y → f x = f y → x = y) → Forall S l1 → Forall S l2 → map f l1 = map f l2 → l1 = l2.
Proof.
  intros Hf H1. revert l2. induction H1 as [|x l1 Hx _ IH]; intros [|y l2] H2; simpl; try done.
  inversion H2; subst. intros [= E1 E2]. f_equal; [by apply Hf|by apply IH].
Qed.

Lemma winner_sort_members now l c : c ∈ winner_sort now (antichain_of l) → c ∈ l.
Proof. unfold winner_sort. rewrite go_sort_in. apply antichain_sub. Qed.

(** With pairwise different records the sorted survivors are the same list. *)
Lemma winner_sort_perm now l1 l2 :
  l1 ≡ₚ l2 → sane l1 → distinct_sources l1 → Forall clocked l1 → no_ties l1 →
  NoDup (map mc_Record l1) →
  winner_sort now (antichain_of l1) = winner_sort now (antichain_of l2).
Proof.
  intros Hp Hs Hd Hc Ht Hn.
  apply (map_inj_list mc_Record (fun c => c ∈ l1)); [| | |by apply winner_records_perm].
  - intros x y Hx Hy E. apply list_elem_of_lookup in Hx as [i Hi], Hy as [j Hj].
    assert (i = j) as ->; [|congruence]. eapply NoDup_lookup; [exact Hn|..].
    + rewrite list_lookup_fmap, Hi. done.
    + rewrite list_lookup_fmap, Hj. simpl. by rewrite E.
  - apply Forall_forall. intros c. apply winner_sort_members.
  - apply Forall_forall. intros c Hx%winner_sort_members. by rewrite Hp.
Qed.

Lemma reconcile_perm_total now p l1 l2 :
  l1 ≡ₚ l2 → sane l1 → distinct_sources l1 → l1 ≠ [] →
  ∃ r1 r2, reconcilePathCandidates now p l1 = Some r1 ∧ reconcilePathCandidates now p l2 = Some r2.
Proof.
  intros Hp Hs Hd Hne.
  destruct (reconcile_total now p l1 Hs Hd) as [r1 E1].
  destruct (reconcile_total now p l2) as [r2 E2]; eauto using sane_perm, distinct_sources_perm.
Qed.

(** C1. The outcome of a reconciliation does not depend on the order the copies
    were read in: for clocked copies with different tie-break keys, every
    permutation yields the same live record, the same conflict copies in the same
    order, and as many removals; when all records differ, the very same conflict
    entries and the same set of removed files. *)
Theorem reconcile_order_independent now p l1 l2 :
  l1 ≡ₚ l2 → l1 ≠ [] → sane l1 → distinct_sources l1 → Forall clocked l1 → no_ties l1 →
  ∃ live cs1 rs1 cs2 rs2,
    reconcilePathCandidates now p l1 = Some (live, cs1, rs1) ∧
    reconcilePathCandidates now p l2 = Some (live, cs2, rs2) ∧
    map conflict_view cs1 = map conflict_view cs2 ∧ length rs1 = length rs2 ∧
    (NoDup (map mc_Record l1) → cs1 = cs2 ∧ rs1 ≡ₚ rs2).
Proof.
  intros Hp Hne Hs Hd Hc Ht.
  destruct (reconcile_perm_total now p l1 l2 Hp Hs Hd Hne) as (r1 & r2 & E1 & E2).
  assert (Hne2 : l2 ≠ []) by (intros ->; apply Hne; by apply Permutation_nil_r).
  destruct (reconcile_shape _ _ _ _ Hne E1) as (w1 & t1 & S1 & ->).
  destruct (reconcile_shape _ _ _ _ Hne2 E2) as (w2 & t2 & S2 & ->).
  pose proof (winner_records_perm now l1 l2 Hp Hs Hd Hc Ht) as Hr.
  rewrite S1, S2 in Hr. injection Hr as Hw Hrest.
  do 5 eexists. split; [exact E1|]. rewrite Hw. split; [exact E2|].
  rewrite !losers_conflicts, Hrest. split; [done|].
  rewrite !length_app, !losers_removes, Hrest, !length_map, (dominated_perm l1 l2 Hp).
  split; [done|]. intros Hn.
  pose proof (winner_sort_perm now l1 l2 Hp Hs Hd Hc Ht Hn) as Hsort.
  rewrite S1, S2 in Hsort. injection Hsort as -> ->.
  split; [done|]. apply Permutation_app_tail, Permutation_map. by apply dominated_perm.
Qed.

(** ** Concrete copies for the witnesses *)
Module Sample.
Definition frec (gen : Z) (id : string) (c : clock) : FileRecord :=
  MkFileRecord 3 384 "" "2024-01-01T00:00:00Z" gen [MkChunkRef id 3] "" c ∅.
Definition edit (src : string) (gen : Z) (id : string) (c : clock) : manifestCandidate :=
  MkCandidate (MkManifestRecord 1 "content/a" "2024-01-01T00:00:00Z" false 0 ∅ (frec gen id c)) "id" src src.
Definition tomb (src : string) (gen : Z) (c : clock) : manifestCandidate :=
  MkCandidate (MkManifestRecord 1 "content/a" "2024-01-02T00:00:00Z" true 0 c
    (MkFileRecord 0 0 "" "2024-01-02T00:00:00Z" gen [] "" c ∅)) "id" src src.
(** Two devices edit concurrently; a third copy is the common ancestor. *)
Definition ancestor := edit "x.manifest" 1 "00" {["d1" := 1]}.
Definition edit1 := edit "y.manifest" 2 "11" {["d1" := 2]}.
Definition edit2 := edit "z.manifest" 2 "22" (<["d2" := 1]> {["d1" := 1]}).
Definition three := [ancestor; edit1; edit2].
(** Two clocked edits and one written by a client without clocks. *)
Definition mixed1 := edit "A" 1 "ab" {["d1" := 5]}.
Definition mixed2 := edit "B" 3 "bb" {["d2" := 5]}.
Definition mixed3 := edit "C" 2 "cc" ∅.
(** Clocks with a negative counter, each strictly above the other for the code. *)
Definition neg1 := edit "A" 1 "aa" {["d1" := -1]}.
Definition neg2 := edit "B" 1 "bb" {["d2" := -1]}.

Lemma three_sane : sane three.
Proof. unfold sane. by_decide. Qed.
Lemma three_sources : distinct_sources three.
Proof. unfold distinct_sources. by_decide. Qed.
Lemma three_clocked : Forall clocked three.
Proof. unfold clocked. by_decide. Qed.
Lemma three_no_ties : no_ties three.
Proof.
  assert (H : Forall (fun a => Forall (fun b =>
    tie_key (mc_Record a) = tie_key (mc_Record b) → mc_Record a = mc_Record b) three) three).
  { by_decide. }
  intros a b Ha Hb. rewrite Forall_forall in H. specialize (H a Ha). rewrite Forall_forall in H. by apply H.
Qed.
End Sample.

Lemma reconcile_order_independent_witness :
  Sample.three ≡ₚ rev Sample.three ∧
  ∃ live cs1 rs1 cs2 rs2,
    reconcilePathCandidates 0 "content/a" Sample.three = Some (live, cs1, rs1) ∧
    reconcilePathCandidates 0 "content/a" (rev Sample.three) = Some (live, cs2, rs2) ∧
    map conflict_view cs1 = map conflict_view cs2 ∧ length rs1 = length rs2 ∧
    (NoDup (map mc_Record Sample.three) → cs1 = cs2 ∧ rs1 ≡ₚ rs2).
Proof.
  split; [apply Permutation_rev|].
  apply (reconcile_order_independent 0 "content/a" Sample.three (rev Sample.three));
    [apply Permutation_rev|discriminate|apply Sample.three_sane|apply Sample.three_sources
    |apply Sample.three_clocked|apply Sample.three_no_ties].
Defined.

(** C2. Nothing is lost and nothing is invented: on non-negative clocks and distinct
    files a reconciliation of a non-empty set always returns; one of the copies,
    not causally superseded by any other, decides the path (the live record is its
    normalised file record, or none for a tombstone), and every other copy is
    either replaced by its conflict entry or removed, exactly once. *)
Theorem reconcile_accounts_for_every_copy now p l :
  l ≠ [] → sane l → distinct_sources l →
  ∃ w live cs rs,
    reconcilePathCandidates now p l = Some (live, cs, rs) ∧
    w ∈ l ∧ (∀ d, d ∈ l → clockDominates (cclock d) (cclock w) = false) ∧
    live = (if mr_Deleted (mc_Record w) then None
            else Some (normalizeRecordMetadata now (mr_File (mc_Record w)) (mr_UpdatedAt (mc_Record w)))) ∧
    map mc_Source l ≡ₚ mc_Source w :: map pc_Source cs ++ rs.
Proof.
  intros Hne Hs Hd. destruct (reconcile_total now p l Hs Hd) as [r E].
  destruct (reconcile_shape _ _ _ _ Hne E) as (w & rest & Hw & ->).
  assert (Hwa : w ∈ antichain_of l).
  { rewrite <- (go_sort_in (fun a b => 0 <? candidateCompare now a b)). fold (winner_sort now (antichain_of l)).
    rewrite Hw. left. }
  exists w. do 3 eexists. split; [exact E|]. split; [by apply antichain_sub|]. split; [|split; [done|]].
  - apply elem_of_bfilter in Hwa as [Hwl Hnd]. apply negb_true_iff in Hnd.
    intros d Hdl. apply not_true_is_false. intros Hdom. apply not_true_iff_false in Hnd. apply Hnd.
    apply isCausallyDominated_iff. exists d. split; [done|]. by apply (dominates_of_clock l).
  - rewrite (dominated_antichain l) at 1.
    rewrite <- (go_sort_perm (fun a b => 0 <? candidateCompare now a b) (antichain_of l)).
    fold (winner_sort now (antichain_of l)). rewrite Hw, map_app. cbn [map].
    rewrite (losers_sources now p (mc_Record w) rest), <- Permutation_middle. constructor.
    rewrite !app_assoc. apply Permutation_app_tail, Permutation_app_comm.
Qed.

Lemma reconcile_accounts_for_every_copy_witness :
  sane Sample.three ∧ ∃ w live cs rs,
    reconcilePathCandidates 0 "content/a" Sample.three = Some (live, cs, rs) ∧
    w ∈ Sample.three ∧ (∀ d, d ∈ Sample.three → clockDominates (cclock d) (cclock w) = false) ∧
    live = (if mr_Deleted (mc_Record w) then None
            else Some (normalizeRecordMetadata 0 (mr_File (mc_Record w)) (mr_UpdatedAt (mc_Record w)))) ∧
    map mc_Source Sample.three ≡ₚ mc_Source w :: map pc_Source cs ++ rs.
Proof.
  split; [apply Sample.three_sane|].
  apply (reconcile_accounts_for_every_copy 0 "content/a" Sample.three);
    [discriminate|apply Sample.three_sane|apply Sample.three_sources].
Defined.

Lemma normalizeRecordMetadata_chunks now f u :
  fr_Chunks (normalizeRecordMetadata now f u) = fr_Chunks f.
Proof. done. Qed.

(** A concurrent edit is never lost: among clocked copies, a live copy that no
    other copy causally supersedes is either the live record, or has the very
    content of the winning live record, or survives as a conflict entry that carries
    its chunks and points back at the path, even when the winner is a tombstone. *)
Theorem concurrent_edit_survives now p l c live cs rs :
  Forall clocked l →
  reconcilePathCandidates now p l = Some (live, cs, rs) →
  c ∈ l → isCausallyDominated c l = false → mr_Deleted (mc_Record c) = false →
  (∃ rec, live = Some rec ∧ sameFileRecord (mr_File (mc_Record c)) rec = true) ∨
  (∃ x, x ∈ cs ∧ pc_Source x = mc_Source c ∧ fr_Chunks (pc_Rec x) = fr_Chunks (mr_File (mc_Record c)) ∧
        fr_ConflictOf (pc_Rec x) = p).
Proof.
  intros Hc E Hin Hnd Hlive.
  assert (Hne : l ≠ []) by (apply not_nil_elem; eauto).
  destruct (reconcile_shape _ _ _ _ Hne E) as (w & rest & Hw & Heq). injection Heq as -> -> ->.
  assert (Ha : c ∈ winner_sort now (antichain_of l)).
  { unfold winner_sort. rewrite go_sort_in. apply elem_of_bfilter. by rewrite Hnd. }
  assert (Hwl : w ∈ l) by (apply (winner_sort_members now l); rewrite Hw; left).
  assert (Hboth : bothClocked (mc_Record w) (mc_Record c) = true).
  { unfold bothClocked. rewrite Forall_forall in Hc. fold (cclock w) (cclock c).
    by rewrite !bool_decide_eq_false_2 by (by apply Hc). }
  rewrite Hw in Ha. apply elem_of_cons in Ha as [->|Ha].
  { left. rewrite Hlive. eexists. split; [done|]. unfold sameFileRecord. simpl.
    by rewrite Z.eqb_refl, bool_decide_eq_true_2. }
  destruct (Bool.eqb (mr_Deleted (mc_Record c)) (mr_Deleted (mc_Record w)) &&
    sameFileRecord (mr_File (mc_Record c)) (mr_File (mc_Record w))) eqn:Hdup.
  - apply andb_true_iff in Hdup as [Hdel Hsame]. apply eqb_prop in Hdel. rewrite Hlive in Hdel.
    left. rewrite <- Hdel. eexists. split; [done|]. exact Hsame.
  - right.
    pose (rec := normalizeRecordMetadata now (mr_File (mc_Record c)) (mr_UpdatedAt (mc_Record c))).
    exists (MkConflict (conflictPath p rec) (with_ConflictOf rec p) (mc_Source c)).
    split; [|done]. apply losers_elem; [done|]. unfold judge_loser. rewrite Hdup, Hlive, Hboth.
    cbn [negb]. by rewrite andb_false_r.
Qed.

Lemma concurrent_edit_survives_witness :
  isCausallyDominated Sample.edit2 [Sample.tomb "t" 9 {["d1" := 7]}; Sample.edit2] = false ∧
  ((∃ rec, None = Some rec ∧ sameFileRecord (mr_File (mc_Record Sample.edit2)) rec = true) ∨
   (∃ x, x ∈ [MkConflict "content/a.conflict-20240101T000000Z-88ae92882604"
          (with_ConflictOf (mr_File (mc_Record Sample.edit2)) "content/a") "z.manifest"] ∧
     pc_Source x = mc_Source Sample.edit2 ∧
     fr_Chunks (pc_Rec x) = fr_Chunks (mr_File (mc_Record Sample.edit2)) ∧
     fr_ConflictOf (pc_Rec x) = "content/a")).
Proof.
  split; [vm_compute; reflexivity|].
  apply (concurrent_edit_survives 0 "content/a" [Sample.tomb "t" 9 {["d1" := 7]}; Sample.edit2]
    Sample.edit2 None _ []); [unfold clocked; by_decide| |right; left|vm_compute; reflexivity|reflexivity].
  vm_compute. reflexivity.
Defined.

Lemma distinct_sources_nodup l : distinct_sources l → NoDup l.
Proof. apply NoDup_fmap_1. Qed.

Lemma antichain_single l d :
  sane l → distinct_sources l → d ∈ l →
  (∀ c, c ∈ l → c ≠ d → clockDominates (cclock d) (cclock c) = true) →
  antichain_of l = [d].
Proof.
  intros Hs Hsrc Hd Hall.
  assert (Hone : ∀ c, c ∈ antichain_of l ↔ c = d).
  { intros c. unfold antichain_of. rewrite elem_of_bfilter, negb_true_iff. split.
    - intros [Hc Hn]. destruct (decide (c = d)) as [|Hne]; [done|]. exfalso.
      apply not_true_iff_false in Hn. apply Hn, isCausallyDominated_iff.
      exists d. split; [done|]. apply (dominates_of_clock l); auto.
    - intros ->. split; [done|]. apply not_true_is_false. rewrite isCausallyDominated_iff.
      intros (e & He & Hdom). destruct (decide (e = d)) as [->|Hne].
      + apply dominates_clock in Hdom. by rewrite clockDominates_irrefl in Hdom.
      + apply dominates_clock in Hdom. specialize (Hall e He Hne).
        rewrite (clockDominates_asym (cclock e) (cclock d)) in Hall; [done| | |done];
          by apply (sane_elem l). }
  assert (Hn : NoDup (antichain_of l)).
  { apply NoDup_ListNoDup, List.NoDup_filter, NoDup_ListNoDup. by apply distinct_sources_nodup. }
  destruct (antichain_of l) as [|x [|y t]].
  - exfalso. apply (elem_of_nil d), Hone. reflexivity.
  - by rewrite (proj1 (Hone x) ltac:(left)).
  - exfalso. rewrite (proj1 (Hone x) ltac:(left)), (proj1 (Hone y) ltac:(right; left)) in Hn.
    apply NoDup_cons in Hn as [Hx _]. apply Hx. left.
Qed.

(** A causally newest copy settles the path cleanly: when one copy dominates
    every other, it alone decides the path (a tombstone: deleted), no conflict is
    created, and exactly the other copies are removed. *)
Theorem newest_copy_settles now p l d :
  sane l → distinct_sources l → d ∈ l →
  (∀ c, c ∈ l → c ≠ d → clockDominates (cclock d) (cclock c) = true) →
  ∃ rs,
    reconcilePathCandidates now p l =
      Some (if mr_Deleted (mc_Record d) then None
            else Some (normalizeRecordMetadata now (mr_File (mc_Record d)) (mr_UpdatedAt (mc_Record d))),
            [], rs) ∧
    map mc_Source l ≡ₚ mc_Source d :: rs.
Proof.
  intros Hs Hsrc Hd Hall. pose proof (antichain_single l d Hs Hsrc Hd Hall) as Ha.
  exists (map mc_Source (dominated_of l)). split.
  - assert (Hne : l ≠ []) by (apply not_nil_elem; eauto).
    destruct (reconcile_total now p l Hs Hsrc) as [r E]. rewrite E.
    destruct (reconcile_shape _ _ _ _ Hne E) as (w & rest & Hw & ->).
    rewrite Ha in Hw. injection Hw as <- <-. simpl. by rewrite app_nil_r.
  - rewrite (dominated_antichain l), Ha, map_app at 1. simpl. by rewrite Permutation_app_comm.
Qed.

Lemma newest_copy_settles_witness :
  ∃ rs, reconcilePathCandidates 0 "content/a" [Sample.edit1; Sample.tomb "t" 9 {["d1" := 7]}] =
    Some (None, [], rs) ∧ ["y.manifest"; "t"] ≡ₚ "t" :: rs.
Proof.
  apply (newest_copy_settles 0 "content/a" [Sample.edit1; Sample.tomb "t" 9 {["d1" := 7]}]
    (Sample.tomb "t" 9 {["d1" := 7]})).
  - unfold sane. by_decide.
  - unfold distinct_sources. by_decide.
  - right. left.
  - intros c Hc Hne. apply elem_of_cons in Hc as [->|Hc]; [vm_compute; reflexivity|].
    apply elem_of_cons in Hc as [->|Hc]; [by contradict Hne|by apply elem_of_nil in Hc].
Defined.

(** The order independence stops at clocks: with two clocked copies and one
    written by a client without clocks, [candidateCompare] is cyclic (content key,
    generation, generation), and three orders of the same non-negative copies,
    with pairwise different keys, elect three different live records. *)
Theorem mixed_fleet_order_dependent :
  ∃ a b c,
    sane [a; b; c] ∧ distinct_sources [a; b; c] ∧ NoDup (map (tie_key ∘ mc_Record) [a; b; c]) ∧
    (∀ now, candidateCompare now a b = 1 ∧ candidateCompare now b c = 1 ∧ candidateCompare now c a = 1) ∧
    ∃ la lb lc, NoDup [la; lb; lc] ∧
      fst ∘ fst <$> reconcilePathCandidates 0 "content/a" [a; b; c] = Some (Some la) ∧
      fst ∘ fst <$> reconcilePathCandidates 0 "content/a" [b; c; a] = Some (Some lb) ∧
      fst ∘ fst <$> reconcilePathCandidates 0 "content/a" [c; a; b] = Some (Some lc).
Proof.
  exists Sample.mixed1, Sample.mixed2, Sample.mixed3.
  split; [unfold sane; by_decide|]. split; [unfold distinct_sources; by_decide|].
  split; [by_decide|]. split; [intros now; vm_compute; done|].
  exists (mr_File (mc_Record Sample.mixed1)), (mr_File (mc_Record Sample.mixed2)),
    (mr_File (mc_Record Sample.mixed3)).
  split; [by_decide|]. repeat split; vm_compute; reflexivity.
Qed.

(** The guarantee that a maximal copy exists needs non-negative counters: two
    copies whose clocks hold a negative counter can dominate each other, the
    antichain is then empty and the function panics on its first element. *)
Theorem negative_clock_panics :
  ∃ a b, distinct_sources [a; b] ∧ Forall clocked [a; b] ∧
    clockDominates (cclock a) (cclock b) = true ∧ clockDominates (cclock b) (cclock a) = true ∧
    ∀ now p, reconcilePathCandidates now p [a; b] = None.
Proof.
  exists Sample.neg1, Sample.neg2.
  split; [unfold distinct_sources; by_decide|]. split; [unfold clocked; by_decide|].
  repeat split; vm_compute; reflexivity.
Qed.
