(* ===== verification/PathsFacts.v ===== *)
(** Properties of the virtual-path gate: what a normalised path can denote,
    when cleaning is stable, when two names collide, and what the portable-name
    sanitiser promises. *)
From S2P Require Export Paths GoPathFacts.

(** A path that cleaning leaves alone: no backslash and no outer white space. *)
Definition tight (p : string) : Prop := replace_byte backslash slash p = p ∧ trim_space p = p.

Lemma plain_head_prefix a l : plain_seg a → trim_prefix (join_slash (a :: l)) "/" = join_slash (a :: l).
Proof.
  intros (Hne & _ & _ & Hs). destruct a as [|c a]; [done|]. simpl in Hs.
  destruct (ascii_dec c slash) as [|Hc]; [done|].
  assert (∃ t, join_slash (String c a :: l) = String c t) as [t ->] by (destruct l; simpl; eauto).
  unfold trim_prefix. pose proof (path_is_abs_cons c t) as E. unfold path_is_abs in E. rewrite E.
  by rewrite bool_decide_eq_false_2.
Qed.

Lemma join_plain_nonempty l : l ≠ [] → Forall plain_seg l → join_slash l ≠ "".
Proof.
  intros Hne H. destruct H as [|a l (Ha & _) _]; [done|]. destruct a as [|c a]; [done|]. by destruct l.
Qed.

Lemma join_plain_not_dot l : l ≠ [] → Forall plain_seg l → join_slash l ≠ ".".
Proof.
  intros Hne H E. apply (f_equal split_slash) in E. rewrite split_join in E by auto using plain_no_slash.
  change (split_slash ".") with ["."] in E. subst l. inversion H as [|?? (_ & Hd & _)]; done.
Qed.

Lemma join_plain_not_parent l :
  l ≠ [] → Forall plain_seg l → has_prefix (join_slash l) "../" || String.eqb (join_slash l) ".." = false.
Proof.
  intros Hne H. destruct l as [|a l]; [done|]. inversion H as [|?? (_ & _ & Hd & Hs) Hl]; subst.
  apply orb_false_iff. split.
  - apply not_true_is_false. intros E. apply has_prefix_inv in E as [t E].
    apply (f_equal split_slash) in E. rewrite split_join in E by auto using plain_no_slash.
    change ("../" +:+ t) with (".." +:+ String slash t) in E. rewrite split_slash_app in E by done.
    by injection E as -> _.
  - apply String.eqb_neq. intros E. apply (f_equal split_slash) in E.
    rewrite split_join in E by auto using plain_no_slash. by injection E as -> _.
Qed.

Lemma clean_stable p : clean_path p → tight p → CleanVirtualPath p = Ok p.
Proof.
  intros Hp [Hb Ht]. unfold CleanVirtualPath. rewrite Hb, Ht.
  destruct Hp as [->|(l & Hne & -> & Hl)]; [done|].
  assert (E : trim_prefix (join_slash l) "/" = join_slash l).
  { destruct l as [|a l]; [done|]. apply plain_head_prefix. by inversion Hl. }
  rewrite E, path_clean_join by done.
  rewrite (proj2 (String.eqb_neq _ "")) by auto using join_plain_nonempty.
  rewrite (proj2 (String.eqb_neq _ ".")) by auto using join_plain_not_dot.
  cbn [orb]. rewrite join_plain_not_parent, join_plain_rel by done. done.
Qed.

(** C38. A path that the content gate accepts lies under the protected content
    root: it is [content], or [content/] followed by plain segments (none empty,
    [.] or [..], none with a slash of its own), whatever the input was; and a
    file path has at least one segment below the root and is not a directory
    marker. *)
Theorem content_gate_contains `{GoUnicode} (input p : string) :
  (NormalizeContentPath input = Ok p →
   ∃ segs, split_slash p = ContentRootName :: segs ∧ Forall plain_seg segs) ∧
  (normalizeContentFilePath input = Ok p →
   ∃ segs, segs ≠ [] ∧ split_slash p = ContentRootName :: segs ∧ Forall plain_seg segs ∧
           IsDirectoryMarkerPath p = false).
Proof.
  assert (Hseg : ∀ q, NormalizeContentPath input = Ok q →
    ∃ segs, q = join_slash ("content" :: segs) ∧
            split_slash q = ContentRootName :: segs ∧ Forall plain_seg segs).
  { intros q Hq. destruct (NormalizeContentPath_segs _ _ Hq) as (segs & -> & Hs). exists segs.
    rewrite split_join; [done..|]. constructor; [done|]. by apply plain_no_slash. }
  split.
  - intros Hp. destruct (Hseg p Hp) as (segs & _ & ?). by exists segs.
  - unfold normalizeContentFilePath. intros Hp. apply bind_ok in Hp as (q & Hq & Hp).
    destruct (Hseg q Hq) as (segs & Eq & Hsp & Hs).
    destruct (_ || has_suffix q "/") eqn:E1; [done|]. destruct (IsDirectoryMarkerPath q) eqn:E2; [done|].
    injection Hp as <-. exists segs. repeat split; [|done..]. intros ->. subst q. done.
Qed.

Lemma content_gate_contains_witness :
  NormalizeContentPath "/a/../content//x/" = Ok "content/x" ∧
  ∃ segs, split_slash "content/x" = ContentRootName :: segs ∧ Forall plain_seg segs.
Proof.
  assert (E : NormalizeContentPath "/a/../content//x/" = Ok "content/x") by (vm_compute; reflexivity).
  split; [exact E|]. exact (proj1 (@content_gate_contains demo_unicode _ _) E).
Defined.

Lemma replace_byte_same c s : replace_byte c c s = s.
Proof.
  unfold replace_byte. induction s as [|d s IH]; simpl; [done|].
  destruct (ascii_dec d c) as [->|]; by rewrite IH.
Qed.

Lemma path_join_plain l1 l2 :
  l1 ≠ [] → l2 ≠ [] → Forall plain_seg l1 → Forall plain_seg l2 →
  path_join [join_slash l1; join_slash l2] = join_slash (l1 ++ l2).
Proof.
  intros N1 N2 P1 P2. unfold path_join. cbn -[path_clean join_slash].
  rewrite !(proj2 (String.eqb_neq _ "")) by auto using join_plain_nonempty. cbn -[path_clean join_slash].
  rewrite join_slash_cons. change (join_slash [join_slash l2]) with (join_slash l2).
  rewrite <- join_slash_cat by done. apply path_clean_join; [by destruct l1|]. by apply Forall_app.
Qed.

Lemma join_plain_inj l1 l2 :
  l1 ≠ [] → l2 ≠ [] → Forall plain_seg l1 → Forall plain_seg l2 →
  join_slash l1 = join_slash l2 → l1 = l2.
Proof.
  intros N1 N2 P1 P2 E. apply (f_equal split_slash) in E.
  by rewrite !split_join in E by auto using plain_no_slash.
Qed.

(** Joining is injective, for names a clean leaves alone: two different tight
    clean relative paths land on two different virtual paths under the same
    base.  (Without tightness it is not: see [virtualJoin_collides].) *)
Theorem virtualJoin_injective (base r1 r2 p : string) :
  clean_path r1 → tight r1 → clean_path r2 → tight r2 →
  virtualJoin base r1 = Ok p → virtualJoin base r2 = Ok p → r1 = r2.
Proof.
  unfold virtualJoin. intros C1 T1 C2 T2.
  destruct (CleanVirtualPath base) as [b|e] eqn:Eb; [|done]. cbn -[CleanVirtualPath path_join].
  rewrite !replace_byte_same, (clean_stable r1), (clean_stable r2) by done. cbn -[path_join].
  destruct (String.eqb_spec b "") as [|Hb]; [by intros [= ->] [= ->]|].
  apply CleanVirtualPath_clean in Eb as [->|(lb & Nb & -> & Pb)]; [done|].
  destruct C1 as [->|(l1 & N1 & -> & P1)]; destruct C2 as [->|(l2 & N2 & -> & P2)]; [done| | |];
    rewrite ?(proj2 (String.eqb_neq (join_slash _) "")) by auto using join_plain_nonempty; cbn -[path_join];
    rewrite ?path_join_plain by done; intros [= H1] [= H2]; subst p; apply join_plain_inj in H2; try done;
    try (by destruct lb); try (by apply Forall_app).
  - apply (f_equal length) in H2. rewrite length_app in H2. destruct l2; [done|simpl in H2; lia].
  - apply (f_equal length) in H2. rewrite length_app in H2. destruct l1; [done|simpl in H2; lia].
  - apply app_inv_head in H2. by subst.
Qed.

Lemma virtualJoin_injective_witness :
  virtualJoin "content" "a/b" = Ok "content/a/b" ∧
  (virtualJoin "content" "a/b" = Ok "content/a/b" → "a/b" = "a/b").
Proof.
  assert (C : clean_path "a/b").
  { right. exists ["a"; "b"]. split; [done|]. split; [reflexivity|]. repeat constructor; done. }
  assert (T : tight "a/b") by (split; vm_compute; reflexivity).
  split; [vm_compute; reflexivity|]. intros E. exact (virtualJoin_injective "content" "a/b" "a/b" _ C T C T E E).
Defined.

(** The import path is lossy: two different relative paths of a file tree
    (no empty or parent segment, the separator is a slash) land on one virtual
    path, so the second file imported replaces the first. *)
Theorem virtualJoin_collides :
  ∃ r1 r2 r3 r4, r1 ≠ r2 ∧ r3 ≠ r4 ∧ Forall clean_path [r1; r2; r3; r4] ∧
    virtualJoin "content" r1 = virtualJoin "content" r2 ∧ is_ok (virtualJoin "content" r1) = true ∧
    virtualJoin "content" r3 = virtualJoin "content" r4 ∧ is_ok (virtualJoin "content" r3) = true.
Proof.
  assert (Hp : ∀ s, plain_seg s → clean_path s).
  { intros s Hs. right. exists [s]. split; [done|]. split; [done|]. by constructor. }
  exists "a", "a ", "x/y", "x\y". split; [done|]. split; [done|].
  split; [|by vm_compute].
  rewrite !Forall_cons. split_and!; try (by apply Hp; repeat split); [|constructor].
  right. exists ["x"; "y"]. split; [done|]. split; [done|]. by repeat constructor.
Qed.

(** Valid UTF-8: every rune decodes. *)
Fixpoint valid_utf8 (fuel : nat) (s : string) : bool :=
  match fuel, s with
  | S f, String _ _ => match rune_width s with
                       | Some n => valid_utf8 f (str_drop n s)
                       | None => false
                       end
  | O, String _ _ => false
  | _, EmptyString => true
  end.

Lemma list_ascii_drop n s : list_ascii_of_string (str_drop n s) = drop n (list_ascii_of_string s).
Proof. revert s. induction n; intros [|c s]; simpl; auto. Qed.

Lemma scan_portable_inv l : scan_portable l = None → Forall (fun c => ok_char c = true) l.
Proof.
  induction l as [|c l IH]; simpl; [by constructor|]. unfold ok_char at 1.
  destruct (control_char c) eqn:E1; [done|]. destruct (illegal_char c) eqn:E2; [done|].
  intros H. constructor; [unfold ok_char; by rewrite E1, E2|]. by apply IH.
Qed.

Lemma sanitize_runes_id f s : ok_str s → valid_utf8 f s = true → sanitize_runes f s = s.
Proof.
  revert s. induction f as [|f IH]; intros [|c s]; try done.
  intros Hok Hv. cbn [sanitize_runes]. cbn [valid_utf8] in Hv.
  assert (Hc : ok_char c = true) by (by inversion Hok).
  unfold ok_char in Hc. apply negb_true_iff in Hc as ->.
  destruct (rune_width (String c s)) as [n|]; [|done].
  rewrite IH; [apply str_take_drop| |done].
  unfold ok_str in *. rewrite list_ascii_drop. by apply Forall_drop.
Qed.

Lemma trim_right_id p s :
  s ≠ "" → p (List.last (list_ascii_of_string s) dot) = false → trim_right p s = s.
Proof.
  intros Hne Hl. unfold trim_right. rewrite <- (string_of_list_ascii_of_string s) at 2. f_equal.
  destruct (rev (list_ascii_of_string s)) as [|c t] eqn:E.
  { apply (f_equal (@rev ascii)) in E. rewrite rev_involutive in E. by rewrite E. }
  assert (E' : list_ascii_of_string s = rev t ++ [c]) by (rewrite <- (rev_involutive (list_ascii_of_string s)), E; done).
  rewrite E', last_last in Hl. cbn [drop_while]. rewrite Hl. by rewrite E'.
Qed.

(** The sanitiser and the gate agree: whatever the name, its sanitised form
    passes the gate; and a valid UTF-8 name the gate accepts is its own
    sanitised form, so the suggestion the gate prints is never a spurious
    change. *)
Theorem sanitize_gate_agree (s : string) :
  ValidatePortableName (sanitizePortableSegment s) = None ∧
  (valid_utf8 (String.length s) s = true → ValidatePortableName s = None → sanitizePortableSegment s = s).
Proof.
  split; [apply sanitize_valid|]. intros Hu. unfold ValidatePortableName.
  destruct (list_ascii_of_string s) as [|c l] eqn:El; [done|].
  destruct (scan_portable (c :: l)) eqn:Es; [done|]. destruct (dot_or_space _) eqn:Ed; [done|].
  destruct (isReservedStem s) eqn:Er; [done|]. intros _.
  assert (Hne : s ≠ "") by (by intros ->).
  unfold sanitizePortableSegment. rewrite sanitize_runes_id; [| |done].
  2:{ unfold ok_str. rewrite El. by apply scan_portable_inv. }
  rewrite trim_right_id; [|done|by rewrite El].
  rewrite (proj2 (String.eqb_neq s "")) by done. by rewrite Er.
Qed.

Lemma sanitize_gate_agree_witness :
  ValidatePortableName "report.pdf" = None ∧ sanitizePortableSegment "report.pdf" = "report.pdf".
Proof.
  split; [reflexivity|]. apply (proj2 (sanitize_gate_agree "report.pdf")); vm_compute; reflexivity.
Defined.
