(* ===== verification/GoNet.v ===== *)
(** The parsing and printing of addresses in package [net] that the limiter's peer
    key uses: [SplitHostPort], [ParseIP], [To4], [Mask] to a /64 and [String]. *)
From S2P Require Export GoTime.
Local Open Scope Z_scope.

Fixpoint index_code (c : Z) (l : list Z) : option nat :=
  match l with
  | [] => None
  | a :: t => if a =? c then Some O else S <$> index_code c t
  end.
Fixpoint last_index_code (c : Z) (l : list Z) : option nat :=
  match l with
  | [] => None
  | a :: t => match last_index_code c t with
              | Some i => Some (S i)
              | None => if a =? c then Some O else None
              end
  end.
Definition has_code (c : Z) (l : list Z) : bool := existsb (fun a => a =? c) l.

(** [net.SplitHostPort]: the host, or [None] for an error. *)
Definition SplitHostPort (s : string) : option string :=
  let l := codes s in
  match last_index_code 58 l with
  | None => None
  | Some i =>
      match l with
      | 91 :: _ =>
          match index_code 93 l with
          | None => None
          | Some e =>
              if negb (S e =? i)%nat then None
              else if has_code 91 (drop 1 l) || has_code 93 (drop (S e) l) then None
              else Some (str_take (e - 1) (str_drop 1 s))
          end
      | _ =>
          if has_code 58 (take i l) || has_code 91 l || has_code 93 l then None
          else Some (str_take i s)
      end
  end.

(** A decimal octet of an IPv4 literal: no leading zero, at most 255. *)
Definition octet (ds : list Z) : option Z :=
  match ds with
  | [] => None
  | d :: t => if (d =? 48) && negb (bool_decide (t = [])) then None
              else let v := dec_digits ds in
                   if (3 <? Z.of_nat (length ds)) || (255 <? v) then None else Some v
  end.
(** [parseIPv4]: four octets separated by dots, and nothing else. *)
Fixpoint ipv4_fields (n : nat) (l : list Z) : option (list Z) :=
  let '(ds, rest) := span_digits l in
  v ← octet ds;
  match n with
  | O => match rest with [] => Some [v] | _ => None end
  | S n' => match rest with
            | 46 :: rest' => vs ← ipv4_fields n' rest'; Some (v :: vs)
            | _ => None
            end
  end.
Definition parse_ipv4 (l : list Z) : option (list Z) := ipv4_fields 3 l.

Definition hex_val (c : Z) : option Z :=
  if (48 <=? c) && (c <=? 57) then Some (c - 48)
  else if (97 <=? c) && (c <=? 102) then Some (c - 87)
  else if (65 <=? c) && (c <=? 70) then Some (c - 55)
  else None.
Fixpoint span_hex (l : list Z) : list Z * list Z :=
  match l with
  | a :: t => match hex_val a with
              | Some v => let '(p, q) := span_hex t in (v :: p, q)
              | None => ([], l)
              end
  | [] => ([], [])
  end.

(** [parseIPv6]: groups collected so far, the position of the ellipsis among
    them.  [groups] counts bytes as the Go loop does. *)
Fixpoint ipv6_loop (fuel : nat) (acc : list Z) (ell : option nat) (l : list Z) : option (list Z * option nat) :=
  match fuel with
  | O => None
  | S f =>
      if (16 <=? length acc)%nat then match l with [] => Some (acc, ell) | _ => None end
      else
        let '(hs, rest) := span_hex l in
        if (length hs =? 0)%nat || (4 <? length hs)%nat then None
        else
          match rest with
          | 46 :: _ =>
              if (match ell with None => negb (length acc =? 12)%nat | Some _ => false end) ||
                 (12 <? length acc)%nat then None
              else v4 ← parse_ipv4 l; Some (acc ++ v4, ell)
          | _ =>
              let v := fold_left (fun a h => a * 16 + h) hs 0 in
              let acc' := acc ++ [v / 256; v mod 256] in
              match rest with
              | [] => Some (acc', ell)
              | [58] => None
              | 58 :: 58 :: rest2 =>
                  match ell with
                  | Some _ => None
                  | None => match rest2 with
                            | [] => Some (acc', Some (length acc'))
                            | _ => ipv6_loop f acc' (Some (length acc')) rest2
                            end
                  end
              | 58 :: rest1 => ipv6_loop f acc' ell rest1
              | _ => None
              end
          end
  end.
Definition parse_ipv6 (l : list Z) : option (list Z) :=
  '(acc, ell) ← match l with
    | [58; 58] => Some ([], Some O)
    | 58 :: 58 :: t => ipv6_loop 9 [] (Some O) t
    | _ => ipv6_loop 9 [] None l
    end;
  match ell with
  | None => if (length acc =? 16)%nat then Some acc else None
  | Some e => if (16 <=? length acc)%nat then None
              else Some (take e acc ++ repeat 0 (16 - length acc) ++ drop e acc)
  end.

Definition v4_in_v6 : list Z := repeat 0 10 ++ [255; 255].
Fixpoint first_sep (l : list Z) : option Z :=
  match l with
  | [] => None
  | a :: t => if (a =? 46) || (a =? 58) || (a =? 37) then Some a else first_sep t
  end.
(** [net.ParseIP]: the 16-byte form; a zone makes it fail. *)
Definition ParseIP (s : string) : option (list Z) :=
  let l := codes s in
  match first_sep l with
  | Some 46 => v ← parse_ipv4 l; Some (v4_in_v6 ++ v)
  | Some 58 => if has_code 37 l then None else parse_ipv6 l
  | _ => None
  end.

(** [ip.To4()]. *)
Definition To4 (ip : list Z) : option (list Z) :=
  if bool_decide (take 12 ip = v4_in_v6) then Some (drop 12 ip) else None.
(** [ip.Mask(net.CIDRMask(64, 128))]. *)
Definition Mask64 (ip : list Z) : list Z := take 8 ip ++ repeat 0 8.

Definition ipv4_string (v : list Z) : string := String.concat "." (map itoa v).

Fixpoint ip_groups (l : list Z) : list Z :=
  match l with a :: b :: t => (a * 256 + b) :: ip_groups t | _ => [] end.
Definition hex_digit_of (n : Z) : ascii := ascii_of_N (Z.to_N (if n <? 10 then 48 + n else 87 + n)).
Definition hex_group (v : Z) : string :=
  let d n := String (hex_digit_of n) "" in
  (if 4096 <=? v then d (v / 4096) else "") +:+ (if 256 <=? v then d ((v / 256) mod 16) else "") +:+
  (if 16 <=? v then d ((v / 16) mod 16) else "") +:+ d (v mod 16).
(** The first longest run of at least two zero groups, as (start, end). *)
Fixpoint zero_run (l : list Z) : nat :=
  match l with 0 :: t => S (zero_run t) | _ => O end.
Fixpoint best_run (i : nat) (l : list Z) (best : nat * nat) : nat * nat :=
  match l with
  | [] => best
  | _ :: t =>
      let r := zero_run l in
      let best' := if (2 <=? r)%nat && ((snd best) - (fst best) <? r)%nat then (i, (i + r)%nat) else best in
      best_run (S i) t best'
  end.
Definition ipv6_string (ip : list Z) : string :=
  let g := ip_groups ip in
  let '(s, e) := best_run 0 g (O, O) in
  if (e =? 0)%nat then String.concat ":" (map hex_group g)
  else String.concat ":" (map hex_group (take s g)) +:+ "::" +:+ String.concat ":" (map hex_group (drop e g)).

Example split_v6 : SplitHostPort "[fe80::1]:443" = Some "fe80::1".
Proof. vm_compute. reflexivity. Qed.
Example split_none : SplitHostPort "fe80::1" = None.
Proof. vm_compute. reflexivity. Qed.
Example parse_string_v6 : ipv6_string <$> ParseIP "2001:DB8:0:0:1::1" = Some "2001:db8::1:0:0:1".
Proof. vm_compute. reflexivity. Qed.
Example parse_mapped : (ParseIP "::ffff:192.0.2.7" ≫= To4) = Some [192; 0; 2; 7].
Proof. vm_compute. reflexivity. Qed.
Example parse_reject : ParseIP "192.0.02.7" = None.
Proof. vm_compute. reflexivity. Qed.
