(* ===== verification/AuthLimit.v ===== *)
(** The rate limiter and lockout of the credential-checking surfaces
    (internal/authlimit/authlimit.go).

    A [time.Time] is an instant in nanoseconds; [None] is the zero value.  A
    [time.Duration] is an [int64].  The injected clock is the stream of its
    readings, [clock i] the [i]-th one since the limiter was built; [tick]
    counts the readings taken.  Every exported method holds the mutex for its
    whole body, so a run of a limiter is a sequence of calls.  Go iterates over a
    map in an unspecified order: [range i m] is the order of the iteration over
    [m] at tick [i]. *)
From S2P Require Export GoNet.
Local Open Scope Z_scope.

Definition nanosecond : Z := 1.
Definition time_Millisecond : Z := 1000000.
Definition time_Second : Z := 1000000000.
Definition time_Minute : Z := 60 * time_Second.

(** [t.Before(u)]; the zero time precedes every reading of the clock. *)
Definition time_before (t u : option Z) : bool :=
  match t, u with
  | Some x, Some y => x <? y
  | None, Some _ => true
  | _, None => false
  end.
(** [t.Sub(u)] saturates. *)
Definition dur_sub (t u : Z) : Z := Z.max int64_min (Z.min int64_max (t - u)).

(** internal/authlimit/authlimit.go:40-48 [Surface] *)
Inductive Surface : Type := SurfaceBasic | SurfaceLogin | SurfaceLaunch | SurfaceOpen | SurfaceRedeem.
#[global] Instance Surface_eq_dec : EqDecision Surface.
Proof. solve_decision. Defined.
Definition Surface_index (s : Surface) : nat :=
  match s with
  | SurfaceBasic => 0 | SurfaceLogin => 1 | SurfaceLaunch => 2 | SurfaceOpen => 3 | SurfaceRedeem => 4
  end.
#[global] Instance Surface_countable : Countable Surface.
Proof.
  refine (inj_countable' Surface_index
    (fun n => nth n [SurfaceBasic; SurfaceLogin; SurfaceLaunch; SurfaceOpen] SurfaceRedeem) _).
  by intros [].
Defined.

(** internal/authlimit/authlimit.go:55-59 [Key] *)
Record Key : Type := mkKey { k_surface : Surface; k_peer : string; k_account : string }.
#[global] Instance Key_eq_dec : EqDecision Key.
Proof. solve_decision. Defined.
#[global] Instance Key_countable : Countable Key.
Proof.
  refine (inj_countable' (fun k => (k_surface k, k_peer k, k_account k))
    (fun t => mkKey (t.1.1) (t.1.2) (t.2)) _).
  by intros [].
Defined.

(** internal/authlimit/authlimit.go:64-72 [Policy] *)
Record Policy : Type := mkPolicy {
  FailuresBeforeLock : Z;
  AccountFailuresBeforeLock : Z;
  Window : Z;
  LockStart : Z;
  LockMax : Z;
  p_FailureDelay : Z;
  MaxKeys : Z
}.

(** internal/authlimit/authlimit.go:75-85 [DefaultPolicy] *)
Definition DefaultPolicy : Policy := {|
  FailuresBeforeLock := 5;
  AccountFailuresBeforeLock := 20;
  Window := 15 * time_Minute;
  LockStart := 30 * time_Second;
  LockMax := 15 * time_Minute;
  p_FailureDelay := 250 * time_Millisecond;
  MaxKeys := 10000
|}.

(** internal/authlimit/authlimit.go:90-114 [normalize] *)
Definition normalize (p : Policy) : Policy :=
  let d := DefaultPolicy in
  let fill x y := if x <=? 0 then y else x in
  let lockStart := fill (LockStart p) (LockStart d) in
  {| FailuresBeforeLock := fill (FailuresBeforeLock p) (FailuresBeforeLock d);
     AccountFailuresBeforeLock := fill (AccountFailuresBeforeLock p) (AccountFailuresBeforeLock d);
     Window := fill (Window p) (Window d);
     LockStart := lockStart;
     LockMax := if LockMax p <? lockStart then lockStart else LockMax p;
     p_FailureDelay := if p_FailureDelay p <? 0 then 0 else p_FailureDelay p;
     MaxKeys := fill (MaxKeys p) (MaxKeys d) |}.

(** internal/authlimit/authlimit.go:116-123 [state] *)
Record state : Type := mkState {
  failures : Z;
  pending : Z;
  lockedUntil : option Z;
  lockLen : Z;
  lastFailure : option Z;
  lastSeen : option Z
}.
#[global] Instance state_eq_dec : EqDecision state.
Proof. solve_decision. Defined.
Definition set_lastSeen (st : state) (t : option Z) : state :=
  mkState (failures st) (pending st) (lockedUntil st) (lockLen st) (lastFailure st) t.
Definition set_pending (st : state) (n : Z) : state :=
  mkState (failures st) n (lockedUntil st) (lockLen st) (lastFailure st) (lastSeen st).

(** internal/authlimit/authlimit.go:126-131 [Limiter] *)
Record Limiter : Type := mkLimiter { keys : gmap Key state; policy : Policy; tick : nat }.
Definition set_keys (l : Limiter) (m : gmap Key state) : Limiter := mkLimiter m (policy l) (tick l).

(** internal/authlimit/authlimit.go:137-146 [New] *)
Definition New (p : Policy) : Limiter := mkLimiter ∅ (normalize p) 0.

(** internal/authlimit/authlimit.go:148-153 [thresholdFor] *)
Definition thresholdFor (p : Policy) (k : Key) : Z :=
  if String.eqb (k_peer k) "" && negb (String.eqb (k_account k) "")
  then AccountFailuresBeforeLock p else FailuresBeforeLock p.

(** internal/authlimit/authlimit.go:159-159 [FailureDelay] *)
Definition FailureDelay (l : Limiter) : Z := p_FailureDelay (policy l).

(** [!st.lockedUntil.IsZero() && now.Before(st.lockedUntil)]. *)
Definition locked_at (st : state) (now : Z) : bool :=
  match lockedUntil st with None => false | Some u => now <? u end.

(** [!t.IsZero() && now.Sub(t) >= l.policy.Window]. *)
Definition stale (p : Policy) (now : Z) (t : option Z) : bool :=
  match t with None => false | Some t => Window p <=? dur_sub now t end.

(** internal/authlimit/authlimit.go:224-253 [refreshLocked] *)
Definition refreshLocked (p : Policy) (k : Key) (st : state) (now : Z) : state :=
  let threshold := thresholdFor p k in
  let st := match lockedUntil st with
            | Some u => if now <? u then st
                        else mkState (if threshold <=? failures st then wrap64 (threshold - 1) else failures st)
                               (pending st) None (lockLen st) (lastFailure st) (lastSeen st)
            | None => st
            end in
  let unlocked := bool_decide (lockedUntil st = None) in
  let st := if unlocked && stale p now (lastFailure st)
            then mkState 0 (pending st) (lockedUntil st) 0 None (lastSeen st) else st in
  let st := if unlocked && (0 <? pending st) && stale p now (lastSeen st)
            then set_pending st 0 else st in
  if threshold <? pending st then set_pending st threshold else st.

Section limiter.
Context (clock : nat → Z) (range : nat → gmap Key state → list (Key * state)).

(** [l.clock()]. *)
Definition read_clock (l : Limiter) : Z * Limiter :=
  (clock (tick l), mkLimiter (keys l) (policy l) (S (tick l))).

(** The best victim of each kind found so far by the loop of [evictOneLocked]:
    idle and locked. *)
Definition evict_scan (now : Z) (acc : option (Key * option Z) * option (Key * option Z))
    (e : Key * state) : option (Key * option Z) * option (Key * option Z) :=
  let '(idle, lockd) := acc in
  let '(k, st) := e in
  let older best := match best with None => true | Some (_, seen) => time_before (lastSeen st) seen end in
  if 0 <? pending st then acc
  else if locked_at st now then
    if older lockd then (idle, Some (k, lastSeen st)) else acc
  else if older idle then (Some (k, lastSeen st), lockd) else acc.

(** internal/authlimit/authlimit.go:187-217 [evictOneLocked] *)
Definition evictOneLocked (l : Limiter) (now : Z) : Limiter :=
  match fold_left (evict_scan now) (range (tick l) (keys l)) (None, None) with
  | (Some (idle, _), _) => set_keys l (delete idle (keys l))
  | (None, Some (lockd, _)) => set_keys l (delete lockd (keys l))
  | (None, None) => l
  end.

(** internal/authlimit/authlimit.go:163-173 [getOrCreateLocked] *)
Definition getOrCreateLocked (l : Limiter) (k : Key) (now : Z) : state * Limiter :=
  match keys l !! k with
  | Some st => (st, l)
  | None =>
      let l := if MaxKeys (policy l) <=? Z.of_nat (size (keys l)) then evictOneLocked l now else l in
      let st := mkState 0 0 None 0 None (Some now) in
      (st, set_keys l (<[k := st]> (keys l)))
  end.

(** The common prologue of [Check] and [failReport]: read the clock, get the
    state, refresh it, stamp it. *)
Definition touch (l : Limiter) (k : Key) : Z * state * Limiter :=
  let '(now, l) := read_clock l in
  let '(st, l) := getOrCreateLocked l k now in
  (now, set_lastSeen (refreshLocked (policy l) k st now) (Some now), l).

(** internal/authlimit/authlimit.go:262-277 [Check] *)
Definition Check (l : Limiter) (k : Key) : bool * Z * Limiter :=
  let '(now, st, l) := touch l k in
  let put st := set_keys l (<[k := st]> (keys l)) in
  if locked_at st now then (false, dur_sub (default now (lockedUntil st)) now, put st)
  else if thresholdFor (policy l) k <=? wrap64 (failures st + pending st)
  then (false, p_FailureDelay (policy l), put st)
  else (true, 0, put (set_pending st (wrap64 (pending st + 1)))).

(** The lock length after one more failure at the threshold. *)
Definition next_lockLen (p : Policy) (len : Z) : Z :=
  if len <=? 0 then LockStart p
  else let len := wrap64 (len * 2) in
       if LockMax p <? len then LockMax p else len.

(** internal/authlimit/authlimit.go:292-317 [failReport] *)
Definition failReport (l : Limiter) (k : Key) : bool * Z * Z * Limiter :=
  let '(now, st, l) := touch l k in
  let put st := set_keys l (<[k := st]> (keys l)) in
  let pend := if 0 <? pending st then pending st - 1 else pending st in
  let fails := wrap64 (failures st + 1) in
  if thresholdFor (policy l) k <=? fails then
    let len := next_lockLen (policy l) (lockLen st) in
    (true, len, fails, put (mkState fails pend (Some (now + len)) len (Some now) (lastSeen st)))
  else
    (false, p_FailureDelay (policy l), fails,
     put (mkState fails pend (lockedUntil st) (lockLen st) (Some now) (lastSeen st))).

(** internal/authlimit/authlimit.go:283-286 [Fail] *)
Definition Fail_ (l : Limiter) (k : Key) : bool * Z * Limiter :=
  let '(locked, retryAfter, _, l) := failReport l k in (locked, retryAfter, l).

(** internal/authlimit/authlimit.go:322-338 [Success] *)
Definition Success (l : Limiter) (k : Key) : Limiter :=
  let '(now, l) := read_clock l in
  match keys l !! k with
  | None => l
  | Some st =>
      let pend := if 0 <? pending st then pending st - 1 else pending st in
      set_keys l (<[k := mkState 0 pend None 0 None (Some now)]> (keys l))
  end.

(** internal/authlimit/authlimit.go:343-352 [release] *)
Definition release (l : Limiter) (k : Key) : Limiter :=
  match keys l !! k with
  | None => l
  | Some st =>
      let '(now, l) := read_clock l in
      let pend := if 0 <? pending st then pending st - 1 else pending st in
      set_keys l (<[k := set_lastSeen (set_pending st pend) (Some now)]> (keys l))
  end.

(** internal/authlimit/authlimit.go:568-582 [PeerKey] *)
Definition PeerKey (remoteAddr : string) : string :=
  let host := default remoteAddr (SplitHostPort remoteAddr) in
  match ParseIP host with
  | None => host
  | Some ip =>
      match To4 ip with
      | Some v4 => ipv4_string v4
      | None => ipv6_string (Mask64 ip) +:+ "/64"
      end
  end.

(** One bucket consulted by [SelfState]. *)
Definition self_step (now : Z) (acc : bool * Z * Limiter) (k : Key) : bool * Z * Limiter :=
  let '(locked, retryAfter, l) := acc in
  match keys l !! k with
  | None => acc
  | Some st =>
      let st := refreshLocked (policy l) k st now in
      let l := set_keys l (<[k := st]> (keys l)) in
      match lockedUntil st with
      | Some u => if (now <? u) && (retryAfter <? dur_sub u now) then (true, dur_sub u now, l)
                  else (locked, retryAfter, l)
      | None => (locked, retryAfter, l)
      end
  end.

(** internal/authlimit/authlimit.go:364-387 [SelfState] *)
Definition SelfState (l : Limiter) (surface : Surface) (remoteAddr account : string) : bool * Z * Limiter :=
  let '(now, l) := read_clock l in
  let peer := PeerKey remoteAddr in
  let ks := mkKey surface peer "" ::
            (if String.eqb account "" then [] else [mkKey surface peer account]) in
  fold_left (self_step now) ks (false, 0, l).

(** internal/authlimit/authlimit.go:430-441 [clearMatchingLocked]; a [ClearedKey]
    has the fields of a [Key]. *)
Definition clearMatchingLocked (l : Limiter) (match_ : Key → bool) : list Key * Limiter :=
  let cleared := List.filter match_ (fst <$> range (tick l) (keys l)) in
  (cleared, set_keys l (fold_left (fun m k => delete k m) cleared (keys l))).

(** internal/authlimit/authlimit.go:407-412 [ClearPeer] *)
Definition ClearPeer (l : Limiter) (peer : string) : list Key * Limiter :=
  let norm := PeerKey peer in
  clearMatchingLocked l (fun k => String.eqb (k_peer k) norm).

(** internal/authlimit/authlimit.go:419-426 [ClearAccount] *)
Definition ClearAccount (l : Limiter) (account : string) : list Key * Limiter :=
  if String.eqb account "" then ([], l)
  else clearMatchingLocked l (fun k => String.eqb (k_account k) account).

(** internal/authlimit/authlimit.go:460-464 [lockRecord] *)
Record lockRecord : Type := mkLockRecord { lr_key : Key; lr_duration : Z; lr_failures : Z }.

(** internal/authlimit/authlimit.go:450-455 [Attempt]; the limiter it points to is
    passed beside it. *)
Record Attempt : Type := mkAttempt {
  at_keys : list Key;
  at_locks : list lockRecord;
  at_consumed : bool
}.

(** The keys one attempt consults. *)
Definition attempt_keys (surface : Surface) (peer account : string) : list Key :=
  mkKey surface peer "" ::
  (if String.eqb account "" then [] else [mkKey surface peer account; mkKey surface "" account]).

(** The loop of [Attempt]: on the first refusal the reservations already made are
    released. *)
Fixpoint reserve_all (l : Limiter) (reserved ks : list Key) : Attempt * bool * Z * Limiter :=
  match ks with
  | [] => (mkAttempt reserved [] false, true, 0, l)
  | k :: ks' =>
      let '(ok, ra, l) := Check l k in
      if ok then reserve_all l (reserved ++ [k]) ks'
      else (mkAttempt [] [] false, false, ra, fold_left release reserved l)
  end.

(** internal/authlimit/authlimit.go:471-492 [Attempt] *)
Definition Limiter_Attempt (l : Limiter) (surface : Surface) (remoteAddr account : string)
    : Attempt * bool * Z * Limiter :=
  reserve_all l [] (attempt_keys surface (PeerKey remoteAddr) account).

Definition attempt_fail_step (acc : bool * Z * list lockRecord * Limiter) (k : Key)
    : bool * Z * list lockRecord * Limiter :=
  let '(locked, retryAfter, locks, l) := acc in
  let '(lk, ra, fails, l) := failReport l k in
  (locked || lk, if retryAfter <? ra then ra else retryAfter,
   if lk then locks ++ [mkLockRecord k ra fails] else locks, l).

(** internal/authlimit/authlimit.go:496-512 [Fail] *)
Definition Attempt_Fail (a : Attempt) (l : Limiter) : bool * Z * Attempt * Limiter :=
  if at_consumed a then (false, 0, a, l)
  else
    let '(locked, retryAfter, locks, l) :=
      fold_left attempt_fail_step (at_keys a) (false, 0, at_locks a, l) in
    (locked, retryAfter, mkAttempt (at_keys a) locks true, l).

(** internal/authlimit/authlimit.go:531-539 [Success] *)
Definition Attempt_Success (a : Attempt) (l : Limiter) : Attempt * Limiter :=
  if at_consumed a then (a, l)
  else (mkAttempt (at_keys a) (at_locks a) true, fold_left Success (at_keys a) l).

(** internal/authlimit/authlimit.go:551-559 [Release] *)
Definition Attempt_Release (a : Attempt) (l : Limiter) : Attempt * Limiter :=
  if at_consumed a then (a, l)
  else (mkAttempt (at_keys a) (at_locks a) true, fold_left release (at_keys a) l).
End limiter.

(** internal/authlimit/authlimit.go:586-601 [SurfaceWords]; the default branch is
    for a value outside the enumeration. *)
Definition SurfaceWords (s : Surface) : string :=
  match s with
  | SurfaceBasic => "WebDAV auth"
  | SurfaceLogin => "GUI login"
  | SurfaceLaunch => "launch link"
  | SurfaceOpen => "vault open"
  | SurfaceRedeem => "recovery redeem"
  end.

(** internal/authlimit/authlimit.go:632-648 [lockDurationPhrase] *)
Definition lockDurationPhrase (d : Z) : string :=
  if d <? time_Minute then
    let s := Z.quot (wrap64 (wrap64 (d + time_Second) - 1)) time_Second in
    let s := if s <? 1 then 1 else s in
    if s =? 1 then "1 second" else itoa s +:+ " seconds"
  else
    let m := Z.quot (wrap64 (wrap64 (d + time_Minute) - 1)) time_Minute in
    if m =? 1 then "1 minute" else itoa m +:+ " minutes".

(** internal/authlimit/authlimit.go:657-657 [DurationPhrase] *)
Definition DurationPhrase (d : Z) : string := lockDurationPhrase d.

(** internal/authlimit/authlimit.go:608-625 [LockLine]; [quote] is the [%q] verb. *)
Definition LockLine (quote : string → string) (k : Key) (d : Z) (fails : Z) : string :=
  let who :=
    if String.eqb (k_peer k) "" && negb (String.eqb (k_account k) "")
    then "account " +:+ quote (k_account k) +:+ " (from any source)"
    else if negb (String.eqb (k_account k) "")
    then k_peer k +:+ " (user " +:+ quote (k_account k) +:+ ")"
    else k_peer k in
  str_concat ["auth-limit: locked "; SurfaceWords (k_surface k); " for "; who; " for ";
    lockDurationPhrase d; " after "; itoa fails;
    " failures; unlocks automatically, or restart with --auth-limit off for an incident"].

(** internal/authlimit/authlimit.go:519-528 [LockLines] *)
Definition LockLines (quote : string → string) (a : Attempt) : list string :=
  map (fun lr => LockLine quote (lr_key lr) (lr_duration lr) (lr_failures lr)) (at_locks a).
