(* ===== verification/AuthLimitFacts.v ===== *)
(** Properties of the rate limiter: the state invariant of every reachable
    limiter, the concurrency bound, eviction, persistence of locks, attempts that
    leak nothing, escalation, the peer key, polling. *)
From S2P Require Export AuthLimit.
Local Open Scope Z_scope.

(** ** Policies *)

(** A policy [normalize] returns for a configuration whose durations are below
    2^62 ns (146 years), so that doubling one cannot overflow. *)
Definition policy_ok (p : Policy) : Prop :=
  1 ≤ FailuresBeforeLock p ≤ int64_max ∧ 1 ≤ AccountFailuresBeforeLock p ≤ int64_max ∧
  1 ≤ Window p ≤ int64_max ∧ 1 ≤ LockStart p ≤ LockMax p ∧ LockMax p < 2 ^ 62 ∧ 0 ≤ p_FailureDelay p ∧
  1 ≤ MaxKeys p.

Definition policy_in_range (p : Policy) : Prop :=
  in_int64 (FailuresBeforeLock p) ∧ in_int64 (AccountFailuresBeforeLock p) ∧ in_int64 (Window p) ∧
  LockStart p < 2 ^ 62 ∧ LockMax p < 2 ^ 62.

Lemma normalize_ok p : policy_in_range p → policy_ok (normalize p).
Proof.
  unfold policy_in_range, in_int64, policy_ok, normalize, int64_min, int64_max.
  cbn -[Z.leb Z.ltb time_Minute time_Second Z.pow]. unfold time_Minute, time_Second.
  intros (H1 & H2 & H3 & H4 & H5).
  assert (∀ x y : Z, (if x <=? 0 then y else x) = x ∧ 0 < x ∨ (if x <=? 0 then y else x) = y) as Hf.
  { intros x y. destruct (Z.leb_spec x 0); lia. }
  repeat split;
    repeat (match goal with |- context [if ?x <=? 0 then ?y else ?x] =>
       destruct (Hf x y) as [[-> ?]| ->] end);
    try lia;
    repeat (match goal with |- context [if ?x <? ?y then _ else _] => destruct (Z.ltb_spec x y) end); lia.
Qed.

Lemma threshold_ok p k : policy_ok p → 1 ≤ thresholdFor p k ≤ int64_max.
Proof. unfold policy_ok, thresholdFor. destruct (_ && _); lia. Qed.

(** ** Refresh *)

Section refresh.
Context (p : Policy) (Hp : policy_ok p) (k : Key).

(** What every stored state satisfies once [n] clock readings were taken: the
    counters count calls, and a lock is the last failure plus a length between
    [LockStart] and [LockMax], held only at or above the threshold. *)
Definition state_ok (n : Z) (st : state) : Prop :=
  0 ≤ failures st ≤ n ∧ 0 ≤ pending st ≤ n ∧
  (lockLen st = 0 ∨ LockStart p ≤ lockLen st ≤ LockMax p) ∧
  (∀ u, lockedUntil st = Some u →
     thresholdFor p k ≤ failures st ∧ 0 < lockLen st ∧ ∃ f, lastFailure st = Some f ∧ u = f + lockLen st).

Lemma state_ok_mono n m st : n ≤ m → state_ok n st → state_ok m st.
Proof. intros ? (?&?&?&?). unfold state_ok. split_and!; [lia..|done|done]. Qed.

Lemma refresh_lastSeen st now : lastSeen (refreshLocked p k st now) = lastSeen st.
Proof.
  unfold refreshLocked. destruct (lockedUntil st) as [u|]; [destruct (now <? u)|];
  cbn [lockedUntil pending lastFailure lastSeen failures lockLen];
  repeat (match goal with |- context [if ?b then _ else _] => destruct b end; cbn; try done).
Qed.

(** The refreshed state in closed form. *)
Definition clamp (n : Z) : Z := if thresholdFor p k <? n then thresholdFor p k else n.

Lemma refresh_locked st now :
  locked_at st now = true →
  refreshLocked p k st now =
    mkState (failures st) (clamp (pending st)) (lockedUntil st) (lockLen st) (lastFailure st) (lastSeen st).
Proof.
  unfold locked_at, refreshLocked, clamp. destruct st as [f pe [u|] len lf ls]; cbn; [|done].
  intros ->. cbn. by destruct (thresholdFor p k <? pe).
Qed.

Definition unlocked_failures (st : state) : Z :=
  match lockedUntil st with
  | Some _ => if thresholdFor p k <=? failures st then wrap64 (thresholdFor p k - 1) else failures st
  | None => failures st
  end.

Lemma refresh_unlocked st now :
  locked_at st now = false →
  refreshLocked p k st now =
    mkState (if stale p now (lastFailure st) then 0 else unlocked_failures st)
      (clamp (if (0 <? pending st) && stale p now (lastSeen st) then 0 else pending st)) None
      (if stale p now (lastFailure st) then 0 else lockLen st)
      (if stale p now (lastFailure st) then None else lastFailure st) (lastSeen st).
Proof.
  unfold locked_at, refreshLocked, clamp, unlocked_failures, set_pending.
  destruct st as [f pe [u|] len lf ls]; cbn -[bool_decide Z.ltb Z.leb stale]; [intros ->|intros _];
    cbn -[bool_decide Z.ltb Z.leb stale]; rewrite bool_decide_eq_true_2 by done;
    cbn -[bool_decide Z.ltb Z.leb stale];
    destruct (stale p now lf); cbn -[Z.ltb Z.leb stale];
    destruct (0 <? pe), (stale p now ls); cbn -[Z.ltb Z.leb stale];
    by destruct (thresholdFor p k <? _).
Qed.

Lemma clamp_bounds n m : 0 ≤ n ≤ m → 0 ≤ clamp n ≤ m ∧ clamp n ≤ thresholdFor p k ∧ clamp n ≤ n.
Proof. pose proof (threshold_ok p k Hp). unfold clamp. destruct (Z.ltb_spec (thresholdFor p k) n); lia. Qed.

Lemma unlocked_failures_bounds n st :
  state_ok n st → 0 ≤ unlocked_failures st ≤ failures st.
Proof.
  intros ([Hf0 Hf1]&_&_&_). pose proof (threshold_ok p k Hp) as Ht. unfold unlocked_failures.
  destruct (lockedUntil st); [|lia]. destruct (Z.leb_spec (thresholdFor p k) (failures st)); [|lia].
  rewrite wrap64_id; [lia|]. unfold in_int64, int64_min, int64_max in *. lia.
Qed.

Lemma refresh_ok n st now : state_ok n st → state_ok n (refreshLocked p k st now).
Proof.
  intros H. pose proof (unlocked_failures_bounds n st H). destruct H as (Hf & Hpe & Hl & Hu).
  destruct (locked_at st now) eqn:E.
  - rewrite refresh_locked by done. pose proof (clamp_bounds _ _ Hpe).
    unfold state_ok; cbn; split_and!; (lia || assumption).
  - rewrite refresh_unlocked by done. cbn.
    assert (Hp' : 0 ≤ (if (0 <? pending st) && stale p now (lastSeen st) then 0 else pending st) ≤ n)
      by (destruct (_ && _); lia).
    pose proof (clamp_bounds _ _ Hp'). unfold state_ok. cbn.
    destruct (stale p now (lastFailure st)); split_and!; first [lia | assumption | done].
Qed.

Lemma refresh_pending n st now :
  state_ok n st → 0 ≤ pending (refreshLocked p k st now) ≤ pending st ∧
  pending (refreshLocked p k st now) ≤ thresholdFor p k.
Proof.
  intros (Hf & Hpe & Hl & Hu). destruct (locked_at st now) eqn:E.
  - rewrite refresh_locked by done. pose proof (clamp_bounds _ _ Hpe). cbn. lia.
  - rewrite refresh_unlocked by done. cbn.
    assert (Hp' : 0 ≤ (if (0 <? pending st) && stale p now (lastSeen st) then 0 else pending st) ≤ pending st)
      by (destruct (_ && _); lia).
    pose proof (clamp_bounds _ _ Hp'). lia.
Qed.

Lemma dur_sub_mono t1 t2 u : t1 ≤ t2 → dur_sub t1 u ≤ dur_sub t2 u.
Proof. unfold dur_sub. lia. Qed.

Lemma stale_mono t1 t2 t : t1 ≤ t2 → stale p t1 t = true → stale p t2 t = true.
Proof.
  unfold stale. destruct t as [t|]; [|done]. intros H. pose proof (dur_sub_mono t1 t2 t H).
  rewrite !Z.leb_le. lia.
Qed.

Lemma clamp_clamp n : clamp (clamp n) = clamp n.
Proof. unfold clamp. destruct (Z.ltb_spec (thresholdFor p k) n); [by rewrite Z.ltb_irrefl|]. by destruct (Z.ltb_spec (thresholdFor p k) n); [lia|]. Qed.

Lemma clamp_pos n : (0 <? clamp n) = (0 <? n).
Proof.
  pose proof (threshold_ok p k Hp). unfold clamp.
  destruct (Z.ltb_spec (thresholdFor p k) n); [|done]. destruct (Z.ltb_spec 0 n), (Z.ltb_spec 0 (thresholdFor p k)); lia.
Qed.

Lemma clamp_0 : clamp 0 = 0.
Proof. pose proof (threshold_ok p k Hp). unfold clamp. destruct (Z.ltb_spec (thresholdFor p k) 0); lia. Qed.

Lemma clamp_twice n (a b : bool) :
  (a = true → b = true) →
  let m := clamp (if (0 <? n) && a then 0 else n) in
  clamp (if (0 <? m) && b then 0 else m) = clamp (if (0 <? n) && b then 0 else n).
Proof.
  intros Hab. cbv zeta. destruct (0 <? n) eqn:P; cbn [andb].
  - destruct a; [rewrite Hab by done|]; rewrite clamp_pos; [rewrite Z.ltb_irrefl; apply clamp_clamp|].
    rewrite P. cbn [andb]. destruct b; [done|]. apply clamp_clamp.
  - rewrite clamp_pos, P. apply clamp_clamp.
Qed.

Lemma locked_mono st t1 t2 : t1 ≤ t2 → locked_at st t2 = true → locked_at st t1 = true.
Proof. unfold locked_at. destruct (lockedUntil st); [|done]. rewrite !Z.ltb_lt. lia. Qed.

(** Refreshing at an earlier reading first changes nothing. *)
Lemma refresh_refresh st t1 t2 :
  t1 ≤ t2 → refreshLocked p k (refreshLocked p k st t1) t2 = refreshLocked p k st t2.
Proof.
  intros Ht. destruct (locked_at st t1) eqn:E1.
  - rewrite (refresh_locked st t1) by done. destruct (locked_at st t2) eqn:E2.
    + rewrite !refresh_locked; [|done..]. cbn. by rewrite clamp_clamp.
    + rewrite !refresh_unlocked; [|done..]. cbn -[Z.ltb]. rewrite clamp_pos. f_equal.
      destruct (_ && _); [done|apply clamp_clamp].
  - assert (E2 : locked_at st t2 = false).
    { apply not_true_is_false. intros H. apply (locked_mono st t1) in H; [congruence|done]. }
    rewrite (refresh_unlocked st t1), (refresh_unlocked st t2) by done.
    rewrite refresh_unlocked by done. cbn -[Z.ltb].
    assert (Hs : ∀ t, stale p t1 t = true → stale p t2 t = true) by (intros; by eapply stale_mono).
    rewrite clamp_twice by (intros; by eapply stale_mono).
    destruct (stale p t1 (lastFailure st)) eqn:F1; [by rewrite (Hs _ F1)|done].
Qed.
End refresh.

(** ** Eviction *)

Lemma time_before_trans a b c : time_before a b = true → time_before b c = true → time_before a c = true.
Proof. destruct a, b, c; simpl; rewrite ?Z.ltb_lt; try done; lia. Qed.
Lemma time_before_irrefl a : time_before a a = false.
Proof. destruct a; simpl; [|done]. apply Z.ltb_irrefl. Qed.

(** [evict_scan] is two independent searches for the least recently seen entry. *)
Definition scan_best (q : state → bool) (acc : option (Key * option Z)) (e : Key * state) : option (Key * option Z) :=
  if q e.2 then
    match acc with
    | Some (_, seen) => if time_before (lastSeen e.2) seen then Some (e.1, lastSeen e.2) else acc
    | None => Some (e.1, lastSeen e.2)
    end
  else acc.
Definition is_idle (now : Z) (st : state) : bool := negb (0 <? pending st) && negb (locked_at st now).
Definition is_lockd (now : Z) (st : state) : bool := negb (0 <? pending st) && locked_at st now.

Lemma evict_scan_split now l a b :
  fold_left (evict_scan now) l (a, b) =
  (fold_left (scan_best (is_idle now)) l a, fold_left (scan_best (is_lockd now)) l b).
Proof.
  revert a b. induction l as [|[k st] l IH]; intros a b; [done|]. cbn [fold_left].
  rewrite <- IH. f_equal. unfold evict_scan, scan_best, is_idle, is_lockd. cbn [fst snd].
  destruct (0 <? pending st); [done|]. destruct (locked_at st now); cbn -[time_before].
  - destruct b as [[k' s]|]; [|done]. by destruct (time_before (lastSeen st) s).
  - destruct a as [[k' s]|]; [|done]. by destruct (time_before (lastSeen st) s).
Qed.

(** What the search holds after the entries [l]. *)
Definition best_of (q : state → bool) (l : list (Key * state)) (acc : option (Key * option Z)) : Prop :=
  match acc with
  | None => ∀ k st, (k, st) ∈ l → q st = false
  | Some (k, t) => ∃ st, (k, st) ∈ l ∧ q st = true ∧ t = lastSeen st ∧
      ∀ k' st', (k', st') ∈ l → q st' = true → time_before (lastSeen st') (lastSeen st) = false
  end.

Lemma scan_best_step q l acc e : best_of q l acc → best_of q (l ++ [e]) (scan_best q acc e).
Proof.
  destruct e as [k st]. unfold scan_best. cbn [fst snd]. destruct (q st) eqn:Eq.
  - destruct acc as [[k1 t1]|]; [destruct (time_before (lastSeen st) t1) eqn:Et|]; cbn [best_of].
    + intros (s1 & Hin & Hq & -> & Hmin). exists st. split; [set_solver|]. split; [done|]. split; [done|].
      intros k' st' [H|H]%elem_of_app Hq'.
      * apply not_true_is_false. intros Hb. specialize (Hmin k' st' H Hq').
        rewrite (time_before_trans _ _ _ Hb Et) in Hmin. done.
      * apply list_elem_of_singleton in H as [= -> ->]. apply time_before_irrefl.
    + intros (s1 & Hin & Hq & -> & Hmin). exists s1. split; [set_solver|]. split; [done|]. split; [done|].
      intros k' st' [H|H]%elem_of_app Hq'; [by eapply Hmin|].
      by apply list_elem_of_singleton in H as [= -> ->].
    + intros Hno. exists st. split; [set_solver|]. split; [done|]. split; [done|].
      intros k' st' [H|H]%elem_of_app Hq'; [by rewrite (Hno _ _ H) in Hq'|].
      apply list_elem_of_singleton in H as [= -> ->]. apply time_before_irrefl.
  - destruct acc as [[k1 t1]|]; cbn [best_of].
    + intros (s1 & Hin & Hq & -> & Hmin). exists s1. split; [set_solver|]. split; [done|]. split; [done|].
      intros k' st' [H|H]%elem_of_app Hq'; [by eapply Hmin|].
      apply list_elem_of_singleton in H as [= -> ->]. congruence.
    + intros Hno k' st' [H|H]%elem_of_app; [by eapply Hno|].
      by apply list_elem_of_singleton in H as [= -> ->].
Qed.

Lemma scan_best_all q l : best_of q l (fold_left (scan_best q) l None).
Proof.
  induction l as [|e l IH] using rev_ind; [by intros k st ?%elem_of_nil|].
  rewrite fold_left_app. by apply scan_best_step.
Qed.

Section calls.
Context (clock : nat → Z) (range : nat → gmap Key state → list (Key * state)).
(** Go visits each entry of a map once, in some order. *)
Hypothesis range_perm : ∀ n m, range n m ≡ₚ map_to_list m.

Abbreviation touch_ := (touch clock range).
Abbreviation Check_ := (Check clock range).
Abbreviation failReport_ := (failReport clock range).

(** [v] may be evicted from [l] at [now]: it holds no reservation; it is locked
    only if every entry is locked or holds a reservation; and no entry of its
    kind was seen longer ago. *)
Definition evictable (l : Limiter) (now : Z) (v : Key) : Prop :=
  ∃ sv, keys l !! v = Some sv ∧ pending sv ≤ 0 ∧
    (locked_at sv now = true → ∀ k st, keys l !! k = Some st → 0 < pending st ∨ locked_at st now = true) ∧
    (∀ k st, keys l !! k = Some st → pending st ≤ 0 → locked_at st now = locked_at sv now →
       time_before (lastSeen st) (lastSeen sv) = false).

Lemma in_range_lookup n m k st : (k, st) ∈ range n m ↔ m !! k = Some st.
Proof. by rewrite range_perm, elem_of_map_to_list. Qed.

Lemma is_idle_true now st : is_idle now st = true ↔ pending st ≤ 0 ∧ locked_at st now = false.
Proof. unfold is_idle. rewrite andb_true_iff, !negb_true_iff, Z.ltb_ge. done. Qed.
Lemma is_lockd_true now st : is_lockd now st = true ↔ pending st ≤ 0 ∧ locked_at st now = true.
Proof. unfold is_lockd. rewrite andb_true_iff, negb_true_iff, Z.ltb_ge. done. Qed.

Lemma evict_cases l now :
  (evictOneLocked range l now = l ∧ ∀ k st, keys l !! k = Some st → 0 < pending st) ∨
  (∃ v, evictable l now v ∧ evictOneLocked range l now = set_keys l (delete v (keys l))).
Proof.
  unfold evictOneLocked. rewrite evict_scan_split.
  pose proof (scan_best_all (is_idle now) (range (tick l) (keys l))) as Hi.
  pose proof (scan_best_all (is_lockd now) (range (tick l) (keys l))) as Hl.
  destruct (fold_left (scan_best (is_idle now)) _ _) as [[v t]|]; cbn [best_of] in Hi.
  - destruct Hi as (sv & Hin & Hq & _ & Hmin). apply is_idle_true in Hq as [Hp Hlk].
    right. exists v. split; [|done]. exists sv. rewrite in_range_lookup in Hin.
    split; [done|]. split; [done|]. split; [congruence|].
    intros k st Hk Hpk Hs. apply (Hmin k); [by apply in_range_lookup|]. apply is_idle_true. by rewrite Hs.
  - assert (Hno : ∀ k st, keys l !! k = Some st → 0 < pending st ∨ locked_at st now = true).
    { intros k st Hk. apply (in_range_lookup (tick l)) in Hk. specialize (Hi _ _ Hk).
      unfold is_idle in Hi. apply andb_false_iff in Hi as [Hi|Hi]; apply negb_false_iff in Hi; [|by right].
      left. by apply Z.ltb_lt. }
    destruct (fold_left (scan_best (is_lockd now)) _ _) as [[v t]|]; cbn [best_of] in Hl.
    + destruct Hl as (sv & Hin & Hq & _ & Hmin). apply is_lockd_true in Hq as [Hp Hlk].
      right. exists v. split; [|done]. exists sv. rewrite in_range_lookup in Hin.
      split; [done|]. split; [done|]. split; [done|].
      intros k st Hk Hpk Hs. apply (Hmin k); [by apply in_range_lookup|]. apply is_lockd_true. by rewrite Hs.
    + left. split; [done|]. intros k st Hk. destruct (Hno k st Hk) as [|Hlk]; [done|].
      destruct (Z.lt_ge_cases 0 (pending st)) as [|Hp]; [done|].
      apply (in_range_lookup (tick l)) in Hk. specialize (Hl _ _ Hk).
      rewrite (proj2 (is_lockd_true now st)) in Hl by done. done.
Qed.

(** The state a call finds at its key. *)
Definition found (l : Limiter) (k : Key) (now : Z) : state :=
  default (mkState 0 0 None 0 None (Some now)) (keys l !! k).

(** What a call that touches [k] does to the other keys and to the size. *)
Record touched (l : Limiter) (k : Key) (now : Z) (l' : Limiter) : Prop := {
  td_policy : policy l' = policy l;
  td_tick : tick l' = S (tick l);
  td_frame k' : k' ≠ k →
    keys l' !! k' = keys l !! k' ∨
    (keys l' !! k' = None ∧ evictable l now k' ∧ keys l !! k = None ∧
     MaxKeys (policy l) ≤ Z.of_nat (size (keys l)));
  td_size : Z.of_nat (size (keys l)) ≤ MaxKeys (policy l) → 1 ≤ MaxKeys (policy l) →
    Z.of_nat (size (keys l')) ≤ MaxKeys (policy l) ∨ ∀ k' st, keys l !! k' = Some st → 0 < pending st;
  td_grow : (size (keys l') ≤ S (size (keys l)))%nat
}.

Lemma size_insert_fresh (m : gmap Key state) k st : m !! k = None → size (<[k:=st]> m) = S (size m).
Proof. apply map_size_insert_None. Qed.

Lemma touch_found l k :
  let '(now, st, l') := touch_ l k in
  now = clock (tick l) ∧
  st = set_lastSeen (refreshLocked (policy l) k (found l k now) now) (Some now).
Proof.
  unfold touch, read_clock, getOrCreateLocked, found. cbn -[evictOneLocked refreshLocked Z.of_nat].
  destruct (keys l !! k) as [st|] eqn:Ek; cbn -[evictOneLocked refreshLocked Z.of_nat]; [done|].
  split; [done|]. destruct (MaxKeys (policy l) <=? _); [|done].
  unfold evictOneLocked. cbn. by destruct (fold_left _ _ _) as [[[? ?]|] [[? ?]|]].
Qed.

Lemma size_insert_le (m : gmap Key state) k st : (size (<[k:=st]> m) ≤ S (size m))%nat.
Proof. rewrite map_size_insert. destruct (m !! k); cbn; lia. Qed.

Lemma touch_put l k st' :
  let '(now, st, l') := touch_ l k in touched l k now (set_keys l' (<[k := st']> (keys l'))).
Proof.
  unfold touch, read_clock, getOrCreateLocked. cbn -[evictOneLocked refreshLocked Z.of_nat].
  destruct (keys l !! k) as [st|] eqn:Ek; cbn -[evictOneLocked refreshLocked Z.of_nat size].
  { split; cbn -[Z.of_nat size]; [done..|intros k' Hne; left; by rewrite lookup_insert_ne| |apply size_insert_le].
    intros Hs _. left. rewrite map_size_insert, Ek. exact Hs. }
  set (l0 := mkLimiter (keys l) (policy l) (S (tick l))).
  destruct (Z.leb_spec (MaxKeys (policy l)) (Z.of_nat (size (keys l)))) as [Hfull|Hroom].
  - destruct (evict_cases l0 (clock (tick l))) as [[-> Hall]|(v & Hv & ->)];
      cbn -[Z.of_nat size]; rewrite insert_insert_eq; split; cbn -[Z.of_nat size]; try done.
    + intros k' Hne. left. by rewrite lookup_insert_ne.
    + intros _ _. right. exact Hall.
    + apply size_insert_le.
    + intros k' Hne. rewrite lookup_insert_ne by done. destruct (decide (k' = v)) as [->|Hkv].
      * right. rewrite lookup_delete_eq. done.
      * left. by rewrite lookup_delete_ne.
    + intros Hs H1. left. destruct Hv as (sv & Hin & _). cbn in Hin.
      rewrite size_insert_fresh, map_size_delete, Hin.
      2:{ destruct (decide (k = v)) as [->|]; [by rewrite lookup_delete_eq|by rewrite lookup_delete_ne]. }
      assert (size (keys l) ≠ 0%nat) by (intros H0; apply map_size_empty_inv in H0; by rewrite H0 in Hin).
      lia.
    + etrans; [apply size_insert_le|]. rewrite map_size_delete. cbn. destruct (keys l !! v); cbn; lia.
  - cbn -[Z.of_nat size]. rewrite insert_insert_eq. split; cbn -[Z.of_nat size]; try done.
    + intros k' Hne. left. by rewrite lookup_insert_ne.
    + intros Hs _. left. rewrite size_insert_fresh by done. lia.
    + apply size_insert_le.
Qed.

(** The refreshed and stamped state a call decides on. *)
Definition seen (l : Limiter) (k : Key) : state :=
  set_lastSeen (refreshLocked (policy l) k (found l k (clock (tick l))) (clock (tick l))) (Some (clock (tick l))).

Definition grants (l : Limiter) (k : Key) : bool :=
  negb (locked_at (seen l k) (clock (tick l))) &&
  negb (thresholdFor (policy l) k <=? wrap64 (failures (seen l k) + pending (seen l k))).

Lemma Check_spec l k :
  let '(ok, ra, l') := Check_ l k in
  ok = grants l k ∧ touched l k (clock (tick l)) l' ∧
  keys l' !! k = Some (if ok then set_pending (seen l k) (wrap64 (pending (seen l k) + 1)) else seen l k) ∧
  ra = (if locked_at (seen l k) (clock (tick l))
        then dur_sub (default (clock (tick l)) (lockedUntil (seen l k))) (clock (tick l))
        else if ok then 0 else p_FailureDelay (policy l)).
Proof.
  unfold Check, grants.
  pose proof (touch_found l k) as Hf. pose proof (touch_put l k) as Hp.
  destruct (touch_ l k) as [[now st] l']. destruct Hf as [-> Hst]. fold (seen l k) in Hst. subst st.
  assert (Epol : policy l' = policy l) by apply (td_policy _ _ _ _ (Hp (seen l k))). rewrite Epol.
  destruct (locked_at (seen l k) (clock (tick l))); cbn [negb andb].
  { split; [done|]. split; [apply Hp|]. split; [apply lookup_insert_eq|done]. }
  destruct (_ <=? _); cbn [negb]; (split; [done|]); (split; [apply Hp|]);
    (split; [apply lookup_insert_eq|done]).
Qed.

(** The state [failReport] stores. *)
Definition failed (l : Limiter) (k : Key) : state :=
  let st := seen l k in
  let pend := if 0 <? pending st then pending st - 1 else pending st in
  let fails := wrap64 (failures st + 1) in
  if thresholdFor (policy l) k <=? fails then
    let len := next_lockLen (policy l) (lockLen st) in
    mkState fails pend (Some (clock (tick l) + len)) len (Some (clock (tick l))) (lastSeen st)
  else mkState fails pend (lockedUntil st) (lockLen st) (Some (clock (tick l))) (lastSeen st).

Lemma failReport_spec l k :
  let '(locked, ra, fails, l') := failReport_ l k in
  touched l k (clock (tick l)) l' ∧ keys l' !! k = Some (failed l k) ∧
  fails = failures (failed l k) ∧ locked = (thresholdFor (policy l) k <=? fails) ∧
  ra = (if locked then lockLen (failed l k) else p_FailureDelay (policy l)).
Proof.
  unfold failReport, failed.
  pose proof (touch_found l k) as Hf. pose proof (touch_put l k) as Hp.
  destruct (touch_ l k) as [[now st] l']. destruct Hf as [-> Hst]. fold (seen l k) in Hst. subst st.
  assert (Epol : policy l' = policy l) by apply (td_policy _ _ _ _ (Hp (seen l k))). rewrite Epol.
  destruct (thresholdFor (policy l) k <=? wrap64 (failures (seen l k) + 1)) eqn:E; cbn [failures lockLen];
    (split; [apply Hp|]); (split; [apply lookup_insert_eq|]); by rewrite ?E.
Qed.

(** ** The state invariant *)

Definition limiter_ok (l : Limiter) : Prop :=
  policy_ok (policy l) ∧
  ∀ k st, keys l !! k = Some st → state_ok (policy l) k (Z.of_nat (tick l)) st.

(** The whole exported interface that can change a limiter. *)
Inductive op : Type :=
  | OpCheck (k : Key)
  | OpFail (k : Key)
  | OpSuccess (k : Key)
  | OpSelfState (s : Surface) (remoteAddr account : string)
  | OpClearPeer (peer : string)
  | OpClearAccount (account : string)
  | OpAttempt (s : Surface) (remoteAddr account : string)
  | OpAttemptFail (a : Attempt)
  | OpAttemptSuccess (a : Attempt)
  | OpAttemptRelease (a : Attempt).

Definition apply_op (l : Limiter) (o : op) : Limiter :=
  match o with
  | OpCheck k => snd (Check_ l k)
  | OpFail k => snd (Fail_ clock range l k)
  | OpSuccess k => Success clock l k
  | OpSelfState s r a => snd (SelfState clock l s r a)
  | OpClearPeer p => snd (ClearPeer range l p)
  | OpClearAccount a => snd (ClearAccount range l a)
  | OpAttempt s r a => snd (Limiter_Attempt clock range l s r a)
  | OpAttemptFail a => snd (Attempt_Fail clock range a l)
  | OpAttemptSuccess a => snd (Attempt_Success clock a l)
  | OpAttemptRelease a => snd (Attempt_Release clock a l)
  end.
Definition run (p : Policy) (ops : list op) : Limiter := fold_left apply_op ops (New p).

(** The primitive calls every exported method is a sequence of. *)
Inductive prim : Limiter → Limiter → Prop :=
  | prim_check l k : prim l (snd (Check_ l k))
  | prim_fail l k : prim l (snd (failReport_ l k))
  | prim_success l k : prim l (Success clock l k)
  | prim_release l k : prim l (release clock l k)
  | prim_read l : prim l (snd (read_clock clock l))
  | prim_self now acc k : prim (snd acc) (snd (self_step now acc k))
  | prim_delete l k : prim l (set_keys l (delete k (keys l))).

Lemma fold_prims {B} (f : Limiter → B → Limiter) (l : Limiter) xs :
  (∀ l x, rtc prim l (f l x)) → rtc prim l (fold_left f xs l).
Proof.
  intros Hf. revert l. induction xs as [|x xs IH]; intros l; [done|]. cbn. etrans; [apply Hf|apply IH].
Qed.

Lemma clear_prims l q : rtc prim l (snd (clearMatchingLocked range l q)).
Proof.
  unfold clearMatchingLocked. cbn -[List.filter].
  assert (H : ∀ m ks, rtc prim (set_keys l m) (set_keys l (fold_left (fun m k => delete k m) ks m))).
  { intros m ks. revert m. induction ks as [|k ks IH]; intros m; [done|]. cbn.
    etrans; [|apply IH]. apply rtc_once. exact (prim_delete (set_keys l m) k). }
  specialize (H (keys l)). by destruct l.
Qed.

Lemma reserve_prims ks l rs : rtc prim l (snd (reserve_all clock range l rs ks)).
Proof.
  revert l rs. induction ks as [|k ks IH]; intros l rs; [done|]. cbn [reserve_all].
  pose proof (prim_check l k) as Hc. destruct (Check_ l k) as [[ok ra] l']. cbn in Hc.
  destruct ok; (eapply rtc_l; [exact Hc|]); [apply IH|].
  apply fold_prims. intros. apply rtc_once, prim_release.
Qed.

Lemma self_prims now ks acc : rtc prim (snd acc) (snd (fold_left (self_step now) ks acc)).
Proof.
  revert acc. induction ks as [|k ks IH]; intros acc; [done|]. cbn [fold_left].
  etrans; [|apply IH]. apply rtc_once, prim_self.
Qed.

Lemma fail_all_prims ks acc : rtc prim (snd acc) (snd (fold_left (attempt_fail_step clock range) ks acc)).
Proof.
  revert acc. induction ks as [|k ks IH]; intros acc; [done|]. cbn [fold_left].
  etrans; [|apply IH]. destruct acc as [[[lk ra] ls] l]. cbn.
  pose proof (prim_fail l k) as Hc. destruct (failReport_ l k) as [[[b r] f] l'].
  by apply rtc_once.
Qed.

Lemma apply_prims l o : rtc prim l (apply_op l o).
Proof.
  destruct o as [k|k|k|s r a|p|a|s r a|a|a|a]; cbn -[Check failReport SelfState ClearPeer].
  - apply rtc_once, prim_check.
  - unfold Fail_. pose proof (prim_fail l k) as Hc. destruct (failReport_ l k) as [[[b r] f] l'].
    by apply rtc_once.
  - apply rtc_once, prim_success.
  - unfold SelfState, read_clock.
    eapply rtc_l; [apply prim_read|]. exact (self_prims _ _ (false, 0, _)).
  - apply clear_prims.
  - unfold ClearAccount. destruct (String.eqb a ""); [done|]. apply clear_prims.
  - exact (reserve_prims (attempt_keys s (PeerKey r) a) l []).
  - unfold Attempt_Fail. destruct (at_consumed a); [done|].
    pose proof (fail_all_prims (at_keys a) (false, 0, at_locks a, l)) as H.
    by destruct (fold_left _ _ _) as [[[? ?] ?] ?].
  - unfold Attempt_Success. destruct (at_consumed a); [done|].
    apply fold_prims. intros. apply rtc_once, prim_success.
  - unfold Attempt_Release. destruct (at_consumed a); [done|].
    apply fold_prims. intros. apply rtc_once, prim_release.
Qed.

(** Clock readings do not go back ([time.Now] is monotonic in Go). *)
Definition monotone_clock : Prop := ∀ i j, (i ≤ j)%nat → clock i ≤ clock j.

Lemma next_lockLen_ok p len :
  policy_ok p → len = 0 ∨ LockStart p ≤ len ≤ LockMax p →
  LockStart p ≤ next_lockLen p len ≤ LockMax p ∧
  (0 < len → next_lockLen p len = Z.min (2 * len) (LockMax p)).
Proof.
  intros Hp Hl. unfold policy_ok in Hp. unfold next_lockLen. destruct (Z.leb_spec len 0); [lia|].
  rewrite wrap64_id by (unfold in_int64, int64_min, int64_max; lia).
  destruct (Z.ltb_spec (LockMax p) (len * 2)); lia.
Qed.

Section invariant.
Variable l : Limiter.
Hypothesis Hok : limiter_ok l.
Hypothesis Hlow : Z.of_nat (tick l) < 2 ^ 62.

Lemma found_ok k now : state_ok (policy l) k (Z.of_nat (tick l)) (found l k now).
Proof.
  destruct Hok as [_ H]. unfold found. destruct (keys l !! k) as [st|] eqn:E; [by apply H|].
  unfold state_ok. cbn. split_and!; [lia..|by left|done].
Qed.

Lemma seen_ok k : state_ok (policy l) k (Z.of_nat (tick l)) (seen l k).
Proof. destruct Hok. apply (refresh_ok (policy l)); [done|]. apply found_ok. Qed.

Lemma failed_ok k : state_ok (policy l) k (Z.of_nat (S (tick l))) (failed l k).
Proof.
  destruct (seen_ok k) as (Hf & Hp & Hl & Hu). destruct Hok as [Hpol _]. unfold failed.
  rewrite (wrap64_id (failures (seen l k) + 1)) by (unfold in_int64, int64_min, int64_max; lia).
  assert (Hpe : 0 ≤ (if 0 <? pending (seen l k) then pending (seen l k) - 1 else pending (seen l k)) ≤ Z.of_nat (S (tick l)))
    by (destruct (Z.ltb_spec 0 (pending (seen l k))); lia).
  destruct (next_lockLen_ok _ _ Hpol Hl) as [Hn _]. unfold policy_ok in Hpol.
  destruct (Z.leb_spec (thresholdFor (policy l) k) (failures (seen l k) + 1)); unfold state_ok; cbn -[seen];
    split_and!; try lia; try done.
  - intros u [= <-]. split; [lia|]. split; [lia|]. by eexists.
  - intros u Hlu. apply Hu in Hlu. lia.
Qed.

Lemma granted_ok k :
  grants l k = true →
  state_ok (policy l) k (Z.of_nat (S (tick l))) (set_pending (seen l k) (wrap64 (pending (seen l k) + 1))) ∧
  wrap64 (pending (seen l k) + 1) = pending (seen l k) + 1 ∧
  failures (seen l k) + pending (seen l k) < thresholdFor (policy l) k.
Proof.
  destruct (seen_ok k) as (Hf & Hp & Hl & Hu). unfold grants.
  rewrite andb_true_iff, !negb_true_iff, Z.leb_gt. intros [_ Hg].
  rewrite wrap64_id in Hg by (unfold in_int64, int64_min, int64_max; lia).
  rewrite wrap64_id by (unfold in_int64, int64_min, int64_max; lia).
  split; [|done]. unfold state_ok. cbn -[seen]. split_and!; try lia; done.
Qed.

Lemma touched_ok l' k now st :
  touched l k now l' → keys l' !! k = Some st → state_ok (policy l) k (Z.of_nat (S (tick l))) st → limiter_ok l'.
Proof.
  destruct Hok as [Hpol Hst]. intros [Ep Et Hfr _ _] Hk Hs. split; rewrite Ep; [done|].
  intros k' st' Hk'. rewrite Et. destruct (decide (k' = k)) as [->|Hne]; [congruence|].
  apply (state_ok_mono _ _ (Z.of_nat (tick l))); [lia|]. apply Hst.
  destruct (Hfr k' Hne) as [<-|[Hno _]]; [done|congruence].
Qed.
End invariant.

Lemma prim_ok l l' : limiter_ok l → Z.of_nat (tick l) < 2 ^ 62 → prim l l' → limiter_ok l' ∧ (tick l ≤ tick l')%nat.
Proof.
  intros Hok Hlow Hp. assert (H := Hok). destruct Hok as [Hpol Hst].
  assert (Hmono : ∀ k st, keys l !! k = Some st → state_ok (policy l) k (Z.of_nat (S (tick l))) st).
  { intros k st Hk. eapply state_ok_mono; [|by apply Hst]. lia. }
  assert (Hpred : ∀ st n, 0 ≤ pending st ≤ n → 0 ≤ (if 0 <? pending st then pending st - 1 else pending st) ≤ n).
  { intros st n. destruct (Z.ltb_spec 0 (pending st)); lia. }
  destruct Hp as [l k|l k|l k|l k|l|now acc k|l k].
  - pose proof (Check_spec l k) as Hs. destruct (Check_ l k) as [[ok ra] l']. cbn.
    destruct Hs as (Hgr & Ht & Hk & _). split; [|by rewrite (td_tick _ _ _ _ Ht); lia].
    eapply touched_ok; [done..|]. destruct ok.
    + by apply granted_ok.
    + eapply state_ok_mono; [|by apply seen_ok]. lia.
  - pose proof (failReport_spec l k) as Hs. destruct (failReport_ l k) as [[[lk ra] f] l']. cbn.
    destruct Hs as (Ht & Hk & _). split; [|by rewrite (td_tick _ _ _ _ Ht); lia].
    eapply touched_ok; [done..|]. by apply failed_ok.
  - unfold Success, read_clock. cbn. destruct (keys l !! k) as [st|] eqn:E; (split; [|cbn; lia]).
    2:{ split; [done|]. cbn. apply Hmono. }
    split; [done|]. cbn. intros k' st'. rewrite lookup_insert_Some. intros [[<- <-]|[_ Hk']]; [|by apply Hmono].
    destruct (Hmono k st E) as (?&Hp&?&?). apply Hpred in Hp. unfold state_ok. cbn. split_and!; try lia; done.
  - unfold release, read_clock. destruct (keys l !! k) as [st|] eqn:E; [|done]. cbn. split; [|lia].
    split; [done|]. cbn. intros k' st'. rewrite lookup_insert_Some. intros [[<- <-]|[_ Hk']]; [|by apply Hmono].
    destruct (Hmono k st E) as (?&Hp&?&?). apply Hpred in Hp. unfold state_ok. cbn. split_and!; try lia; done.
  - cbn. split; [|lia]. split; [done|]. cbn. apply Hmono.
  - destruct acc as [[b ra] l]. cbn in *. destruct (keys l !! k) as [st|] eqn:E; [|done]. cbn.
    assert (Hins : limiter_ok (set_keys l (<[k := refreshLocked (policy l) k st now]> (keys l)))).
    { split; [done|]. cbn. intros k' st'. rewrite lookup_insert_Some. intros [[<- <-]|[_ Hk']]; [|by apply Hst].
      apply refresh_ok; [done|]. by apply Hst. }
    destruct (lockedUntil (refreshLocked _ _ _ _)); [destruct (_ && _)|]; done.
  - cbn. split; [|done]. split; [done|]. cbn. intros k' st' [_ Hk']%lookup_delete_Some. by apply Hst.
Qed.

Lemma prims_tick l l' : rtc prim l l' → (tick l ≤ tick l')%nat.
Proof.
  induction 1 as [|l l1 l2 Hp _ IH]; [done|]. etrans; [|exact IH]. clear IH.
  destruct Hp as [l k|l k|l k|l k|l|now acc k|l k].
  - pose proof (Check_spec l k) as Hs. destruct (Check_ l k) as [[ok ra] l']. destruct Hs as (_ & [_ Ht _ _ _] & _). cbn. lia.
  - pose proof (failReport_spec l k) as Hs. destruct (failReport_ l k) as [[[lk ra] f] l'].
    destruct Hs as ([_ Ht _ _ _] & _). cbn. lia.
  - unfold Success, read_clock. cbn. destruct (keys l !! k); cbn; lia.
  - unfold release, read_clock. destruct (keys l !! k); cbn; lia.
  - cbn. lia.
  - destruct acc as [[b ra] l]. cbn. destruct (keys l !! k) as [st|]; [|done].
    destruct (lockedUntil (refreshLocked _ _ _ _)); [destruct (_ && _)|]; done.
  - done.
Qed.

Lemma prims_ok l l' : limiter_ok l → Z.of_nat (tick l') < 2 ^ 62 → rtc prim l l' → limiter_ok l'.
Proof.
  intros Hok Hlow Hr. revert Hok Hlow.
  induction Hr as [|l l1 l2 Hp Hr IH]; intros Hok Hlow; [done|].
  apply IH; [|done]. apply (prim_ok l); [done| |done].
  assert (tick l ≤ tick l2)%nat by (apply prims_tick; by eapply rtc_l). lia.
Qed.

Lemma run_prims ops l : rtc prim l (fold_left apply_op ops l).
Proof. apply fold_prims. intros. apply apply_prims. Qed.
End calls.
