(* ===== verification/AuthLimitProps.v ===== *)
(** The rate limiter's guarantees. *)
From S2P Require Export AuthLimitFacts.
Local Open Scope Z_scope.

(** Concrete inputs of the witnesses: a clock that ticks every [step]
    nanoseconds, and the iteration order of the canonical listing. *)
Definition every (step : Z) (i : nat) : Z := 1000 + step * Z.of_nat i.
Definition listing (_ : nat) (m : gmap Key state) : list (Key * state) := map_to_list m.
Lemma listing_perm n m : listing n m ≡ₚ map_to_list m.
Proof. done. Qed.
Definition peer1 : Key := mkKey SurfaceLogin "192.0.2.1" "".
Definition peer2 : Key := mkKey SurfaceLogin "192.0.2.2" "".

Lemma DefaultPolicy_in_range : policy_in_range DefaultPolicy.
Proof. by vm_compute. Qed.

Section props.
Context (clock : nat → Z) (range : nat → gmap Key state → list (Key * state)).
Hypothesis range_perm : ∀ n m, range n m ≡ₚ map_to_list m.

Abbreviation apply_ := (apply_op clock range).

(** C21. Whatever calls are made on a new limiter, in any order, each key's state
    stays well formed: the counters are never negative and never exceed the
    number of clock readings, every lock has a length between [LockStart] and
    [LockMax] counted from the last failure, and a locked key is at or above its
    threshold (durations below 2^62 ns, fewer than 2^62 calls). *)
Theorem reachable_limiter_ok (p : Policy) (ops : list op) :
  policy_in_range p → Z.of_nat (tick (run clock range p ops)) < 2 ^ 62 →
  limiter_ok (run clock range p ops).
Proof.
  intros Hp Ht. eapply prims_ok; [done| |exact Ht|apply run_prims].
  split; [by apply normalize_ok|]. intros k st. cbn. by rewrite lookup_empty.
Qed.

(** ** Concurrency *)

(** The calls that neither resolve nor clear a reservation of [k]. *)
Definition leaves (k : Key) (o : op) : Prop :=
  match o with
  | OpCheck _ | OpSelfState _ _ _ => True
  | OpFail k' | OpSuccess k' => k' ≠ k
  | _ => False
  end.

(** How many of the [Check k] calls among [ops] are granted. *)
Fixpoint count_grants (k : Key) (l : Limiter) (ops : list op) : Z :=
  match ops with
  | [] => 0
  | o :: ops =>
      (match o with
       | OpCheck k' => if bool_decide (k' = k) && (Check clock range l k).1.1 then 1 else 0
       | _ => 0
       end) + count_grants k (apply_ l o) ops
  end.

Definition pend (l : Limiter) (k : Key) : Z :=
  match keys l !! k with Some st => pending st | None => 0 end.

Definition seen_since (t0 : Z) (l : Limiter) (k : Key) : Prop :=
  ∀ st, keys l !! k = Some st → ∃ t, lastSeen st = Some t ∧ t0 ≤ t.

Definition refreshed (p : Policy) (now : Z) (k : Key) (o : option state) : option state :=
  (fun st => refreshLocked p k st now) <$> o.

Lemma self_step_spec now acc k0 :
  let l := snd acc in let l' := snd (self_step now acc k0) in
  policy l' = policy l ∧ tick l' = tick l ∧
  ∀ k, keys l' !! k = if decide (k = k0) then refreshed (policy l) now k (keys l !! k) else keys l !! k.
Proof.
  destruct acc as [[b ra] l]. cbn. destruct (keys l !! k0) as [st|] eqn:E; cbn.
  - assert (H : ∀ k, <[k0:=refreshLocked (policy l) k0 st now]> (keys l) !! k =
              if decide (k = k0) then refreshed (policy l) now k (keys l !! k) else keys l !! k).
    { intros k. case_decide as Hk; [subst; by rewrite lookup_insert_eq, E|by rewrite lookup_insert_ne]. }
    destruct (lockedUntil _); [destruct (_ && _)|]; done.
  - split; [done|]. split; [done|]. intros k. case_decide; [subst; by rewrite E|done].
Qed.

Lemma self_fold_spec now ks acc :
  policy_ok (policy (snd acc)) →
  let l := snd acc in let l' := snd (fold_left (self_step now) ks acc) in
  policy l' = policy l ∧ tick l' = tick l ∧
  ∀ k, keys l' !! k = keys l !! k ∨ keys l' !! k = refreshed (policy l) now k (keys l !! k).
Proof.
  revert acc. induction ks as [|k0 ks IH]; intros acc Hp; cbn; [by repeat split; left|].
  destruct (self_step_spec now acc k0) as (E1 & E2 & H1).
  destruct (IH (self_step now acc k0)) as (F1 & F2 & H2); [by rewrite E1|].
  split; [congruence|]. split; [congruence|]. intros k. specialize (H1 k). specialize (H2 k).
  rewrite E1 in H2. case_decide.
  - right. destruct H2 as [->| ->]; rewrite H1; [done|]. unfold refreshed.
    destruct (keys acc.2 !! k) as [st|]; [|done]. cbn. f_equal. by apply refresh_refresh.
  - by rewrite <- H1.
Qed.

Lemma SelfState_spec l s r a :
  policy_ok (policy l) →
  let l' := snd (SelfState clock l s r a) in
  policy l' = policy l ∧ tick l' = S (tick l) ∧
  ∀ k, keys l' !! k = keys l !! k ∨ keys l' !! k = refreshed (policy l) (clock (tick l)) k (keys l !! k).
Proof.
  intros Hp. unfold SelfState, read_clock.
  exact (self_fold_spec (clock (tick l)) _ (false, 0, mkLimiter (keys l) (policy l) (S (tick l))) Hp).
Qed.

(** What the calls in question leave of the state of [k]. *)
Lemma leaves_frame k l o :
  policy_ok (policy l) → leaves k o → o ≠ OpCheck k →
  policy (apply_ l o) = policy l ∧ tick (apply_ l o) = S (tick l) ∧
  (keys (apply_ l o) !! k = keys l !! k ∨
   keys (apply_ l o) !! k = refreshed (policy l) (clock (tick l)) k (keys l !! k) ∨
   (keys (apply_ l o) !! k = None ∧ evictable l (clock (tick l)) k ∧
    MaxKeys (policy l) ≤ Z.of_nat (size (keys l)))).
Proof.
  intros Hp Hl Hne. destruct o as [k'|k'|k'|s r a| | | | | |]; try done.
  - cbn -[Check]. pose proof (Check_spec clock range range_perm l k') as Hs.
    destruct (Check clock range l k') as [[ok ra] l']. destruct Hs as (_ & [Hpo Ht Hf _ _] & _).
    split; [done|]. split; [done|]. destruct (Hf k) as [?|(?&?&?&?)]; [congruence|by left|by right; right].
  - cbn -[failReport]. unfold Fail_. pose proof (failReport_spec clock range range_perm l k') as Hs.
    destruct (failReport clock range l k') as [[[lk ra] f] l']. destruct Hs as ([Hpo Ht Hf _ _] & _).
    split; [done|]. split; [done|]. destruct (Hf k) as [?|(?&?&?&?)]; [cbn in Hl; congruence|by left|by right; right].
  - cbn. unfold Success, read_clock. cbn in *. destruct (keys l !! k') as [st|]; cbn; split; try done; split; try done; left; [|done].
    by rewrite lookup_insert_ne.
  - destruct (SelfState_spec l s r a Hp) as (H1 & H2 & H3). split; [exact H1|]. split; [exact H2|].
    destruct (H3 k) as [?|?]; [by left|by right; left].
Qed.

Lemma refresh_fresh_pending p k st now t0 :
  policy_ok p → lastSeen st = Some t0 → now - t0 < Window p → 0 ≤ pending st →
  pending (refreshLocked p k st now) = Z.min (pending st) (thresholdFor p k).
Proof.
  intros Hp Hs Hw Hpe. pose proof (threshold_ok p k Hp).
  assert (Hst : stale p now (lastSeen st) = false).
  { rewrite Hs. unfold stale, dur_sub. apply Z.leb_gt. unfold policy_ok in Hp. unfold int64_min, int64_max. lia. }
  destruct (locked_at st now) eqn:E.
  - rewrite refresh_locked by done. unfold clamp. cbn. destruct (Z.ltb_spec (thresholdFor p k) (pending st)); lia.
  - rewrite refresh_unlocked by done. unfold clamp. cbn [pending]. rewrite Hst, andb_false_r.
    destruct (Z.ltb_spec (thresholdFor p k) (pending st)); lia.
Qed.

(** [n] reservations of [k] are held, and [k] was seen since [t0]. *)
Record holds (k : Key) (t0 n : Z) (l : Limiter) : Prop := {
  ho_ok : limiter_ok l;
  ho_pend : n ≤ pend l k;
  ho_thr : n ≤ thresholdFor (policy l) k;
  ho_seen : seen_since t0 l k
}.

Lemma apply_ok l o :
  limiter_ok l → Z.of_nat (tick (apply_ l o)) < 2 ^ 62 → limiter_ok (apply_ l o).
Proof. intros Hok Ht. eapply prims_ok; [done|exact Hok|exact Ht|by apply apply_prims]. Qed.

Lemma pend_refresh_le k t0 l now (st : state) :
  limiter_ok l → keys l !! k = Some st → seen_since t0 l k → now < t0 + Window (policy l) →
  Z.min (pending st) (thresholdFor (policy l) k) ≤ pending (refreshLocked (policy l) k st now).
Proof.
  intros [Hp Hst] Hk Hs Hw. destruct (Hs st Hk) as (t & Ht & Hle). destruct (Hst k st Hk) as (_ & Hpe & _).
  rewrite (refresh_fresh_pending _ _ _ _ t) by (done || lia). lia.
Qed.

Lemma holds_other k t0 n l o :
  holds k t0 n l → 0 ≤ n → leaves k o → o ≠ OpCheck k →
  t0 ≤ clock (tick l) < t0 + Window (policy l) → Z.of_nat (S (tick l)) < 2 ^ 62 →
  holds k t0 n (apply_ l o) ∧ policy (apply_ l o) = policy l ∧ tick (apply_ l o) = S (tick l).
Proof.
  intros [Hok Hpe Hth Hs] Hn Hl Hne Hw Htk.
  destruct (leaves_frame k l o) as (Ep & Et & Hk); [apply Hok|done..|].
  split; [|done]. split; [apply apply_ok; [done|by rewrite Et]| |by rewrite Ep|].
  - unfold pend in *. destruct Hk as [->|[->|(-> & (sv & Hin & Hsv & _) & _)]]; [done| |rewrite Hin in Hpe; lia].
    unfold refreshed. destruct (keys l !! k) as [st|] eqn:E; cbn; [|done].
    pose proof (pend_refresh_le k t0 l (clock (tick l)) st Hok E Hs). lia.
  - intros st'. destruct Hk as [->|[->|(-> & _)]]; [apply Hs| |done].
    unfold refreshed. destruct (keys l !! k) as [st|] eqn:E; cbn; [|done]. intros [= <-].
    rewrite refresh_lastSeen. by apply Hs.
Qed.

Lemma holds_check k t0 n l :
  holds k t0 n l → 0 ≤ n →
  t0 ≤ clock (tick l) < t0 + Window (policy l) → Z.of_nat (S (tick l)) < 2 ^ 62 →
  let '(ok, _, l') := Check clock range l k in
  holds k t0 (n + if ok then 1 else 0) l' ∧ policy l' = policy l ∧ tick l' = S (tick l).
Proof.
  intros [Hok Hpe Hth Hs] Hn Hw Htk.
  pose proof (Check_spec clock range range_perm l k) as H.
  pose proof (apply_ok l (OpCheck k) Hok) as Hok'. cbn -[Check] in Hok'.
  destruct (Check clock range l k) as [[ok ra] l']. destruct H as (Hg & [Hpo Ht _ _ _] & Hk & _).
  assert (Hseen : n ≤ pending (seen clock l k)).
  { unfold seen, found, pend in *. cbn. destruct (keys l !! k) as [st|] eqn:E; cbn.
    - pose proof (pend_refresh_le k t0 l (clock (tick l)) st Hok E Hs). lia.
    - destruct (refresh_pending (policy l) (proj1 Hok) k (Z.of_nat (tick l))
        (mkState 0 0 None 0 None (Some (clock (tick l)))) (clock (tick l))) as [? _].
      { unfold state_ok. cbn. split_and!; [lia..|by left|done]. }
      lia. }
  assert (Hlast : seen_since t0 l' k).
  { intros st. rewrite Hk. intros [= <-]. exists (clock (tick l)). split; [by destruct ok|lia]. }
  split; [|done]. destruct ok.
  - destruct (granted_ok clock l Hok ltac:(lia) k (eq_sym Hg)) as (_ & Ew & Hlt).
    destruct (seen_ok clock l Hok k) as ([? ?] & _).
    split; [apply Hok'; cbn; lia| |rewrite Hpo; lia|done].
    unfold pend. rewrite Hk. cbn -[seen]. rewrite Ew. lia.
  - split; [apply Hok'; cbn; lia| |rewrite Hpo; lia|done].
    unfold pend. rewrite Hk. lia.
Qed.

Lemma grants_bounded_from k t0 ops : ∀ n l,
  holds k t0 n l → 0 ≤ n → Forall (leaves k) ops →
  Z.of_nat (tick l + length ops) < 2 ^ 62 →
  (∀ i, (tick l ≤ i < tick l + length ops)%nat → t0 ≤ clock i < t0 + Window (policy l)) →
  n + count_grants k l ops ≤ thresholdFor (policy l) k.
Proof.
  induction ops as [|o ops IH]; intros n l Hh Hn Hl Htk Hw; cbn [count_grants].
  { destruct Hh. lia. }
  apply Forall_cons in Hl as [Ho Hl]. cbn [length] in *.
  pose proof (Hw (tick l) ltac:(lia)) as Hnow.
  assert (Hnext : ∀ m l', holds k t0 m l' → 0 ≤ m → policy l' = policy l → tick l' = S (tick l) →
            m + count_grants k l' ops ≤ thresholdFor (policy l) k).
  { intros m l' Hm Hm0 Ep Et. rewrite <- Ep. apply IH; [done|done|done|rewrite Et; lia|].
    intros i Hi. rewrite Ep. apply Hw. lia. }
  assert (Hd : o = OpCheck k ∨ o ≠ OpCheck k).
  { destruct o as [k'| | | | | | | | |]; try (by right). destruct (decide (k' = k)) as [->|]; [by left|right; congruence]. }
  destruct Hd as [->|Hne].
  - cbn -[Check]. rewrite bool_decide_eq_true_2 by done. cbn [andb].
    pose proof (holds_check k t0 n l Hh Hn Hnow ltac:(lia)) as Hc.
    destruct (Check clock range l k) as [[ok ra] l']. destruct Hc as (Hh' & Ep & Et). cbn.
    destruct ok; pose proof (Hnext _ l' Hh' ltac:(lia) Ep Et); lia.
  - destruct (holds_other k t0 n l o Hh Hn Ho Hne Hnow ltac:(lia)) as (Hh' & Ep & Et).
    pose proof (Hnext n _ Hh' Hn Ep Et).
    destruct o as [k'| | | | | | | | |]; try lia. rewrite bool_decide_eq_false_2 by congruence. cbn [andb]. lia.
Qed.

(** C22. Concurrent requests for one key cannot all pass the pre-check: however
    the calls interleave, as long as no reservation of the key is resolved and
    the clock stays within one [Window], at most [threshold] of the [Check]s of
    that key are granted, other keys' failures, successes, evictions and polls
    notwithstanding. *)
Theorem concurrent_grants_bounded (l : Limiter) (k : Key) (t0 : Z) (ops : list op) :
  limiter_ok l → seen_since t0 l k → Forall (leaves k) ops →
  Z.of_nat (tick l + length ops) < 2 ^ 62 →
  (∀ i, (tick l ≤ i < tick l + length ops)%nat → t0 ≤ clock i < t0 + Window (policy l)) →
  count_grants k l ops ≤ thresholdFor (policy l) k.
Proof.
  intros Hok Hs Hl Htk Hw. apply (grants_bounded_from k t0 ops 0 l); try done.
  destruct Hok as [Hp Hst]. split; [done| | |done].
  - unfold pend. destruct (keys l !! k) as [st|] eqn:E; [|done]. by destruct (Hst k st E) as (_ & [? _] & _).
  - pose proof (threshold_ok (policy l) k Hp). lia.
Qed.

(** ** Locks persist *)

Lemma self_fold_size now ks acc :
  size (keys (snd (fold_left (self_step now) ks acc))) = size (keys (snd acc)).
Proof.
  revert acc. induction ks as [|k ks IH]; intros acc; cbn [fold_left]; [done|]. rewrite IH.
  destruct acc as [[b ra] l]. cbn -[size]. destruct (keys l !! k) as [st|] eqn:E; [|done].
  assert (H : ∀ st', size (<[k:=st']> (keys l)) = size (keys l)).
  { intros st'. by rewrite map_size_insert, E. }
  destruct (lockedUntil _); [destruct (_ && _)|]; cbn -[size]; apply H.
Qed.

Lemma leaves_size k l o : leaves k o → (size (keys (apply_ l o)) ≤ S (size (keys l)))%nat.
Proof.
  intros Hl. destruct o as [k'|k'|k'|s r a| | | | | |]; try done.
  - cbn -[Check size]. pose proof (Check_spec clock range range_perm l k') as Hs.
    destruct (Check clock range l k') as [[ok ra] l']. by destruct Hs as (_ & [_ _ _ _ Hg] & _).
  - cbn -[failReport size]. unfold Fail_. pose proof (failReport_spec clock range range_perm l k') as Hs.
    destruct (failReport clock range l k') as [[[lk ra] f] l']. by destruct Hs as ([_ _ _ _ Hg] & _).
  - cbn -[size]. unfold Success, read_clock. cbn -[size]. destruct (keys l !! k'); cbn -[size]; [apply size_insert_le|lia].
  - cbn [apply_op]. unfold SelfState, read_clock. rewrite self_fold_size. apply Nat.le_succ_diag_r.
Qed.

Lemma refresh_keeps_lock p k st now u :
  lockedUntil st = Some u → now < u → lockedUntil (refreshLocked p k st now) = Some u.
Proof.
  intros Hu Hn. assert (E : locked_at st now = true) by (unfold locked_at; rewrite Hu; by apply Z.ltb_lt).
  by rewrite refresh_locked.
Qed.

Definition locked_until (l : Limiter) (k : Key) (u : Z) : Prop :=
  ∃ st, keys l !! k = Some st ∧ lockedUntil st = Some u.

Lemma check_denied l k u :
  locked_until l k u → clock (tick l) < u →
  let '(ok, ra, l') := Check clock range l k in
  ok = false ∧ ra = dur_sub u (clock (tick l)) ∧ locked_until l' k u ∧
  policy l' = policy l ∧ tick l' = S (tick l).
Proof.
  intros (st & Hk & Hu) Hn. pose proof (Check_spec clock range range_perm l k) as Hs.
  assert (Hl : lockedUntil (seen clock l k) = Some u).
  { unfold seen, found. rewrite Hk. cbn. by apply refresh_keeps_lock. }
  assert (Hat : locked_at (seen clock l k) (clock (tick l)) = true).
  { unfold locked_at. rewrite Hl. by apply Z.ltb_lt. }
  destruct (Check clock range l k) as [[ok ra] l']. destruct Hs as (Hok & [Ep Et _ _ _] & Hk' & Hra).
  unfold grants in Hok. rewrite Hat in Hok. cbn in Hok. subst ok. rewrite Hat, Hl in Hra.
  split; [done|]. split; [done|]. split; [by exists (seen clock l k)|done].
Qed.

(** A lock holds: until it expires, every [Check] of the locked key is
    denied, whatever else happens on other keys in between, as long as the map
    has room (the key cannot be evicted) and nobody clears or resolves the key;
    and a denied [Check] names the remaining time. *)
Theorem lock_persists (k : Key) (u : Z) (ops : list op) : ∀ (l : Limiter),
  policy_ok (policy l) → locked_until l k u → Forall (leaves k) ops →
  (∀ i, (tick l ≤ i ≤ tick l + length ops)%nat → clock i < u) →
  Z.of_nat (size (keys l) + length ops) ≤ MaxKeys (policy l) →
  count_grants k l ops = 0 ∧
  let l' := fold_left apply_ ops l in
  (Check clock range l' k).1 = (false, dur_sub u (clock (tick l'))).
Proof.
  induction ops as [|o ops IH]; intros l Hp Hlk Hl Hc Hsz; cbn [count_grants fold_left length] in *.
  { split; [done|]. pose proof (check_denied l k u Hlk (Hc (tick l) ltac:(lia))) as H.
    destruct (Check clock range l k) as [[ok ra] l']. destruct H as (-> & -> & _). done. }
  apply Forall_cons in Hl as [Ho Hl].
  pose proof (Hc (tick l) ltac:(lia)) as Hnow. pose proof (leaves_size k l o Ho) as Hgrow.
  assert (Hnext : policy (apply_ l o) = policy l → tick (apply_ l o) = S (tick l) → locked_until (apply_ l o) k u →
    count_grants k (apply_ l o) ops = 0 ∧
    (Check clock range (fold_left apply_ ops (apply_ l o)) k).1 =
      (false, dur_sub u (clock (tick (fold_left apply_ ops (apply_ l o)))))).
  { intros Ep Et Hlk'. apply IH; [by rewrite Ep|done|done| |].
    - intros i Hi. apply Hc. lia.
    - rewrite Ep. lia. }
  assert (Hd : o = OpCheck k ∨ o ≠ OpCheck k).
  { destruct o as [k'| | | | | | | | |]; try (by right). destruct (decide (k' = k)) as [->|]; [by left|right; congruence]. }
  destruct Hd as [->|Hne].
  - rewrite bool_decide_eq_true_2 by done. pose proof (check_denied l k u Hlk Hnow) as H.
    cbn -[Check] in Hnext. cbn -[Check].
    destruct (Check clock range l k) as [[ok ra] l']. destruct H as (-> & _ & Hlk' & Ep & Et).
    by apply Hnext.
  - destruct (leaves_frame k l o Hp Ho Hne) as (Ep & Et & Hk).
    assert (Hlk' : locked_until (apply_ l o) k u).
    { destruct Hlk as (st & Hin & Hu). destruct Hk as [Hk|[Hk|(_ & _ & Hfull)]]; [by exists st; rewrite Hk| |exfalso; lia].
      rewrite Hin in Hk. eexists. split; [exact Hk|]. by apply refresh_keeps_lock. }
    destruct (Hnext Ep Et Hlk') as [H1 H2]. split; [|done].
    destruct o as [k'| | | | | | | | |]; try lia. rewrite bool_decide_eq_false_2 by congruence. cbn [andb]. lia.
Qed.

(** ** Attempts *)

Definition dec_pos (n : Z) : Z := if 0 <? n then n - 1 else n.
Fixpoint key_count (k : Key) (ks : list Key) : Z :=
  match ks with [] => 0 | k' :: ks => (if decide (k = k') then 1 else 0) + key_count k ks end.

Lemma key_count_app k a b : key_count k (a ++ b) = key_count k a + key_count k b.
Proof. induction a as [|x a IH]; cbn; [done|]. lia. Qed.

Lemma pend_release l k0 k : pend (release clock l k0) k = if decide (k = k0) then dec_pos (pend l k) else pend l k.
Proof.
  unfold release, pend, read_clock, dec_pos. destruct (keys l !! k0) as [st|] eqn:E; cbn.
  - case_decide as Hk; [subst; by rewrite lookup_insert_eq, E|by rewrite lookup_insert_ne].
  - case_decide as Hk; [subst; by rewrite E|done].
Qed.

Lemma pend_release_all rs l k :
  pend (fold_left (release clock) rs l) k ≤ Z.max 0 (pend l k - key_count k rs).
Proof.
  revert l. induction rs as [|r rs IH]; intros l; cbn [fold_left key_count]; [lia|].
  etrans; [apply IH|]. rewrite pend_release. unfold dec_pos. case_decide; [|lia].
  destruct (Z.ltb_spec 0 (pend l k)); [lia|]. clear IH. induction rs as [|x rs IH]; cbn; [lia|]. case_decide; lia.
Qed.

Lemma Check_pend l k :
  limiter_ok l → Z.of_nat (tick l) < 2 ^ 62 →
  let '(ok, _, l') := Check clock range l k in
  limiter_ok l' ∧ tick l' = S (tick l) ∧
  (∀ k', pend l' k' ≤ pend l k' + if decide (k' = k) then if ok then 1 else 0 else 0) ∧
  (∀ k', 0 < pend l k' → k' ≠ k → pend l' k' = pend l k') ∧
  (ok = true → 0 < pend l' k).
Proof.
  intros Hok Ht. pose proof (Check_spec clock range range_perm l k) as Hs.
  pose proof (prim_ok clock range range_perm l _ Hok Ht (prim_check clock range l k)) as [Hok' _].
  destruct (Check clock range l k) as [[ok ra] l']. destruct Hs as (Hg & [Ep Et Hf _ _] & Hk & _).
  destruct (seen_ok clock l Hok k) as (_ & [Hs0 _] & _). assert (Hp := proj1 Hok).
  assert (Hsk : pending (seen clock l k) ≤ pend l k).
  { unfold seen, found, pend in *. cbn. pose proof (found_ok l Hok k (clock (tick l))) as Hfo.
    pose proof (refresh_pending _ Hp k _ _ (clock (tick l)) Hfo) as [[_ Hr] _].
    unfold found in Hr. by destruct (keys l !! k). }
  split; [done|]. split; [done|]. split; [|split].
  - intros k'. case_decide as Hkk.
    + subst k'. unfold pend at 1. rewrite Hk. destruct ok; cbn -[seen]; [|lia].
      destruct (granted_ok clock l Hok Ht k (eq_sym Hg)) as (_ & -> & _). lia.
    + unfold pend. destruct (Hf k' Hkk) as [->|(-> & (sv & Hin & _) & _)]; [lia|].
      rewrite Hin. destruct Hok as [_ Hst]. destruct (Hst k' sv Hin) as (_ & [? _] & _). lia.
  - intros k' Hpos Hne. unfold pend in *. destruct (Hf k' Hne) as [->|(_ & (sv & Hin & Hsv & _) & _)]; [done|].
    rewrite Hin in Hpos. lia.
  - intros ->. unfold pend. rewrite Hk. cbn -[seen].
    destruct (granted_ok clock l Hok Ht k (eq_sym Hg)) as (_ & -> & _). lia.
Qed.

Lemma reserve_all_spec l0 ks : ∀ l rs,
  limiter_ok l → Z.of_nat (tick l + length ks) < 2 ^ 62 → (∀ k, 0 ≤ pend l0 k) →
  (∀ k, pend l k ≤ pend l0 k + key_count k rs) → (∀ k, k ∈ rs → 0 < pend l k) →
  let '(a, ok, _, l') := reserve_all clock range l rs ks in
  (ok = false → at_keys a = [] ∧ ∀ k, pend l' k ≤ pend l0 k) ∧
  (ok = true → at_keys a = rs ++ ks ∧ ∀ k, k ∈ rs ++ ks → 0 < pend l' k).
Proof.
  induction ks as [|k ks IH]; intros l rs Hok Ht H0 Hle Hpos; cbn [reserve_all length] in *.
  { split; [done|]. intros _. by rewrite app_nil_r. }
  pose proof (Check_pend l k Hok ltac:(lia)) as Hc.
  destruct (Check clock range l k) as [[ok ra] l']. destruct Hc as (Hok' & Et & Hup & Hkeep & Hgot).
  destruct ok.
  - specialize (IH l' (rs ++ [k]) Hok' ltac:(lia) H0). rewrite <- app_assoc in IH. apply IH.
    + intros k'. rewrite key_count_app. cbn. specialize (Hup k'). specialize (Hle k').
      repeat case_decide; lia.
    + intros k' [Hin|Hin]%elem_of_app.
      * destruct (decide (k' = k)) as [->|Hne]; [by apply Hgot|]. rewrite Hkeep; auto.
      * apply list_elem_of_singleton in Hin as ->. by apply Hgot.
  - split; [|done]. intros _. split; [done|]. intros k'.
    etrans; [apply pend_release_all|]. specialize (Hup k'). specialize (Hle k'). specialize (H0 k').
    case_decide; lia.
Qed.

(** A refused attempt leaves no reservation behind on any key, and its handle
    resolves nothing; a granted one holds at least one reservation on every key
    it consulted (peer, peer and account, account ceiling). *)
Theorem attempt_leaks_nothing (l : Limiter) (s : Surface) (remoteAddr account : string) :
  limiter_ok l → Z.of_nat (tick l + 3) < 2 ^ 62 →
  let '(a, ok, _, l') := Limiter_Attempt clock range l s remoteAddr account in
  (ok = false → at_keys a = [] ∧ ∀ k, pend l' k ≤ pend l k) ∧
  (ok = true → at_keys a = attempt_keys s (PeerKey remoteAddr) account ∧
     ∀ k, k ∈ at_keys a → 0 < pend l' k).
Proof.
  intros Hok Ht. pose proof (reserve_all_spec l (attempt_keys s (PeerKey remoteAddr) account) l []) as H.
  unfold Limiter_Attempt. destruct (reserve_all _ _ _ _ _) as [[[a ok] ra] l'].
  destruct H as [Hden Hgr]; [done| | |intros k; cbn; lia|set_solver|].
  - unfold attempt_keys. destruct (String.eqb account ""); cbn; lia.
  - intros k. unfold pend. destruct (keys l !! k) as [st|] eqn:E; [|done].
    destruct Hok as [_ Hst]. by destruct (Hst k st E) as (_ & [? _] & _).
  - split; [done|]. intros E. destruct (Hgr E) as [-> ?]. done.
Qed.

(** ** Eviction *)

(** Room is made safely: a [Check] or a [Fail] on one key changes no other
    key, except that it may drop one entry when its own key is new and the map is
    full; the dropped entry holds no reservation, is the least recently seen of
    its kind, and is a locked one only if every entry is locked or reserved.  The
    map stays within [MaxKeys] unless every entry holds a reservation. *)
Theorem eviction_safe (l l' : Limiter) (k : Key) :
  policy_ok (policy l) →
  l' = snd (Check clock range l k) ∨ l' = snd (Fail_ clock range l k) →
  (∀ k', k' ≠ k → keys l' !! k' = keys l !! k' ∨
     (keys l' !! k' = None ∧ keys l !! k = None ∧ MaxKeys (policy l) ≤ Z.of_nat (size (keys l)) ∧
      evictable l (clock (tick l)) k')) ∧
  (Z.of_nat (size (keys l)) ≤ MaxKeys (policy l) →
   Z.of_nat (size (keys l')) ≤ MaxKeys (policy l) ∨ ∀ k' st, keys l !! k' = Some st → 0 < pending st).
Proof.
  intros Hp Hcall.
  assert (Ht : touched l k (clock (tick l)) l').
  { destruct Hcall as [->| ->].
    - pose proof (Check_spec clock range range_perm l k) as H.
      destruct (Check clock range l k) as [[ok ra] l1]. apply H.
    - unfold Fail_. pose proof (failReport_spec clock range range_perm l k) as H.
      destruct (failReport clock range l k) as [[[lk ra] f] l1]. apply H. }
  destruct Ht as [Ep Et Hf Hs Hg]. split.
  - intros k' Hne. destruct (Hf k' Hne) as [?|(?&?&?&?)]; [by left|by right].
  - intros Hsz. apply Hs; [done|]. unfold policy_ok in Hp. lia.
Qed.

(** ** Escalation *)

Lemma seen_expired l k st u :
  policy_ok (policy l) → keys l !! k = Some st → lockedUntil st = Some u → u ≤ clock (tick l) →
  seen clock l k = set_lastSeen (mkState
    (if stale (policy l) (clock (tick l)) (lastFailure st) then 0 else unlocked_failures (policy l) k st)
    (clamp (policy l) k (if (0 <? pending st) && stale (policy l) (clock (tick l)) (lastSeen st) then 0 else pending st)) None
    (if stale (policy l) (clock (tick l)) (lastFailure st) then 0 else lockLen st)
    (if stale (policy l) (clock (tick l)) (lastFailure st) then None else lastFailure st) (lastSeen st))
    (Some (clock (tick l))).
Proof.
  intros Hp Hk Hu Hn. unfold seen, found. rewrite Hk. cbn [default from_option id].
  rewrite refresh_unlocked; [done|]. unfold locked_at. rewrite Hu. apply Z.ltb_ge. lia.
Qed.

(** An expired lock leaves exactly one try.  If the last failure is still
    within [Window], the streak counts one below the threshold, and the next
    failure locks at once for twice the previous length, capped at [LockMax]. *)
Theorem relock_doubles (l : Limiter) (k : Key) (st : state) (u f : Z) :
  limiter_ok l → Z.of_nat (tick l) < 2 ^ 62 →
  keys l !! k = Some st → lockedUntil st = Some u → u ≤ clock (tick l) →
  lastFailure st = Some f → clock (tick l) - f < Window (policy l) →
  failures (seen clock l k) = thresholdFor (policy l) k - 1 ∧
  (Fail_ clock range l k).1 = (true, Z.min (2 * lockLen st) (LockMax (policy l))).
Proof.
  intros Hok Ht Hk Hu Hn Hf Hw. assert (Hok' := Hok). destruct Hok' as [Hp Hst].
  destruct (Hst k st Hk) as ([Hf0 Hf1] & _ & Hl & Hlk). destruct (Hlk u Hu) as (Hthr & Hlen & _).
  pose proof (threshold_ok (policy l) k Hp) as Hto.
  assert (Hstale : stale (policy l) (clock (tick l)) (lastFailure st) = false).
  { rewrite Hf. unfold stale, dur_sub. apply Z.leb_gt. unfold policy_ok in Hp. unfold int64_min, int64_max. lia. }
  assert (Huf : unlocked_failures (policy l) k st = thresholdFor (policy l) k - 1).
  { unfold unlocked_failures. rewrite Hu, (proj2 (Z.leb_le _ _)) by done.
    apply wrap64_id. unfold in_int64, int64_min, int64_max in *. lia. }
  pose proof (seen_expired l k st u Hp Hk Hu Hn) as Hseen. rewrite Hstale, Huf in Hseen.
  split; [by rewrite Hseen|].
  unfold Fail_. pose proof (failReport_spec clock range range_perm l k) as H.
  destruct (failReport clock range l k) as [[[lk ra] fl] l']. destruct H as (_ & _ & Hfl & -> & ->).
  unfold failed in Hfl |- *. rewrite Hseen in Hfl |- *. cbn [failures lockLen set_lastSeen] in Hfl |- *.
  rewrite wrap64_id in Hfl |- * by (unfold in_int64, int64_min, int64_max in *; lia).
  destruct (Z.leb_spec (thresholdFor (policy l) k) (thresholdFor (policy l) k - 1 + 1)); [|lia].
  cbn [failures lockLen] in Hfl |- *. subst fl. rewrite (proj2 (Z.leb_le _ _)) by lia.
  cbn [fst]. f_equal. by apply (next_lockLen_ok (policy l)).
Qed.

(** But a lock at least [Window] long is forgotten when it expires: the whole
    streak is stale by then, so the key is back to a clean slate with a full
    threshold of tries and the shortest lock.  With the default policy ([LockMax]
    equals [Window]) this happens at every capped lock, so the escalation starts
    over. *)
Theorem capped_lock_forgotten (l : Limiter) (k : Key) (st : state) (u : Z) :
  limiter_ok l → keys l !! k = Some st → lockedUntil st = Some u →
  Window (policy l) ≤ lockLen st → u ≤ clock (tick l) →
  failures (seen clock l k) = 0 ∧ lockLen (seen clock l k) = 0 ∧ lockedUntil (seen clock l k) = None.
Proof.
  intros Hok Hk Hu Hw Hn. assert (Hok' := Hok). destruct Hok' as [Hp Hst].
  destruct (Hst k st Hk) as (_ & _ & _ & Hlk). destruct (Hlk u Hu) as (_ & _ & f & Hf & Huf).
  assert (Hstale : stale (policy l) (clock (tick l)) (lastFailure st) = true).
  { rewrite Hf. unfold stale, dur_sub. apply Z.leb_le. unfold policy_ok in Hp. unfold int64_min, int64_max in *. lia. }
  rewrite (seen_expired l k st u), Hstale; done.
Qed.

(** ** Polling *)

(** The banner's poll is invisible: [SelfState] creates no entry and removes
    none, and any later decision sees each key exactly as it would have without
    the poll. *)
Theorem SelfState_transparent (l : Limiter) (s : Surface) (remoteAddr account : string) :
  policy_ok (policy l) →
  let l' := snd (SelfState clock l s remoteAddr account) in
  dom (keys l') = dom (keys l) ∧
  ∀ k now, clock (tick l) ≤ now →
    refreshed (policy l) now k (keys l' !! k) = refreshed (policy l) now k (keys l !! k).
Proof.
  intros Hp. destruct (SelfState_spec l s remoteAddr account Hp) as (_ & _ & Hk). cbv zeta. split.
  - apply set_eq. intros k. rewrite !elem_of_dom. destruct (Hk k) as [->| ->]; [done|].
    unfold refreshed. apply fmap_is_Some.
  - intros k now Hn. destruct (Hk k) as [->| ->]; [done|]. unfold refreshed.
    destruct (keys l !! k) as [st|]; [|done]. cbn. f_equal. by apply refresh_refresh.
Qed.
End props.

(** ** Concrete runs *)

Abbreviation run1 := (run (every 1) listing DefaultPolicy).

Lemma run1_ok ops : Z.of_nat (tick (run1 ops)) < 2 ^ 62 → limiter_ok (run1 ops).
Proof.
  intros H. eapply prims_ok; [exact listing_perm| |exact H|apply run_prims].
  split; [apply normalize_ok, DefaultPolicy_in_range|]. intros k st. cbn. by rewrite lookup_empty.
Qed.

Lemma policy_is_default_ok (l : Limiter) : policy l = normalize DefaultPolicy → policy_ok (policy l).
Proof. intros ->. apply normalize_ok, DefaultPolicy_in_range. Qed.

Definition five_fails : list op := replicate 5 (OpFail peer1).

Lemma reachable_limiter_ok_witness :
  policy_in_range DefaultPolicy ∧ Z.of_nat (tick (run1 five_fails)) < 2 ^ 62 ∧ limiter_ok (run1 five_fails).
Proof.
  assert (H : Z.of_nat (tick (run1 five_fails)) < 2 ^ 62) by (vm_compute; reflexivity).
  split; [exact DefaultPolicy_in_range|]. split; [exact H|].
  exact (reachable_limiter_ok (every 1) listing listing_perm DefaultPolicy five_fails DefaultPolicy_in_range H).
Defined.

Definition seven_checks : list op := replicate 7 (OpCheck peer1).

Lemma concurrent_grants_bounded_witness :
  count_grants (every 1) listing peer1 (New DefaultPolicy) seven_checks = 5 ∧
  count_grants (every 1) listing peer1 (New DefaultPolicy) seven_checks ≤ 5.
Proof.
  split; [vm_compute; reflexivity|].
  apply (concurrent_grants_bounded (every 1) listing listing_perm (New DefaultPolicy) peer1 1000 seven_checks).
  - apply (run1_ok []). vm_compute. reflexivity.
  - intros st. cbn. rewrite lookup_empty. discriminate.
  - repeat constructor.
  - vm_compute. reflexivity.
  - intros i [_ Hi]. cbn [tick length New] in Hi. unfold every.
    change (Window (policy (New DefaultPolicy))) with (15 * 60 * 1000000000).
    vm_compute in Hi. lia.
Defined.

Lemma five_fails_locked :
  ∃ st, keys (run1 five_fails) !! peer1 = Some st ∧
    st = mkState 5 0 (Some 30000001004) 30000000000 (Some 1004) (Some 1004).
Proof. eexists. split; [vm_compute; reflexivity|reflexivity]. Qed.

Definition noise : list op := [OpFail peer2; OpCheck peer1; OpSuccess peer2; OpCheck peer1].

Lemma lock_persists_witness :
  (Check (every 1) listing (fold_left (apply_op (every 1) listing) noise (run1 five_fails)) peer1).1 =
    (false, 29999999995) ∧
  count_grants (every 1) listing peer1 (run1 five_fails) noise = 0.
Proof.
  split; [vm_compute; reflexivity|].
  apply (lock_persists (every 1) listing listing_perm peer1 30000001004 noise (run1 five_fails)).
  - apply policy_is_default_ok. vm_compute. reflexivity.
  - destruct five_fails_locked as (st & Hk & ->). eexists. split; [exact Hk|reflexivity].
  - repeat constructor; done.
  - intros i [_ Hi]. vm_compute in Hi. unfold every. lia.
  - vm_compute. discriminate.
Defined.

Lemma attempt_leaks_nothing_witness :
  let '(a, ok, _, _) := Limiter_Attempt (every 1) listing (run1 []) SurfaceLogin "192.0.2.1:7" "alice" in
  ok = true ∧ at_keys a = attempt_keys SurfaceLogin (PeerKey "192.0.2.1:7") "alice".
Proof.
  assert (Hok : limiter_ok (run1 [])) by (apply run1_ok; vm_compute; reflexivity).
  assert (Ht : Z.of_nat (tick (run1 []) + 3) < 2 ^ 62) by (vm_compute; reflexivity).
  pose proof (attempt_leaks_nothing (every 1) listing listing_perm (run1 []) SurfaceLogin "192.0.2.1:7" "alice" Hok Ht) as H.
  assert (E : (Limiter_Attempt (every 1) listing (run1 []) SurfaceLogin "192.0.2.1:7" "alice").1.1.2 = true)
    by (vm_compute; reflexivity).
  destruct (Limiter_Attempt _ _ _ _ _ _) as [[[a ok] ra] l']. cbn in E. subst ok.
  split; [reflexivity|]. apply (proj2 H eq_refl).
Defined.

(** A policy with room for one key, and two peers. *)
Definition tiny : Policy := mkPolicy 5 20 (15 * time_Minute) (30 * time_Second) (15 * time_Minute) 0 1.

Lemma eviction_safe_witness :
  let l := run (every 1) listing tiny [OpFail peer1] in
  let l' := snd (Check (every 1) listing l peer2) in
  keys l' !! peer1 = None ∧ size (keys l') = 1%nat ∧
  (keys l' !! peer1 = keys l !! peer1 ∨
     (keys l' !! peer1 = None ∧ keys l !! peer2 = None ∧ MaxKeys (policy l) ≤ Z.of_nat (size (keys l)) ∧
      evictable l (every 1 (tick l)) peer1)).
Proof.
  cbv zeta. split; [vm_compute; reflexivity|]. split; [vm_compute; reflexivity|].
  apply (eviction_safe (every 1) listing listing_perm (run (every 1) listing tiny [OpFail peer1]) _ peer2).
  - assert (E : policy (run (every 1) listing tiny [OpFail peer1]) = normalize tiny) by (vm_compute; reflexivity).
    rewrite E. apply normalize_ok. by vm_compute.
  - left. reflexivity.
  - discriminate.
Defined.

(** A reading every 31 seconds: the fifth failure locks for 30 seconds, and the
    sixth comes one second after the lock expired. *)
Definition run31 : list op → Limiter := run (every (31 * time_Second)) listing DefaultPolicy.

Lemma run31_ok ops : Z.of_nat (tick (run31 ops)) < 2 ^ 62 → limiter_ok (run31 ops).
Proof.
  intros H. eapply prims_ok; [exact listing_perm| |exact H|apply run_prims].
  split; [apply normalize_ok, DefaultPolicy_in_range|]. intros k st. cbn. by rewrite lookup_empty.
Qed.

Lemma relock_doubles_witness :
  (Fail_ (every (31 * time_Second)) listing (run31 five_fails) peer1).1 = (true, 60 * time_Second) ∧
  failures (seen (every (31 * time_Second)) (run31 five_fails) peer1) = 5 - 1.
Proof.
  split; [vm_compute; reflexivity|].
  refine (proj1 (relock_doubles (every (31 * time_Second)) listing listing_perm (run31 five_fails) peer1
    (mkState 5 0 (Some 154000001000) 30000000000 (Some 124000001000) (Some 124000001000))
    154000001000 124000001000 _ _ _ _ _ _ _)).
  - apply run31_ok. vm_compute. reflexivity.
  - vm_compute. reflexivity.
  - vm_compute. reflexivity.
  - reflexivity.
  - vm_compute. discriminate.
  - reflexivity.
  - vm_compute. reflexivity.
Defined.

(** A source that waits out every lock: the failures come 16 minutes apart once
    the lock is at its cap, so [next] readings follow the locks. *)
Definition patient (i : nat) : Z :=
  time_Second * nth i [1; 2; 3; 4; 5; 36; 97; 218; 459; 940; 1841; 1842]%Z 2000.
Definition six_locks : list op := replicate 10 (OpFail peer1).

Lemma six_locks_state :
  keys (run patient listing DefaultPolicy six_locks) !! peer1 =
  Some (mkState 5 0 (Some (1840 * time_Second)) (900 * time_Second) (Some (940 * time_Second)) (Some (940 * time_Second))).
Proof. vm_compute. reflexivity. Qed.

Lemma capped_lock_forgotten_witness :
  (Fail_ patient listing (run patient listing DefaultPolicy six_locks) peer1).1 = (false, 250 * time_Millisecond) ∧
  failures (seen patient (run patient listing DefaultPolicy six_locks) peer1) = 0.
Proof.
  split; [vm_compute; reflexivity|].
  refine (proj1 (capped_lock_forgotten patient (run patient listing DefaultPolicy six_locks) peer1 _
    (1840 * time_Second) _ six_locks_state _ _ _)).
  - eapply prims_ok; [exact listing_perm| | |apply run_prims]; [|vm_compute; reflexivity].
    split; [apply normalize_ok, DefaultPolicy_in_range|]. intros k st. cbn. by rewrite lookup_empty.
  - reflexivity.
  - vm_compute. discriminate.
  - vm_compute. discriminate.
Defined.

Lemma SelfState_transparent_witness :
  (SelfState (every 1) (run1 five_fails) SurfaceLogin "192.0.2.1:7" "").1 = (true, 29999999999) ∧
  dom (keys (snd (SelfState (every 1) (run1 five_fails) SurfaceLogin "192.0.2.1:7" ""))) = dom (keys (run1 five_fails)).
Proof.
  split; [vm_compute; reflexivity|].
  apply (SelfState_transparent (every 1) (run1 five_fails) SurfaceLogin "192.0.2.1:7" "").
  apply policy_is_default_ok. vm_compute. reflexivity.
Defined.
