(* ===== verification/Chunker.v ===== *)
(** Content-defined chunking (internal/vault/chunker.go). *)
From S2P Require Export GoStr.
Local Open Scope Z_scope.

(** internal/vault/chunker.go:12-16 [ChunkParams] *)
Record ChunkParams : Type := mkChunkParams { MinSize : Z; AvgSize : Z; MaxSize : Z }.

(** internal/vault/chunker.go:18-24 [DefaultChunkParams] *)
Definition DefaultChunkParams : ChunkParams := {|
  MinSize := 2 * 1024 * 1024;
  AvgSize := 8 * 1024 * 1024;
  MaxSize := 16 * 1024 * 1024
|}.

(** internal/vault/chunker.go:26-37 [Validate]; [None] is a nil error. *)
Definition Validate (p : ChunkParams) : option err :=
  if (MinSize p <=? 0) || (AvgSize p <=? 0) || (MaxSize p <=? 0)
  then Some (ENew "chunk sizes must be positive")
  else if (AvgSize p <? MinSize p) || (MaxSize p <? AvgSize p)
  then Some (ENew "chunk sizes must satisfy min <= avg <= max")
  else if 128 * 1024 * 1024 <? MaxSize p
  then Some (ENew "max chunk size is capped at 128 MiB")
  else None.

(** The loop of [nextPowerOfTwo]; [fuel] doublings of a 64-bit [p] are all there
    are before it overflows. *)
Fixpoint npo2_loop (fuel : nat) (p n : Z) : Z :=
  match fuel with
  | O => p
  | S f => if p <? n then npo2_loop f (wrap64 (Z.shiftl p 1)) n else p
  end.

(** internal/vault/chunker.go:78-87 [nextPowerOfTwo] *)
Definition nextPowerOfTwo (n : Z) : Z := if n <=? 1 then 1 else npo2_loop 63 1 n.

Definition golden : Z := 11400714819323198485.
Definition gear_mix (x : Z) : Z :=
  let z := wrapu64 (Z.lxor x (Z.shiftr x 30) * 13787848793156543929) in
  let z := wrapu64 (Z.lxor z (Z.shiftr z 27) * 10723151780598845931) in
  Z.lxor z (Z.shiftr z 31).
Fixpoint gear_from (n : nat) (x : Z) : list Z :=
  match n with
  | O => []
  | S n' => let x := wrapu64 (x + golden) in gear_mix x :: gear_from n' x
  end.

(** internal/vault/chunker.go:89-100 [gearTable]; the constants are
    0x9e3779b97f4a7c15, 0xbf58476d1ce4e5b9 and 0x94d049bb133111eb. *)
Definition gearTable : list Z := gear_from 256 golden.

Definition byte_z (b : Byte.byte) : Z := Z.of_N (Byte.to_N b).

(** One rolling-hash step, [h = (h << 1) + table[b]] on [uint64]. *)
Definition gear_step (table : list Z) (h : Z) (b : Byte.byte) : Z :=
  wrapu64 (wrapu64 (Z.shiftl h 1) + nth (Z.to_nat (byte_z b)) table 0).

(** What [io.Reader.Read] gives: the bytes, and an error or none. *)
Inductive read_err : Type := io_EOF | read_failed (e : err).
Definition read : Type := list Byte.byte * option read_err.

Section chunker.
Context {S : Type} (params : ChunkParams) (fn : S → list Byte.byte → S * option err).
Context (table : list Z) (mask : Z).

(** The cut condition, after a byte was appended. *)
Definition cut_here (chunk : list Byte.byte) (h : Z) : bool :=
  (MinSize params <=? Z.of_nat (length chunk)) &&
  ((Z.land h mask =? 0) || (MaxSize params <=? Z.of_nat (length chunk))).

(** The inner loop over the bytes of one read: the callback's state, its error
    if one ended the loop, the open chunk and the hash. *)
Fixpoint scan_bytes (s : S) (chunk : list Byte.byte) (h : Z) (l : list Byte.byte)
    : S * option err * list Byte.byte * Z :=
  match l with
  | [] => (s, None, chunk, h)
  | b :: l =>
      let h := gear_step table h b in
      let chunk := chunk ++ [b] in
      if cut_here chunk h then
        match fn s chunk with
        | (s, Some e) => (s, Some e, chunk, h)
        | (s, None) => scan_bytes s [] 0 l
        end
      else scan_bytes s chunk h l
  end.

(** The outer loop over the reads, then the last, short chunk. *)
Fixpoint read_loop (s : S) (chunk : list Byte.byte) (h : Z) (reads : list read) : S * option err :=
  let finish s chunk := match chunk with [] => (s, None) | _ => fn s chunk end in
  match reads with
  | [] => finish s chunk
  | (l, e) :: reads =>
      let '(s, ferr, chunk, h) := scan_bytes s chunk h l in
      match ferr with
      | Some fe => (s, Some fe)
      | None => match e with
                | Some io_EOF => finish s chunk
                | Some (read_failed re) => (s, Some re)
                | None => read_loop s chunk h reads
                end
      end
  end.
End chunker.

(** internal/vault/chunker.go:39-76 [ForEachChunk]; [reads] are the results of the
    successive [br.Read(tmp)] calls (a list that ends reads as end of file), [fn]
    the callback with its state. *)
Definition ForEachChunk {S : Type} (s : S) (reads : list read) (params : ChunkParams)
    (fn : S → list Byte.byte → S * option err) : S * option err :=
  match Validate params with
  | Some e => (s, Some e)
  | None =>
      let table := gearTable in
      let mask := nextPowerOfTwo (AvgSize params) - 1 in
      read_loop params fn table mask s [] 0 reads
  end.

(** ** Reference definition: the chunks of a whole byte string *)

Fixpoint cut (p : ChunkParams) (table : list Z) (mask : Z) (chunk : list Byte.byte) (h : Z) (l : list Byte.byte)
    : list (list Byte.byte) :=
  match l with
  | [] => match chunk with [] => [] | _ => [chunk] end
  | b :: l =>
      let h := gear_step table h b in
      let chunk := chunk ++ [b] in
      if cut_here p mask chunk h then chunk :: cut p table mask [] 0 l else cut p table mask chunk h l
  end.
Definition chunks (p : ChunkParams) (l : list Byte.byte) : list (list Byte.byte) :=
  cut p gearTable (nextPowerOfTwo (AvgSize p) - 1) [] 0 l.

(** The callback that collects its chunks. *)
Definition collect (s : list (list Byte.byte)) (c : list Byte.byte) : list (list Byte.byte) * option err := (s ++ [c], None).

(** The reads of a file that is read without error. *)
Definition clean_reads (reads : list read) : Prop := Forall (fun r => r.2 = None) reads.

Example gear_0 : nth 0 gearTable 0 = 7960286522194355700.
Proof. vm_compute. reflexivity. Qed.

Definition tiny_params : ChunkParams := mkChunkParams 2 4 6.
Definition sample : list Byte.byte := bytes_of "the quick brown fox jumps over the lazy dog".
Example chunks_sample : map (fun c => length c) (chunks tiny_params sample) ≠ [] ∧ concat (chunks tiny_params sample) = sample.
Proof. vm_compute. split; [discriminate|reflexivity]. Qed.

(** ** The chunks of a byte string *)

Section cut_facts.
Context (p : ChunkParams) (table : list Z) (mask : Z).

Lemma cut_concat l : ∀ chunk h, concat (cut p table mask chunk h l) = chunk ++ l.
Proof.
  induction l as [|b l IH]; intros chunk h; cbn [cut].
  { destruct chunk; cbn; by rewrite ?app_nil_r. }
  destruct (cut_here _ _ _ _); cbn [concat]; rewrite IH; [cbn|]; by rewrite <- app_assoc.
Qed.

(** The sizes: [open] bounds the chunk being filled. *)
Lemma cut_sizes l : 0 < MinSize p ≤ MaxSize p → ∀ chunk h,
  Z.of_nat (length chunk) < MaxSize p →
  Forall (fun c => c ≠ [] ∧ Z.of_nat (length c) ≤ MaxSize p) (cut p table mask chunk h l) ∧
  Forall (fun c => MinSize p ≤ Z.of_nat (length c)) (removelast (cut p table mask chunk h l)).
Proof.
  intros Hp. induction l as [|b l IH]; intros chunk h Hc; cbn [cut].
  { destruct chunk; cbn; repeat constructor; [done|cbn in *; lia]. }
  assert (Hlen : length (chunk ++ [b]) = S (length chunk)) by (rewrite length_app; cbn; lia).
  destruct (cut_here p mask (chunk ++ [b]) _) eqn:E.
  - destruct (IH [] 0) as [H1 H2]; [cbn; lia|]. unfold cut_here in E. apply andb_true_iff in E as [E _].
    apply Z.leb_le in E. split.
    + constructor; [|done]. split; [by destruct chunk|lia].
    + destruct (cut p table mask [] 0 l) eqn:Ec; [by constructor|]. rewrite <- Ec in *.
      change (removelast ((chunk ++ [b]) :: cut p table mask [] 0 l)) with
        (match cut p table mask [] 0 l with [] => [] | _ => (chunk ++ [b]) :: removelast (cut p table mask [] 0 l) end).
      destruct (cut p table mask [] 0 l); [done|]. by constructor.
  - apply IH. unfold cut_here in E. apply andb_false_iff in E as [E|E].
    + apply Z.leb_gt in E. lia.
    + apply orb_false_iff in E as [_ E]. apply Z.leb_gt in E. lia.
Qed.

(** The scanner's state after [l]: the chunks closed so far, the open one and the
    hash. *)
Fixpoint cut_run (chunk : list Byte.byte) (h : Z) (l : list Byte.byte) : list (list Byte.byte) * list Byte.byte * Z :=
  match l with
  | [] => ([], chunk, h)
  | b :: l =>
      let h := gear_step table h b in
      let chunk := chunk ++ [b] in
      if cut_here p mask chunk h
      then let '(cs, c, h) := cut_run [] 0 l in (chunk :: cs, c, h)
      else cut_run chunk h l
  end.

Lemma cut_app l1 l2 : ∀ chunk h,
  cut p table mask chunk h (l1 ++ l2) =
  (cut_run chunk h l1).1.1 ++ cut p table mask (cut_run chunk h l1).1.2 (cut_run chunk h l1).2 l2.
Proof.
  induction l1 as [|b l1 IH]; intros chunk h; cbn [cut cut_run app]; [done|].
  destruct (cut_here _ _ _ _); rewrite IH; [|done]. by destruct (cut_run [] 0 l1) as [[cs c] h'].
Qed.

Lemma cut_run_app l1 l2 : ∀ chunk h,
  cut_run chunk h (l1 ++ l2) =
  let '(cs1, c1, h1) := cut_run chunk h l1 in
  let '(cs2, c2, h2) := cut_run c1 h1 l2 in (cs1 ++ cs2, c2, h2).
Proof.
  induction l1 as [|b l1 IH]; intros chunk h; cbn [cut_run app].
  { by destruct (cut_run chunk h l2) as [[? ?] ?]. }
  destruct (cut_here _ _ _ _); rewrite IH; [|done].
  destruct (cut_run [] 0 l1) as [[cs c] h']. by destruct (cut_run c h' l2) as [[? ?] ?].
Qed.

Lemma cut_run_closed_hash l : ∀ chunk h,
  (chunk = [] → h = 0) → (cut_run chunk h l).1.2 = [] → (cut_run chunk h l).2 = 0.
Proof.
  induction l as [|b l IH]; intros chunk h Hh; cbn [cut_run]; [done|].
  destruct (cut_here _ _ _ _); [|apply IH; intros H; by destruct chunk].
  specialize (IH [] 0 ltac:(done)). destruct (cut_run [] 0 l) as [[cs c] h']. apply IH.
Qed.

Lemma cut_of_run l : ∀ chunk h,
  cut p table mask chunk h l =
  (cut_run chunk h l).1.1 ++ match (cut_run chunk h l).1.2 with [] => [] | c => [c] end.
Proof. intros chunk h. rewrite <- (app_nil_r l) at 1. rewrite cut_app. cbn [cut]. by destruct (cut_run chunk h l).1.2. Qed.
End cut_facts.

(** The callback on a list of chunks, up to its first error. *)
Fixpoint feed {S} (fn : S → list Byte.byte → S * option err) (s : S) (cs : list (list Byte.byte)) : S * option err :=
  match cs with
  | [] => (s, None)
  | c :: cs => match fn s c with
               | (s, Some e) => (s, Some e)
               | (s, None) => feed fn s cs
               end
  end.

Lemma feed_app {S} (fn : S → list Byte.byte → S * option err) s c1 c2 :
  feed fn s (c1 ++ c2) = match feed fn s c1 with (s, Some e) => (s, Some e) | (s, None) => feed fn s c2 end.
Proof.
  revert s. induction c1 as [|c c1 IH]; intros s; cbn [feed app]; [by destruct (feed fn s c2)|].
  destruct (fn s c) as [s' [e|]]; [done|]. apply IH.
Qed.

Section loop_facts.
Context {S : Type} (p : ChunkParams) (fn : S → list Byte.byte → S * option err) (table : list Z) (mask : Z).

Lemma scan_feed l : ∀ s chunk h,
  let '(s', e, c', h') := scan_bytes p fn table mask s chunk h l in
  (s', e) = feed fn s (cut_run p table mask chunk h l).1.1 ∧
  (e = None → (c', h') = ((cut_run p table mask chunk h l).1.2, (cut_run p table mask chunk h l).2)).
Proof.
  induction l as [|b l IH]; intros s chunk h; cbn [scan_bytes cut_run]; [done|].
  destruct (cut_here _ _ _ _); [|apply IH].
  destruct (fn s (chunk ++ [b])) as [s1 [e|]] eqn:Ef.
  - destruct (cut_run p table mask [] 0 l) as [[cs c] h']. cbn [fst snd feed]. by rewrite Ef.
  - specialize (IH s1 [] 0). destruct (scan_bytes p fn table mask s1 [] 0 l) as [[[s' e] c'] h'].
    destruct (cut_run p table mask [] 0 l) as [[cs c] h'']. cbn [fst snd feed] in *. by rewrite Ef.
Qed.

Lemma read_loop_clean reads : ∀ s chunk h,
  clean_reads reads →
  read_loop p fn table mask s chunk h reads = feed fn s (cut p table mask chunk h (concat reads.*1)).
Proof.
  induction reads as [|[l e] reads IH]; intros s chunk h Hc; cbn [read_loop concat fmap list_fmap fst].
  { destruct chunk; [done|]. cbn [cut feed]. by destruct (fn s _) as [? [?|]]. }
  inversion Hc as [|?? He Hc']; subst. cbn in He. subst e. rewrite cut_app, feed_app.
  pose proof (scan_feed l s chunk h) as H. destruct (scan_bytes p fn table mask s chunk h l) as [[[s' fe] c'] h'].
  destruct H as [H1 H2]. rewrite <- H1. destruct fe as [fe|]; [done|].
  specialize (H2 eq_refl). injection H2 as -> ->. by apply IH.
Qed.

(** An explicit end of file after clean reads changes nothing. *)
Lemma read_loop_eof reads : ∀ s chunk h, clean_reads reads →
  read_loop p fn table mask s chunk h (reads ++ [([], Some io_EOF)]) = read_loop p fn table mask s chunk h reads.
Proof.
  induction reads as [|[l e] reads IH]; intros s chunk h Hc; [done|]. inversion Hc as [|?? He Hc']; subst. cbn in He. subst e.
  cbn [app read_loop]. destruct (scan_bytes _ _ _ _ _ _ _ _) as [[[s' [fe|]] c'] h']; [done|by apply IH].
Qed.

Lemma read_loop_failed reads l re : ∀ s chunk h,
  clean_reads reads →
  read_loop p fn table mask s chunk h (reads ++ [(l, Some (read_failed re))]) =
  match feed fn s (cut_run p table mask chunk h (concat reads.*1 ++ l)).1.1 with
  | (s, Some e) => (s, Some e)
  | (s, None) => (s, Some re)
  end.
Proof.
  induction reads as [|[l0 e] reads IH]; intros s chunk h Hc; cbn [app read_loop concat fmap list_fmap fst].
  - pose proof (scan_feed l s chunk h) as H. destruct (scan_bytes p fn table mask s chunk h l) as [[[s' fe] c'] h'].
    destruct H as [<- _]. by destruct fe.
  - inversion Hc as [|?? He Hc']; subst. cbn in He. subst e. rewrite <- app_assoc, cut_run_app.
    pose proof (scan_feed l0 s chunk h) as H. destruct (scan_bytes p fn table mask s chunk h l0) as [[[s' fe] c'] h'].
    destruct H as [H1 H2]. destruct (cut_run p table mask chunk h l0) as [[cs c] hh].
    cbn [fst snd] in *. destruct (cut_run p table mask c hh (concat reads.*1 ++ l)) as [[cs2 c2] h2] eqn:E2.
    cbn [fst]. rewrite feed_app, <- H1. destruct fe as [fe|]; [done|].
    specialize (H2 eq_refl). injection H2 as -> ->. by rewrite IH, E2.
Qed.
End loop_facts.

(** ** Properties *)

Lemma Validate_None p : Validate p = None ↔
  0 < MinSize p ≤ AvgSize p ∧ AvgSize p ≤ MaxSize p ≤ 128 * 1024 * 1024.
Proof.
  unfold Validate.
  destruct (Z.leb_spec (MinSize p) 0), (Z.leb_spec (AvgSize p) 0), (Z.leb_spec (MaxSize p) 0),
    (Z.ltb_spec (AvgSize p) (MinSize p)), (Z.ltb_spec (MaxSize p) (AvgSize p)),
    (Z.ltb_spec (128 * 1024 * 1024) (MaxSize p)); cbn [orb];
    (split; [intros; (done || lia)|intros; (done || lia)]).
Qed.

(** C31. Streaming is the same as chunking the whole string: for every callback
    and every way the stream is split into reads, [ForEachChunk] calls the
    callback on exactly the reference chunks of the concatenated input, in order,
    up to the callback's first error; when a read fails, on exactly the chunks
    closed by then, and the read's error is returned. *)
Theorem ForEachChunk_refines {S} (p : ChunkParams) (fn : S → list Byte.byte → S * option err) (s : S)
    (reads : list read) (l : list Byte.byte) (re : err) :
  Validate p = None → clean_reads reads →
  ForEachChunk s reads p fn = feed fn s (chunks p (concat reads.*1)) ∧
  ForEachChunk s (reads ++ [(l, Some (read_failed re))]) p fn =
    match feed fn s (cut_run p gearTable (nextPowerOfTwo (AvgSize p) - 1) [] 0 (concat reads.*1 ++ l)).1.1 with
    | (s, Some e) => (s, Some e)
    | (s, None) => (s, Some re)
    end.
Proof.
  intros Hv Hc. unfold ForEachChunk. rewrite Hv. split; [by apply read_loop_clean|by apply read_loop_failed].
Qed.

Lemma ForEachChunk_refines_witness :
  ForEachChunk [] [(bytes_of "the qui", None); (bytes_of "ck brown fox", None)] tiny_params collect =
    feed collect [] (chunks tiny_params (bytes_of "the quick brown fox")).
Proof.
  refine (proj1 (ForEachChunk_refines tiny_params collect []
    [(bytes_of "the qui", None); (bytes_of "ck brown fox", None)] [] (ENew "io") eq_refl _)).
  by repeat constructor.
Defined.

(** The chunks of a string are its bytes, cut: concatenated they are the
    input, none is empty or longer than [MaxSize], and all but the last are at
    least [MinSize] long. *)
Theorem chunks_partition (p : ChunkParams) (l : list Byte.byte) :
  Validate p = None →
  concat (chunks p l) = l ∧
  Forall (fun c => c ≠ [] ∧ Z.of_nat (length c) ≤ MaxSize p) (chunks p l) ∧
  Forall (fun c => MinSize p ≤ Z.of_nat (length c)) (removelast (chunks p l)).
Proof.
  intros Hv. apply Validate_None in Hv. split; [apply cut_concat|].
  apply cut_sizes; cbn; lia.
Qed.

Lemma chunks_partition_witness :
  Validate tiny_params = None ∧ length (chunks tiny_params sample) = 11%nat ∧
  concat (chunks tiny_params sample) = sample.
Proof.
  split; [reflexivity|]. split; [vm_compute; reflexivity|].
  exact (proj1 (chunks_partition tiny_params sample eq_refl)).
Defined.

(** Chunking is local: when a prefix ends at a chunk boundary, what follows
    is chunked as if it stood alone.  Two versions of a file that differ only
    before a boundary of both have the same chunks after it, which is what
    deduplication relies on. *)
Theorem chunks_local (p : ChunkParams) (l1 l1' l2 : list Byte.byte) :
  let run := cut_run p gearTable (nextPowerOfTwo (AvgSize p) - 1) [] 0 in
  (run l1).1.2 = [] → (run l1').1.2 = [] →
  chunks p (l1 ++ l2) = chunks p l1 ++ chunks p l2 ∧
  chunks p (l1' ++ l2) = chunks p l1' ++ chunks p l2.
Proof.
  intros run. assert (H : ∀ l, (run l).1.2 = [] → chunks p (l ++ l2) = chunks p l ++ chunks p l2).
  { intros l Hl. unfold chunks. rewrite cut_app, (cut_of_run _ _ _ l). fold run. rewrite Hl.
    pose proof (cut_run_closed_hash p gearTable (nextPowerOfTwo (AvgSize p) - 1) l [] 0) as H0.
    fold run in H0. rewrite H0 by done. by rewrite app_nil_r. }
  intros H1 H2. auto.
Qed.

Definition edit1 : list Byte.byte := bytes_of "0123456789abcdefghijklmnopqrstuv".
Lemma chunks_local_witness :
  let c := concat (take 2 (chunks tiny_params edit1)) in
  let c' := concat (take 1 (chunks tiny_params sample)) in
  c ≠ c' ∧ chunks tiny_params (c ++ sample) = chunks tiny_params c ++ chunks tiny_params sample.
Proof.
  cbv zeta. split; [vm_compute; discriminate|].
  refine (proj1 (chunks_local tiny_params _ (concat (take 1 (chunks tiny_params sample))) sample _ _));
    vm_compute; reflexivity.
Defined.

Lemma npo2_loop_spec f : ∀ p n, 0 < p → p < 2 * n → n ≤ p * 2 ^ Z.of_nat f → n ≤ 2 ^ 62 →
  ∃ i, npo2_loop f p n = p * 2 ^ i ∧ 0 ≤ i ∧ n ≤ npo2_loop f p n < 2 * n.
Proof.
  induction f as [|f IH]; intros p n Hp Hlt Hn Hn62; cbn [npo2_loop].
  { change (2 ^ Z.of_nat 0) with 1 in Hn. exists 0. rewrite Z.pow_0_r. lia. }
  destruct (Z.ltb_spec p n).
  - rewrite Z.shiftl_mul_pow2 by lia. change (2 ^ 1) with 2.
    rewrite (wrap64_id (p * 2)) by (unfold in_int64, int64_min, int64_max; lia).
    destruct (IH (p * 2) n) as (i & Hi & Hi0 & Hb); try lia.
    { rewrite Nat2Z.inj_succ, Z.pow_succ_r in Hn by lia. by rewrite <- Z.mul_assoc. }
    exists (i + 1). rewrite Hi. split; [rewrite Z.pow_add_r by lia; lia|]. rewrite Hi in Hb. split; [lia|exact Hb].
  - exists 0. rewrite Z.pow_0_r. lia.
Qed.

Lemma wrapu64_divmod z : ∃ k, wrapu64 z = z + k * two64.
Proof. exists (- (z / two64)). unfold wrapu64. pose proof (Z.div_mod z two64 ltac:(done)). lia. Qed.

Lemma gear_step_diff table h1 h2 b : ∃ k, gear_step table h1 b - gear_step table h2 b = 2 * (h1 - h2) + k * two64.
Proof.
  unfold gear_step. rewrite !Z.shiftl_mul_pow2 by lia. change (2 ^ 1) with 2.
  destruct (wrapu64_divmod (h1 * 2)) as [k1 ->], (wrapu64_divmod (h2 * 2)) as [k2 ->].
  destruct (wrapu64_divmod (h1 * 2 + k1 * two64 + nth (Z.to_nat (byte_z b)) table 0)) as [k3 ->].
  destruct (wrapu64_divmod (h2 * 2 + k2 * two64 + nth (Z.to_nat (byte_z b)) table 0)) as [k4 ->].
  exists (k1 - k2 + k3 - k4). lia.
Qed.

Lemma gear_fold_diff table w : ∀ h1 h2, ∃ k,
  fold_left (gear_step table) w h1 - fold_left (gear_step table) w h2 =
  (h1 - h2) * 2 ^ Z.of_nat (length w) + k * two64.
Proof.
  induction w as [|b w IH]; intros h1 h2; cbn [fold_left length]; [exists 0; cbn; lia|].
  destruct (IH (gear_step table h1 b) (gear_step table h2 b)) as [k ->].
  destruct (gear_step_diff table h1 h2 b) as [k' ->].
  exists (k' * 2 ^ Z.of_nat (length w) + k). rewrite Nat2Z.inj_succ, Z.pow_succ_r by lia. lia.
Qed.

Lemma gear_fold_range table w h : w ≠ [] → 0 ≤ fold_left (gear_step table) w h < two64.
Proof.
  destruct w as [|b w] using rev_ind; [done|]. intros _. rewrite fold_left_app. apply wrapu64_range.
Qed.

(** The rolling hash has a window of 64 bytes: after 64 or more bytes it does
    not depend on what came before, so a boundary is decided by the last 64
    bytes (and the two size limits); and the mask the loop tests is one less than
    the power of two between [AvgSize] and twice [AvgSize]. *)
Theorem gear_window (table : list Z) (w : list Byte.byte) (h1 h2 : Z) (p : ChunkParams) :
  (64 ≤ length w)%nat → Validate p = None →
  fold_left (gear_step table) w h1 = fold_left (gear_step table) w h2 ∧
  ∃ i, 0 ≤ i ∧ nextPowerOfTwo (AvgSize p) = 2 ^ i ∧ AvgSize p ≤ 2 ^ i < 2 * AvgSize p.
Proof.
  intros Hw Hv. split.
  - assert (Hne : w ≠ []) by (by intros ->; cbn in Hw; lia).
    pose proof (gear_fold_range table w h1 Hne). pose proof (gear_fold_range table w h2 Hne).
    destruct (gear_fold_diff table w h1 h2) as [k Hk].
    replace (Z.of_nat (length w)) with (Z.of_nat (length w - 64) + 64) in Hk by lia.
    rewrite Z.pow_add_r in Hk by lia. change (2 ^ 64) with two64 in Hk.
    set (m := (h1 - h2) * 2 ^ Z.of_nat (length w - 64) + k).
    assert (Hm : fold_left (gear_step table) w h1 - fold_left (gear_step table) w h2 = m * two64) by (unfold m; lia).
    unfold two64 in *. lia.
  - apply Validate_None in Hv. unfold nextPowerOfTwo. destruct (Z.leb_spec (AvgSize p) 1).
    + exists 0. lia.
    + destruct (npo2_loop_spec 63 1 (AvgSize p)) as (i & Hi & Hi0 & Hb); try lia.
      exists i. rewrite Hi, Z.mul_1_l in *. lia.
Qed.

Lemma gear_window_witness :
  fold_left (gear_step gearTable) (replicate 64 Byte.x61) 5 = fold_left (gear_step gearTable) (replicate 64 Byte.x61) 77 ∧
  fold_left (gear_step gearTable) (replicate 9 Byte.x61) 5 ≠ fold_left (gear_step gearTable) (replicate 9 Byte.x61) 77.
Proof.
  split; [|vm_compute; discriminate].
  exact (proj1 (gear_window gearTable (replicate 64 Byte.x61) 5 77 tiny_params (le_n 64) eq_refl)).
Defined.
