(* ===== verification/GoBase64.v ===== *)
(** encoding/base64's [StdEncoding] and encoding/base32 without padding: executable, with
    their round trips. *)
From S2P Require Export GoStr.
Local Open Scope Z_scope.

Definition b64_byte (v : Z) : Byte.byte := match Byte.of_N (Z.to_N v) with Some b => b | None => Byte.x00 end.
Definition b64_val (b : Byte.byte) : Z := Z.of_N (Byte.to_N b).

(** The alphabet: A-Z, a-z, 0-9, plus, slash. *)
Definition b64_char (v : Z) : ascii :=
  ascii_of_N (Z.to_N (if v <? 26 then 65 + v else if v <? 52 then 71 + v else if v <? 62 then v - 4
                      else if v =? 62 then 43 else 47)).
Definition b64_index (c : ascii) : option Z :=
  let n := ascii_code c in
  if (65 <=? n) && (n <=? 90) then Some (n - 65)
  else if (97 <=? n) && (n <=? 122) then Some (n - 71)
  else if (48 <=? n) && (n <=? 57) then Some (n + 4)
  else if n =? 43 then Some 62 else if n =? 47 then Some 63 else None.

Definition b64_pad : ascii := "=".

Fixpoint b64_encode_chars (l : list Byte.byte) : list ascii :=
  match l with
  | [] => []
  | [b0] => let n0 := b64_val b0 in
      [b64_char (n0 / 4); b64_char (n0 mod 4 * 16); b64_pad; b64_pad]
  | [b0; b1] => let n0 := b64_val b0 in let n1 := b64_val b1 in
      [b64_char (n0 / 4); b64_char (n0 mod 4 * 16 + n1 / 16); b64_char (n1 mod 16 * 4); b64_pad]
  | b0 :: b1 :: b2 :: t => let n0 := b64_val b0 in let n1 := b64_val b1 in let n2 := b64_val b2 in
      b64_char (n0 / 4) :: b64_char (n0 mod 4 * 16 + n1 / 16) :: b64_char (n1 mod 16 * 4 + n2 / 64)
        :: b64_char (n2 mod 64) :: b64_encode_chars t
  end.

(** [base64.StdEncoding.EncodeToString]. *)
Definition b64_encode (l : list Byte.byte) : string := string_of_list_ascii (b64_encode_chars l).

(** The decoder proper, on the characters left when line breaks are removed: whole
    quanta, the last of which may be padded.  Stray trailing bits are ignored, as
    the non-strict encoding does. *)
Fixpoint b64_decode_chars (l : list ascii) : option (list Byte.byte) :=
  match l with
  | [] => Some []
  | c0 :: c1 :: c2 :: c3 :: t =>
      v0 ← b64_index c0; v1 ← b64_index c1;
      if Ascii.eqb c2 b64_pad then
        if Ascii.eqb c3 b64_pad && bool_decide (t = []) then Some [b64_byte (v0 * 4 + v1 / 16)] else None
      else
        v2 ← b64_index c2;
        if Ascii.eqb c3 b64_pad then
          if bool_decide (t = []) then Some [b64_byte (v0 * 4 + v1 / 16); b64_byte (v1 mod 16 * 16 + v2 / 4)] else None
        else
          v3 ← b64_index c3;
          r ← b64_decode_chars t;
          Some (b64_byte (v0 * 4 + v1 / 16) :: b64_byte (v1 mod 16 * 16 + v2 / 4)
                  :: b64_byte (v2 mod 4 * 64 + v3) :: r)
  | _ => None
  end.

Definition b64_ignored (c : ascii) : bool := (ascii_code c =? 10) || (ascii_code c =? 13).

(** [base64.StdEncoding.DecodeString]. *)
Definition b64_decode (s : string) : option (list Byte.byte) :=
  b64_decode_chars (List.filter (fun c => negb (b64_ignored c)) (list_ascii_of_string s)).

Example b64_ex : b64_encode (bytes_of "any carnal pleas") = "YW55IGNhcm5hbCBwbGVhcw==".
Proof. vm_compute. reflexivity. Qed.
Example b64_ex_dec : b64_decode "YW55IGNhcm5hbCBwbGVhcw==" = Some (bytes_of "any carnal pleas").
Proof. vm_compute. reflexivity. Qed.

Lemma b64_val_range b : 0 ≤ b64_val b < 256.
Proof. unfold b64_val. pose proof (Byte.to_N_bounded b). lia. Qed.

Lemma b64_byte_val b : b64_byte (b64_val b) = b.
Proof. unfold b64_byte, b64_val. by rewrite N2Z.id, Byte.of_to_N. Qed.

(** Every sextet's character is in the alphabet, is not padding nor a line break,
    and has the sextet as its index. *)
Definition sextet_ok (n : nat) : bool :=
  let c := b64_char (Z.of_nat n) in
  bool_decide (b64_index c = Some (Z.of_nat n)) && negb (Ascii.eqb c b64_pad) && negb (b64_ignored c).

Lemma sextets_ok : forallb sextet_ok (seq 0 64) = true.
Proof. vm_compute. reflexivity. Qed.

Lemma sextet v : 0 ≤ v < 64 →
  b64_index (b64_char v) = Some v ∧ Ascii.eqb (b64_char v) b64_pad = false ∧ b64_ignored (b64_char v) = false.
Proof.
  intros Hv. pose proof sextets_ok as H. rewrite forallb_forall in H.
  specialize (H (Z.to_nat v)). rewrite in_seq in H. specialize (H ltac:(lia)). unfold sextet_ok in H.
  rewrite Z2Nat.id in H by lia. apply andb_true_iff in H as [H H3]. apply andb_true_iff in H as [H1 H2].
  apply bool_decide_eq_true in H1. apply negb_true_iff in H2, H3. done.
Qed.

(** The bit arithmetic of one quantum. *)
Ltac div_lia := Z.to_euclidean_division_equations; lia.

Lemma q_s0 n0 : 0 ≤ n0 < 256 → 0 ≤ n0 / 4 < 64.
Proof. intros. div_lia. Qed.
Lemma q_s1 n0 n1 : 0 ≤ n0 < 256 → 0 ≤ n1 < 256 → 0 ≤ n0 mod 4 * 16 + n1 / 16 < 64.
Proof. intros. div_lia. Qed.
Lemma q_s1' n0 : 0 ≤ n0 < 256 → 0 ≤ n0 mod 4 * 16 < 64.
Proof. intros. div_lia. Qed.
Lemma q_s2 n1 n2 : 0 ≤ n1 < 256 → 0 ≤ n2 < 256 → 0 ≤ n1 mod 16 * 4 + n2 / 64 < 64.
Proof. intros. div_lia. Qed.
Lemma q_s2' n1 : 0 ≤ n1 < 256 → 0 ≤ n1 mod 16 * 4 < 64.
Proof. intros. div_lia. Qed.
Lemma q_s3 n2 : 0 ≤ n2 < 256 → 0 ≤ n2 mod 64 < 64.
Proof. intros. div_lia. Qed.
Lemma q_b0 n0 n1 : 0 ≤ n0 < 256 → 0 ≤ n1 < 256 → n0 / 4 * 4 + (n0 mod 4 * 16 + n1 / 16) / 16 = n0.
Proof. intros. div_lia. Qed.
Lemma q_b0' n0 : 0 ≤ n0 < 256 → n0 / 4 * 4 + n0 mod 4 * 16 / 16 = n0.
Proof. intros. div_lia. Qed.
Lemma q_b1 n0 n1 n2 : 0 ≤ n0 < 256 → 0 ≤ n1 < 256 → 0 ≤ n2 < 256 → (n0 mod 4 * 16 + n1 / 16) mod 16 * 16 + (n1 mod 16 * 4 + n2 / 64) / 4 = n1.
Proof. intros. div_lia. Qed.
Lemma q_b1' n0 n1 : 0 ≤ n0 < 256 → 0 ≤ n1 < 256 → (n0 mod 4 * 16 + n1 / 16) mod 16 * 16 + n1 mod 16 * 4 / 4 = n1.
Proof. intros. div_lia. Qed.
Lemma q_b2 n1 n2 : 0 ≤ n1 < 256 → 0 ≤ n2 < 256 → (n1 mod 16 * 4 + n2 / 64) mod 4 * 64 + n2 mod 64 = n2.
Proof. intros. div_lia. Qed.

Lemma b64_decode_encode_chars n l : (length l ≤ n)%nat → b64_decode_chars (b64_encode_chars l) = Some l.
Proof.
  revert l. induction n as [|n IH]; intros l Hn; [by destruct l; [|cbn in Hn; lia]|].
  destruct l as [|b0 [|b1 [|b2 t]]]; [done| | |].
  - pose proof (b64_val_range b0) as R0. unfold b64_encode_chars, b64_decode_chars; fold b64_decode_chars.
    rewrite (proj1 (sextet _ (q_s0 _ R0))), (proj1 (sextet _ (q_s1' _ R0))).
    cbn [option_bind mbind]. change (Ascii.eqb b64_pad b64_pad) with true. cbn [andb].
    rewrite bool_decide_eq_true_2 by done. by rewrite q_b0', b64_byte_val.
  - pose proof (b64_val_range b0) as R0. pose proof (b64_val_range b1) as R1.
    unfold b64_encode_chars, b64_decode_chars; fold b64_decode_chars.
    destruct (sextet _ (q_s2' _ R1)) as (E2 & P2 & _).
    rewrite (proj1 (sextet _ (q_s0 _ R0))), (proj1 (sextet _ (q_s1 _ _ R0 R1))), E2, P2.
    cbn [option_bind mbind]. change (Ascii.eqb b64_pad b64_pad) with true. cbn match.
    rewrite bool_decide_eq_true_2 by done. by rewrite q_b0, q_b1', !b64_byte_val.
  - pose proof (b64_val_range b0) as R0. pose proof (b64_val_range b1) as R1. pose proof (b64_val_range b2) as R2.
    cbn [b64_encode_chars]. cbv zeta. cbn [b64_decode_chars].
    destruct (sextet _ (q_s2 _ _ R1 R2)) as (E2 & P2 & _). destruct (sextet _ (q_s3 _ R2)) as (E3 & P3 & _).
    rewrite (proj1 (sextet _ (q_s0 _ R0))), (proj1 (sextet _ (q_s1 _ _ R0 R1))), E2, P2, E3, P3.
    cbn [option_bind mbind]. rewrite IH by (cbn in Hn; lia). cbn [option_bind mbind].
    by rewrite q_b0, q_b1, q_b2, !b64_byte_val.
Qed.

Lemma b64_encode_no_breaks n l : (length l ≤ n)%nat →
  List.filter (fun c => negb (b64_ignored c)) (b64_encode_chars l) = b64_encode_chars l.
Proof.
  revert l. induction n as [|n IH]; intros l Hn; [by destruct l; [|cbn in Hn; lia]|].
  assert (Hp : b64_ignored b64_pad = false) by done.
  destruct l as [|b0 [|b1 [|b2 t]]]; [done| | |].
  - pose proof (b64_val_range b0) as R0. cbn [b64_encode_chars]. cbv zeta. cbn [List.filter].
    by rewrite (proj2 (proj2 (sextet _ (q_s0 _ R0)))), (proj2 (proj2 (sextet _ (q_s1' _ R0)))), Hp.
  - pose proof (b64_val_range b0) as R0. pose proof (b64_val_range b1) as R1.
    cbn [b64_encode_chars]. cbv zeta. cbn [List.filter].
    by rewrite (proj2 (proj2 (sextet _ (q_s0 _ R0)))), (proj2 (proj2 (sextet _ (q_s1 _ _ R0 R1)))),
      (proj2 (proj2 (sextet _ (q_s2' _ R1)))), Hp.
  - pose proof (b64_val_range b0) as R0. pose proof (b64_val_range b1) as R1. pose proof (b64_val_range b2) as R2.
    cbn [b64_encode_chars]. cbv zeta. cbn [List.filter].
    rewrite (proj2 (proj2 (sextet _ (q_s0 _ R0)))), (proj2 (proj2 (sextet _ (q_s1 _ _ R0 R1)))),
      (proj2 (proj2 (sextet _ (q_s2 _ _ R1 R2)))), (proj2 (proj2 (sextet _ (q_s3 _ R2)))). cbn [negb].
    by rewrite IH by (cbn in Hn; lia).
Qed.

Lemma b64_decode_encode l : b64_decode (b64_encode l) = Some l.
Proof.
  unfold b64_decode, b64_encode. rewrite list_ascii_of_string_of_list_ascii.
  by rewrite (b64_encode_no_breaks (length l)), (b64_decode_encode_chars (length l)).
Qed.

(** ** Base 32

    encoding/base32's standard alphabet without padding
    ([base32.StdEncoding.WithPadding(base32.NoPadding)]): executable, with the
    round trip. *)

(** The alphabet: A-Z, 2-7. *)
Definition b32_char (v : Z) : ascii := ascii_of_N (Z.to_N (if v <? 26 then 65 + v else 24 + v)).
Definition b32_index (c : ascii) : option Z :=
  let n := ascii_code c in
  if (65 <=? n) && (n <=? 90) then Some (n - 65)
  else if (50 <=? n) && (n <=? 55) then Some (n - 24) else None.

(** Five bytes are eight characters; the missing bytes of a short group count as
    zero. *)
Definition quantum (l : list Z) : list Z :=
  let n i := nth i l 0 in
  [n 0%nat / 8; n 0%nat mod 8 * 4 + n 1%nat / 64; n 1%nat mod 64 / 2; n 1%nat mod 2 * 16 + n 2%nat / 16;
   n 2%nat mod 16 * 2 + n 3%nat / 128; n 3%nat mod 128 / 4; n 3%nat mod 4 * 8 + n 4%nat / 32; n 4%nat mod 32].
Definition unquantum (l : list Z) : list Z :=
  let c i := nth i l 0 in
  [c 0%nat * 8 + c 1%nat / 4; c 1%nat mod 4 * 64 + c 2%nat * 2 + c 3%nat / 16; c 3%nat mod 16 * 16 + c 4%nat / 2;
   c 4%nat mod 2 * 128 + c 5%nat * 4 + c 6%nat / 8; c 6%nat mod 8 * 32 + c 7%nat].
Definition b32_chars (bytes : nat) : nat := nth bytes [0; 2; 4; 5; 7; 8]%nat 0%nat.
(** A group of 1, 3 or 6 characters yields nothing: the decoder's switch has no
    case for it. *)
Definition b32_bytes (chars : nat) : nat := nth chars [0; 0; 1; 0; 2; 3; 0; 4; 5]%nat 0%nat.

Fixpoint b32_encode_vals (l : list Z) : list Z :=
  match l with
  | n0 :: n1 :: n2 :: n3 :: n4 :: t => quantum [n0; n1; n2; n3; n4] ++ b32_encode_vals t
  | _ => take (b32_chars (length l)) (quantum l)
  end.
Fixpoint b32_decode_vals (l : list Z) : list Z :=
  match l with
  | c0 :: c1 :: c2 :: c3 :: c4 :: c5 :: c6 :: c7 :: t => unquantum [c0; c1; c2; c3; c4; c5; c6; c7] ++ b32_decode_vals t
  | _ => take (b32_bytes (length l)) (unquantum l)
  end.

(** [EncodeToString]. *)
Definition b32_encode (l : list Byte.byte) : string :=
  string_of_list_ascii (map b32_char (b32_encode_vals (map b64_val l))).
(** [DecodeString]: line breaks are skipped, any other character outside the
    alphabet is an error, trailing bits are ignored. *)
Definition b32_decode (s : string) : option (list Byte.byte) :=
  vs ← mapM b32_index (List.filter (fun c => negb (b64_ignored c)) (list_ascii_of_string s));
  Some (map b64_byte (b32_decode_vals vs)).

Example b32_ex : b32_encode (bytes_of "foobar") = "MZXW6YTBOI".
Proof. vm_compute. reflexivity. Qed.
Example b32_ex_dec : b32_decode "MZXW6YTBOI" = Some (bytes_of "foobar").
Proof. vm_compute. reflexivity. Qed.

Definition quintet_ok (n : nat) : bool :=
  let c := b32_char (Z.of_nat n) in bool_decide (b32_index c = Some (Z.of_nat n)) && negb (b64_ignored c).
Lemma quintets_ok : forallb quintet_ok (seq 0 32) = true.
Proof. vm_compute. reflexivity. Qed.
Lemma quintet v : 0 ≤ v < 32 → b32_index (b32_char v) = Some v ∧ b64_ignored (b32_char v) = false.
Proof.
  intros Hv. pose proof (proj1 (forallb_forall _ _) quintets_ok (Z.to_nat v)) as H.
  rewrite in_seq in H. specialize (H ltac:(lia)). unfold quintet_ok in H. rewrite Z2Nat.id in H by lia.
  apply andb_true_iff in H as [H1 H2]. apply bool_decide_eq_true in H1. by apply negb_true_iff in H2.
Qed.

Definition is_byte (n : Z) : Prop := 0 ≤ n < 256.
Definition is_quintet (n : Z) : Prop := 0 ≤ n < 32.

Lemma nth_is_byte l i : Forall is_byte l → is_byte (nth i l 0).
Proof. intros H. destruct (nth_in_or_default i l 0) as [Hi| ->]; [|by unfold is_byte]. by eapply List.Forall_forall in H. Qed.

Lemma quantum_range l : Forall is_byte l → Forall is_quintet (quantum l).
Proof.
  intros H. pose proof (fun i => nth_is_byte l i H) as B. unfold quantum.
  pose proof (B 0%nat); pose proof (B 1%nat); pose proof (B 2%nat); pose proof (B 3%nat); pose proof (B 4%nat).
  unfold is_byte, is_quintet in *. cbv zeta. repeat constructor; div_lia.
Qed.

Lemma unquantum_quantum l : Forall is_byte l → unquantum (quantum l) = map (fun i => nth i l 0) (seq 0 5).
Proof.
  intros H. pose proof (fun i => nth_is_byte l i H) as B. unfold unquantum, quantum. cbv zeta. cbn [nth seq map].
  pose proof (B 0%nat); pose proof (B 1%nat); pose proof (B 2%nat); pose proof (B 3%nat); pose proof (B 4%nat).
  unfold is_byte in *. repeat f_equal; div_lia.
Qed.

(** A short group survives: the characters left out are those of zero bytes. *)
Lemma short_group l : (0 < length l < 5)%nat →
  length (take (b32_chars (length l)) (quantum l)) = b32_chars (length l) ∧
  unquantum (take (b32_chars (length l)) (quantum l)) = unquantum (quantum l) ∧
  b32_bytes (b32_chars (length l)) = length l ∧ (b32_chars (length l) < 8)%nat.
Proof.
  intros H. destruct l as [|n0 [|n1 [|n2 [|n3 [|]]]]]; cbn [length] in *; try lia;
    unfold unquantum, quantum; cbv zeta;
    cbn [b32_chars nth take length b32_bytes]; repeat split; try lia; repeat f_equal; cbn; try lia.
Qed.

Lemma decode_short l : (length l < 8)%nat → b32_decode_vals l = take (b32_bytes (length l)) (unquantum l).
Proof. intros H. destruct l as [|? [|? [|? [|? [|? [|? [|? [|? ?]]]]]]]]; cbn [length] in *; try done; lia. Qed.
Lemma encode_short l : (length l < 5)%nat → b32_encode_vals l = take (b32_chars (length l)) (quantum l).
Proof. intros H. destruct l as [|? [|? [|? [|? [|? ?]]]]]; cbn [length] in *; try done; lia. Qed.

Lemma b32_encode_vals_range n l : (length l ≤ n)%nat → Forall is_byte l → Forall is_quintet (b32_encode_vals l).
Proof.
  revert l. induction n as [|n IH]; intros l Hn Hl; [destruct l; [constructor|cbn in Hn; lia]|].
  destruct (decide (length l < 5)%nat) as [Hs|Hs].
  { rewrite encode_short by done. by apply Forall_take, quantum_range. }
  destruct l as [|n0 [|n1 [|n2 [|n3 [|n4 t]]]]]; cbn [length] in *; try lia.
  rewrite 5 Forall_cons in Hl. destruct Hl as (? & ? & ? & ? & ? & Ht).
  cbn [b32_encode_vals]. apply Forall_app. split; [|apply IH; [lia|done]].
  apply (quantum_range [n0; n1; n2; n3; n4]). by repeat (apply Forall_cons; split).
Qed.

Lemma b32_decode_encode_vals n l : (length l ≤ n)%nat → Forall is_byte l → b32_decode_vals (b32_encode_vals l) = l.
Proof.
  revert l. induction n as [|n IH]; intros l Hn Hl; [by destruct l; [|cbn in Hn; lia]|].
  destruct (decide (length l = 0%nat)) as [H0|H0]; [by destruct l|].
  destruct (decide (length l < 5)%nat) as [Hs|Hs].
  - rewrite encode_short by done. destruct (short_group l) as (L & U & B & C); [lia|].
    rewrite decode_short by lia. rewrite L, B, U, unquantum_quantum by done.
    destruct l as [|n0 [|n1 [|n2 [|n3 [|]]]]]; cbn [length] in *; try lia; reflexivity.
  - destruct l as [|n0 [|n1 [|n2 [|n3 [|n4 t]]]]]; cbn [length] in *; try lia.
    rewrite 5 Forall_cons in Hl. destruct Hl as (? & ? & ? & ? & ? & Ht).
    cbn [b32_encode_vals]. pose proof (unquantum_quantum [n0; n1; n2; n3; n4]) as U.
    unfold quantum in *. cbv zeta in *. cbn [nth app seq map] in *. cbn [b32_decode_vals].
    rewrite U by (by repeat (apply Forall_cons; split)). cbn [app]. by rewrite IH by (try done; lia).
Qed.

Lemma b64_vals_are_bytes l : Forall is_byte (map b64_val l).
Proof. apply Forall_map, Forall_true. intros b. apply b64_val_range. Qed.

Lemma b32_round_trip l : b32_decode (b32_encode l) = Some l.
Proof.
  unfold b32_decode, b32_encode. rewrite list_ascii_of_string_of_list_ascii.
  set (vs := b32_encode_vals (map b64_val l)).
  assert (Hv : Forall is_quintet vs) by (eapply b32_encode_vals_range, b64_vals_are_bytes; done).
  assert (Hf : List.filter (fun c => negb (b64_ignored c)) (map b32_char vs) = map b32_char vs).
  { clear -Hv. induction Hv as [|v vs Hv _ IH]; [done|]. cbn [map List.filter].
    by rewrite (proj2 (quintet _ Hv)), IH. }
  assert (Hm : mapM b32_index (map b32_char vs) = Some vs).
  { clear -Hv. induction Hv as [|v vs Hv _ IH]; [done|]. cbn [map mapM].
    by rewrite (proj1 (quintet _ Hv)); cbn [mbind option_bind]; rewrite IH. }
  rewrite Hf, Hm. cbn [mbind option_bind]. f_equal. unfold vs.
  rewrite (b32_decode_encode_vals _ _ (le_n _) (b64_vals_are_bytes l)), map_map.
  rewrite <- (map_id l) at 2. apply map_ext, b64_byte_val.
Qed.

(** The characters of an encoding are of the alphabet. *)
Definition b32_alphabet (c : ascii) : bool := bool_decide (is_Some (b32_index c)).
Lemma b32_encode_alphabet l : Forall (fun c => b32_alphabet c = true) (list_ascii_of_string (b32_encode l)).
Proof.
  unfold b32_encode. rewrite list_ascii_of_string_of_list_ascii. apply Forall_map.
  eapply Forall_impl; [apply (b32_encode_vals_range _ _ (le_n _) (b64_vals_are_bytes l))|].
  intros v Hv. apply bool_decide_eq_true. cbn. rewrite (proj1 (quintet v Hv)). eauto.
Qed.
