(* ===== verification/GoHttp.v ===== *)
(** The parts of net/http, encoding/xml and strconv the WebDAV server uses
    (executable, as of Go 1.23). *)
From S2P Require Export GoBase64 GoNet.
Local Open Scope Z_scope.

(** ** net/url

    The parts of net/url the program uses: [PathEscape], [PathUnescape], and the
    [Path] of [Parse] (executable, as of Go 1.23), and [strings.ReplaceAll]. *)

(** ** Percent escapes *)

Definition upper_hex (n : Z) : ascii := ascii_of_N (Z.to_N (if n <? 10 then 48 + n else 55 + n)).
Definition percent : ascii := "%".
Definition percent_byte (c : ascii) : string :=
  String percent (String (upper_hex (ascii_code c / 16)) (String (upper_hex (ascii_code c mod 16)) "")).
Definition alnum (c : ascii) : bool := in_range 97 122 c || in_range 65 90 c || in_range 48 57 c.
Definition one_of (l : string) (c : ascii) : bool := existsb (Ascii.eqb c) (list_ascii_of_string l).
(** [!shouldEscape(c, encodePathSegment)]. *)
Definition path_segment_char (c : ascii) : bool := alnum c || one_of "-_.~$&+=:@" c.
(** [url.PathEscape]. *)
Definition PathEscape (s : string) : string :=
  str_flat_map (fun c => if path_segment_char c then String c "" else percent_byte c) s.

(** [unescape(s, mode)]: [allowed] says which two-digit escapes and which plain bytes
    the mode admits. *)
Fixpoint unescape_list (allowed_escape : Z → bool) (allowed_char : ascii → bool) (l : list ascii) : option (list ascii) :=
  match l with
  | [] => Some []
  | c :: t =>
      if Ascii.eqb c percent then
        match t with
        | x :: y :: t =>
            h ← hex_val (ascii_code x); k ← hex_val (ascii_code y);
            if allowed_escape (h * 16 + k)
            then r ← unescape_list allowed_escape allowed_char t; Some (ascii_of_N (Z.to_N (h * 16 + k)) :: r)
            else None
        | _ => None
        end
      else if allowed_char c then r ← unescape_list allowed_escape allowed_char t; Some (c :: r)
      else None
  end.
Definition unescape_path (s : string) : option string :=
  string_of_list_ascii <$> unescape_list (fun _ => true) (fun _ => true) (list_ascii_of_string s).
(** [url.PathUnescape]. *)
Definition PathUnescape (s : string) : result string :=
  match unescape_path s with Some r => Ok r | None => Err (ENew "invalid URL escape %q") end.

(** ** Parse *)

(** [strings.Cut(s, c)] for one byte: before, after, found. *)
Fixpoint cut_byte (c : ascii) (l : list ascii) : list ascii * list ascii * bool :=
  match l with
  | [] => ([], [], false)
  | a :: t => if Ascii.eqb a c then ([], t, true)
              else let '(b, r, f) := cut_byte c t in (a :: b, r, f)
  end.
(** [getScheme]: [None] is an error; a scheme that is missing is empty. *)
Fixpoint scheme_from (first : bool) (acc rest all : list ascii) : option (list ascii * list ascii) :=
  match rest with
  | [] => Some ([], all)
  | c :: t =>
      if in_range 97 122 c || in_range 65 90 c then scheme_from false (acc ++ [c]) t all
      else if in_range 48 57 c || one_of "+-." c then if first then Some ([], all) else scheme_from false (acc ++ [c]) t all
      else if Ascii.eqb c ":" then if first then None else Some (acc, t)
      else Some ([], all)
  end.
Definition getScheme (l : list ascii) : option (list ascii * list ascii) := scheme_from true [] l l.

Definition ctl_byte (c : ascii) : bool := in_range 0 31 c || Ascii.eqb c (ascii_of_N 127).
(** [validOptionalPort]. *)
Definition valid_port (l : list ascii) : bool :=
  match l with [] => true | c :: t => Ascii.eqb c ":" && forallb (in_range 48 57) t end.
Definition userinfo_char (c : ascii) : bool := alnum c || one_of "-._:~!$&'()*+,;=%@" c.
(** [!shouldEscape(c, encodeHost)]; bytes past ASCII pass. *)
Definition host_char (c : ascii) : bool :=
  alnum c || one_of "-_.~!$&'()*+,;=:[]<>" c || Ascii.eqb c (ascii_of_N 34) || in_range 128 255 c.
(** In a host only an escaped percent sign and bytes past ASCII may be escaped. *)
Definition host_escape (n : Z) : bool := (n =? 37) || (128 <=? n).
Definition host_ok (l : list ascii) : bool := bool_decide (is_Some (unescape_list host_escape host_char l)).
Definition last_index (c : ascii) (l : list ascii) : option nat := last_index_code (ascii_code c) (map ascii_code l).
(** [parseHost]: whether it succeeds.  The zone of a bracketed literal may be escaped
    more freely. *)
Fixpoint find_zone (l : list ascii) : option nat :=
  match l with
  | "%"%char :: "2"%char :: "5"%char :: _ => Some O
  | _ :: t => S <$> find_zone t
  | [] => None
  end.
Definition zone_char (c : ascii) : bool := host_char c.
Definition zone_escape (n : Z) : bool :=
  (n =? 37) || (n =? 32) || ((n <? 128) && zone_char (ascii_of_N (Z.to_N n))).
Definition parse_host_ok (l : list ascii) : bool :=
  match l with
  | "["%char :: _ =>
      match last_index "]" l with
      | None => false
      | Some i =>
          valid_port (drop (S i) l) &&
          match find_zone (take i l) with
          | Some z => host_ok (take z l) &&
              bool_decide (is_Some (unescape_list zone_escape zone_char (drop z (take i l)))) && host_ok (drop i l)
          | None => host_ok l
          end
      end
  | _ =>
      match last_index ":" l with Some i => valid_port (drop i l) | None => true end && host_ok l
  end.
(** [parseAuthority]: whether it succeeds. *)
Definition authority_ok (l : list ascii) : bool :=
  match last_index "@" l with
  | None => parse_host_ok l
  | Some i =>
      parse_host_ok (drop (S i) l) && forallb userinfo_char (take i l) &&
      bool_decide (is_Some (unescape_list (fun _ => true) (fun _ => true) (take i l)))
  end.

(** [strings.HasPrefix] on bytes. *)
Definition starts (p : string) (l : list ascii) : bool := has_prefix (string_of_list_ascii l) p.

(** The [Path] of [url.Parse(s)]; [None] is an error. *)
Definition Parse_Path (s : string) : option string :=
  let '(u, frag, _) := cut_byte "#" (list_ascii_of_string s) in
  p ← (if existsb ctl_byte u then None
       else if bool_decide (u = ["*"%char]) then Some "*"
       else
         '(scheme, rest) ← getScheme u;
         let '(rest, _, _) := cut_byte "?" rest in
         if negb (starts "/" rest) && negb (bool_decide (scheme = [])) then Some ""
         else if negb (starts "/" rest) && existsb (Ascii.eqb ":") (cut_byte "/" rest).1.1 then None
         else
           rest ← (if (negb (bool_decide (scheme = [])) || negb (starts "///" rest)) && starts "//" rest then
                     let '(authority, after, found) := cut_byte "/" (drop 2 rest) in
                     if authority_ok authority then Some (if found : bool then slash :: after else []) else None
                   else Some rest);
           unescape_path (string_of_list_ascii rest));
  _ ← unescape_list (fun _ => true) (fun _ => true) frag;
  Some p.

Example parse_absolute : Parse_Path "http://127.0.0.1:8080/dav/content/a%20b?x#y" = Some "/dav/content/a b".
Proof. vm_compute. reflexivity. Qed.
Example parse_relative : Parse_Path "/content/a%2Fb" = Some "/content/a/b".
Proof. vm_compute. reflexivity. Qed.
Example parse_bad_escape : Parse_Path "/content/100%" = None.
Proof. vm_compute. reflexivity. Qed.
Example parse_bad_port : Parse_Path "http://h:8x/p" = None.
Proof. vm_compute. reflexivity. Qed.
Example parse_opaque : Parse_Path "mailto:a@b" = Some "".
Proof. vm_compute. reflexivity. Qed.
Example parse_colon : Parse_Path "a b:c/d" = None.
Proof. vm_compute. reflexivity. Qed.
Example escape_ex : PathEscape "a b/c%d:e" = "a%20b%2Fc%25d:e".
Proof. vm_compute. reflexivity. Qed.

(** ** [strings.ReplaceAll] *)

(** [old] is not empty; a round consumes at least one byte. *)
Fixpoint replace_from (fuel : nat) (old new s : string) : string :=
  match fuel with
  | O => s
  | S f =>
      match s with
      | EmptyString => ""
      | String c t => if has_prefix s old then new +:+ replace_from f old new (str_drop (String.length old) s)
                      else String c (replace_from f old new t)
      end
  end.
Definition ReplaceAll (s old new : string) : string := replace_from (4 + String.length s) old new s.
Example replace_ex : ReplaceAll "a%2Fb%252F" "%2F" "/" = "a/b%252F".
Proof. vm_compute. reflexivity. Qed.


(** ** strconv *)

(** [strconv.ParseInt(s, 10, 64)]; [None] is an error. *)
Definition ParseInt (s : string) : option Z :=
  let '(neg, l) := match codes s with 45 :: l => (true, l) | 43 :: l => (false, l) | l => (false, l) end in
  if bool_decide (l = []) || negb (forallb is_digit l) then None
  else
    let v := dec_digits l in
    if (neg : bool) then if v <=? 2 ^ 63 then Some (- v) else None
    else if v <? 2 ^ 63 then Some v else None.

(** [%x] of an [int64]. *)
Fixpoint hex_digits (fuel : nat) (n : Z) (acc : string) : string :=
  match fuel with
  | O => acc
  | S f => let acc := String (hex_digit_of (n mod 16)) acc in if n / 16 =? 0 then acc else hex_digits f (n / 16) acc
  end.
Definition show_hex (z : Z) : string := (if z <? 0 then "-" else "") +:+ hex_digits 16 (Z.abs z) "".

(** ** Request headers *)

(** [r.BasicAuth()] of the Authorization header. *)
Definition parseBasicAuth (auth : string) : option (string * string) :=
  if negb (String.eqb (lower_ascii (str_take 6 auth)) "basic ") then None
  else match b64_decode (str_drop 6 auth) with
       | None => None
       | Some c =>
           let '(user, pass, found) := cut_byte ":" (list_ascii_of_string (str_of c)) in
           if found : bool then Some (string_of_list_ascii user, string_of_list_ascii pass) else None
       end.

(** [textproto.TrimString]. *)
Definition ascii_space (c : ascii) : bool := let n := ascii_code c in (n =? 32) || (n =? 9) || (n =? 10) || (n =? 13).
Definition TrimString (l : list ascii) : list ascii := rev (drop_while ascii_space (rev (drop_while ascii_space l))).

(** [strings.Split(s, sep)] for one byte. *)
Fixpoint split_byte (c : ascii) (l : list ascii) : list (list ascii) :=
  match l with
  | [] => [[]]
  | a :: t => if Ascii.eqb a c then [] :: split_byte c t
              else match split_byte c t with h :: r => (a :: h) :: r | [] => [[a]] end
  end.

(** One element of a Range header against a content of [size] bytes: an error, no
    overlap, nothing, or a range (its start and length). *)
Inductive range_item : Type := Bad | NoOverlap | Blank | Range (start length : Z).
Definition parse_range_item (size : Z) (ra : list ascii) : range_item :=
  let ra := TrimString ra in
  if bool_decide (ra = []) then Blank
  else
    let '(start, end_, ok) := cut_byte "-" ra in
    if negb ok then Bad
    else
      let start := TrimString start in
      let end_ := TrimString end_ in
      if bool_decide (start = []) then
        match end_ with
        | [] => Bad
        | c :: _ =>
            if Ascii.eqb c "-" then Bad
            else match ParseInt (string_of_list_ascii end_) with
                 | None => Bad
                 | Some i => if i <? 0 then Bad else let i := Z.min i size in Range (size - i) i
                 end
        end
      else
        match ParseInt (string_of_list_ascii start) with
        | None => Bad
        | Some i =>
            if i <? 0 then Bad
            else if size <=? i then NoOverlap
            else match end_ with
                 | [] => Range i (size - i)
                 | _ => match ParseInt (string_of_list_ascii end_) with
                        | None => Bad
                        | Some j => if j <? i then Bad else let j := if size <=? j then size - 1 else j in Range i (j - i + 1)
                        end
                 end
        end.

(** [parseRange]: [None] for an invalid header; the ranges and whether some item did
    not overlap.  An error stops the scan. *)
Fixpoint collect_ranges (size : Z) (l : list (list ascii)) : option (list (Z * Z) * bool) :=
  match l with
  | [] => Some ([], false)
  | ra :: l =>
      match parse_range_item size ra with
      | Bad => None
      | Blank => collect_ranges size l
      | NoOverlap => '(r, _) ← collect_ranges size l; Some (r, true)
      | Range a n => '(r, o) ← collect_ranges size l; Some ((a, n) :: r, o)
      end
  end.

(** The parts of a content of [size] bytes that [http.ServeContent] sends for a Range
    header it honours; none for status 416. *)
Definition served_parts (size : Z) (rangeReq : string) : list (Z * Z) :=
  if String.eqb rangeReq "" then [(0, size)]
  else if negb (has_prefix rangeReq "bytes=") then []
  else match collect_ranges size (split_byte "," (list_ascii_of_string (str_drop 6 rangeReq))) with
       | None => []
       | Some ([], true) => if size =? 0 then [(0, size)] else []
       | Some ([], false) => [(0, size)]
       | Some (rs, _) => if size <? foldr (fun r n => r.2 + n) 0 rs then [(0, size)] else rs
       end.

(** ** Times *)

Definition nth_name (l : list string) (n : Z) : string := nth (Z.to_nat n) l "".
(** [t.UTC().Format(http.TimeFormat)]. *)
Definition format_http (t : Z) : string :=
  let '((y, mo, d), (h, mi, s), _) := clock_of t in
  str_concat [nth_name ["Sun"; "Mon"; "Tue"; "Wed"; "Thu"; "Fri"; "Sat"] ((t / nano / 86400 + 4) mod 7); ", ";
    pad_int 2 d; " "; nth_name ["Jan"; "Feb"; "Mar"; "Apr"; "May"; "Jun"; "Jul"; "Aug"; "Sep"; "Oct"; "Nov"; "Dec"] (mo - 1); " ";
    pad_int 4 y; " "; pad_int 2 h; ":"; pad_int 2 mi; ":"; pad_int 2 s; " GMT"].

(** ** [xml.EscapeText] *)

Definition bytes3 (a b c : N) : string := string_of_list_ascii (map ascii_of_N [a; b; c]).
(** The runes U+FFFE and U+FFFF are outside XML's character range. *)
Definition xml_outside (r : string) : bool := String.eqb r (bytes3 239 191 190) || String.eqb r (bytes3 239 191 191).
Fixpoint xml_escape_fuel (fuel : nat) (s : string) : string :=
  match fuel, s with
  | S f, String c t =>
      let n := ascii_code c in
      if n =? 34 then "&#34;" +:+ xml_escape_fuel f t
      else if n =? 39 then "&#39;" +:+ xml_escape_fuel f t
      else if n =? 38 then "&amp;" +:+ xml_escape_fuel f t
      else if n =? 60 then "&lt;" +:+ xml_escape_fuel f t
      else if n =? 62 then "&gt;" +:+ xml_escape_fuel f t
      else if n =? 9 then "&#x9;" +:+ xml_escape_fuel f t
      else if n =? 10 then "&#xA;" +:+ xml_escape_fuel f t
      else if n =? 13 then "&#xD;" +:+ xml_escape_fuel f t
      else if n <? 32 then rune_error +:+ xml_escape_fuel f t
      else match rune_width s with
           | Some w => (if xml_outside (str_take w s) then rune_error else str_take w s) +:+ xml_escape_fuel f (str_drop w s)
           | None => rune_error +:+ xml_escape_fuel f t
           end
  | _, _ => ""
  end.
Definition xml_EscapeText (s : string) : string := xml_escape_fuel (String.length s) s.

Example basic_ex : parseBasicAuth "Basic QWxhZGRpbjpvcGVuIHNlc2FtZQ==" = Some ("Aladdin", "open sesame").
Proof. vm_compute. reflexivity. Qed.
Example http_time_ex : format_http 784111777000000000 = "Sun, 06 Nov 1994 08:49:37 GMT".
Proof. vm_compute. reflexivity. Qed.
Example range_ex : served_parts 100 "bytes=10-19, 90-200,-5" = [(10, 10); (90, 10); (95, 5)].
Proof. vm_compute. reflexivity. Qed.
Example range_unsatisfiable : served_parts 100 "bytes=100-" = [] ∧ served_parts 100 "bytes=0-99,0-0" = [(0, 100)].
Proof. vm_compute. split; reflexivity. Qed.
Example xml_ex : xml_EscapeText "a<b>&c" = "a&lt;b&gt;&amp;c".
Proof. vm_compute. reflexivity. Qed.
Example hex_ex : show_hex 255 = "ff" ∧ show_hex 0 = "0" ∧ show_hex (-16) = "-10".
Proof. vm_compute. repeat split. Qed.
