(* ===== verification/Crypto.v ===== *)
(** Key derivation, key wrapping and the encrypted-object framing
    (internal/vault/crypto.go) and the unlock legs of internal/vault/vault.go.

    [cipher.AEAD] is an interface of the Go standard library and is one here: an
    authenticated cipher that opens what it sealed.  Argon2id is the vendored
    upstream implementation and is a parameter.  [rand] is the reader of
    crypto/rand: the bytes it gives, or an error. *)
From S2P Require Export GoBase64 Chunker GoHash.
Local Open Scope Z_scope.

(** ** The key-derivation primitives

    The key-derivation primitives written in the repository: PBKDF2-HMAC-SHA256
    and HKDF-SHA256 (internal/vault/crypto.go), scrypt
    (internal/vault/scrypt.go).  Executable, checked on published vectors. *)

(** A run-time panic ends the call; it is carried as an error of its own. *)
Definition go_panic : err := ESentinel "panic".

Definition be32 (n : Z) : bytes := Sha256.be_bytes 4 (Z.to_N n).
Definition xor_bytes (a b : bytes) : bytes := zip_with xor_byte a b.

(** One block of PBKDF2: the running value [u] and the sum [t] after each of the
    remaining iterations. *)
Definition pbkdf2_block (password salt : bytes) (iter block : Z) : bytes :=
  let u := hmac_sha256 password (salt ++ be32 block) in
  (Z.iter (iter - 1) (fun '(u, t) => let u := hmac_sha256 password u in (u, xor_bytes t u)) (u, u)).2.

(** internal/vault/crypto.go:479-506 [pbkdf2Key], with [sha256.New]; [keyLen] is not
    negative. *)
Definition pbkdf2Key (password salt : bytes) (iter : Z) (keyLen : nat) : result bytes :=
  if iter <=? 0 then Err go_panic
  else
    let numBlocks := ((keyLen + 32 - 1) / 32)%nat in
    Ok (take keyLen (flat_map (fun b => pbkdf2_block password salt iter (Z.of_nat b)) (seq 1 numBlocks))).

Fixpoint hkdf_expand (fuel : nat) (prk info previous : bytes) (counter : Z) {struct fuel} : bytes :=
  match fuel with
  | O => []
  | S f =>
      let c := match Byte.of_N (Z.to_N (counter mod 256)) with Some b => b | None => Byte.x00 end in
      let previous := hmac_sha256 prk (previous ++ info ++ [c]) in
      previous ++ hkdf_expand f prk info previous (counter + 1)
  end.

(** internal/vault/crypto.go:508-529 [hkdfSHA256]; [None] is a nil salt.  Each round of
    the loop adds 32 bytes, which bounds the number of rounds. *)
Definition hkdfSHA256 (ikm : bytes) (salt : option bytes) (info : bytes) (len : nat) : bytes :=
  let salt := default (repeat Byte.x00 32) salt in
  let prk := hmac_sha256 salt ikm in
  take len (hkdf_expand ((len + 31) / 32) prk info [] 1).

(** ** scrypt *)

Definition le32_of (l : bytes) : Z :=
  match l with
  | b0 :: b1 :: b2 :: b3 :: _ =>
      Z.of_N (Byte.to_N b0) + 256 * Z.of_N (Byte.to_N b1) + 65536 * Z.of_N (Byte.to_N b2) + 16777216 * Z.of_N (Byte.to_N b3)
  | _ => 0
  end.
Definition le32 (n : Z) : bytes := rev (be32 n).
Fixpoint le_words (l : bytes) : list Z :=
  match l with
  | b0 :: b1 :: b2 :: b3 :: t => le32_of [b0; b1; b2; b3] :: le_words t
  | _ => []
  end.
Definition wrapu32 (z : Z) : Z := z mod 4294967296.

(** internal/vault/scrypt.go:128-128 [bitsRotateLeft32] *)
Definition bitsRotateLeft32 (x k : Z) : Z := Z.lor (wrapu32 (Z.shiftl x k)) (Z.shiftr x (32 - k)).

(** [z[d] ^= bitsRotateLeft32(z[a]+z[b], k)]. *)
Definition salsa_op (z : list Z) (op : nat * nat * nat * nat) : list Z :=
  let '(d, a, b, k) := op in
  <[d := Z.lxor (nth d z 0) (bitsRotateLeft32 (wrapu32 (nth a z 0 + nth b z 0)) (Z.of_nat k))]> z.

Definition salsa_ops : list (nat * nat * nat * nat) :=
  [(4, 0, 12, 7); (8, 4, 0, 9); (12, 8, 4, 13); (0, 12, 8, 18);
   (9, 5, 1, 7); (13, 9, 5, 9); (1, 13, 9, 13); (5, 1, 13, 18);
   (14, 10, 6, 7); (2, 14, 10, 9); (6, 2, 14, 13); (10, 6, 2, 18);
   (3, 15, 11, 7); (7, 3, 15, 9); (11, 7, 3, 13); (15, 11, 7, 18);
   (1, 0, 3, 7); (2, 1, 0, 9); (3, 2, 1, 13); (0, 3, 2, 18);
   (6, 5, 4, 7); (7, 6, 5, 9); (4, 7, 6, 13); (5, 4, 7, 18);
   (11, 10, 9, 7); (8, 11, 10, 9); (9, 8, 11, 13); (10, 9, 8, 18);
   (12, 15, 14, 7); (13, 12, 15, 9); (14, 13, 12, 13); (15, 14, 13, 18)]%nat.

(** internal/vault/scrypt.go:76-126 [salsa208] *)
Definition salsa208 (block : bytes) : bytes :=
  let x := le_words block in
  let z := fold_left salsa_op (salsa_ops ++ salsa_ops ++ salsa_ops ++ salsa_ops) x in
  flat_map (fun p => le32 (wrapu32 (p.1 + p.2))) (zip z x).

(** internal/vault/scrypt.go:70-74 [xorBytes]; the destination's new contents. *)
Definition xorBytes (dst src : bytes) : bytes := xor_bytes dst src.

Definition block64 (B : bytes) (i : nat) : bytes := take 64 (drop (i * 64) B).

Fixpoint blockmix_loop (X : bytes) (blocks : list bytes) {struct blocks} : list bytes :=
  match blocks with
  | [] => []
  | b :: t => let X := salsa208 (xorBytes X b) in X :: blockmix_loop X t
  end.
Fixpoint evens {A} (l : list A) : list A := match l with a :: _ :: t => a :: evens t | [a] => [a] | [] => [] end.
Fixpoint odds {A} (l : list A) : list A := match l with _ :: b :: t => b :: odds t | _ => [] end.

(** internal/vault/scrypt.go:50-64 [blockMix]; the new contents of [B]: the even blocks
    of [Y], then the odd ones. *)
Definition blockMix (B : bytes) (r : nat) : bytes :=
  let Y := blockmix_loop (block64 B (2 * r - 1)) (map (block64 B) (seq 0 (2 * r))) in
  concat (evens Y) ++ concat (odds Y).

(** internal/vault/scrypt.go:66-68 [integerify]; the low 32 bits, of which the mask
    [N-1] with [N] at most 2^24 keeps the low 24. *)
Definition integerify (B : bytes) (r : nat) : Z := le32_of (drop ((2 * r - 1) * 64) B).

Fixpoint smix_fill (n : nat) (X : bytes) (r : nat) {struct n} : list bytes * bytes :=
  match n with
  | O => ([], X)
  | S n' => let '(V, X') := smix_fill n' (blockMix X r) r in (X :: V, X')
  end.
Fixpoint smix_mix (n : nat) (V : list bytes) (mask : Z) (X : bytes) (r : nat) {struct n} : bytes :=
  match n with
  | O => X
  | S n' =>
      let j := Z.to_nat (Z.land (integerify X r) mask) in
      smix_mix n' V mask (blockMix (xorBytes X (nth j V [])) r) r
  end.

(** internal/vault/scrypt.go:34-48 [smix]; the new contents of [B]. *)
Definition smix (B : bytes) (r : nat) (N : Z) : bytes :=
  let '(V, X) := smix_fill (Z.to_nat N) B r in
  smix_mix (Z.to_nat N) V (N - 1) X r.

(** The argument checks of [scryptKey]; [None] is none failed. *)
Definition scrypt_check (N r p keyLen : Z) : option err :=
  if (N <=? 1) || negb (Z.land N (N - 1) =? 0) then Some (ENew "scrypt N must be a power of two greater than 1")
  else if (r <=? 0) || (p <=? 0) || (keyLen <=? 0) then Some (ENew "scrypt r, p, and key length must be positive")
  else if Z.shiftl 1 24 <? N then Some (ENew "scrypt N %d is too large for this build")
  else if Z.shiftl 1 30 <=? wrapu64 (r * p) then Some (ENew "scrypt parameters are too large")
  else None.

(** internal/vault/scrypt.go:13-32 [scryptKey]; the slices of [B] are in range as long
    as [p*128*r] does not overflow. *)
Definition scryptKey (password salt : bytes) (N r p keyLen : Z) : result bytes :=
  match scrypt_check N r p keyLen with
  | Some e => Err e
  | None =>
      if negb (wrap64 (p * 128 * r) =? p * 128 * r) then Err go_panic
      else
        let n := Z.to_nat (128 * r) in
        B ← pbkdf2Key password salt 1 (Z.to_nat (p * 128 * r));
        let B := flat_map (fun i => smix (take n (drop (i * n) B)) (Z.to_nat r) N) (seq 0 (Z.to_nat p)) in
        pbkdf2Key password B 1 (Z.to_nat keyLen)
  end.

(** RFC 7914 section 12, RFC 5869 appendix A.3 (shortened), RFC 7914 section 11. *)
Example scrypt_rfc : (hex_encode <$> scryptKey [] [] 16 1 1 64) =
  Ok ("77d6576238657b203b19ca42c18a0497f16b4844e3074ae8dfdffa3fede21442" +:+
      "fcd0069ded0948f8326a753a0fc81f17e8d3e0fb2e0d3628cf35e20c38d18906").
Proof. vm_compute. reflexivity. Qed.
Example pbkdf2_rfc : (hex_encode <$> pbkdf2Key (bytes_of "passwd") (bytes_of "salt") 1 64) =
  Ok ("55ac046e56e3089fec1691c22544b605f94185216dde0465e68b9d57c20dacbc" +:+
      "49ca9cccf179b645991664b39d77ef317c71b845b1e30bd509112041d3a19783").
Proof. vm_compute. reflexivity. Qed.
Example hkdf_rfc : hex_encode (hkdfSHA256 (repeat Byte.x0b 22) None [] 42) =
  "8da4e775a563c18f715f802a063c5a31b8a11f5c5ee1879ec3454e5f3c738d2d9d201395faa4b61a96c8".
Proof. vm_compute. reflexivity. Qed.

(** ** The configuration

    The vault configuration as vault.json holds it (internal/vault/vault.go,
    internal/vault/crypto.go). *)

(** internal/vault/vault.go:144-154 [KDFConfig] *)
Record KDFConfig : Type := mkKDF {
  Algorithm : string;
  Iterations : Z;
  Salt : string;
  ScryptN : Z;
  ScryptR : Z;
  ScryptP : Z;
  MemoryKiB : Z;
  Time : Z;
  Parallelism : Z
}.

(** internal/vault/vault.go:156-175 [CryptoConfig] *)
Record CryptoConfig : Type := mkCrypto {
  KeyWrap : string;
  ChunkAEAD : string;
  IndexAEAD : string;
  ObjectID : string;
  ChunkerName : string;
  StorageMode : string;
  ManifestMode : string;
  ManifestShards : Z;
  DirIDEpoch : Z
}.

(** internal/vault/vault.go:128-135 [WrapEntry] *)
Record WrapEntry : Type := mkWrapEntry {
  we_ID : string;
  we_Type : string;
  we_KDF : KDFConfig;
  we_Nonce : string;
  we_CT : string;
  we_AAD : string
}.

(** internal/vault/vault.go:84-118 [VaultConfig] *)
Record VaultConfig : Type := mkConfig {
  Version : Z;
  MinReader : Z;
  FormatEpoch : Z;
  VaultID : string;
  CreatedAt : string;
  KDF : KDFConfig;
  Crypto : CryptoConfig;
  Chunk : ChunkParams;
  WrappedKeys : string;
  WrapNonce : string;
  WrapEntries : list WrapEntry;
  ConfigTag : string
}.

#[global] Instance KDFConfig_eq_dec : EqDecision KDFConfig.
Proof. solve_decision. Defined.
#[global] Instance ChunkParams_eq_dec : EqDecision ChunkParams.
Proof. solve_decision. Defined.
#[global] Instance CryptoConfig_eq_dec : EqDecision CryptoConfig.
Proof. solve_decision. Defined.
#[global] Instance WrapEntry_eq_dec : EqDecision WrapEntry.
Proof. solve_decision. Defined.
#[global] Instance VaultConfig_eq_dec : EqDecision VaultConfig.
Proof. solve_decision. Defined.

(** internal/vault/vault.go:140-143 [WrapTypePassword] *)
Definition WrapTypePassword : string := "password".
(** internal/vault/vault.go:140-143 [WrapTypeRecovery] *)
Definition WrapTypeRecovery : string := "recovery".

(** internal/vault/crypto.go:56-59 [Keys] *)
Record Keys : Type := mkKeys { MasterKey : list Byte.byte; IndexKey : list Byte.byte }.
#[global] Instance Keys_eq_dec : EqDecision Keys.
Proof. solve_decision. Defined.

(** Field updates, as Go assigns to a field of its own copy of the struct. *)
Definition set_Version (c : VaultConfig) (n : Z) : VaultConfig :=
  mkConfig n (MinReader c) (FormatEpoch c) (VaultID c) (CreatedAt c) (KDF c) (Crypto c) (Chunk c)
    (WrappedKeys c) (WrapNonce c) (WrapEntries c) (ConfigTag c).
Definition set_MinReader (c : VaultConfig) (n : Z) : VaultConfig :=
  mkConfig (Version c) n (FormatEpoch c) (VaultID c) (CreatedAt c) (KDF c) (Crypto c) (Chunk c)
    (WrappedKeys c) (WrapNonce c) (WrapEntries c) (ConfigTag c).
Definition set_FormatEpoch (c : VaultConfig) (n : Z) : VaultConfig :=
  mkConfig (Version c) (MinReader c) n (VaultID c) (CreatedAt c) (KDF c) (Crypto c) (Chunk c)
    (WrappedKeys c) (WrapNonce c) (WrapEntries c) (ConfigTag c).
Definition set_VaultID (c : VaultConfig) (s : string) : VaultConfig :=
  mkConfig (Version c) (MinReader c) (FormatEpoch c) s (CreatedAt c) (KDF c) (Crypto c) (Chunk c)
    (WrappedKeys c) (WrapNonce c) (WrapEntries c) (ConfigTag c).
Definition set_wrap (c : VaultConfig) (k : KDFConfig) (wrapped nonce : string) : VaultConfig :=
  mkConfig (Version c) (MinReader c) (FormatEpoch c) (VaultID c) (CreatedAt c) k (Crypto c) (Chunk c)
    wrapped nonce (WrapEntries c) (ConfigTag c).
Definition set_WrapEntries (c : VaultConfig) (l : list WrapEntry) : VaultConfig :=
  mkConfig (Version c) (MinReader c) (FormatEpoch c) (VaultID c) (CreatedAt c) (KDF c) (Crypto c) (Chunk c)
    (WrappedKeys c) (WrapNonce c) l (ConfigTag c).
Definition set_ConfigTag (c : VaultConfig) (s : string) : VaultConfig :=
  mkConfig (Version c) (MinReader c) (FormatEpoch c) (VaultID c) (CreatedAt c) (KDF c) (Crypto c) (Chunk c)
    (WrappedKeys c) (WrapNonce c) (WrapEntries c) s.
Definition set_Salt (k : KDFConfig) (s : string) : KDFConfig :=
  mkKDF (Algorithm k) (Iterations k) s (ScryptN k) (ScryptR k) (ScryptP k) (MemoryKiB k) (Time k) (Parallelism k).

(** What the program relies on of AES-256-GCM: a nonce size, and that opening
    inverts sealing under the same key, nonce and associated data. *)
Class AEAD := {
  nonce_size : nat;
  aead_seal : bytes → bytes → bytes → bytes → bytes;
  aead_open : bytes → bytes → bytes → bytes → option bytes;
  aead_open_seal key nonce pt aad :
    length nonce = nonce_size → aead_open key nonce (aead_seal key nonce pt aad) aad = Some pt
}.

(** [argon2.IDKey(password, salt, time, memory, threads, keyLen)]. *)
Class Argon2 := {
  argon2_IDKey : bytes → bytes → Z → Z → Z → nat → bytes;
  argon2_length pw salt t m p n : length (argon2_IDKey pw salt t m p n) = n
}.

Definition keySize : nat := 32.
Definition wrapAAD : bytes := bytes_of "seavault-wrap-v1".
Definition indexAAD : bytes := bytes_of "seavault-index-v1".
Definition manifestAADPrefix : string := "seavault-manifest-v2:".
Definition chunkAADPrefix : string := "seavault-chunk-v1:".
Definition magic (s : string) : bytes := bytes_of s ++ [Byte.x0a].
Definition indexMagic : bytes := magic "SVIDX1".
Definition manifestMagic : bytes := magic "SVMAN2".
Definition chunkMagic : bytes := magic "SVCHNK1".

Definition DefaultKDFIterations : Z := 600000.
Definition DefaultScryptN : Z := 32768.
Definition DefaultScryptR : Z := 8.
Definition DefaultScryptP : Z := 1.
Definition DefaultArgon2Time : Z := 3.
Definition DefaultArgon2Memory : Z := 64 * 1024.
Definition DefaultArgon2Threads : Z := 4.
Definition minArgon2MemoryKiB : Z := 19456.
Definition minArgon2Time : Z := 2.
Definition minArgon2MemoryKiBHigh : Z := 65536.
Definition minScryptN : Z := 32768.
Definition minScryptR : Z := 8.
Definition minPBKDF2Iterations : Z := 600000.
Definition maxArgon2Time : Z := 100.
Definition maxArgon2MemoryKiB : Z := 4 * 1024 * 1024.
Definition maxScryptMemory : Z := Z.shiftl 4 30.
Definition maxScryptP : Z := 16.
Definition maxPBKDF2Iter : Z := 100000000.

Definition errWrongSecret : err := ESentinel "errWrongSecret".
Definition ErrKDFParamsOutOfRange : err := ESentinel "ErrKDFParamsOutOfRange".

(** internal/vault/crypto.go:71-73 [DefaultKDFConfig] *)
Definition DefaultKDFConfig : KDFConfig :=
  mkKDF "ARGON2ID" 0 "" 0 0 0 DefaultArgon2Memory DefaultArgon2Time DefaultArgon2Threads.

(** internal/vault/crypto.go:75-77 [FastKDFConfigForTests] *)
Definition FastKDFConfigForTests : KDFConfig := mkKDF "SCRYPT" 0 "" 16 1 1 0 0 0.

(** internal/vault/crypto.go:319-324 [maxInt] *)
Definition maxInt (a b : Z) : Z := if b <? a then a else b.

(** internal/vault/crypto.go:460-466 [encodeEncrypted] *)
Definition encodeEncrypted (magic nonce ct : bytes) : bytes := magic ++ nonce ++ ct.

(** internal/vault/crypto.go:468-477 [decodeEncrypted] *)
Definition decodeEncrypted (magic : bytes) (nonceSize : nat) (data : bytes) : result (bytes * bytes) :=
  if negb (bool_decide (take (length magic) data = magic)) then Err (ENew "bad encrypted object magic")
  else
    let rest := drop (length magic) data in
    if (length rest <? nonceSize)%nat then Err (ENew "encrypted object too short")
    else Ok (take nonceSize rest, drop nonceSize rest).

(** internal/vault/crypto.go:452-456 [hmacHex] *)
Definition hmacHex (key data : bytes) : string := hex_encode (hmac_sha256 key data).

(** internal/vault/crypto.go:458-458 [constantTimeStringEqual] *)
Definition constantTimeStringEqual (a b : string) : bool := String.eqb a b.

(** internal/vault/crypto.go:331-333 [deriveSubkey] *)
Definition deriveSubkey (master : bytes) (info : string) : bytes := hkdfSHA256 master None (bytes_of info) keySize.

(** internal/vault/crypto.go:349-354 [wrapEntryAAD] *)
Definition wrapEntryAAD (e : WrapEntry) (version : Z) : bytes :=
  if String.eqb (we_AAD e) "" then wrapAAD
  else bytes_of (we_AAD e +:+ ":v" +:+ itoa version).

(** The three families the switches on the algorithm name tell apart. *)
Inductive kdf_family : Type := FArgon2 | FScrypt | FPBKDF2 | FUnknown.
#[global] Instance kdf_family_eq_dec : EqDecision kdf_family.
Proof. solve_decision. Defined.

Section crypto.
Context `{GoUnicode} `{AEAD} `{Argon2}.

(** internal/vault/crypto.go:326-329 [normalizeKDF] *)
Definition normalizeKDF (name : string) : string :=
  replace_byte "_" "-" (to_lower (trim_space name)).

(** The case labels shared by the switches on [normalizeKDF(cfg.Algorithm)]. *)
Definition family_of (alg : string) : kdf_family :=
  if String.eqb alg "argon2id" || String.eqb alg "argon2-id" then FArgon2
  else if String.eqb alg "scrypt" then FScrypt
  else if String.eqb alg "pbkdf2" || String.eqb alg "pbkdf2-hmac-sha256" then FPBKDF2
  else FUnknown.

(** internal/vault/crypto.go:251-282 [checkKDFRange]; [None] is a nil error. *)
Definition checkKDFRange (cfg : KDFConfig) : option err :=
  let bad m := Some (EWrap m ErrKDFParamsOutOfRange) in
  match family_of (normalizeKDF (Algorithm cfg)) with
  | FArgon2 =>
      if (Time cfg <? 1) || (maxArgon2Time <? Time cfg) then bad "argon2id time %d (allowed 1..%d)"
      else if (MemoryKiB cfg <? 1) || (maxArgon2MemoryKiB <? MemoryKiB cfg)
      then bad "argon2id memoryKiB %d (allowed 1..%d)"
      else None
  | FScrypt =>
      if (ScryptN cfg <? 2) || (ScryptR cfg <? 1) || (ScryptP cfg <? 1) || (maxScryptP <? ScryptP cfg)
      then bad "scrypt N=%d r=%d p=%d"
      else if (Z.quot maxScryptMemory 128 <? ScryptR cfg) ||
              (Z.quot (Z.quot maxScryptMemory 128) (ScryptR cfg) <? ScryptN cfg)
      then bad "scrypt N=%d r=%d needs more than %d bytes"
      else if Z.quot (Z.quot maxScryptMemory 128) (ScryptR cfg) <? ScryptP cfg
      then bad "scrypt r=%d p=%d needs more than %d bytes"
      else None
  | FPBKDF2 =>
      if (Iterations cfg <? 1) || (maxPBKDF2Iter <? Iterations cfg)
      then bad "pbkdf2 iterations %d (allowed 1..%d)"
      else None
  | FUnknown => None
  end.

(** internal/vault/crypto.go:79-139 [NormalizeKDFConfig] *)
Definition NormalizeKDFConfig (cfg : KDFConfig) (creating : bool) : result KDFConfig :=
  let alg := normalizeKDF (Algorithm cfg) in
  let cfg := if String.eqb alg "" then DefaultKDFConfig else cfg in
  let alg := if String.eqb alg "" then normalizeKDF (Algorithm cfg) else alg in
  let salt := Salt cfg in
  let fill x d := if x <=? 0 then d else x in
  let fill0 x d := if x =? 0 then d else x in
  cfg ← match family_of alg with
    | FArgon2 =>
        let time := fill (Time cfg) DefaultArgon2Time in
        let mem := fill (MemoryKiB cfg) DefaultArgon2Memory in
        let par := fill (Parallelism cfg) DefaultArgon2Threads in
        if 255 <? par then Err (ENew "argon2id parallelism must be <= 255")
        else
          let mem := if mem <? 8 * par then 8 * par else mem in
          Ok (mkKDF "ARGON2ID" 0 (Salt cfg) 0 0 0 mem time par)
    | FScrypt =>
        let cfg := mkKDF (Algorithm cfg) (Iterations cfg) (Salt cfg) (fill0 (ScryptN cfg) DefaultScryptN)
                     (fill0 (ScryptR cfg) DefaultScryptR) (fill0 (ScryptP cfg) DefaultScryptP)
                     (MemoryKiB cfg) (Time cfg) (Parallelism cfg) in
        match checkKDFRange cfg with
        | Some e => Err e
        | None =>
            match scryptKey (bytes_of "probe") (bytes_of "salt") (ScryptN cfg) (ScryptR cfg) (ScryptP cfg) 1 with
            | Err e => Err e
            | Ok _ => Ok (mkKDF "SCRYPT" 0 (Salt cfg) (ScryptN cfg) (ScryptR cfg) (ScryptP cfg) 0 0 0)
            end
        end
    | FPBKDF2 => Ok (mkKDF "PBKDF2-HMAC-SHA256" (fill (Iterations cfg) DefaultKDFIterations) (Salt cfg) 0 0 0 0 0 0)
    | FUnknown => Err (ENew "unsupported KDF algorithm %q")
    end;
  let cfg := set_Salt cfg salt in
  if negb creating && String.eqb (Salt cfg) "" then Err (ENew "vault KDF salt is missing") else Ok cfg.

(** internal/vault/crypto.go:159-186 [ValidateKDFStrength]; [None] is a nil error. *)
Definition ValidateKDFStrength (cfg : KDFConfig) : option err :=
  match family_of (normalizeKDF (Algorithm cfg)) with
  | FArgon2 =>
      if Parallelism cfg <? 1 then Some (ENew "argon2id parallelism %d is below the minimum of 1")
      else
        let strong := ((minArgon2MemoryKiB <=? MemoryKiB cfg) && (minArgon2Time <=? Time cfg)) ||
                      ((minArgon2MemoryKiBHigh <=? MemoryKiB cfg) && (1 <=? Time cfg)) in
        if negb strong then Some (ENew "argon2id parameters too weak (memoryKiB=%d, time=%d)") else None
  | FScrypt =>
      if ScryptN cfg <? minScryptN then Some (ENew "scrypt N=%d is below the minimum of %d")
      else if ScryptR cfg <? minScryptR then Some (ENew "scrypt r=%d is below the minimum of %d")
      else None
  | FPBKDF2 =>
      if Iterations cfg <? minPBKDF2Iterations then Some (ENew "pbkdf2 iterations %d is below the minimum of %d")
      else None
  | FUnknown => Some (ENew "unsupported KDF algorithm %q")
  end.

(** internal/vault/crypto.go:295-317 [raiseToFloor]; [enforce] is [enforceRewrapFloor],
    true outside the test suite. *)
Definition raiseToFloor (enforce : bool) (base : KDFConfig) : result KDFConfig :=
  if negb enforce then Ok base
  else
    n ← NormalizeKDFConfig base true;
    match ValidateKDFStrength n with
    | None => Ok base
    | Some _ =>
        match family_of (normalizeKDF (Algorithm n)) with
        | FScrypt => Ok (mkKDF "SCRYPT" 0 (Salt base) (maxInt (ScryptN n) DefaultScryptN)
                           (maxInt (ScryptR n) DefaultScryptR) (maxInt (ScryptP n) DefaultScryptP) 0 0 0)
        | FPBKDF2 => Ok (mkKDF "PBKDF2-HMAC-SHA256" (maxInt (Iterations n) DefaultKDFIterations) (Salt base) 0 0 0 0 0 0)
        | _ => Ok (mkKDF "ARGON2ID" 0 (Salt base) 0 0 0 (maxInt (MemoryKiB n) DefaultArgon2Memory)
                     (maxInt (Time n) DefaultArgon2Time) (maxInt (Parallelism n) 1))
        end
    end.

(** internal/vault/crypto.go:213-235 [deriveWrapKey]; the conversions to [uint32] and
    [uint8] are written out. *)
Definition deriveWrapKey (password : string) (cfg : KDFConfig) : result bytes :=
  cfg ← NormalizeKDFConfig cfg false;
  match checkKDFRange cfg with
  | Some e => Err e
  | None =>
      match b64_decode (Salt cfg) with
      | None => Err (EWrap "decode KDF salt: " (ENew "illegal base64 data"))
      | Some salt =>
          let alg := normalizeKDF (Algorithm cfg) in
          if String.eqb alg "pbkdf2-hmac-sha256"
          then pbkdf2Key (bytes_of password) salt (Iterations cfg) keySize
          else if String.eqb alg "scrypt"
          then scryptKey (bytes_of password) salt (ScryptN cfg) (ScryptR cfg) (ScryptP cfg) (Z.of_nat keySize)
          else if String.eqb alg "argon2id" || String.eqb alg "argon2-id"
          then Ok (argon2_IDKey (bytes_of password) salt (wrapu32 (Time cfg)) (wrapu32 (MemoryKiB cfg))
                     (Parallelism cfg mod 256) keySize)
          else Err (ENew "unsupported KDF algorithm %q")
      end
  end.

(** internal/vault/crypto.go:202-211 [newAESGCM]; the AEAD of a key is the key. *)
Definition newAESGCM (key : bytes) : result bytes :=
  if negb (length key =? keySize)%nat then Err (ENew "invalid AES key length %d") else Ok key.

(** internal/vault/crypto.go:356-375 [wrapKeys] *)
Definition wrapKeys (rand : nat → result bytes) (password : string) (cfg : KDFConfig) (keys : Keys)
    : result (string * string) :=
  if negb (length (MasterKey keys) =? keySize)%nat || negb (length (IndexKey keys) =? keySize)%nat
  then Err (ENew "invalid key bundle")
  else
    wrapKey ← deriveWrapKey password cfg;
    aead ← newAESGCM wrapKey;
    nonce ← rand nonce_size;
    let bundle := MasterKey keys ++ IndexKey keys in
    let ct := aead_seal aead nonce bundle wrapAAD in
    Ok (b64_encode nonce, b64_encode ct).

(** The tail the two unwrap functions share: the nonce-length guard, the open and
    the split of the bundle. *)
Definition open_bundle (aead nonce ct aad : bytes) : result Keys :=
  if negb (length nonce =? nonce_size)%nat then Err errWrongSecret
  else
    match aead_open aead nonce ct aad with
    | None => Err errWrongSecret
    | Some bundle =>
        if negb (length bundle =? 2 * keySize)%nat then Err (ENew "unexpected key bundle length %d")
        else Ok (mkKeys (take keySize bundle) (drop keySize bundle))
    end.

(** internal/vault/crypto.go:377-410 [unwrapKeys] *)
Definition unwrapKeys (password : string) (cfg : KDFConfig) (nonceB64 ctB64 : string) : result Keys :=
  match b64_decode nonceB64 with
  | None => Err (EWrap "decode wrapped-key nonce: " (ENew "illegal base64 data"))
  | Some nonce =>
      match b64_decode ctB64 with
      | None => Err (EWrap "decode wrapped keys: " (ENew "illegal base64 data"))
      | Some ct =>
          wrapKey ← deriveWrapKey password cfg;
          aead ← newAESGCM wrapKey;
          open_bundle aead nonce ct wrapAAD
      end
  end.

(** internal/vault/crypto.go:419-450 [unwrapEntry] *)
Definition unwrapEntry (secret : string) (version : Z) (e : WrapEntry) : result Keys :=
  match b64_decode (we_Nonce e) with
  | None => Err (EWrap "decode wrap-entry nonce: " (ENew "illegal base64 data"))
  | Some nonce =>
      match b64_decode (we_CT e) with
      | None => Err (EWrap "decode wrap-entry ciphertext: " (ENew "illegal base64 data"))
      | Some ct =>
          wrapKey ← deriveWrapKey secret (we_KDF e);
          aead ← newAESGCM wrapKey;
          open_bundle aead nonce ct (wrapEntryAAD e version)
      end
  end.

(** The entry loop of [unlockWith] and [recoveryEntryFor]: the first entry of the
    wanted type that opens. *)
Fixpoint first_opening (secret : string) (version : Z) (wantType : string) (l : list WrapEntry)
    : option (Keys * string) :=
  match l with
  | [] => None
  | e :: l =>
      if negb (String.eqb (we_Type e) wantType) then first_opening secret version wantType l
      else match unwrapEntry secret version e with
           | Ok keys => Some (keys, we_ID e)
           | Err _ => first_opening secret version wantType l
           end
  end.

(** internal/vault/vault.go:396-430 [unlockWith] *)
Definition unlockWith (cfg : VaultConfig) (secret wantType : string) : result Keys :=
  match WrapEntries cfg with
  | [] =>
      if negb (String.eqb wantType WrapTypePassword) then Err errWrongSecret
      else unwrapKeys secret (KDF cfg) (WrapNonce cfg) (WrappedKeys cfg)
  | entries =>
      match first_opening secret (Version cfg) wantType entries with
      | Some (keys, _) => Ok keys
      | None =>
          if String.eqb wantType WrapTypePassword && negb (String.eqb (WrappedKeys cfg) "") then
            match unwrapKeys secret (KDF cfg) (WrapNonce cfg) (WrappedKeys cfg) with
            | Ok keys => Ok keys
            | Err _ => Err errWrongSecret
            end
          else Err errWrongSecret
      end
  end.

(** internal/vault/vault.go:438-448 [recoveryEntryFor] *)
Definition recoveryEntryFor (cfg : VaultConfig) (secret : string) : result (Keys * string) :=
  match first_opening secret (Version cfg) WrapTypeRecovery (WrapEntries cfg) with
  | Some r => Ok r
  | None => Err errWrongSecret
  end.
End crypto.

(** ** Concrete instances

    Concrete instances of the interfaces, on which the witnesses evaluate (beside
    [demo_unicode] of GoStr.v): a cipher (the text behind a keyed tag
    over its sum, so that another key, nonce or text is refused; it does not hide), and a stand-in for the
    Argon2 output.  Nothing but the witnesses depends on them. *)

(** A 32-bit running sum of the text, cheap to evaluate. *)
Definition demo_sum (l : bytes) : Z := fold_left (fun a b => (a * 257 + Z.of_N (Byte.to_N b) + 1) mod 2 ^ 32) l 0.
Definition demo_tag (key nonce pt aad : bytes) : bytes :=
  hmac_sha256 key (nonce ++ be32 (demo_sum aad) ++ be32 (demo_sum pt)).
Definition demo_seal (key nonce pt aad : bytes) : bytes := demo_tag key nonce pt aad ++ pt.
Definition demo_open (key nonce ct aad : bytes) : option bytes :=
  let pt := drop 32 ct in
  if bool_decide (ct = demo_seal key nonce pt aad) then Some pt else None.

Lemma demo_open_seal key nonce pt aad :
  length nonce = 12%nat → demo_open key nonce (demo_seal key nonce pt aad) aad = Some pt.
Proof.
  intros _. unfold demo_open.
  assert (E : drop 32 (demo_seal key nonce pt aad) = pt).
  { unfold demo_seal. rewrite drop_app_length'; [done|]. unfold demo_tag. by rewrite hmac_length. }
  rewrite E. by rewrite bool_decide_eq_true_2.
Qed.
Definition demo_aead : AEAD :=
  {| nonce_size := 12; aead_seal := demo_seal; aead_open := demo_open; aead_open_seal := demo_open_seal |}.

Definition demo_argon (pw salt : bytes) (t m p : Z) (n : nat) : bytes :=
  take n (hmac_sha256 pw salt ++ repeat Byte.x00 n).
Lemma demo_argon_length pw salt t m p n : length (demo_argon pw salt t m p n) = n%nat.
Proof. unfold demo_argon. rewrite length_take, length_app, hmac_length, repeat_length. lia. Qed.
Definition demo_argon2 : Argon2 := {| argon2_IDKey := demo_argon; argon2_length := demo_argon_length |}.
