(* ===== verification/CryptoFacts.v ===== *)
(** Properties of key derivation, wrapping and unlocking. *)
From S2P Require Export Crypto.
Local Open Scope Z_scope.

(** ** Framing *)

Lemma decode_encode magic nonce ct :
  decodeEncrypted magic (length nonce) (encodeEncrypted magic nonce ct) = Ok (nonce, ct).
Proof.
  unfold decodeEncrypted, encodeEncrypted. rewrite take_app_length, bool_decide_eq_true_2 by done. cbn [negb].
  rewrite drop_app_length. assert (E : (length (nonce ++ ct) <? length nonce)%nat = false).
  { apply Nat.ltb_ge. rewrite length_app. lia. }
  by rewrite E, take_app_length, drop_app_length.
Qed.

Lemma decode_ok magic n data nonce ct :
  decodeEncrypted magic n data = Ok (nonce, ct) → data = encodeEncrypted magic nonce ct ∧ length nonce = n.
Proof.
  unfold decodeEncrypted, encodeEncrypted. case_bool_decide as E; [|done]. cbn [negb].
  destruct (Nat.ltb_spec (length (drop (length magic) data)) n); [done|]. intros [= <- <-].
  split; [|rewrite length_take; lia]. rewrite take_drop. rewrite <- E at 1. by rewrite take_drop.
Qed.

(** ** Derivation never crashes *)

Section derive.
Context `{GoUnicode} `{AEAD} `{Argon2}.

Lemma pbkdf2_ok pw salt iter n : 1 ≤ iter → ∃ k, pbkdf2Key pw salt iter n = Ok k.
Proof. intros Hi. unfold pbkdf2Key. destruct (Z.leb_spec iter 0); [lia|]. eauto. Qed.

Lemma scryptKey_no_panic pw salt N r p n :
  0 < 128 * r * p ≤ int64_max → scryptKey pw salt N r p n ≠ Err go_panic.
Proof.
  intros Hb. unfold scryptKey. destruct (scrypt_check N r p n) as [e|] eqn:E.
  { unfold scrypt_check in E. repeat (case_match; [by injection E as <-|]). discriminate E. }
  rewrite wrap64_id by (unfold in_int64, int64_min, int64_max in *; lia). rewrite Z.eqb_refl. cbn [negb].
  destruct (pbkdf2_ok pw salt 1 (Z.to_nat (p * 128 * r))) as [B ->]; [lia|]. cbn [mbind result_bind].
  match goal with |- context [pbkdf2Key pw ?B' 1 ?m] =>
    destruct (pbkdf2_ok pw B' 1 m) as [k ->]; [lia|done] end.
Qed.

Lemma range_scrypt cfg :
  family_of (normalizeKDF (Algorithm cfg)) = FScrypt → checkKDFRange cfg = None →
  0 < 128 * ScryptR cfg * ScryptP cfg ≤ int64_max.
Proof.
  unfold checkKDFRange. intros ->. change maxScryptMemory with 4294967296. change maxScryptP with 16.
  change (Z.quot 4294967296 128) with 33554432.
  destruct (Z.ltb_spec (ScryptN cfg) 2); [done|]. destruct (Z.ltb_spec (ScryptR cfg) 1); [done|].
  destruct (Z.ltb_spec (ScryptP cfg) 1); [done|]. destruct (Z.ltb_spec 16 (ScryptP cfg)); [done|]. cbn [orb].
  destruct (Z.ltb_spec 33554432 (ScryptR cfg)); [done|]. intros _. unfold int64_max. nia.
Qed.

Lemma checkKDFRange_no_panic cfg : checkKDFRange cfg ≠ Some go_panic.
Proof. unfold checkKDFRange. repeat case_match; intros [=]. Qed.

Lemma family_scrypt_only alg : family_of alg = FScrypt → alg = "scrypt".
Proof.
  unfold family_of. destruct (_ || _); [done|]. destruct (String.eqb_spec alg "scrypt"); [done|].
  by destruct (_ || _).
Qed.

Lemma NormalizeKDFConfig_no_panic cfg creating : NormalizeKDFConfig cfg creating ≠ Err go_panic.
Proof.
  unfold NormalizeKDFConfig. set (c := if String.eqb _ "" then DefaultKDFConfig else cfg).
  set (alg := if String.eqb _ "" then _ else _).
  assert (Halg : alg = normalizeKDF (Algorithm c)) by (unfold alg, c; by destruct (String.eqb _ "")).
  intros He. apply bind_err in He as [He|(n & _ & He)]; [|by destruct (_ && _)].
  destruct (family_of alg) eqn:E.
  - by destruct (255 <? _).
  - match type of He with context [checkKDFRange ?c'] =>
      destruct (checkKDFRange c') as [e|] eqn:Er; [injection He as ->; by apply checkKDFRange_no_panic in Er|];
      assert (Hf : family_of (normalizeKDF (Algorithm c')) = FScrypt)
    end.
    { cbn [Algorithm]. by rewrite <- Halg. }
    pose proof (range_scrypt _ Hf Er) as Hb.
    destruct (scryptKey _ _ _ _ _ _) as [k|e] eqn:Es; [done|]. injection He as ->.
    by apply scryptKey_no_panic in Es.
  - done.
  - done.
Qed.

Lemma normalize_name s r :
  trim_space s = s → is_ascii s = true → replace_byte "_" "-" (lower_ascii s) = r → normalizeKDF s = r.
Proof. intros Ht Ha <-. unfold normalizeKDF. by rewrite Ht, to_lower_ascii. Qed.

Lemma name_argon2 : normalizeKDF "ARGON2ID" = "argon2id".
Proof. apply normalize_name; vm_compute; reflexivity. Qed.
Lemma name_scrypt : normalizeKDF "SCRYPT" = "scrypt".
Proof. apply normalize_name; vm_compute; reflexivity. Qed.
Lemma name_pbkdf2 : normalizeKDF "PBKDF2-HMAC-SHA256" = "pbkdf2-hmac-sha256".
Proof. apply normalize_name; vm_compute; reflexivity. Qed.

(** A normalised configuration: one of the three canonical names, every cost of
    its family positive, and for scrypt within the range. *)
Inductive normal (n : KDFConfig) : Prop :=
  | normal_argon2 : Algorithm n = "ARGON2ID" → 0 < Time n → 1 ≤ Parallelism n ≤ 255 →
      8 * Parallelism n ≤ MemoryKiB n → normal n
  | normal_scrypt : Algorithm n = "SCRYPT" → checkKDFRange n = None → normal n
  | normal_pbkdf2 : Algorithm n = "PBKDF2-HMAC-SHA256" → 0 < Iterations n → normal n.

Lemma NormalizeKDFConfig_normal cfg creating n : NormalizeKDFConfig cfg creating = Ok n → normal n.
Proof.
  unfold NormalizeKDFConfig. set (c := if String.eqb _ "" then DefaultKDFConfig else cfg).
  set (alg := if String.eqb _ "" then _ else _).
  assert (Halg : alg = normalizeKDF (Algorithm c)) by (unfold alg, c; by destruct (String.eqb _ "")).
  intros Hn. apply bind_ok in Hn as (m & Hm & Hn). destruct (_ && _); [done|]. injection Hn as <-.
  assert (Hfill : ∀ x d, 0 < d → 0 < (if x <=? 0 then d else x)).
  { intros x d. destruct (Z.leb_spec x 0); lia. }
  destruct (family_of alg) eqn:E.
  - match type of Hm with context [255 <? ?par] => set (pr := par) in Hm end.
    assert (Hpar : 0 < pr) by (apply Hfill; reflexivity).
    destruct (Z.ltb_spec 255 pr); [done|]. injection Hm as <-. apply normal_argon2; cbn -[Z.mul Z.ltb].
    + done.
    + apply Hfill. reflexivity.
    + fold pr. lia.
    + fold pr. destruct (Z.ltb_spec (if MemoryKiB c <=? 0 then DefaultArgon2Memory else MemoryKiB c) (8 * pr)); lia.
  - match type of Hm with context [checkKDFRange ?c'] =>
      destruct (checkKDFRange c') as [e|] eqn:Er; [done|];
      assert (Hf : family_of (normalizeKDF (Algorithm c')) = FScrypt) by (cbn [Algorithm]; by rewrite <- Halg)
    end.
    destruct (scryptKey _ _ _ _ _ _); [|done]. injection Hm as <-. apply normal_scrypt; [done|].
    unfold checkKDFRange in Er |- *. rewrite Hf in Er. cbn [Algorithm set_Salt]. rewrite name_scrypt. exact Er.
  - injection Hm as <-. apply normal_pbkdf2; [done|]. cbn -[Z.leb]. apply Hfill. reflexivity.
  - done.
Qed.

Lemma normal_family n : normal n → family_of (normalizeKDF (Algorithm n)) =
  if String.eqb (Algorithm n) "ARGON2ID" then FArgon2 else if String.eqb (Algorithm n) "SCRYPT" then FScrypt else FPBKDF2.
Proof. intros [-> _ _ _| -> _| -> _]; [by rewrite name_argon2|by rewrite name_scrypt|by rewrite name_pbkdf2]. Qed.

(** C28. A hostile vault.json cannot crash the unlock: whatever the stored
    parameters, deriving a wrap key ends in a key or an error, never in a panic;
    and when it ends in a key, the parameters that were run are inside the
    supported range, so that the narrowing conversions of the Argon2 call are
    exact. *)
Theorem deriveWrapKey_safe (password : string) (cfg : KDFConfig) :
  deriveWrapKey password cfg ≠ Err go_panic ∧
  (is_ok (deriveWrapKey password cfg) = true →
   ∃ n, NormalizeKDFConfig cfg false = Ok n ∧ checkKDFRange n = None ∧
     (Algorithm n = "ARGON2ID" → wrapu32 (Time n) = Time n ∧ 1 ≤ Time n ≤ 100 ∧
        wrapu32 (MemoryKiB n) = MemoryKiB n ∧ 8 ≤ MemoryKiB n ≤ 4194304 ∧
        Parallelism n mod 256 = Parallelism n ∧ 1 ≤ Parallelism n)).
Proof.
  unfold deriveWrapKey. destruct (NormalizeKDFConfig cfg false) as [n|e] eqn:En; cbn [mbind result_bind].
  2:{ split; [|done]. intros [= ->]. by apply NormalizeKDFConfig_no_panic in En. }
  apply NormalizeKDFConfig_normal in En as Hn.
  destruct (checkKDFRange n) as [e|] eqn:Er.
  { split; [|done]. intros [= ->]. by apply checkKDFRange_no_panic in Er. }
  split.
  - destruct (b64_decode (Salt n)) as [salt|]; [|done].
    destruct Hn as [Ha _ _ _|Ha _|Ha Hi]; rewrite Ha, ?name_argon2, ?name_scrypt, ?name_pbkdf2; cbn [String.eqb orb].
    + done.
    + apply scryptKey_no_panic, range_scrypt; [by rewrite Ha, name_scrypt|done].
    + by destruct (pbkdf2_ok (bytes_of password) salt (Iterations n) keySize) as [k ->]; [lia|].
  - intros _. exists n. split; [done|]. split; [done|]. intros Ha.
    unfold checkKDFRange in Er. rewrite Ha, name_argon2 in Er. cbn [family_of String.eqb orb] in Er.
    destruct Hn as [_ Ht Hp Hm|Ha'|Ha']; [|congruence..].
    change maxArgon2Time with 100 in Er. change maxArgon2MemoryKiB with 4194304 in Er.
    destruct (Z.ltb_spec (Time n) 1); [done|]. destruct (Z.ltb_spec 100 (Time n)); [done|].
    destruct (Z.ltb_spec (MemoryKiB n) 1); [done|]. destruct (Z.ltb_spec 4194304 (MemoryKiB n)); [done|].
    unfold wrapu32. rewrite !Z.mod_small by lia. lia.
Qed.

(** ** The re-wrap floor *)

Lemma maxInt_spec a b : maxInt a b = Z.max a b.
Proof. unfold maxInt. destruct (Z.ltb_spec b a); lia. Qed.

(** Every cost of the family of [n] is at least as high in [b]. *)
Definition at_least (n b : KDFConfig) : Prop :=
  Algorithm b = Algorithm n ∧
  (Algorithm n = "ARGON2ID" → Time n ≤ Time b ∧ MemoryKiB n ≤ MemoryKiB b ∧ Parallelism n ≤ Parallelism b) ∧
  (Algorithm n = "SCRYPT" → ScryptN n ≤ ScryptN b ∧ ScryptR n ≤ ScryptR b ∧ ScryptP n ≤ ScryptP b) ∧
  (Algorithm n = "PBKDF2-HMAC-SHA256" → Iterations n ≤ Iterations b).

(** Re-wrapping never weakens: in production the configuration a wrap is
    rebuilt under either is the stored one, which normalised meets the creation
    floors, or meets the floors itself, keeps the salt, and has no cost below the
    stored one. *)
Theorem raiseToFloor_meets_floor (base b : KDFConfig) :
  raiseToFloor true base = Ok b →
  ∃ n, NormalizeKDFConfig base true = Ok n ∧
    ((b = base ∧ ValidateKDFStrength n = None) ∨
     (ValidateKDFStrength b = None ∧ Salt b = Salt base ∧ at_least n b)).
Proof.
  unfold raiseToFloor. cbn [negb]. intros Hr. apply bind_ok in Hr as (n & En & Hr). exists n. split; [done|].
  destruct (ValidateKDFStrength n) eqn:Ev; [|left; by injection Hr as <-].
  right. apply NormalizeKDFConfig_normal in En.
  destruct En as [Ha Ht Hp Hm|Ha _|Ha Hi]; rewrite Ha, ?name_argon2, ?name_scrypt, ?name_pbkdf2 in Hr;
    cbn [family_of String.eqb orb] in Hr; injection Hr as <-; unfold ValidateKDFStrength, at_least;
    cbn [Algorithm Time MemoryKiB Parallelism ScryptN ScryptR ScryptP Iterations Salt];
    rewrite ?name_argon2, ?name_scrypt, ?name_pbkdf2, !maxInt_spec;
    cbn [family_of String.eqb orb]; rewrite Ha; (split; [|split; [done|]]).
  - rewrite (proj2 (Z.ltb_ge _ 1)) by lia.
    change minArgon2MemoryKiBHigh with 65536. change DefaultArgon2Memory with 65536. change DefaultArgon2Time with 3.
    rewrite (proj2 (Z.leb_le 65536 _)), (proj2 (Z.leb_le 1 _)) by lia. by rewrite orb_true_r.
  - split_and!; [done| | |]; intros; try discriminate; lia.
  - change minScryptN with 32768. change DefaultScryptN with 32768. change minScryptR with 8. change DefaultScryptR with 8.
    by rewrite (proj2 (Z.ltb_ge _ 32768)), (proj2 (Z.ltb_ge _ 8)) by lia.
  - split_and!; [done| | |]; intros; try discriminate; lia.
  - change minPBKDF2Iterations with 600000. change DefaultKDFIterations with 600000.
    by rewrite (proj2 (Z.ltb_ge _ 600000)) by lia.
  - split_and!; [done| | |]; intros; try discriminate; lia.
Qed.

Lemma scryptKey_ok pw salt N r p n :
  scrypt_check N r p n = None → 0 < 128 * r * p ≤ int64_max → ∃ k, scryptKey pw salt N r p n = Ok k.
Proof.
  intros Hc Hb. unfold scryptKey. rewrite Hc, wrap64_id by (unfold in_int64, int64_min, int64_max in *; lia).
  rewrite Z.eqb_refl. cbn [negb].
  destruct (pbkdf2_ok pw salt 1 (Z.to_nat (p * 128 * r))) as [B ->]; [lia|]. cbn [mbind result_bind].
  apply pbkdf2_ok. lia.
Qed.

(** Raising the floor can lock a vault out of re-wrapping: a stored scrypt
    cost that the client accepts (8388608 x 1 x 1, one GiB) is raised, parameter
    by parameter, to one it refuses (8388608 x 8 x 1, eight GiB), so a password
    change on that vault always fails. *)
Theorem raiseToFloor_out_of_range :
  ∃ base b, checkKDFRange base = None ∧ raiseToFloor true base = Ok b ∧
    checkKDFRange b = Some (EWrap "scrypt N=%d r=%d needs more than %d bytes" ErrKDFParamsOutOfRange).
Proof.
  exists (mkKDF "SCRYPT" 0 "AAAA" 8388608 1 1 0 0 0), (mkKDF "SCRYPT" 0 "AAAA" 8388608 8 1 0 0 0).
  assert (Er : ∀ alg salt, normalizeKDF alg = "scrypt" → checkKDFRange (mkKDF alg 0 salt 8388608 1 1 0 0 0) = None).
  { intros alg salt Ha. unfold checkKDFRange. cbn [Algorithm]. rewrite Ha. vm_compute. reflexivity. }
  split; [apply Er, name_scrypt|]. split.
  - unfold raiseToFloor, NormalizeKDFConfig. cbn [negb Algorithm]. rewrite name_scrypt.
    change (String.eqb "scrypt" "") with false. cbn [Algorithm ScryptN ScryptR ScryptP Salt].
    change (family_of "scrypt") with FScrypt. cbn [Z.eqb]. cbn match.
    rewrite Er by apply name_scrypt.
    destruct (scryptKey_ok (bytes_of "probe") (bytes_of "salt") 8388608 1 1 1) as [k ->];
      [vm_compute; reflexivity|by vm_compute|].
    cbn [mbind result_bind]. unfold set_Salt, ValidateKDFStrength. cbn [andb Algorithm Iterations ScryptN ScryptR ScryptP MemoryKiB Time Parallelism Salt].
    cbn [mbind result_bind Algorithm Iterations ScryptN ScryptR ScryptP]. rewrite name_scrypt. reflexivity.
  - unfold checkKDFRange. cbn [Algorithm]. rewrite name_scrypt. vm_compute. reflexivity.
Qed.

(** ** Wrapping *)

(** The tail of both unwraps recovers what was sealed. *)
Lemma open_bundle_seal aead nonce keys aad :
  length nonce = nonce_size → length (MasterKey keys) = keySize → length (IndexKey keys) = keySize →
  open_bundle aead nonce (aead_seal aead nonce (MasterKey keys ++ IndexKey keys) aad) aad = Ok keys.
Proof.
  intros Hn Hm Hi. unfold open_bundle. rewrite Hn, Nat.eqb_refl. cbn [negb]. rewrite aead_open_seal by done.
  rewrite length_app, Hm, Hi. cbn [negb Nat.eqb keySize Nat.add Nat.mul].
  rewrite take_app_length', drop_app_length' by done. by destruct keys.
Qed.

(** A wrap opens, from the top-level fields and from an entry. *)
Lemma wrapped_opens (rand : nat → result bytes) (password : string) (cfg : KDFConfig) (keys : Keys)
    (nonce ct id ty : string) (version : Z) :
  (∀ n b, rand n = Ok b → length b = n) →
  wrapKeys rand password cfg keys = Ok (nonce, ct) →
  unwrapKeys password cfg nonce ct = Ok keys ∧
  unwrapEntry password version (mkWrapEntry id ty cfg nonce ct "") = Ok keys.
Proof.
  intros Hrand Hw. unfold wrapKeys in Hw. destruct (_ || _) eqn:El; [done|].
  apply orb_false_iff in El as [Em Ei]. apply negb_false_iff, Nat.eqb_eq in Em, Ei.
  apply bind_ok in Hw as (wk & Ek & Hw). apply bind_ok in Hw as (a & Ea & Hw). apply bind_ok in Hw as (n & En & Hw).
  injection Hw as <- <-. apply Hrand in En.
  unfold unwrapKeys, unwrapEntry. cbn [we_Nonce we_CT we_KDF]. rewrite !b64_decode_encode, Ek.
  cbn [mbind result_bind]. rewrite Ea. cbn [mbind result_bind]. unfold wrapEntryAAD. cbn [we_AAD String.eqb].
  split; by apply open_bundle_seal.
Qed.

(** What is wrapped under a password and a KDF configuration is what the same
    password and configuration unwrap, from the top-level fields and from a wrap
    entry alike. *)
Theorem wrap_unwrap (rand : nat → result bytes) (password : string) (cfg : KDFConfig) (keys : Keys)
    (nonce ct id ty : string) (version : Z) :
  (∀ n b, rand n = Ok b → length b = n) →
  wrapKeys rand password cfg keys = Ok (nonce, ct) →
  unwrapKeys password cfg nonce ct = Ok keys ∧
  unwrapEntry password version (mkWrapEntry id ty cfg nonce ct "") = Ok keys.
Proof. apply wrapped_opens. Qed.

(** ** Unlocking *)

Lemma first_opening_spec secret version ty l k id :
  first_opening secret version ty l = Some (k, id) →
  ∃ l1 e l2, l = l1 ++ e :: l2 ∧ we_Type e = ty ∧ we_ID e = id ∧ unwrapEntry secret version e = Ok k.
Proof.
  induction l as [|e l IH]; cbn [first_opening]; [done|].
  destruct (String.eqb_spec (we_Type e) ty) as [<-|Hne]; cbn [negb].
  - destruct (unwrapEntry secret version e) as [k'|er] eqn:Eu.
    + intros [= -> <-]. by exists [], e, l.
    + intros (l1 & e' & l2 & -> & Hr)%IH. by exists (e :: l1), e', l2.
  - intros (l1 & e' & l2 & -> & Hr)%IH. by exists (e :: l1), e', l2.
Qed.

Lemma first_opening_none secret version ty l :
  first_opening secret version ty l = None →
  ∀ e, e ∈ l → we_Type e = ty → is_ok (unwrapEntry secret version e) = false.
Proof.
  induction l as [|e l IH]; cbn [first_opening]; [intros _ e He; by apply elem_of_nil in He|].
  intros Hn e' Hin Hty. apply elem_of_cons in Hin as [->|Hin].
  - rewrite Hty, String.eqb_refl in Hn. cbn [negb] in Hn. by destruct (unwrapEntry secret version e).
  - destruct (negb _); [by apply IH|]. destruct (unwrapEntry secret version e); [done|by apply IH].
Qed.

(** Unlocking a vault with wrap entries tells nothing but success: the result
    is a key bundle that some entry of the wanted type (or, for a password, the
    top-level wrap) yields, or one and the same error; and it fails only when
    every entry of that type does. *)
Theorem unlock_no_oracle (cfg : VaultConfig) (secret ty : string) :
  WrapEntries cfg ≠ [] →
  match unlockWith cfg secret ty with
  | Ok k =>
      (∃ e, e ∈ WrapEntries cfg ∧ we_Type e = ty ∧ unwrapEntry secret (Version cfg) e = Ok k) ∨
      (ty = WrapTypePassword ∧ unwrapKeys secret (KDF cfg) (WrapNonce cfg) (WrappedKeys cfg) = Ok k)
  | Err e =>
      e = errWrongSecret ∧
      ∀ w, w ∈ WrapEntries cfg → we_Type w = ty → is_ok (unwrapEntry secret (Version cfg) w) = false
  end.
Proof.
  intros Hne. unfold unlockWith. destruct (WrapEntries cfg) as [|e0 es]; [done|].
  destruct (first_opening secret (Version cfg) ty (e0 :: es)) as [[k id]|] eqn:Ef.
  - apply first_opening_spec in Ef as (l1 & e & l2 & -> & Hty & _ & Hu). left. exists e. set_solver.
  - pose proof (first_opening_none _ _ _ _ Ef) as Hn.
    destruct (String.eqb_spec ty WrapTypePassword) as [->|]; cbn [andb]; [|done].
    destruct (negb _); [|done]. destruct (unwrapKeys _ _ _ _) eqn:Eu; [by right|done].
Qed.
End derive.

(** ** Witnesses *)

Definition demo_kdf : KDFConfig := mkKDF "pbkdf2" 2 "c2FsdA==" 0 0 0 0 0 0.
Definition demo_keys : Keys := mkKeys (repeat Byte.x01 32) (repeat Byte.x02 32).
Definition demo_rand (n : nat) : result bytes := Ok (repeat Byte.x07 n).

Lemma demo_rand_length n b : demo_rand n = Ok b → length b = n.
Proof. intros [= <-]. apply repeat_length. Qed.

Definition demo_wrap : result (string * string) :=
  @wrapKeys demo_unicode demo_aead demo_argon2 demo_rand "correct horse" demo_kdf demo_keys.
Definition demo_nonce : string := match demo_wrap with Ok (n, _) => n | Err _ => "" end.
Definition demo_ct : string := match demo_wrap with Ok (_, c) => c | Err _ => "" end.
Lemma demo_wrap_ok : demo_wrap = Ok (demo_nonce, demo_ct).
Proof. vm_compute. reflexivity. Qed.

Lemma deriveWrapKey_safe_witness :
  is_ok (@deriveWrapKey demo_unicode demo_argon2 "pw" demo_kdf) = true ∧
  ∃ n, @NormalizeKDFConfig demo_unicode demo_kdf false = Ok n ∧ @checkKDFRange demo_unicode n = None.
Proof.
  assert (E : is_ok (@deriveWrapKey demo_unicode demo_argon2 "pw" demo_kdf) = true) by (vm_compute; reflexivity).
  split; [exact E|].
  destruct (proj2 (@deriveWrapKey_safe demo_unicode demo_argon2 "pw" demo_kdf) E) as (n & En & Er & _).
  exists n. split; [exact En|exact Er].
Defined.

Lemma raiseToFloor_meets_floor_witness :
  @raiseToFloor demo_unicode true demo_kdf = Ok (mkKDF "PBKDF2-HMAC-SHA256" 600000 "c2FsdA==" 0 0 0 0 0 0) ∧
  ∃ n, @NormalizeKDFConfig demo_unicode demo_kdf true = Ok n.
Proof.
  assert (E : @raiseToFloor demo_unicode true demo_kdf = Ok (mkKDF "PBKDF2-HMAC-SHA256" 600000 "c2FsdA==" 0 0 0 0 0 0))
    by (vm_compute; reflexivity).
  split; [exact E|].
  destruct (@raiseToFloor_meets_floor demo_unicode _ _ E) as (n & En & _). exists n. exact En.
Defined.

Lemma wrap_unwrap_witness :
  demo_wrap = Ok (demo_nonce, demo_ct) ∧
  @unwrapKeys demo_unicode demo_aead demo_argon2 "correct horse" demo_kdf demo_nonce demo_ct = Ok demo_keys.
Proof.
  split; [exact demo_wrap_ok|].
  exact (proj1 (@wrap_unwrap demo_unicode demo_aead demo_argon2 demo_rand "correct horse" demo_kdf demo_keys
    demo_nonce demo_ct "" "" 2 demo_rand_length demo_wrap_ok)).
Defined.

Definition demo_crypto : CryptoConfig :=
  mkCrypto "AES-256-GCM" "AES-256-GCM" "AES-256-GCM" "" "" "" "encrypted-sharded-manifests-v2" 256 0.
Definition demo_config : VaultConfig :=
  mkConfig 2 0 1 "0123456789abcdef0123456789abcdef" "2024-01-01T00:00:00Z" demo_kdf demo_crypto tiny_params "" ""
    [mkWrapEntry "r1" WrapTypeRecovery demo_kdf "" "" ""; mkWrapEntry "p1" WrapTypePassword demo_kdf demo_nonce demo_ct ""] "".

Lemma unlock_no_oracle_witness :
  @unlockWith demo_unicode demo_aead demo_argon2 demo_config "correct horse" WrapTypePassword = Ok demo_keys ∧
  @unlockWith demo_unicode demo_aead demo_argon2 demo_config "wrong" WrapTypePassword = Err errWrongSecret ∧
  ∀ w, w ∈ WrapEntries demo_config → we_Type w = WrapTypePassword →
    is_ok (@unwrapEntry demo_unicode demo_aead demo_argon2 "wrong" (Version demo_config) w) = false.
Proof.
  split; [vm_compute; reflexivity|].
  assert (E : @unlockWith demo_unicode demo_aead demo_argon2 demo_config "wrong" WrapTypePassword = Err errWrongSecret)
    by (vm_compute; reflexivity).
  split; [exact E|].
  pose proof (@unlock_no_oracle demo_unicode demo_aead demo_argon2 demo_config "wrong" WrapTypePassword ltac:(discriminate)) as Ho.
  rewrite E in Ho. exact (proj2 Ho).
Defined.
