(* ===== verification/World.v ===== *)
(** The world the vault runs in: a file system, clock and random readings, system
    calls that can fail, and the vault's own mutable fields, threaded through one
    state-and-error monad.

    A path is its list of segments.  Directories are implicit: a directory exists
    while a file lies below it.  System calls are numbered by [st_tick];
    [env_fault i] makes call [i] fail with an error of its choice, before it has
    any effect.  A crash is a run in which every call fails from some point on:
    nothing reaches the disk after it. *)
From stdpp Require Export stringmap.
From S2P Require Export Crypto Reconcile.
Local Open Scope Z_scope.

Abbreviation fpath := (list string).

(** A file: its bytes and its modification time (ns). *)
Record File : Type := mkFile { f_data : bytes; f_mtime : Z }.
#[global] Instance File_eq_dec : EqDecision File.
Proof. solve_decision. Defined.

Abbreviation files := (@gmap (list string) (@list_eq_dec string strings.String.eq_dec)
  (@list_countable string strings.String.eq_dec strings.String.countable) File).

(** The mutable state: the disk, the number of effects so far, and the fields
    [cached], [maxGen], [lastFP] and [fpKnown] of a [Vault]. *)
Record St : Type := mkSt {
  st_files : files;
  st_tick : nat;
  st_cached : option Index;
  st_maxGen : Z;
  st_lastFP : option Z
}.
Definition set_files (s : St) (fs : files) : St := mkSt fs (st_tick s) (st_cached s) (st_maxGen s) (st_lastFP s).
Definition tick1 (s : St) : St := mkSt (st_files s) (S (st_tick s)) (st_cached s) (st_maxGen s) (st_lastFP s).
Definition set_cached (s : St) (c : option Index) : St := mkSt (st_files s) (st_tick s) c (st_maxGen s) (st_lastFP s).
Definition set_maxGen (s : St) (g : Z) : St := mkSt (st_files s) (st_tick s) (st_cached s) g (st_lastFP s).
Definition set_lastFP (s : St) (f : option Z) : St := mkSt (st_files s) (st_tick s) (st_cached s) (st_maxGen s) f.

(** What the outside decides. *)
Class Env := {
  env_clock : nat → Z;
  env_fault : nat → option err;
  env_rand : nat → nat → bytes;
  env_rand_length i n : length (env_rand i n) = n;
  (** How many bytes a failing write still wrote. *)
  env_partial : nat → nat;
  (** [isRetryableRenameError] of the platform. *)
  env_retryable : err → bool;
  (** The order in which Go ranges over a map. *)
  env_range {A : Type} : nat → gmap string A → list (string * A);
  env_range_perm {A : Type} i (m : gmap string A) : env_range i m ≡ₚ map_to_list m
}.

(** ** The monad *)

Definition M (A : Type) : Type := St → St * result A.
#[global] Instance M_ret : MRet M := fun A a s => (s, Ok a).
#[global] Instance M_bind : MBind M := fun A B f m s =>
  match m s with
  | (s', Ok a) => f a s'
  | (s', Err e) => (s', Err e)
  end.
#[global] Instance M_fmap : FMap M := fun A B f m s =>
  match m s with
  | (s', Ok a) => (s', Ok (f a))
  | (s', Err e) => (s', Err e)
  end.

Definition fail {A} (e : err) : M A := fun s => (s, Err e).
Definition lift {A} (r : result A) : M A := fun s => (s, r).
(** [r, err := m]: the error as a value. *)
Definition try {A} (m : M A) : M (result A) := fun s => let '(s', r) := m s in (s', Ok r).
Definition gets {A} (f : St → A) : M A := fun s => (s, Ok (f s)).
Definition modify (f : St → St) : M unit := fun s => (f s, Ok tt).

Fixpoint mfold {A B} (f : B → A → M B) (b : B) (l : list A) : M B :=
  match l with
  | [] => mret b
  | a :: l => b ← f b a; mfold f b l
  end.

Lemma bind_run {A B} (m : M A) (f : A → M B) s :
  (m ≫= f) s = match m s with (s', Ok a) => f a s' | (s', Err e) => (s', Err e) end.
Proof. done. Qed.

Lemma try_run {A} (m : M A) s : try m s = ((m s).1, Ok (m s).2).
Proof. unfold try. by destruct (m s). Qed.
Lemma M_bind_ok {A B} (m : M A) (f : A → M B) s s' b :
  (m ≫= f) s = (s', Ok b) ↔ ∃ s1 a, m s = (s1, Ok a) ∧ f a s1 = (s', Ok b).
Proof.
  rewrite bind_run. destruct (m s) as [s1 [a|e]]; split; [eauto|..].
  - by intros (? & ? & [= <- <-] & ?).
  - done.
  - by intros (? & ? & [=] & ?).
Qed.

(** ** System calls *)

Definition ErrNotExist : err := ESentinel "os.ErrNotExist".
Definition not_exist (e : err) : bool := errors_is "os.ErrNotExist" e.

Section calls.
Context `{Env}.

(** [time.Now()]. *)
Definition now : M Z := fun s => (tick1 s, Ok (env_clock (st_tick s))).

(** [randomBytes]; the reader of crypto/rand may fail. *)
Definition randomBytes (n : nat) : M bytes := fun s =>
  match env_fault (st_tick s) with
  | Some e => (tick1 s, Err e)
  | None => (tick1 s, Ok (env_rand (st_tick s) n))
  end.

(** [for k, x := range m]. *)
Definition range {A} (m : gmap string A) : M (list (string * A)) := fun s =>
  (tick1 s, Ok (env_range (st_tick s) m)).

Definition syscall {A} (act : files → Z → files * result A) : M A := fun s =>
  match env_fault (st_tick s) with
  | Some e => (tick1 s, Err e)
  | None => let '(fs, r) := act (st_files s) (env_clock (st_tick s)) in (tick1 (set_files s fs), r)
  end.
(** A call that only reads. *)
Definition query {A} (act : files → result A) : M A := syscall (fun fs _ => (fs, act fs)).

Definition below (root p : fpath) : bool := bool_decide (take (length root) p = root).
Definition is_dir (fs : files) (p : fpath) : bool :=
  existsb (fun q => below p q && negb (bool_decide (q = p))) (fst <$> map_to_list fs).

(** [os.Stat], [os.ReadFile]. *)
Definition os_Stat (p : fpath) : M unit := query (fun fs =>
  if bool_decide (is_Some (fs !! p)) || is_dir fs p then Ok tt else Err ErrNotExist).
Definition os_Info (p : fpath) : M File := query (fun fs =>
  match fs !! p with Some f => Ok f | None => Err ErrNotExist end).
Definition os_ReadFile (p : fpath) : M bytes := query (fun fs =>
  match fs !! p with Some f => Ok (f_data f) | None => Err ErrNotExist end).

(** Bytewise order of paths, segment by segment: the order of [filepath.WalkDir]. *)
Fixpoint path_lt (a b : fpath) : bool :=
  match a, b with
  | [], _ :: _ => true
  | _, [] => false
  | x :: a, y :: b => if String.eqb x y then path_lt a b else str_gtb y x
  end.
Definition files_below (fs : files) (root : fpath) : list fpath :=
  go_sort path_lt (List.filter (fun p => below root p && negb (bool_decide (p = root))) (fst <$> map_to_list fs)).

(** The files [filepath.WalkDir] visits below [root]; a missing root is reported
    to the callback as [ErrNotExist]. *)
Definition os_Walk (root : fpath) : M (list fpath) := query (fun fs =>
  if is_dir fs root then Ok (files_below fs root) else Err ErrNotExist).

(** [os.ReadDir], files only: the names directly in [dir], sorted. *)
Definition os_ReadDir (dir : fpath) : M (list string) := query (fun fs =>
  if is_dir fs dir then
    Ok (sort_strings (omap (fun p => match drop (length dir) p with [n] => Some n | _ => None end)
          (List.filter (below dir) (fst <$> map_to_list fs))))
  else Err ErrNotExist).

(** [os.MkdirAll]: directories are implicit. *)
Definition os_MkdirAll (_ : fpath) : M unit := query (fun _ => Ok tt).

Definition os_Remove (p : fpath) : M unit := syscall (fun fs _ =>
  match fs !! p with Some _ => (delete p fs, Ok tt) | None => (fs, Err ErrNotExist) end).
Definition os_Rename (old new : fpath) : M unit := syscall (fun fs _ =>
  match fs !! old with
  | Some f => (<[new := f]> (delete old fs), Ok tt)
  | None => (fs, Err ErrNotExist)
  end).
Definition os_Chtimes (p : fpath) (t : Z) : M unit := syscall (fun fs _ =>
  match fs !! p with
  | Some f => (<[p := mkFile (f_data f) t]> fs, Ok tt)
  | None => (fs, Err ErrNotExist)
  end).

(** [os.CreateTemp(dir, pre+"*")]: a fresh name in [dir], an empty file. *)
Definition names_in (fs : files) (dir : fpath) : gset string :=
  list_to_set (omap (fun p => match drop (length dir) p with n :: _ => Some n | _ => None end)
    (List.filter (below dir) (fst <$> map_to_list fs))).
Definition os_CreateTemp (dir : fpath) (pre : string) : M fpath := syscall (fun fs t =>
  let p := dir ++ [fresh_string_of_set pre (names_in fs dir)] in
  (<[p := mkFile [] t]> fs, Ok p)).
(** A write to an open file; the handle follows its file, here by name.  A failing
    write may have written a part. *)
Definition append_file (fs : files) (p : fpath) (data : bytes) (t : Z) : files :=
  match fs !! p with
  | Some f => <[p := mkFile (f_data f ++ data) t]> fs
  | None => fs
  end.
Definition os_Write (p : fpath) (data : bytes) : M unit := fun s =>
  let t := env_clock (st_tick s) in
  match env_fault (st_tick s) with
  | Some e => (tick1 (set_files s (append_file (st_files s) p (take (env_partial (st_tick s)) data) t)), Err e)
  | None => (tick1 (set_files s (append_file (st_files s) p data t)), Ok tt)
  end.
(** [Chmod], [Sync], [Close], [fsyncDir]: no effect the model tracks but failure. *)
Definition os_Quiet : M unit := query (fun _ => Ok tt).
End calls.

Definition dir_of (p : fpath) : fpath := removelast p.
Definition base_of (p : fpath) : string := List.last p "".

Lemma fresh_string_prefix {A} (m : stringmap A) s : has_prefix (fresh_string s m) s = true.
Proof.
  unfold fresh_string. destruct (m !! s) as [a|] eqn:Hs.
  2:{ rewrite <- (str_app_nil s) at 1. apply has_prefix_app. }
  clear a Hs. generalize 0%N (wf_guard 32 (fresh_string_R_wf s m) 0%N). revert m.
  fix FIX 3. intros m n [?]; simpl; unfold fresh_string_go at 1; simpl.
  destruct (Some_dec (m !! _)) as [[??]|?]; [apply FIX|apply has_prefix_app].
Qed.

Lemma fresh_of_set_prefix s X : has_prefix (fresh_string_of_set s X) s = true.
Proof. apply fresh_string_prefix. Qed.
