(* ===== verification/WorldFacts.v ===== *)
(** Reasoning about runs: what a computation preserves on disk whatever calls
    fail, and how system calls run when none fails. *)
From S2P Require Export World.
Local Open Scope Z_scope.

(** [m] keeps [I] of the disk, whether it returns or fails. *)
Definition preserves {A : Type} (I : files → Prop) (m : M A) : Prop :=
  ∀ s, I (st_files s) → I (st_files (m s).1).

(** The disk is as [fs0] on the files [P] holds of. *)
Definition agrees (P : fpath → Prop) (fs0 fs : files) : Prop := ∀ q, P q → fs !! q = fs0 !! q.

Lemma agrees_refl P fs : agrees P fs fs.
Proof. by intros q _. Qed.
Lemma agrees_weaken (P Q : fpath → Prop) fs0 fs : (∀ q, P q → Q q) → agrees Q fs0 fs → agrees P fs0 fs.
Proof. intros HPQ Ha q Hq. by apply Ha, HPQ. Qed.
Lemma agrees_all fs0 fs : agrees (fun _ => True) fs0 fs → fs = fs0.
Proof. intros Ha. apply map_eq. intros q. by apply Ha. Qed.

Create HintDb keep.

Section preserves.
Context {A B : Type} (I : files → Prop).

Lemma preserves_ret (a : A) : preserves I (mret a).
Proof. by intros s Hs. Qed.
Lemma preserves_fail (e : err) : preserves I (fail (A:=A) e).
Proof. by intros s Hs. Qed.
Lemma preserves_lift (r : result A) : preserves I (lift r).
Proof. by intros s Hs. Qed.
Lemma preserves_gets (f : St → A) : preserves I (gets f).
Proof. by intros s Hs. Qed.
Lemma preserves_bind (m : M A) (f : A → M B) :
  preserves I m → (∀ a, preserves I (f a)) → preserves I (m ≫= f).
Proof.
  intros Hm Hf s Hs. rewrite bind_run. specialize (Hm s Hs). destruct (m s) as [s' [a|e]]; [by apply Hf|done].
Qed.
Lemma preserves_fmap (m : M A) (f : A → B) : preserves I m → preserves I (f <$> m).
Proof. intros Hm s Hs. specialize (Hm s Hs). unfold fmap, M_fmap. by destruct (m s) as [s' [a|e]]. Qed.
Lemma preserves_try (m : M A) : preserves I m → preserves I (try m).
Proof. intros Hm s Hs. specialize (Hm s Hs). unfold try. by destruct (m s). Qed.
Lemma preserves_modify f : (∀ s, st_files (f s) = st_files s) → preserves I (modify f).
Proof. intros Hf s Hs. cbn. by rewrite Hf. Qed.
Lemma preserves_mfold (f : B → A → M B) l : (∀ b a, preserves I (f b a)) → ∀ b, preserves I (mfold f b l).
Proof.
  intros Hf. induction l as [|a l IH]; intros b; cbn; [by intros s Hs|].
  intros s Hs. rewrite bind_run. pose proof (Hf b a s Hs) as Hb. destruct (f b a s) as [s' [b'|e]]; [by apply IH|done].
Qed.
End preserves.

Section syscalls.
Context `{Env}.

Lemma preserves_now (I : files → Prop) : preserves I now.
Proof. by intros s Hs. Qed.
Lemma preserves_random (I : files → Prop) n : preserves I (randomBytes n).
Proof. intros s Hs. unfold randomBytes. by destruct (env_fault _). Qed.
Lemma preserves_range {A : Type} (I : files → Prop) (m : gmap string A) : preserves I (range m).
Proof. by intros s Hs. Qed.
Lemma preserves_query {A : Type} (I : files → Prop) (act : files → result A) : preserves I (query act).
Proof. intros s Hs. unfold query, syscall. by destruct (env_fault _). Qed.
Lemma preserves_syscall {A : Type} (I : files → Prop) (act : files → Z → files * result A) :
  (∀ fs t, I fs → I (act fs t).1) → preserves I (syscall act).
Proof.
  intros Ha s Hs. unfold syscall. destruct (env_fault _); [done|].
  specialize (Ha (st_files s) (env_clock (st_tick s)) Hs). by destruct (act _ _).
Qed.
End syscalls.

#[export] Hint Resolve preserves_ret preserves_fail preserves_lift preserves_gets preserves_now preserves_random preserves_range
  preserves_query preserves_try preserves_mfold preserves_fmap : keep.
#[export] Hint Extern 1 (preserves _ (_ ≫= _)) => apply preserves_bind; [|intros] : keep.
#[export] Hint Extern 1 (preserves _ (modify _)) => apply preserves_modify; intros; repeat case_match; reflexivity : keep.
#[export] Hint Extern 2 (preserves _ (match ?x with _ => _ end)) => destruct x : keep.
#[export] Hint Extern 1 (preserves _ (let '_ := ?x in _)) => destruct x : keep.

Ltac keep := intros; repeat (autounfold with keep); auto 20 with keep.

(** ** Triples

    [triple P m Q E]: from a disk in [P], [m] either returns [a] with the disk in
    [Q a] or fails with the disk in [E], whatever calls fail. *)
Definition triple {A : Type} (P : files → Prop) (m : M A) (Q : A → files → Prop) (E : files → Prop) : Prop :=
  ∀ s, P (st_files s) → let '(s', r) := m s in
    match r with Ok a => Q a (st_files s') | Err _ => E (st_files s') end.

Lemma triple_bind {A B : Type} (P : files → Prop) (m : M A) (R : A → files → Prop) (f : A → M B) Q E :
  triple P m R E → (∀ a, triple (R a) (f a) Q E) → triple P (m ≫= f) Q E.
Proof.
  intros Hm Hf s Hs. rewrite bind_run. specialize (Hm s Hs). destruct (m s) as [s' [a|e]]; [by apply Hf|done].
Qed.

Lemma triple_conseq {A : Type} (P P' : files → Prop) (m : M A) (Q Q' : A → files → Prop) (E E' : files → Prop) :
  triple P' m Q' E' → (∀ fs, P fs → P' fs) → (∀ a fs, Q' a fs → Q a fs) → (∀ fs, E' fs → E fs) → triple P m Q E.
Proof.
  intros Hm HP HQ HE s Hs. specialize (Hm s (HP _ Hs)). destruct (m s) as [s' [a|e]]; auto.
Qed.

Lemma triple_preserves {A : Type} (I : files → Prop) (m : M A) : triple I m (fun _ => I) I ↔ preserves I m.
Proof.
  split; intros Hm s Hs; specialize (Hm s Hs); destruct (m s) as [s' [a|e]]; done.
Qed.

Lemma triple_from {A : Type} (P : files → Prop) (m : M A) Q E :
  (∀ fs, P fs → triple (eq fs) m Q E) → triple P m Q E.
Proof. intros Hm s Hs. by apply (Hm (st_files s) Hs). Qed.

Lemma triple_assume {A : Type} (P : files → Prop) (C : Prop) (m : M A) Q E :
  (C → triple P m Q E) → triple (fun fs => P fs ∧ C) m Q E.
Proof. intros Hm s [Hs HC]. by apply Hm. Qed.

Lemma triple_ret {A : Type} (P : files → Prop) (a : A) (Q : A → files → Prop) E :
  (∀ fs, P fs → Q a fs) → triple P (mret a) Q E.
Proof. intros HQ s Hs. by apply HQ. Qed.

Lemma triple_fail {A : Type} (P : files → Prop) (e : err) (Q : A → files → Prop) (E : files → Prop) :
  (∀ fs, P fs → E fs) → triple P (fail e) Q E.
Proof. intros HE s Hs. by apply HE. Qed.

Lemma triple_try {A : Type} (P : files → Prop) (m : M A) (Q : A → files → Prop) (E E' : files → Prop) :
  triple P m Q E → triple P (try m) (fun r fs => match r with Ok a => Q a fs | Err _ => E fs end) E'.
Proof. intros Hm s Hs. specialize (Hm s Hs). unfold try. by destruct (m s) as [s' [a|e]]. Qed.

Lemma triple_mfold {A B : Type} (R : B → files → Prop) (E : files → Prop) (f : B → A → M B) l :
  (∀ b a, a ∈ l → triple (R b) (f b a) R E) → ∀ b, triple (R b) (mfold f b l) R E.
Proof.
  induction l as [|a l IH]; intros Hf b; cbn [mfold]; [by apply triple_ret|].
  apply (triple_bind _ _ R); [apply Hf; by left|]. intros b'. apply IH. intros b2 a2 Ha. apply Hf. by right.
Qed.

(** A computation that keeps [I] also returns what its runs return. *)
Lemma triple_keep {A : Type} (P I : files → Prop) (m : M A) :
  preserves I m → (∀ fs, P fs → I fs) → triple P m (fun _ => I) I.
Proof. intros Hm HP s Hs. specialize (Hm s (HP _ Hs)). by destruct (m s) as [s' [a|e]]. Qed.

Lemma triple_query `{Env} {A : Type} (fs0 : files) (act : files → result A) (Q : A → files → Prop) :
  (∀ a, act fs0 = Ok a → Q a fs0) → triple (eq fs0) (query act) Q (eq fs0).
Proof.
  intros HQ s Hs. subst fs0. unfold query, syscall. destruct (env_fault _); [done|].
  destruct (act (st_files s)) as [a|e] eqn:Ea; [by apply HQ|done].
Qed.

Lemma triple_syscall `{Env} {A : Type} (P : files → Prop) (act : files → Z → files * result A) Q (E : files → Prop) :
  (∀ fs, P fs → E fs) →
  (∀ fs t, P fs → match act fs t with (fs', Ok a) => Q a fs' | (fs', Err _) => E fs' end) →
  triple P (syscall act) Q E.
Proof.
  intros HE Ha s Hs. unfold syscall. destruct (env_fault _); [by apply HE|].
  specialize (Ha (st_files s) (env_clock (st_tick s)) Hs). destruct (act _ _) as [fs' [a|e]]; done.
Qed.

Lemma triple_now `{Env} {A : Type} P (f : Z → M A) Q E :
  (∀ k, triple P (f (env_clock k)) Q E) → triple P (now ≫= f) Q E.
Proof. intros Hf s Hs. rewrite bind_run. cbn [now]. by apply (Hf (st_tick s) (tick1 s)). Qed.

Lemma triple_range `{Env} {A B : Type} P (m : gmap string B) (f : list (string * B) → M A) Q E :
  (∀ l, l ≡ₚ map_to_list m → triple P (f l) Q E) → triple P (range m ≫= f) Q E.
Proof.
  intros Hf s Hs. rewrite bind_run. cbn [range]. by apply (Hf _ (env_range_perm (st_tick s) m) (tick1 s)).
Qed.

(** ** The cached index *)

(** A computation that leaves the cached index alone. *)
Definition keeps_cache {A : Type} (m : M A) : Prop := ∀ s, st_cached (m s).1 = st_cached s.

Create HintDb cache.

Section cached.
Context {A B : Type}.
Lemma keeps_ret (a : A) : keeps_cache (mret a).
Proof. by intros s. Qed.
Lemma keeps_fail (e : err) : keeps_cache (fail (A:=A) e).
Proof. by intros s. Qed.
Lemma keeps_lift (r : result A) : keeps_cache (lift r).
Proof. by intros s. Qed.
Lemma keeps_bind (m : M A) (f : A → M B) : keeps_cache m → (∀ a, keeps_cache (f a)) → keeps_cache (m ≫= f).
Proof.
  intros Hm Hf s. rewrite bind_run. specialize (Hm s). destruct (m s) as [s1 [a|e]]; [by rewrite Hf|done].
Qed.
Lemma keeps_try (m : M A) : keeps_cache m → keeps_cache (try m).
Proof. intros Hm s. specialize (Hm s). unfold try. by destruct (m s). Qed.
Lemma keeps_mfold (f : B → A → M B) l : (∀ b a, keeps_cache (f b a)) → ∀ b, keeps_cache (mfold f b l).
Proof.
  intros Hf. induction l as [|a l IH]; intros b; cbn [mfold]; [by intros s|].
  intros s. rewrite bind_run. pose proof (Hf b a s) as H1. destruct (f b a s) as [s1 [b1|e]]; [by rewrite IH|done].
Qed.
End cached.

Section cached_calls.
Context `{Env}.
Lemma keeps_now : keeps_cache now.
Proof. by intros s. Qed.
Lemma keeps_random n : keeps_cache (randomBytes n).
Proof. intros s. unfold randomBytes. by destruct (env_fault _). Qed.
Lemma keeps_range {A : Type} (m : gmap string A) : keeps_cache (range m).
Proof. by intros s. Qed.
Lemma keeps_syscall {A : Type} (act : files → Z → files * result A) : keeps_cache (syscall act).
Proof. intros s. unfold syscall. destruct (env_fault _); [done|]. by destruct (act _ _). Qed.
Lemma keeps_query {A : Type} (act : files → result A) : keeps_cache (query act).
Proof. apply keeps_syscall. Qed.
Lemma keeps_write p d : keeps_cache (os_Write p d).
Proof. intros s. unfold os_Write. by destruct (env_fault _). Qed.
End cached_calls.

#[export] Hint Resolve keeps_ret keeps_fail keeps_lift keeps_try keeps_mfold keeps_now keeps_random keeps_range
  keeps_syscall keeps_query keeps_write : cache.
#[export] Hint Extern 1 (keeps_cache (_ ≫= _)) => apply keeps_bind; [|intros] : cache.
#[export] Hint Extern 2 (keeps_cache (match ?x with _ => _ end)) => destruct x : cache.
Ltac kept_cache := intros; auto 20 with cache.

(** ** Runs without failures *)

Lemma query_quiet `{Env} {A : Type} (act : files → result A) s :
  env_fault (st_tick s) = None → query act s = (tick1 s, act (st_files s)).
Proof. intros Hq. unfold query, syscall. rewrite Hq. by destruct s. Qed.

(** What a call that only reads may answer. *)
Lemma query_ok `{Env} {A} (act : files → result A) s s' a : query act s = (s', Ok a) → st_files s' = st_files s ∧ act (st_files s) = Ok a.
Proof. unfold query, syscall. destruct (env_fault _); [done|]. by intros [= <- ?]. Qed.
Lemma query_run `{Env} {A} (act : files → result A) s : ∃ r, query act s = (tick1 s, r) ∧ (r = act (st_files s) ∨ ∃ e, env_fault (st_tick s) = Some e ∧ r = Err e).
Proof.
  unfold query, syscall. destruct (env_fault (st_tick s)) as [e|]; [eexists; split; [reflexivity|]; eauto|].
  exists (act (st_files s)). split; [by destruct s|by left].
Qed.

(** ** What calls elsewhere do not touch *)

Section untouched.
Context `{Env} (P : fpath → Prop) (fs0 : files).
Abbreviation I := (agrees P fs0).

Lemma agrees_insert q f fs : ¬ P q → I fs → I (<[q := f]> fs).
Proof. intros Hq Hfs x Hx. rewrite lookup_insert_ne by (by intros ->). by apply Hfs. Qed.
Lemma agrees_delete q fs : ¬ P q → I fs → I (delete q fs).
Proof. intros Hq Hfs x Hx. rewrite lookup_delete_ne by (by intros ->). by apply Hfs. Qed.
Lemma Write_agrees q x : ¬ P q → preserves I (os_Write q x).
Proof.
  intros Hq s Hs. unfold os_Write, append_file.
  destruct (env_fault _); cbn; destruct (st_files s !! q); try done; by apply agrees_insert.
Qed.
Lemma Remove_agrees q : ¬ P q → preserves I (os_Remove q).
Proof. intros Hq. apply preserves_syscall. intros fs t Hs. destruct (fs !! q); [by apply agrees_delete|done]. Qed.
Lemma Rename_agrees q q' : ¬ P q → ¬ P q' → preserves I (os_Rename q q').
Proof. intros Hq Hq'. apply preserves_syscall. intros fs t Hs. destruct (fs !! q); [by apply agrees_insert, agrees_delete|done]. Qed.
Lemma Chtimes_agrees q t : ¬ P q → preserves I (os_Chtimes q t).
Proof. intros Hq. apply preserves_syscall. intros fs t' Hs. destruct (fs !! q); [by apply agrees_insert|done]. Qed.
Lemma temp_agrees {A : Type} dir pre (f : fpath → M A) :
  (∀ name, ¬ P (dir ++ [name])) → (∀ name, preserves I (f (dir ++ [name]))) → preserves I (tmp ← os_CreateTemp dir pre; f tmp).
Proof.
  intros Hd Hf s Hs. rewrite bind_run. unfold os_CreateTemp, syscall. destruct (env_fault (st_tick s)); [done|].
  cbn [st_files]. apply Hf. cbn. by apply agrees_insert.
Qed.
End untouched.

#[export] Hint Resolve Write_agrees Remove_agrees Rename_agrees Chtimes_agrees : keep.

(** A target below the destination is not below a directory apart from it. *)
Lemma apart root dest l : below root dest = false → below dest root = false → below root (dest ++ l) = false.
Proof.
  unfold below. rewrite !bool_decide_eq_false. intros Ha Hb E.
  destruct (decide (length root ≤ length dest)%nat) as [Hle|Hgt].
  - rewrite take_app_le in E by done. done.
  - apply Hb. rewrite <- E at 1. rewrite take_take, Nat.min_l by lia. by rewrite take_app_length.
Qed.
