(* ===== verification/Store.v ===== *)
(** The object store: durable writes, retries, and the content-addressed chunk
    files (internal/vault/rename.go and the storage half of
    internal/vault/vault.go). *)
From S2P Require Export World.
Local Open Scope Z_scope.

Definition renameAttempts : nat := 10.
Definition renameBackoffStart : Z := 25000000.
Definition renameBackoffCap : Z := 400000000.

(** internal/vault/vault.go:182-223 [Vault]; the fields that do not change once the
    vault is open.  The mutable ones are in [St]. *)
Record Vault : Type := mkVault {
  v_Root : string;
  v_MetaRoot : fpath;
  v_Config : VaultConfig;
  v_keys : Keys;
  v_chunkAEAD : bytes;
  v_indexAEAD : bytes;
  v_deviceID : string
}.

(** What [legacyVaultID] marshals. *)
Record LegacyID : Type := mkLegacyID { lid_Root : string; lid_Salt : string }.

Section retry.
Context `{Env}.

(** The retry loop [renameWithRetry] and [removeWithRetry] share: [fn] the call,
    [done_] the errors that count as success; sleeping between attempts is not
    modelled.  [n] is the number of attempts left. *)
Fixpoint with_retry (fn : M unit) (done_ : err → bool) (n : nat) : M unit :=
  match n with
  | O => mret tt
  | S n' =>
      r ← try fn;
      match r with
      | Ok _ => mret tt
      | Err e =>
          if done_ e then mret tt
          else if negb (env_retryable e) then fail e
          else match n' with
               | O => fail e
               | _ => with_retry fn done_ n'
               end
      end
  end.

(** internal/vault/rename.go:40-59 [renameWithRetry] *)
Definition renameWithRetry (oldpath newpath : fpath) : M unit :=
  with_retry (os_Rename oldpath newpath) (fun _ => false) renameAttempts.

(** internal/vault/rename.go:67-86 [removeWithRetry] *)
Definition removeWithRetry (p : fpath) : M unit :=
  with_retry (os_Remove p) not_exist renameAttempts.

(** What the deferred function of [atomicWriteFile] does when the write failed:
    close and remove the temporary file, errors dropped. *)
Definition discard_temp (tmp : fpath) {A} (e : err) : M A :=
  _ ← try os_Quiet; _ ← try (os_Remove tmp); fail e.

(** [m], with the temporary file discarded when it fails. *)
Definition guarded (tmp : fpath) (m : M unit) : M unit :=
  r ← try m; match r with Ok _ => mret tt | Err e => discard_temp tmp e end.

(** internal/vault/vault.go:1493-1534 [atomicWriteFile]; the steps after the
    temporary file exists, each of which can fail, then the rename; the directory
    sync is best effort. *)
Definition atomicWriteFile (p : fpath) (data : bytes) : M unit :=
  _ ← os_MkdirAll (dir_of p);
  tmp ← os_CreateTemp (dir_of p) ".tmp-";
  _ ← guarded tmp (os_Write tmp data);
  _ ← guarded tmp os_Quiet;
  _ ← guarded tmp os_Quiet;
  _ ← guarded tmp os_Quiet;
  _ ← guarded tmp (renameWithRetry tmp p);
  _ ← try os_Quiet;
  mret tt.
End retry.

(** internal/vault/vault.go:1447-1452 [chunkIDFromFileName] *)
Definition chunkIDFromFileName `{GoUnicode} (name : string) : string :=
  if (64 <=? String.length name)%nat && isHex (str_take 64 name) then to_lower (str_take 64 name) else "".

Section store.
Context `{GoUnicode} `{AEAD} `{Env} (v : Vault).

Definition id_prefix (id : string) : string :=
  if (2 <? String.length id)%nat then str_take 2 id else id.

(** internal/vault/vault.go:1485-1491 [chunkPath] *)
Definition chunkPath (id : string) : fpath :=
  v_MetaRoot v ++ ["objects"; "chunks"; id_prefix id; id +:+ ".chunk"].

(** internal/vault/vault.go:947-978 [storeChunk] *)
Definition storeChunk (plaintext : bytes) : M (ChunkRef * bool) :=
  let id := hmacHex (IndexKey (v_keys v)) plaintext in
  let ref := MkChunkRef id (Z.of_nat (length plaintext)) in
  let objectPath := chunkPath id in
  r ← try (os_Stat objectPath);
  match r with
  | Ok _ =>
      t ← now;
      _ ← try (os_Chtimes objectPath t);
      mret (ref, false)
  | Err e =>
      if negb (not_exist e) then fail e
      else
        _ ← os_MkdirAll (dir_of objectPath);
        nonce ← randomBytes nonce_size;
        let aad := bytes_of (chunkAADPrefix +:+ id) in
        let ct := aead_seal (v_chunkAEAD v) nonce plaintext aad in
        _ ← atomicWriteFile objectPath (encodeEncrypted chunkMagic nonce ct);
        mret (ref, true)
  end.

(** internal/vault/vault.go:1152-1169 [decodeChunk] *)
Definition decodeChunk (data : bytes) (ref : ChunkRef) : result bytes :=
  '(nonce, ct) ← decodeEncrypted chunkMagic nonce_size data;
  match aead_open (v_chunkAEAD v) nonce ct (bytes_of (chunkAADPrefix +:+ ref_ID ref)) with
  | None => Err (ENew "chunk %s decrypt/authenticate failed")
  | Some pt =>
      if negb (Z.of_nat (length pt) =? ref_Size ref) then Err (ENew "chunk %s size mismatch")
      else
        let actual := hmacHex (IndexKey (v_keys v)) pt in
        if negb (constantTimeStringEqual actual (ref_ID ref)) then Err (ENew "chunk %s object ID mismatch")
        else Ok pt
  end.

(** The loop of [tryConflictChunks] over the entries of the shard directory. *)
Fixpoint try_copies (dir : fpath) (ref : ChunkRef) (names : list string) : M (option bytes) :=
  match names with
  | [] => mret None
  | name :: names =>
      if String.eqb name (base_of (chunkPath (ref_ID ref))) || negb (has_prefix name (ref_ID ref)) ||
         negb (has_suffix (to_lower name) ".chunk")
      then try_copies dir ref names
      else
        r ← try (os_ReadFile (dir ++ [name]));
        match r with
        | Err _ => try_copies dir ref names
        | Ok data => match decodeChunk data ref with
                     | Ok pt => mret (Some pt)
                     | Err _ => try_copies dir ref names
                     end
        end
  end.

(** internal/vault/vault.go:1176-1201 [tryConflictChunks] *)
Definition tryConflictChunks (ref : ChunkRef) : M (option bytes) :=
  let dir := dir_of (chunkPath (ref_ID ref)) in
  r ← try (os_ReadDir dir);
  match r with
  | Err _ => mret None
  | Ok names => try_copies dir ref names
  end.

(** internal/vault/vault.go:1123-1150 [loadChunk] *)
Definition loadChunk (ref : ChunkRef) : M bytes :=
  r ← try (os_ReadFile (chunkPath (ref_ID ref)));
  match r with
  | Ok data =>
      match decodeChunk data ref with
      | Ok pt => mret pt
      | Err dErr =>
          c ← tryConflictChunks ref;
          match c with Some pt => mret pt | None => fail dErr end
      end
  | Err e =>
      if negb (not_exist e) then fail e
      else
        c ← tryConflictChunks ref;
        match c with
        | Some pt => mret pt
        | None => fail (EWrap "chunk %s not present (missing object, or not yet synced): " ErrNotExist)
        end
  end.
End store.
