(* ===== verification/StoreFacts.v ===== *)
(** Properties of the object store: atomic replacement under any failure, and the
    integrity of what is loaded. *)
From S2P Require Export Store WorldFacts CryptoFacts.
Local Open Scope Z_scope.

Section atomic.
Context `{Env} (p : fpath) (data : bytes) (fs0 : files) (tmp : fpath).
Hypothesis tmp_new : fs0 !! tmp = None.
Hypothesis tmp_other : tmp ≠ p.

(** The disk once the replacement of [p] is over or abandoned: nothing but [p] and
    the temporary file differs from [fs0], and [p] is as before or complete. *)
Definition replacing (fs : files) : Prop :=
  (∀ q, q ≠ p → q ≠ tmp → fs !! q = fs0 !! q) ∧
  (fs !! p = fs0 !! p ∨ ∃ t, fs !! p = Some (mkFile data t)).
Definition replaced (fs : files) : Prop :=
  (∀ q, q ≠ p → fs !! q = fs0 !! q) ∧ ∃ t, fs !! p = Some (mkFile data t).

(** Before the rename: only the temporary file is new, with contents [d]. *)
Definition staged (d : bytes) (fs : files) : Prop :=
  (∀ q, q ≠ tmp → fs !! q = fs0 !! q) ∧ ∃ t, fs !! tmp = Some (mkFile d t).
(** ... with any contents, or gone. *)
Definition staging (fs : files) : Prop := ∀ q, q ≠ tmp → fs !! q = fs0 !! q.

Lemma staged_staging d fs : staged d fs → staging fs.
Proof. by intros [Hq _]. Qed.
Lemma staging_replacing fs : staging fs → replacing fs.
Proof. intros Hq. split; [auto|left; auto]. Qed.
Lemma replaced_replacing fs : replaced fs → replacing fs.
Proof. intros [Hq Ht]. split; [auto|by right]. Qed.

Lemma triple_discard {A : Type} (e : err) (Q : A → files → Prop) : triple staging (discard_temp (A:=A) tmp e) Q staging.
Proof.
  apply (triple_bind _ _ (fun _ => staging)).
  { eapply triple_conseq; [apply triple_preserves, preserves_try, preserves_query|done..]. }
  intros _. apply (triple_bind _ _ (fun _ => staging)); [|intros _; by apply triple_fail].
  eapply triple_conseq; [apply (triple_try staging _ (fun _ => staging) staging staging)|done| |done].
  - apply triple_syscall; [done|]. intros fs t Hs. destruct (fs !! tmp); [|done].
    intros q Hq. rewrite lookup_delete_ne by done. by apply Hs.
  - by intros [?|?] fs.
Qed.

Lemma triple_guarded (P : files → Prop) (m : M unit) (Q : files → Prop) :
  (∀ fs, P fs → staging fs) → triple P m (fun _ => Q) staging → triple P (guarded tmp m) (fun _ => Q) staging.
Proof.
  intros HP Hm. apply (triple_bind _ _ _ _ _ _ (triple_try _ _ _ _ staging Hm)).
  intros [u|e]; [by apply triple_ret|]. apply triple_discard.
Qed.

Lemma triple_append d x : triple (staged d) (os_Write tmp x) (fun _ => staged (d ++ x)) staging.
Proof.
  intros s [Hq [t Ht]]. unfold os_Write, append_file. rewrite Ht.
  destruct (env_fault _); cbn.
  - intros q Hne. rewrite lookup_insert_ne by done. auto.
  - split; [intros q Hne; rewrite lookup_insert_ne by done; auto|]. rewrite lookup_insert_eq. eauto.
Qed.
Lemma triple_write : triple (staged []) (os_Write tmp data) (fun _ => staged data) staging.
Proof. apply (triple_append []). Qed.
Lemma triple_staged_quiet d : triple (staged d) os_Quiet (fun _ => staged d) staging.
Proof. eapply triple_conseq; [apply triple_preserves, preserves_query|done|done|apply staged_staging]. Qed.

Lemma triple_rename n : triple (staged data) (with_retry (os_Rename tmp p) (fun _ => false) (S n)) (fun _ => replaced) staging.
Proof.
  induction n as [|n IH]; cbn [with_retry];
    (apply (triple_bind _ _ (fun r fs => match r with Ok _ => replaced fs | Err _ => staged data fs end));
     [apply triple_try, triple_syscall; [done|]; intros fs t [Hq [t' Ht]]; rewrite Ht; split|]).
  1,4: intros q Hne; destruct (decide (q = tmp)) as [->|Hqt];
    [by rewrite lookup_insert_ne, lookup_delete_eq|by rewrite lookup_insert_ne, lookup_delete_ne, Hq].
  1,3: rewrite lookup_insert_eq; eauto.
  all: intros [u|e]; [by apply triple_ret|]; destruct (negb _);
    [apply triple_fail; apply staged_staging|].
  - apply triple_fail. apply staged_staging.
  - exact IH.
Qed.

Lemma triple_after_temp :
  triple (staged [])
    (_ ← guarded tmp (os_Write tmp data);
     _ ← guarded tmp os_Quiet; _ ← guarded tmp os_Quiet; _ ← guarded tmp os_Quiet;
     _ ← guarded tmp (renameWithRetry tmp p); _ ← try os_Quiet; mret tt)
    (fun _ => replaced) staging.
Proof.
  assert (Hquiet : ∀ d, triple (staged d) (guarded tmp os_Quiet) (fun _ => staged d) staging).
  { intros d. apply triple_guarded; [apply staged_staging|].
    apply triple_staged_quiet. }
  apply (triple_bind _ _ (fun _ => staged data)); [apply triple_guarded; [apply staged_staging|apply triple_write]|intros _].
  do 3 (apply (triple_bind _ _ (fun _ => staged data)); [apply Hquiet|intros _]).
  apply (triple_bind _ _ (fun _ => replaced)); [apply triple_guarded; [apply staged_staging|apply triple_rename]|intros _].
  apply (triple_bind _ _ (fun _ => replaced)); [|intros _; by apply triple_ret].
  intros s Hs. unfold try, os_Quiet. pose proof (preserves_query replaced (fun _ => Ok tt) s Hs) as Hk.
  by destruct (query _ s) as [s' [?|?]].
Qed.
End atomic.

Section atomic_write.
Context `{Env}.

Lemma names_in_spec (fs : files) dir x : is_Some (fs !! (dir ++ [x])) → x ∈ names_in fs dir.
Proof.
  intros [f Hf]. unfold names_in. apply elem_of_list_to_set, list_elem_of_omap.
  exists (dir ++ [x]). split; [|by rewrite drop_app_length].
  rewrite list_elem_of_In, filter_In. split.
  - apply list_elem_of_In, list_elem_of_fmap. exists (dir ++ [x], f). split; [done|]. by apply elem_of_map_to_list.
  - unfold below. rewrite take_app_length. by apply bool_decide_eq_true.
Qed.

Lemma fresh_temp (fs : files) dir pre : fs !! (dir ++ [fresh_string_of_set pre (names_in fs dir)]) = None.
Proof.
  apply eq_None_not_Some. intros Hs. apply names_in_spec in Hs.
  by apply fresh_string_of_set_fresh in Hs.
Qed.

(** A computation on a temporary file starts with a new, empty one. *)
Lemma triple_temp {A : Type} (fs0 : files) dir pre (f : fpath → M A) (Q : A → files → Prop) (E : files → Prop) : E fs0 →
  (∀ name, has_prefix name pre = true → fs0 !! (dir ++ [name]) = None →
     triple (staged fs0 (dir ++ [name]) []) (f (dir ++ [name])) Q E) →
  triple (eq fs0) (tmp ← os_CreateTemp dir pre; f tmp) Q E.
Proof.
  intros HE Hf s ->. rewrite bind_run. unfold os_CreateTemp, syscall. destruct (env_fault (st_tick s)); [done|].
  cbn [st_files]. apply (Hf (fresh_string_of_set pre (names_in (st_files s) dir))); [apply fresh_of_set_prefix|apply fresh_temp|].
  cbn. split; [intros q Hq; by rewrite lookup_insert_ne|]. rewrite lookup_insert_eq. eauto.
Qed.
Lemma dir_base p : p ≠ [] → p = dir_of p ++ [base_of p].
Proof. intros Hp. by apply app_removelast_last. Qed.

Lemma atomicWriteFile_run (p : fpath) (data : bytes) (s s' : St) (r : result unit) :
  p ≠ [] → has_prefix (base_of p) ".tmp-" = false → atomicWriteFile p data s = (s', r) →
  ∃ name, has_prefix name ".tmp-" = true ∧ st_files s !! (dir_of p ++ [name]) = None ∧
    (∀ q, q ≠ p → q ≠ dir_of p ++ [name] → st_files s' !! q = st_files s !! q) ∧
    (st_files s' !! p = st_files s !! p ∨ ∃ t, st_files s' !! p = Some (mkFile data t)) ∧
    (r = Ok tt → (∃ t, st_files s' !! p = Some (mkFile data t)) ∧ ∀ q, q ≠ p → st_files s' !! q = st_files s !! q).
Proof.
  intros Hp Hb Hrun. set (name := fresh_string_of_set ".tmp-" (names_in (st_files s) (dir_of p))).
  set (tmp := dir_of p ++ [name]).
  assert (Hnew : st_files s !! tmp = None) by apply fresh_temp.
  assert (Hpre : has_prefix name ".tmp-" = true) by apply fresh_of_set_prefix.
  assert (Hne : tmp ≠ p).
  { intros Ht. rewrite (dir_base p Hp) in Ht. apply app_inj_2 in Ht as [_ [= Ht]]; [|done].
    rewrite <- Ht in Hb. congruence. }
  exists name. fold tmp. split; [done|]. split; [done|].
  assert (Hsame : ∀ e, st_files s' = st_files s → r = Err e →
    (∀ q, q ≠ p → q ≠ tmp → st_files s' !! q = st_files s !! q) ∧
    (st_files s' !! p = st_files s !! p ∨ ∃ t, st_files s' !! p = Some (mkFile data t)) ∧
    (r = Ok tt → (∃ t, st_files s' !! p = Some (mkFile data t)) ∧ ∀ q, q ≠ p → st_files s' !! q = st_files s !! q)).
  { intros e -> ->. split; [done|]. split; [by left|done]. }
  unfold atomicWriteFile in Hrun. rewrite bind_run in Hrun. unfold os_MkdirAll, query, syscall in Hrun.
  destruct (env_fault (st_tick s)) as [e|]; [injection Hrun as <- <-; by eapply Hsame|].
  rewrite bind_run in Hrun. unfold os_CreateTemp, syscall in Hrun. cbn [st_files tick1 set_files st_tick] in Hrun.
  destruct (env_fault (S (st_tick s))) as [e|]; [injection Hrun as <- <-; by eapply Hsame|].
  fold name tmp in Hrun.
  match type of Hrun with _ ?s1 = _ => set (s1' := s1) in Hrun end.
  pose proof (triple_after_temp p data (st_files s) tmp Hnew s1') as Ht. rewrite Hrun in Ht.
  specialize (Ht ltac:(split; [intros q Hq; unfold s1'; cbn; by rewrite lookup_insert_ne|
    eexists; unfold s1'; cbn; apply lookup_insert_eq])).
  destruct r as [[]|e].
  - destruct Ht as [Hq Hd]. split; [auto|]. split; [by right|]. intros _. by split.
  - apply staging_replacing with (p := p) (data := data) in Ht; [|done]. destruct Ht as [Hq Hd].
    split; [done|]. split; [done|]. done.
Qed.

(** A file is replaced whole or not at all, whatever calls fail (so also if
    the process dies at any point): the target holds its old contents or all of
    the new ones, no other file changes, and what a failed write may leave behind
    is one temporary file, which was not there before; when the write reports
    success, the target is complete and nothing is left behind. *)
Theorem atomicWriteFile_atomic (p : fpath) (data : bytes) (s s' : St) (r : result unit) :
  p ≠ [] → has_prefix (base_of p) ".tmp-" = false → atomicWriteFile p data s = (s', r) →
  ∃ name, has_prefix name ".tmp-" = true ∧ st_files s !! (dir_of p ++ [name]) = None ∧
    (∀ q, q ≠ p → q ≠ dir_of p ++ [name] → st_files s' !! q = st_files s !! q) ∧
    (st_files s' !! p = st_files s !! p ∨ ∃ t, st_files s' !! p = Some (mkFile data t)) ∧
    (r = Ok tt → (∃ t, st_files s' !! p = Some (mkFile data t)) ∧ ∀ q, q ≠ p → st_files s' !! q = st_files s !! q).
Proof. apply atomicWriteFile_run. Qed.

(** Whatever happens, a replacement touches its target and one temporary file
    beside it. *)
Lemma atomicWriteFile_agrees (P : fpath → Prop) (fs0 : files) (p : fpath) (data : bytes) :
  p ≠ [] → has_prefix (base_of p) ".tmp-" = false → ¬ P p →
  (∀ name, has_prefix name ".tmp-" = true → ¬ P (dir_of p ++ [name])) →
  preserves (agrees P fs0) (atomicWriteFile p data).
Proof.
  intros Hp Hb HP Htmp s Hs. destruct (atomicWriteFile p data s) as [s' r] eqn:E.
  destruct (atomicWriteFile_run p data s s' r Hp Hb E) as (name & Hn & _ & Hq & _).
  intros q Hqp. cbn. rewrite Hq; [by apply Hs|by intros ->|]. intros ->. by apply (Htmp name).
Qed.

Lemma with_retry_preserves (I : files → Prop) (fn : M unit) (ok : err → bool) n :
  preserves I fn → preserves I (with_retry fn ok n).
Proof.
  intros Hf. induction n as [|n IH]; cbn [with_retry]; [keep|].
  apply preserves_bind; [by apply preserves_try|]. intros [u|e]; [keep|].
  destruct (ok e); [keep|]. destruct (negb _); [keep|]. destruct n; [keep|done].
Qed.

Lemma removeWithRetry_agrees (P : fpath → Prop) (fs0 : files) (p : fpath) :
  ¬ P p → preserves (agrees P fs0) (removeWithRetry p).
Proof.
  intros HP. apply with_retry_preserves, preserves_syscall. intros fs t Hs.
  destruct (fs !! p); [|done]. intros q Hq. cbn. rewrite lookup_delete_ne; [by apply Hs|by intros ->].
Qed.
End atomic_write.

Section integrity.
Context `{GoUnicode} `{AEAD} `{Env} (v : Vault).

(** [pt] is the plaintext [ref] names. *)
Definition authentic (ref : ChunkRef) (pt : bytes) : Prop :=
  hmacHex (IndexKey (v_keys v)) pt = ref_ID ref ∧ Z.of_nat (length pt) = ref_Size ref.

Lemma decodeChunk_authentic data ref pt : decodeChunk v data ref = Ok pt → authentic ref pt.
Proof.
  unfold decodeChunk. intros Hd. apply bind_ok in Hd as ([nonce ct] & _ & Hd).
  destruct (aead_open _ _ _ _) as [q|]; [|done].
  destruct (Z.eqb_spec (Z.of_nat (length q)) (ref_Size ref)) as [Es|]; cbn [negb] in Hd; [|done].
  unfold constantTimeStringEqual in Hd.
  destruct (String.eqb_spec (hmacHex (IndexKey (v_keys v)) q) (ref_ID ref)) as [Ei|]; cbn [negb] in Hd; [|done].
  injection Hd as <-. done.
Qed.

Lemma try_copies_authentic dir ref names s s' pt :
  try_copies v dir ref names s = (s', Ok (Some pt)) → authentic ref pt.
Proof.
  revert s. induction names as [|n names IH]; intros s; cbn [try_copies]; [done|].
  destruct (_ || _); [apply IH|]. rewrite bind_run. unfold try.
  destruct (os_ReadFile (dir ++ [n]) s) as [s1 [data|e]]; [|apply IH].
  destruct (decodeChunk v data ref) as [q|e] eqn:Ed; [|apply IH].
  intros [= _ <-]. by eapply decodeChunk_authentic.
Qed.

Lemma tryConflict_authentic ref s s' pt : tryConflictChunks v ref s = (s', Ok (Some pt)) → authentic ref pt.
Proof.
  unfold tryConflictChunks. rewrite bind_run. unfold try. destruct (os_ReadDir _ s) as [s1 [names|e]]; [|done].
  apply try_copies_authentic.
Qed.

(** C30. Whatever is on disk and whatever calls fail, a chunk that loads is the
    chunk the record names: its keyed hash is the object id and its length the
    recorded size.  Loading writes nothing. *)
Theorem loadChunk_authentic (ref : ChunkRef) (s s' : St) (r : result bytes) :
  loadChunk v ref s = (s', r) →
  st_files s' = st_files s ∧ (∀ pt, r = Ok pt → authentic ref pt).
Proof.
  intros Hl. split.
  - enough (Hk : preserves (eq (st_files s)) (loadChunk v ref)) by (specialize (Hk s eq_refl); by rewrite Hl in Hk).
    assert (Htry : ∀ dir names, preserves (eq (st_files s)) (try_copies v dir ref names)).
    { intros dir names. induction names as [|n names IH]; cbn [try_copies]; [keep|].
      destruct (_ || _); [done|]. apply preserves_bind; [unfold os_ReadFile; keep|].
      intros [d|e]; [|done]. by destruct (decodeChunk v d ref); [keep|]. }
    unfold loadChunk, tryConflictChunks, os_ReadFile, os_ReadDir. keep.
  - intros pt ->. unfold loadChunk in Hl. rewrite bind_run in Hl. unfold try in Hl.
    destruct (os_ReadFile _ s) as [s1 [data|e]].
    + destruct (decodeChunk v data ref) as [q|e] eqn:Ed.
      * injection Hl as _ <-. by eapply decodeChunk_authentic.
      * rewrite bind_run in Hl. destruct (tryConflictChunks v ref s1) as [s2 [[q|]|e']] eqn:Et; [|done|done].
        injection Hl as _ <-. by eapply tryConflict_authentic.
    + destruct (negb (not_exist e)); [done|].
      rewrite bind_run in Hl. destruct (tryConflictChunks v ref s1) as [s2 [[q|]|e']] eqn:Et; [|done|done].
      injection Hl as _ <-. by eapply tryConflict_authentic.
Qed.
End integrity.

(** ** Concrete runs *)

Lemma demo_env_length (i n : nat) : length (repeat (Sha256.byte_of (N.of_nat i)) n) = n.
Proof. apply repeat_length. Qed.
(** No call fails; a second passes at every call. *)
Definition demo_env : Env :=
  {| env_clock i := 1700000000000000000 + 1000000000 * Z.of_nat i; env_fault _ := None;
     env_rand i n := repeat (Sha256.byte_of (N.of_nat i)) n; env_rand_length := demo_env_length;
     env_partial _ := 0%nat; env_retryable _ := false;
     env_range _ _ := map_to_list; env_range_perm _ _ _ := reflexivity _ |}.
(** Every call from the [k]-th on fails. *)
Definition crash_env (k : nat) : Env :=
  {| env_clock i := 1700000000000000000; env_fault i := if (k <=? i)%nat then Some (ENew "crash") else None;
     env_rand i n := repeat (Sha256.byte_of (N.of_nat i)) n; env_rand_length := demo_env_length;
     env_partial _ := 1%nat; env_retryable _ := false;
     env_range _ _ := map_to_list; env_range_perm _ _ _ := reflexivity _ |}.
Definition demo_vault : Vault := mkVault "" ["m"] demo_config demo_keys (repeat Byte.x03 32) (repeat Byte.x04 32) "dev-a".
Definition old_disk : St := mkSt {[["m"; "f"] := mkFile (bytes_of "old") 5]} 0 None 0 None.

Lemma atomicWriteFile_atomic_witness :
  (@atomicWriteFile (crash_env 3) ["m"; "f"] (bytes_of "new") old_disk).1.(st_files) !! ["m"; "f"] =
    Some (mkFile (bytes_of "old") 5) ∧
  ∃ name, has_prefix name ".tmp-" = true ∧ st_files old_disk !! ["m"; name] = None.
Proof.
  split; [vm_compute; reflexivity|].
  refine (match @atomicWriteFile_atomic (crash_env 3) ["m"; "f"] (bytes_of "new") old_disk _ _ _ _ eq_refl with
          | ex_intro _ name (conj Hp (conj Hn _)) => ex_intro _ name (conj Hp Hn) end).
  - discriminate.
  - vm_compute. reflexivity.
Defined.

Definition demo_stored : St * result (ChunkRef * bool) :=
  @storeChunk demo_aead demo_env demo_vault (bytes_of "chunk") (mkSt ∅ 0 None 0 None).
Definition demo_ref : ChunkRef := match demo_stored.2 with Ok (r, _) => r | Err _ => MkChunkRef "" 0 end.

Lemma loadChunk_authentic_witness :
  (@loadChunk demo_unicode demo_aead demo_env demo_vault demo_ref demo_stored.1).2 = Ok (bytes_of "chunk") ∧
  authentic demo_vault demo_ref (bytes_of "chunk").
Proof.
  assert (E : (@loadChunk demo_unicode demo_aead demo_env demo_vault demo_ref demo_stored.1).2 = Ok (bytes_of "chunk"))
    by (vm_compute; reflexivity).
  split; [exact E|].
  exact (proj2 (@loadChunk_authentic demo_unicode demo_aead demo_env demo_vault demo_ref demo_stored.1 _ _
    (surjective_pairing _)) _ E).
Defined.
