(* ===== verification/ManifestStore.v ===== *)
(** The encrypted manifests on disk (the I/O half of internal/vault/manifest.go)
    and the index built from them (internal/vault/vault.go).

    encoding/json is used through [JSON]: a marshaller and an unmarshaller that
    inverts it on the values [json_ok] admits (strings of valid UTF-8, no empty
    map where the tag omits it).   Where one function reads the clock several times for the same purpose
    one reading stands for them. *)
From S2P Require Export Store Paths.
Local Open Scope Z_scope.

Class JSON (A : Type) := {
  marshal : A → bytes;
  unmarshal : bytes → option A;
  json_ok : A → Prop;
  unmarshal_marshal a : json_ok a → unmarshal (marshal a) = Some a
}.

Definition ManifestDirName : string := "manifests".
Definition IndexFileName : string := "index.dat".
Definition ConfigFileName : string := "vault.json".
Definition ErrConfigInconsistent : err := ESentinel "ErrConfigInconsistent".

(** internal/vault/manifest.go:67-78 [reconcilePlan] *)
Record reconcilePlan : Type := mkPlan {
  pl_conflicts : list plannedConflict;
  pl_removeManifests : list string;
  pl_sawManifest : bool
}.

(** internal/vault/manifest.go:215-218 [manifestStoreState] *)
Record manifestStoreState : Type := mkStoreState { hasAny : bool; hasNonTombstone : bool }.

(** A path as [filepath.WalkDir] reports it, and back. *)
Definition os_path (p : fpath) : string := join_slash p.
Definition os_segs (p : string) : fpath := split_slash p.

(** Assignments to fields of a local copy. *)
Definition with_UpdatedAt (r : FileRecord) (t : string) : FileRecord :=
  MkFileRecord (fr_Size r) (fr_Mode r) (fr_ModTime r) t (fr_Generation r) (fr_Chunks r) (fr_ConflictOf r) (fr_Clock r) (fr_ClockAge r).
Definition with_Generation (r : FileRecord) (g : Z) : FileRecord :=
  MkFileRecord (fr_Size r) (fr_Mode r) (fr_ModTime r) (fr_UpdatedAt r) g (fr_Chunks r) (fr_ConflictOf r) (fr_Clock r) (fr_ClockAge r).
Definition with_Path (r : ManifestRecord) (p : string) : ManifestRecord :=
  MkManifestRecord (mr_Version r) p (mr_UpdatedAt r) (mr_Deleted r) (mr_DeletedGeneration r) (mr_Clock r) (mr_File r).

(** The defaults [saveManifestRecord] fills in; [t] is the clock. *)
Definition fill_record (t : Z) (cleaned : string) (rec : ManifestRecord) : ManifestRecord :=
  let now := format_rfc3339nano t in
  let ver := if mr_Version rec =? 0 then 1 else mr_Version rec in
  let upd := if String.eqb (mr_UpdatedAt rec) "" then now else mr_UpdatedAt rec in
  let f := mr_File rec in
  let f := if String.eqb (fr_UpdatedAt f) "" then with_UpdatedAt f upd else f in
  let f := if fr_Generation f =? 0 then with_Generation f (unixNanoOrNow t upd) else f in
  let clk := if bool_decide (mr_Clock rec = ∅) && negb (bool_decide (fr_Clock f = ∅))
             then fr_Clock f else mr_Clock rec in
  MkManifestRecord ver cleaned upd (mr_Deleted rec) (mr_DeletedGeneration rec) clk f.

(** The record [saveFileManifest] saves for a live file; [t] is the clock. *)
Definition file_record (t : Z) (cleaned : string) (rec : FileRecord) : ManifestRecord :=
  let rec := if String.eqb (fr_UpdatedAt rec) "" then with_UpdatedAt rec (format_rfc3339nano t) else rec in
  let rec := if fr_Generation rec =? 0 then with_Generation rec (unixNanoOrNow t (fr_UpdatedAt rec)) else rec in
  let rec := with_ConflictOf rec "" in
  MkManifestRecord 1 cleaned (fr_UpdatedAt rec) false 0 ∅ rec.

Section manifests.
Context `{GoUnicode} `{AEAD} `{Env} `{JSON ManifestRecord} `{JSON Index} (v : Vault).

(** internal/vault/manifest.go:816-818 [manifestID] *)
Definition manifestID (virtualPath : string) : string :=
  hmacHex (IndexKey (v_keys v)) (bytes_of ("manifest:" +:+ virtualPath)).

Definition manifestRoot : fpath := v_MetaRoot v ++ [ManifestDirName].

(** internal/vault/manifest.go:820-826 [manifestPath] *)
Definition manifestPath (id : string) : fpath :=
  v_MetaRoot v ++ [ManifestDirName; id_prefix id; id +:+ ".manifest"].

(** internal/vault/vault.go:633-635 [usesManifestStore] *)
Definition usesManifestStore : bool :=
  (2 <=? Version (v_Config v)) || negb (String.eqb (ManifestMode (Crypto (v_Config v))) "").

(** internal/vault/manifest.go:800-814 [decryptManifest] *)
Definition decryptManifest (data : bytes) (id : string) : result ManifestRecord :=
  '(nonce, ct) ← decodeEncrypted manifestMagic nonce_size data;
  match aead_open (v_indexAEAD v) nonce ct (bytes_of (manifestAADPrefix +:+ id)) with
  | None => Err (ENew "manifest decrypt/authenticate failed")
  | Some pt => match unmarshal pt with
               | Some rec => Ok rec
               | None => Err (ENew "invalid character in JSON")
               end
  end.

(** internal/vault/manifest.go:761-798 [saveManifestRecord] *)
Definition saveManifestRecord (rec : ManifestRecord) : M unit :=
  match CleanVirtualPath (mr_Path rec) with
  | Err _ => fail (ENew "invalid manifest path %q")
  | Ok cleaned =>
      if String.eqb cleaned "" then fail (ENew "invalid manifest path %q")
      else
        t ← now;
        let rec := fill_record t cleaned rec in
        let id := manifestID cleaned in
        let data := marshal rec in
        nonce ← randomBytes nonce_size;
        let ct := aead_seal (v_indexAEAD v) nonce data (bytes_of (manifestAADPrefix +:+ id)) in
        atomicWriteFile (manifestPath id) (encodeEncrypted manifestMagic nonce ct)
  end.

(** internal/vault/manifest.go:711-726 [saveFileManifest] *)
Definition saveFileManifest (virtualPath : string) (rec : FileRecord) : M unit :=
  match CleanVirtualPath virtualPath with
  | Err _ => fail (ENew "invalid manifest path %q")
  | Ok cleaned =>
      if String.eqb cleaned "" then fail (ENew "invalid manifest path %q")
      else
        t ← now;
        saveManifestRecord (file_record t cleaned rec)
  end.

(** internal/vault/manifest.go:745-759 [saveTombstoneWithClock] *)
Definition saveTombstoneWithClock (virtualPath : string) (generation deletedGeneration : Z) (clk : clock) : M unit :=
  match CleanVirtualPath virtualPath with
  | Err _ => fail (ENew "invalid manifest path %q")
  | Ok cleaned =>
      if String.eqb cleaned "" then fail (ENew "invalid manifest path %q")
      else
        t ← now;
        let now := format_rfc3339nano t in
        let generation := if generation <=? 0 then unixNanoOrNow t now else generation in
        let deletedGeneration := if deletedGeneration <? 0 then 0 else deletedGeneration in
        saveManifestRecord (MkManifestRecord 1 cleaned now true deletedGeneration clk
          (MkFileRecord 0 0 "" now generation [] "" clk ∅))
  end.

(** internal/vault/manifest.go:735-737 [saveTombstone] *)
Definition saveTombstone (virtualPath : string) (generation deletedGeneration : Z) : M unit :=
  saveTombstoneWithClock virtualPath generation deletedGeneration ∅.

(** internal/vault/manifest.go:699-709 [saveIndexAsManifests] *)
Definition saveIndexAsManifests (idx : Index) : M unit :=
  l ← range (ix_Files idx);
  mfold (fun _ '(p, rec) =>
    if negb (String.eqb (fr_ConflictOf rec) "") then mret tt else saveFileManifest p rec) tt l.

(** The callback of [loadManifestIndex]'s walk, on one file. *)
Definition load_one (acc : list manifestCandidate) (p : fpath) : M (list manifestCandidate) :=
  let name := base_of p in
  if negb (str_contains (to_lower name) ".manifest") then mret acc
  else match manifestIDFromFileName name with
  | None => fail go_panic
  | Some id =>
      if String.eqb id "" then mret acc
      else
        data ← os_ReadFile p;
        match decryptManifest data id with
        | Err e => fail (EWrap "manifest %s: " e)
        | Ok rec =>
            if String.eqb (mr_Path rec) "" then mret acc
            else
              _ ← modify (fun s => if st_maxGen s <? fr_Generation (mr_File rec)
                                   then set_maxGen s (fr_Generation (mr_File rec)) else s);
              mret (acc ++ [MkCandidate rec id name (os_path p)])
        end
  end.

(** The grouping loop: a candidate joins its cleaned path's group when the path's
    manifest id is its file's. *)
Definition group_one (m : gmap string (list manifestCandidate)) (c : manifestCandidate)
    : gmap string (list manifestCandidate) :=
  match CleanVirtualPath (mr_Path (mc_Record c)) with
  | Err _ => m
  | Ok cleaned =>
      if String.eqb cleaned "" || negb (String.eqb (manifestID cleaned) (mc_ID c)) then m
      else
        let c := MkCandidate (with_Path (mc_Record c) cleaned) (mc_ID c) (mc_Name c) (mc_Source c) in
        <[cleaned := default [] (m !! cleaned) ++ [c]]> m
  end.
Definition group_by_path (cands : list manifestCandidate) : gmap string (list manifestCandidate) :=
  fold_left group_one cands ∅.

(** The reconciliation loop over the groups: the index and the plan so far. *)
Definition reconcile_one (t : Z) (byPath : gmap string (list manifestCandidate))
    (acc : gmap string FileRecord * list plannedConflict * list string) (g : string * list manifestCandidate)
    : option (gmap string FileRecord * list plannedConflict * list string) :=
  let '(fs, conflicts, removes) := acc in
  let '(p, l) := g in
  '(live, cs, rs) ← reconcilePathCandidates t p l;
  let fs := match live with Some rec => <[p := rec]> fs | None => fs end in
  let cs := List.filter (fun c => negb (bool_decide (is_Some (byPath !! pc_Path c)))) cs in
  let fs := fold_left (fun fs c => <[pc_Path c := pc_Rec c]> fs) cs fs in
  Some (fs, conflicts ++ cs, removes ++ rs).
Fixpoint reconcile_all (t : Z) (byPath : gmap string (list manifestCandidate))
    (acc : gmap string FileRecord * list plannedConflict * list string) (gs : list (string * list manifestCandidate))
    : option (gmap string FileRecord * list plannedConflict * list string) :=
  match gs with
  | [] => Some acc
  | g :: gs => acc ← reconcile_one t byPath acc g; reconcile_all t byPath acc gs
  end.

(** internal/vault/manifest.go:89-178 [loadManifestIndex] *)
Definition loadManifestIndex : M (Index * reconcilePlan) :=
  r ← try (os_Stat manifestRoot);
  match r with
  | Err e =>
      if not_exist e then t ← now; mret (NewIndex t, mkPlan [] [] false) else fail e
  | Ok _ =>
      ps ← os_Walk manifestRoot;
      candidates ← mfold load_one [] ps;
      t ← now;
      match candidates with
      | [] => mret (NewIndex t, mkPlan [] [] false)
      | _ =>
          let byPath := group_by_path candidates in
          groups ← range byPath;
          match reconcile_all t byPath (∅, [], []) groups with
          | None => fail go_panic
          | Some (fs, conflicts, removes) =>
              mret (MkIndex 2 (format_rfc3339nano t) fs, mkPlan conflicts removes true)
          end
      end
  end.

(** A walk that treats a missing root as empty. *)
Definition walk_or_empty (root : fpath) : M (list fpath) :=
  r ← try (os_Walk root);
  match r with
  | Ok ps => mret ps
  | Err e => if not_exist e then mret [] else fail e
  end.

(** internal/vault/manifest.go:185-208 [manifestFilesPresent] *)
Definition manifestFilesPresent : M bool :=
  ps ← walk_or_empty manifestRoot;
  mfold (fun (found : bool) p =>
    if found then mret true
    else match manifestIDFromFileName (base_of p) with
         | None => fail go_panic
         | Some id => mret (negb (String.eqb id ""))
         end) false ps.

(** internal/vault/manifest.go:220-259 [inspectManifestStore] *)
Definition inspectManifestStore : M manifestStoreState :=
  ps ← walk_or_empty manifestRoot;
  mfold (fun st p =>
    match manifestIDFromFileName (base_of p) with
    | None => fail go_panic
    | Some id =>
        if String.eqb id "" then mret st
        else
          let st := mkStoreState true (hasNonTombstone st) in
          r ← try (os_ReadFile p);
          match r with
          | Err e => if not_exist e then mret st else fail e
          | Ok data =>
              match decryptManifest data id with
              | Err _ => mret st
              | Ok rec =>
                  if negb (mr_Deleted rec) && negb (String.eqb (trim_space (mr_Path rec)) "")
                  then mret (mkStoreState true true) else mret st
              end
          end
    end) (mkStoreState false false) ps.

(** internal/vault/vault.go:686-707 [loadLegacyIndex] *)
Definition loadLegacyIndex : M Index :=
  data ← os_ReadFile (v_MetaRoot v ++ [IndexFileName]);
  '(nonce, ct) ← lift (decodeEncrypted indexMagic nonce_size data);
  match aead_open (v_indexAEAD v) nonce ct indexAAD with
  | None => fail (ENew "index decrypt failed: wrong password or damaged index")
  | Some pt => match unmarshal pt with
               | Some idx => mret idx
               | None => fail (ENew "invalid character in JSON")
               end
  end.

(** internal/vault/vault.go:655-684 [loadIndexFromDisk] *)
Definition loadIndexFromDisk : M Index :=
  _ ← (if negb usesManifestStore || (Version (v_Config v) =? 1) then
         present ← manifestFilesPresent;
         if present : bool then fail ErrConfigInconsistent else mret tt
       else mret tt);
  let legacy :=
    r ← try loadLegacyIndex;
    match r with
    | Ok idx => mret idx
    | Err e => if not_exist e then t ← now; mret (NewIndex t) else fail e
    end in
  if usesManifestStore then
    '(idx, plan) ← loadManifestIndex;
    if pl_sawManifest plan then mret idx else legacy
  else legacy.
End manifests.

Section id.
Context `{JSON LegacyID} (v : Vault).

(** internal/vault/vault.go:625-631 [legacyVaultID] *)
Definition legacyVaultID (root : string) (cfg : VaultConfig) : string :=
  str_take 32 (hmacHex (bytes_of "seavault-legacy-vault-id") (marshal (mkLegacyID root (Salt (KDF cfg))))).

(** internal/vault/vault.go:598-603 [Vault.ID] *)
Definition ID : string :=
  if negb (String.eqb (VaultID (v_Config v)) "") then VaultID (v_Config v)
  else legacyVaultID (v_Root v) (v_Config v).
End id.
