(* ===== verification/RootPaths.v ===== *)
(** Paths below an absolute root: joining and splitting them. *)
From S2P Require Export ManifestStore GoPathFacts.

(** ** Paths below an absolute root *)

Section at_root.
Context (segs : list string).
Hypothesis segs_plain : Forall plain_seg segs.
Hypothesis segs_some : segs ≠ [].

(** The absolute path of [names] below the root. *)
Definition at_root (names : list string) : string := String slash (join_slash (segs ++ names)).

Lemma clean_abs l : Forall plain_seg l → l ≠ [] → path_clean (String slash (join_slash l)) = String slash (join_slash l).
Proof.
  intros Hl Hne. unfold path_clean.
  assert (Ha : path_is_abs (String slash (join_slash l)) = true) by apply (has_prefix_app "/" _).
  rewrite Ha. f_equal. f_equal. change (split_slash (String slash ?t)) with ("" :: split_slash t).
  rewrite split_join by auto using plain_no_slash.
  transitivity (clean_segs true l); [done|]. rewrite <- (rev_involutive l). apply clean_canon.
  apply Forall_rev in Hl. induction Hl as [|x l' Hx _ IH]; [done|]. split; [by left|done].
Qed.

Lemma join_at names : Forall plain_seg names → names ≠ [] → ∀ base, Forall plain_seg base → 
  path_join (at_root base :: names) = at_root (base ++ names).
Proof.
  intros Hn Hne base Hb. unfold path_join.
  assert (Hf : List.filter (fun s => negb (String.eqb s "")) (at_root base :: names) = at_root base :: names).
  { cbn [List.filter]. change (String.eqb (at_root base) "") with false. cbn [negb]. f_equal.
    clear Hne. induction Hn as [|x l [Hx _] _ IH]; [done|]. cbn [List.filter]. apply String.eqb_neq in Hx. rewrite Hx. cbn. by rewrite IH. }
  rewrite Hf. destruct names as [|n names]; [done|]. rewrite join_slash_cons.
  unfold at_root. change (String slash ?a +:+ ?b) with (String slash (a +:+ b)).
  rewrite <- join_slash_cat; [|by destruct segs|done]. rewrite <- app_assoc. apply clean_abs; [|by destruct segs].
  by rewrite !Forall_app.
Qed.

Lemma segs_at names : Forall plain_seg names → os_segs (at_root names) = "" :: segs ++ names.
Proof.
  intros Hn. unfold os_segs, at_root. change (split_slash (String slash ?t)) with ("" :: split_slash t).
  rewrite split_join; [done|by destruct segs|]. apply plain_no_slash. by rewrite Forall_app.
Qed.
End at_root.
