(* ===== verification/Cache.v ===== *)
(** The in-memory index cache, the generation and vector-clock bookkeeping of a
    local write, and change detection (internal/vault/cache.go, and LoadIndex and
    SaveIndex of internal/vault/vault.go).

    Every function below that the code runs under [v.mu] is one computation; the
    deep copies [cloneIndex], [cloneFileRecord], [cloneClock] and [cloneClockAge]
    take are what makes a value of the model and a snapshot of the code the same
    thing. *)
From S2P Require Export ManifestStore.
Local Open Scope Z_scope.

(** internal/vault/cache.go:125-125 [clockAgeCompactions] *)
Definition clockAgeCompactions : Z := 8.

(** [max(seen, wallNano)+1] on [int64]. *)
Definition bump (seen wallNano : Z) : Z := wrap64 ((if seen <? wallNano then wallNano else seen) + 1).

(** The aging loop of [nextRecordClock]: the foreign entries of the joined clock,
    each either dropped or kept with its new age.  It visits each key once, so
    the order of the map does not matter. *)
Definition aged (dev : string) (prevAge : gmap string Z) (k : string) : option Z :=
  if String.eqb k dev then None
  else Some (wrap64 (at0 prevAge k + 1)).
Definition kept (dev : string) (prevAge : gmap string Z) (k : string) : bool :=
  match aged dev prevAge k with
  | Some a => negb (clockAgeCompactions <=? a)
  | None => true
  end.
Definition drop_aged (dev : string) (prevAge : gmap string Z) (seen : clock) : clock :=
  filter (fun kv => kept dev prevAge kv.1 = true) seen.
Definition ages (dev : string) (prevAge : gmap string Z) (seen : clock) : gmap string Z :=
  map_imap (fun k _ => match aged dev prevAge k with
                       | Some a => if clockAgeCompactions <=? a then None else Some a
                       | None => None
                       end) seen.

(** internal/vault/cache.go:156-191 [nextRecordClock]; [dev] is [v.deviceID]. *)
Definition nextRecordClock (dev : string) (idx : Index) (virtualPath : string) (wallNano : Z) : clock * gmap string Z :=
  if String.eqb dev "" then (∅, ∅)
  else
    let '(seen, prevAge) := match ix_Files idx !! virtualPath with
                            | Some cur => (joinClock ∅ (fr_Clock cur), fr_ClockAge cur)
                            | None => (∅, ∅)
                            end in
    let seen := <[dev := bump (at0 seen dev) wallNano]> seen in
    (drop_aged dev prevAge seen, ages dev prevAge seen).

(** internal/vault/cache.go:199-212 [advanceClock] *)
Definition advanceClock (dev : string) (prev : clock) (wallNano : Z) : clock :=
  if String.eqb dev "" then ∅
  else
    let next := joinClock ∅ prev in
    <[dev := bump (at0 next dev) wallNano]> next.

(** internal/vault/cache.go:216-221 [cacheKey] *)
Definition cacheKey (virtualPath : string) : string :=
  match CleanVirtualPath virtualPath with
  | Ok cleaned => if String.eqb cleaned "" then virtualPath else cleaned
  | Err _ => virtualPath
  end.

Definition with_Files (idx : Index) (fs : gmap string FileRecord) : Index :=
  MkIndex (ix_Version idx) (ix_UpdatedAt idx) fs.

(** hash/fnv's 64-bit FNV-1a. *)
Definition fnv_offset : Z := 14695981039346656037.
Definition fnv_prime : Z := 1099511628211.
Definition fnv1a (l : bytes) : Z := fold_left (fun h b => wrapu64 (Z.lxor h (byte_z b) * fnv_prime)) l fnv_offset.
Definition nul : string := String (ascii_of_nat 0) "".

Section cache.
Context `{GoUnicode} `{AEAD} `{Env} `{JSON ManifestRecord} `{JSON Index} (v : Vault).

(** internal/vault/cache.go:79-100 [cachedIndexLocked] *)
Definition cachedIndexLocked : M Index :=
  c ← gets st_cached;
  match c with
  | Some idx => mret idx
  | None =>
      idx ← loadIndexFromDisk v;
      _ ← modify (fun s => set_maxGen s
            (map_fold (fun _ rec g => if g <? fr_Generation rec then fr_Generation rec else g)
               (st_maxGen s) (ix_Files idx)));
      _ ← modify (fun s => set_cached s (Some idx));
      mret idx
  end.

(** internal/vault/vault.go:642-650 [LoadIndex] *)
Definition LoadIndex : M Index := cachedIndexLocked.

(** internal/vault/cache.go:108-117 [nextGeneration] *)
Definition nextGeneration (wallNano : Z) : M Z := fun s =>
  let g := if wallNano <? wrap64 (st_maxGen s + 1) then wrap64 (st_maxGen s + 1) else wallNano in
  (set_maxGen s g, Ok g).

(** internal/vault/cache.go:235-247 [commitFileManifest] *)
Definition commitFileManifest (virtualPath : string) (rec : FileRecord) : M unit :=
  _ ← saveFileManifest v virtualPath rec;
  modify (fun s => match st_cached s with
    | None => s
    | Some idx => set_cached s (Some (with_Files idx (<[cacheKey virtualPath := with_ConflictOf rec ""]> (ix_Files idx))))
    end).

(** internal/vault/cache.go:257-267 [commitTombstone] *)
Definition commitTombstone (virtualPath : string) (generation deletedGeneration : Z) (clk : clock) : M unit :=
  _ ← saveTombstoneWithClock v virtualPath generation deletedGeneration clk;
  modify (fun s => match st_cached s with
    | None => s
    | Some idx => set_cached s (Some (with_Files idx (delete (cacheKey virtualPath) (ix_Files idx))))
    end).

(** internal/vault/cache.go:270-278 [cacheReplace] *)
Definition cacheReplace (idx : Index) : M unit := modify (fun s => set_cached s (Some idx)).

(** internal/vault/cache.go:284-290 [ReloadIndex] *)
Definition ReloadIndex : M unit :=
  _ ← modify (fun s => set_cached s None);
  _ ← cachedIndexLocked;
  mret tt.

(** internal/vault/vault.go:709-733 [SaveIndex] *)
Definition SaveIndex (idx : Index) : M unit :=
  t ← now;
  let idx := MkIndex 2 (format_rfc3339nano t) (ix_Files idx) in
  if usesManifestStore v then
    _ ← saveIndexAsManifests v idx;
    cacheReplace idx
  else
    let data := marshal idx in
    nonce ← randomBytes nonce_size;
    let ct := aead_seal (v_indexAEAD v) nonce data indexAAD in
    _ ← atomicWriteFile (v_MetaRoot v ++ [IndexFileName]) (encodeEncrypted indexMagic nonce ct);
    cacheReplace idx.

(** One line of the fingerprint: name, size and modification time. *)
Definition fp_line (name : string) (f : File) : bytes :=
  bytes_of (str_concat [name; nul; itoa (Z.of_nat (length (f_data f))); nul; itoa (unix_nano (f_mtime f)); newline]).

(** internal/vault/cache.go:299-333 [indexFingerprint] *)
Definition indexFingerprint : M Z :=
  c ← try (os_Info (v_MetaRoot v ++ [ConfigFileName]));
  let start := match c with Ok f => fp_line "cfg" f | Err _ => [] end in
  ps ← walk_or_empty (manifestRoot v);
  l ← mfold (fun (acc : bytes) p =>
        if negb (str_contains (to_lower (base_of p)) ".manifest") then mret acc
        else
          r ← try (os_Info p);
          match r with
          | Ok f => mret (acc ++ fp_line (os_path (drop (length (manifestRoot v)) p)) f)
          | Err e => if not_exist e then mret acc else fail e
          end) start ps;
  mret (fnv1a l).

(** internal/vault/cache.go:347-379 [ReloadIfChanged]; [st_lastFP] is [None] while
    [fpKnown] is false. *)
Definition ReloadIfChanged : M bool :=
  fp ← indexFingerprint;
  known ← gets st_lastFP;
  match known with
  | None => _ ← modify (fun s => set_lastFP s (Some fp)); mret false
  | Some last =>
      if fp =? last then mret false
      else
        _ ← ReloadIndex;
        r ← try indexFingerprint;
        let fp := match r with Ok fp2 => fp2 | Err _ => fp end in
        _ ← modify (fun s => set_lastFP s (Some fp));
        mret true
  end.
End cache.
