(* ===== verification/CacheFacts.v ===== *)
(** Properties of the bookkeeping of a local write: vector clocks and
    generations. *)
From S2P Require Export Cache WorldFacts.
Local Open Scope Z_scope.

Lemma bump_spec seen wall :
  0 ≤ seen < int64_max → wall < int64_max → bump seen wall = Z.max seen wall + 1.
Proof.
  intros H1 H2. unfold bump. unfold int64_max in *.
  destruct (Z.ltb_spec seen wall); rewrite wrap64_id by (unfold in_int64, int64_min, int64_max; lia); lia.
Qed.

Section write.
Context (dev : string) (prev : clock) (wall : Z).
Hypothesis Hprev : nonneg prev.
Hypothesis Hself : at0 prev dev < int64_max.
Hypothesis Hwall : wall < int64_max.

(** The joined and bumped clock both writers start from. *)
Definition bumped : clock := <[dev := bump (at0 (joinClock ∅ prev) dev) wall]> (joinClock ∅ prev).

Lemma bumped_at0 k : at0 bumped k = if decide (dev = k) then Z.max (at0 prev dev) wall + 1 else at0 prev k.
Proof.
  unfold bumped. rewrite at0_insert. rewrite !joinClock_empty_at0 by done.
  pose proof (at0_nonneg prev dev Hprev). case_decide; [|done]. by apply bump_spec.
Qed.

Lemma bumped_nonneg : nonneg bumped.
Proof.
  unfold bumped. pose proof (at0_nonneg prev dev Hprev). apply map_Forall_insert_2.
  - rewrite joinClock_empty_at0 by done. rewrite bump_spec by done. lia.
  - apply joinClock_nonneg. intros k z. by rewrite lookup_empty.
Qed.

Lemma bumped_gt : clock_lt prev bumped.
Proof.
  split.
  - intros k. rewrite bumped_at0. case_decide; [subst|]; lia.
  - exists dev. rewrite bumped_at0, decide_True by done. lia.
Qed.
End write.

Lemma clock_le_lt_trans a b c : clock_le a b → clock_lt b c → clock_lt a c.
Proof.
  intros Hab [Hbc (k & Hk)]. split; [intros j; specialize (Hab j); specialize (Hbc j); lia|].
  exists k. specialize (Hab k). lia.
Qed.

(** A delete dominates what it deletes: the tombstone's clock strictly
    dominates the deleted record's and that of every older copy of it, so the
    reconciliation drops those copies instead of resurrecting the file; and its
    own entry is above the wall clock and every count the record held. *)
Theorem advanceClock_dominates (dev : string) (prev : clock) (wall : Z) :
  dev ≠ "" → nonneg prev → at0 prev dev < int64_max → wall < int64_max →
  let c := advanceClock dev prev wall in
  nonneg c ∧ at0 c dev = Z.max (at0 prev dev) wall + 1 ∧
  ∀ d, nonneg d → d ≠ ∅ → clock_le d prev → clockDominates c d = true.
Proof.
  intros Hd Hp Hs Hw. unfold advanceClock. apply String.eqb_neq in Hd. rewrite Hd. cbv zeta.
  fold (bumped dev prev wall).
  pose proof (bumped_nonneg dev prev wall Hp Hs Hw) as Hn. split; [done|].
  split; [by rewrite bumped_at0, decide_True|].
  intros d Nd Hne Hle. apply clockDominates_lt; [done..|]. split; [done|].
  eapply clock_le_lt_trans; [exact Hle|]. exact (bumped_gt dev prev wall Hp Hs Hw).
Qed.

Lemma advanceClock_dominates_witness :
  let c := advanceClock "dev-b" {["dev-a" := 5; "dev-b" := 7]} 3 in
  c = {["dev-a" := 5; "dev-b" := 8]} ∧ clockDominates c {["dev-a" := 5]} = true.
Proof.
  cbv zeta. split; [vm_compute; reflexivity|].
  refine (proj2 (proj2 (advanceClock_dominates "dev-b" {["dev-a" := 5; "dev-b" := 7]} 3 _ _ _ _)) {["dev-a" := 5]} _ _ _).
  - discriminate.
  - unfold nonneg. by_decide.
  - vm_compute. reflexivity.
  - vm_compute. reflexivity.
  - unfold nonneg. by_decide.
  - intros E. apply (f_equal (lookup "dev-a")) in E. vm_compute in E. discriminate E.
  - intros k. unfold at0. destruct (decide (k = "dev-a")) as [->|Hk]; [vm_compute; discriminate|].
    rewrite (lookup_singleton_ne (M:=gmap string)) by congruence. cbn.
    destruct (decide (k = "dev-b")) as [->|Hk']; [vm_compute; discriminate|].
    rewrite lookup_insert_ne by congruence. rewrite (lookup_singleton_ne (M:=gmap string)) by congruence. done.
Defined.

Lemma drop_aged_at0 dev prevAge c k :
  at0 (drop_aged dev prevAge c) k = if kept dev prevAge k then at0 c k else 0.
Proof.
  unfold drop_aged, at0. destruct (kept dev prevAge k) eqn:E.
  - f_equal. destruct (c !! k) as [z|] eqn:Ek; [by apply map_lookup_filter_Some_2|].
    apply map_lookup_filter_None_2. by left.
  - rewrite map_lookup_filter_None_2; [done|]. right. intros z _. cbn. congruence.
Qed.

(** A local write's clock: the device's own entry rises above everything it
    has seen and above the wall clock; a foreign entry is carried over unless its
    age reaches the horizon of eight writes, when it is dropped.  If none is
    dropped the write dominates the record it replaces, and no clock that has
    not seen this write's own entry dominates the write. *)
Theorem nextRecordClock_order (dev : string) (idx : Index) (vp : string) (cur : FileRecord) (wall : Z) :
  dev ≠ "" → ix_Files idx !! vp = Some cur → nonneg (fr_Clock cur) →
  at0 (fr_Clock cur) dev < int64_max → wall < int64_max →
  (∀ k, 0 ≤ at0 (fr_ClockAge cur) k < int64_max) →
  let c := (nextRecordClock dev idx vp wall).1 in
  at0 c dev = Z.max (at0 (fr_Clock cur) dev) wall + 1 ∧
  (∀ k, k ≠ dev → at0 c k = if 8 <=? at0 (fr_ClockAge cur) k + 1 then 0 else at0 (fr_Clock cur) k) ∧
  (fr_Clock cur ≠ ∅ → (∀ k, k ≠ dev → at0 (fr_ClockAge cur) k + 1 < 8) → clockDominates c (fr_Clock cur) = true) ∧
  (∀ d, nonneg d → at0 d dev ≤ at0 (fr_Clock cur) dev → clockDominates d c = false).
Proof.
  intros Hd Hcur Hp Hs Hw Hage. unfold nextRecordClock. apply String.eqb_neq in Hd as Hd'. rewrite Hd', Hcur. cbn [fst].
  fold (bumped dev (fr_Clock cur) wall). set (c := drop_aged dev _ _).
  assert (Hkept : ∀ k, k ≠ dev → kept dev (fr_ClockAge cur) k = negb (8 <=? at0 (fr_ClockAge cur) k + 1)).
  { intros k Hk. unfold kept, aged. apply String.eqb_neq in Hk. rewrite Hk. unfold clockAgeCompactions.
    specialize (Hage k). rewrite wrap64_id by (unfold in_int64, int64_min, int64_max in *; lia). done. }
  assert (Hown : at0 c dev = Z.max (at0 (fr_Clock cur) dev) wall + 1).
  { unfold c. rewrite drop_aged_at0. unfold kept, aged. rewrite String.eqb_refl.
    by rewrite bumped_at0, decide_True. }
  assert (Hnn : nonneg c).
  { intros k z Hz. apply map_lookup_filter_Some in Hz as [Hz _].
    exact (bumped_nonneg dev (fr_Clock cur) wall Hp Hs Hw k z Hz). }
  split; [done|]. split; [|split].
  - intros k Hk. unfold c. rewrite drop_aged_at0, Hkept by done. destruct (8 <=? _); [done|].
    cbn [negb]. by rewrite bumped_at0, decide_False.
  - intros Hne Hyoung. apply clockDominates_lt; [done..|]. split; [done|].
    assert (Heq : ∀ k, at0 c k = at0 (bumped dev (fr_Clock cur) wall) k).
    { intros k. unfold c. rewrite drop_aged_at0. destruct (decide (k = dev)) as [->|Hk].
      - unfold kept, aged. by rewrite String.eqb_refl.
      - rewrite Hkept by done. specialize (Hyoung k Hk). by destruct (Z.leb_spec 8 (at0 (fr_ClockAge cur) k + 1)); [lia|]. }
    destruct (bumped_gt dev (fr_Clock cur) wall Hp Hs Hw) as [Hle (k & Hk)].
    split; [intros j; rewrite Heq; apply Hle|]. exists k. by rewrite Heq.
  - intros d Nd Hdev'. apply not_true_is_false. rewrite clockDominates_lt by done.
    intros [_ [Hle _]]. specialize (Hle dev). lia.
Qed.

Definition demo_rec : FileRecord :=
  MkFileRecord 3 420 "" "2024-01-01T00:00:00Z" 10 [] "" {["dev-a" := 5; "dev-b" := 7]} {["dev-a" := 3]}.
Definition demo_idx : Index := MkIndex 2 "" {["content/a" := demo_rec]}.

Lemma nextRecordClock_order_witness :
  let c := (nextRecordClock "dev-b" demo_idx "content/a" 3).1 in
  c = {["dev-a" := 5; "dev-b" := 8]} ∧ at0 c "dev-b" = 8.
Proof.
  cbv zeta. split; [vm_compute; reflexivity|].
  refine (eq_trans (proj1 (nextRecordClock_order "dev-b" demo_idx "content/a" demo_rec 3 _ _ _ _ _ _)) _).
  - discriminate.
  - vm_compute. reflexivity.
  - unfold nonneg. by_decide.
  - vm_compute. reflexivity.
  - vm_compute. reflexivity.
  - intros k. unfold at0. cbn [demo_rec fr_ClockAge]. destruct (decide (k = "dev-a")) as [->|Hk]; [vm_compute; split; [discriminate|reflexivity]|].
    rewrite (lookup_singleton_ne (M:=gmap string)) by congruence. vm_compute. split; [discriminate|reflexivity].
  - vm_compute. reflexivity.
Defined.

(** ** Generations *)

(** The generations handed out by successive local writes at the given wall
    clocks. *)
Fixpoint generations (s : St) (walls : list Z) : list Z :=
  match walls with
  | [] => []
  | w :: ws => match nextGeneration w s with
               | (s', Ok g) => g :: generations s' ws
               | (_, Err _) => []
               end
  end.

Lemma nextGeneration_spec w s :
  in_int64 (st_maxGen s) → st_maxGen s < int64_max →
  ∃ g, nextGeneration w s = (set_maxGen s g, Ok g) ∧ g = Z.max w (st_maxGen s + 1).
Proof.
  intros Hm Hlt. unfold nextGeneration. unfold in_int64, int64_min, int64_max in *.
  rewrite wrap64_id by (unfold in_int64, int64_min, int64_max; lia). eexists. split; [reflexivity|].
  destruct (Z.ltb_spec w (st_maxGen s + 1)); lia.
Qed.

Lemma generations_spec b walls : ∀ s,
  in_int64 (st_maxGen s) → st_maxGen s ≤ b → Forall (fun w => w ≤ b) walls → b + Z.of_nat (length walls) < int64_max →
  length (generations s walls) = length walls ∧
  Forall (fun g => st_maxGen s < g) (generations s walls) ∧
  StronglySorted Z.lt (generations s walls) ∧
  Forall2 Z.le walls (generations s walls).
Proof.
  revert b. induction walls as [|w ws IH]; intros b s Hm Hb Hw Hlen; cbn [generations length] in *.
  { repeat constructor. }
  apply Forall_cons in Hw as [Hw Hws].
  destruct (nextGeneration_spec w s Hm ltac:(lia)) as (g & -> & Hg).
  destruct (IH (b + 1) (set_maxGen s g)) as (H1 & H2 & H3 & H4); cbn [st_maxGen set_maxGen].
  - unfold in_int64, int64_min, int64_max in *. lia.
  - lia.
  - eapply Forall_impl; [exact Hws|]. intros x Hx. cbn in *. lia.
  - lia.
  - cbn [st_maxGen set_maxGen] in H2. split; [cbn; lia|]. split; [|split].
    + constructor; [lia|]. eapply Forall_impl; [exact H2|]. intros x Hx. cbn in *. lia.
    + by constructor.
    + constructor; [lia|done].
Qed.

(** Generations order a device's writes after everything it has observed: at
    any wall clocks, a clock that stands still or goes back included, the
    generations handed out strictly increase, are above every generation observed
    before, and are never below the wall clock. *)
Theorem generations_increase (s : St) (walls : list Z) (b : Z) :
  in_int64 (st_maxGen s) → st_maxGen s ≤ b → Forall (fun w => w ≤ b) walls → b + Z.of_nat (length walls) < int64_max →
  length (generations s walls) = length walls ∧
  Forall (fun g => st_maxGen s < g) (generations s walls) ∧
  StronglySorted Z.lt (generations s walls) ∧ Forall2 Z.le walls (generations s walls).
Proof. intros. by apply (generations_spec b). Qed.

Definition demo_st : St := mkSt ∅ 0 None 100 None.
Lemma generations_increase_witness :
  generations demo_st [50; 50; 200; 7] = [101; 102; 200; 201] ∧
  StronglySorted Z.lt (generations demo_st [50; 50; 200; 7]).
Proof.
  split; [vm_compute; reflexivity|].
  refine (proj1 (proj2 (proj2 (generations_increase demo_st [50; 50; 200; 7] 200 _ _ _ _)))).
  - split; vm_compute; discriminate.
  - vm_compute. discriminate.
  - repeat constructor; vm_compute; discriminate.
  - vm_compute. reflexivity.
Defined.
