(* ===== verification/LoadFacts.v ===== *)
(** Loading is read-only, and what a load reports comes from the manifest tree. *)
From S2P Require Export Cache WorldFacts StoreFacts ReconcileFacts.
Local Open Scope Z_scope.

Section loads.
Context `{GoUnicode} `{AEAD} `{Env} `{JSON ManifestRecord} `{JSON Index} (v : Vault) (I : files → Prop).

Lemma walk_or_empty_preserves root : preserves I (walk_or_empty root).
Proof. unfold walk_or_empty, os_Walk. keep. Qed.
Lemma load_one_preserves acc p : preserves I (load_one v acc p).
Proof. unfold load_one, os_ReadFile. keep. Qed.
Hint Resolve walk_or_empty_preserves load_one_preserves : keep.

Lemma loadManifestIndex_preserves : preserves I (loadManifestIndex v).
Proof. unfold loadManifestIndex, os_Stat, os_Walk. keep. Qed.
Lemma manifestFilesPresent_preserves : preserves I (manifestFilesPresent v).
Proof. unfold manifestFilesPresent. keep. Qed.
Lemma inspectManifestStore_preserves : preserves I (inspectManifestStore v).
Proof. unfold inspectManifestStore, os_ReadFile. keep. Qed.
Lemma loadLegacyIndex_preserves : preserves I (loadLegacyIndex v).
Proof. unfold loadLegacyIndex, os_ReadFile. keep. Qed.
Hint Resolve loadManifestIndex_preserves manifestFilesPresent_preserves loadLegacyIndex_preserves : keep.
Lemma loadIndexFromDisk_preserves : preserves I (loadIndexFromDisk v).
Proof. unfold loadIndexFromDisk. keep. Qed.
Hint Resolve loadIndexFromDisk_preserves : keep.
Lemma LoadIndex_preserves : preserves I (LoadIndex v).
Proof. unfold LoadIndex, cachedIndexLocked. keep. Qed.
Lemma ReloadIndex_preserves : preserves I (ReloadIndex v).
Proof. unfold ReloadIndex. pose proof LoadIndex_preserves. unfold LoadIndex in *. keep. Qed.
Lemma indexFingerprint_preserves : preserves I (indexFingerprint v).
Proof. unfold indexFingerprint, os_Info. keep. Qed.
End loads.
#[export] Hint Resolve walk_or_empty_preserves loadManifestIndex_preserves inspectManifestStore_preserves
  loadIndexFromDisk_preserves LoadIndex_preserves ReloadIndex_preserves indexFingerprint_preserves : keep.

(** Files of a real tree: a path is not empty and its segments hold no slash. *)
Definition wf_disk (fs : files) : Prop := ∀ q, is_Some (fs !! q) → q ≠ [] ∧ Forall (fun x => no_slash x = true) q.

Lemma os_segs_path q : q ≠ [] → Forall (fun x => no_slash x = true) q → os_segs (os_path q) = q.
Proof. apply split_join. Qed.

Lemma files_below_spec (fs : files) root p :
  p ∈ files_below fs root ↔ is_Some (fs !! p) ∧ below root p = true ∧ p ≠ root.
Proof.
  unfold files_below. rewrite go_sort_perm, elem_of_bfilter, andb_true_iff, negb_true_iff, bool_decide_eq_false.
  rewrite list_elem_of_fmap. split.
  - intros [([q f] & -> & Hq) [Hb Hr]]. apply elem_of_map_to_list in Hq. by split; [eexists|].
  - intros ([f Hf] & Hb & Hr). split; [|done]. exists (p, f). split; [done|]. by apply elem_of_map_to_list.
Qed.

Lemma mfold_inv {A B : Type} (f : B → A → M B) (R : B → Prop) l :
  (∀ b a s s' b', a ∈ l → R b → f b a s = (s', Ok b') → R b') →
  ∀ b s s' b', R b → mfold f b l s = (s', Ok b') → R b'.
Proof.
  induction l as [|a l IH]; intros Hf b s s' b' Hb; cbn [mfold].
  { by intros [= _ <-]. }
  rewrite M_bind_ok. intros (s1 & b1 & Hb1 & Hl).
  eapply IH; [|eapply Hf; [by left|exact Hb|exact Hb1]|exact Hl].
  intros b2 a2 t t' b3 Ha. apply Hf. by right.
Qed.

Section sources.
Context `{GoUnicode} `{AEAD} `{Env} `{JSON ManifestRecord} `{JSON Index} (v : Vault) (S : string → Prop).

Definition all_from (l : list manifestCandidate) : Prop := Forall (fun c => S (mc_Source c)) l.
Definition plan_from (cs : list plannedConflict) (rs : list string) : Prop :=
  Forall (fun c => S (pc_Source c)) cs ∧ Forall S rs.

Lemma load_one_from l acc p s s' acc' :
  Forall (fun q => S (os_path q)) l → p ∈ l → all_from acc → load_one v acc p s = (s', Ok acc') → all_from acc'.
Proof.
  intros Hl Hp Hacc. rewrite Forall_forall in Hl. unfold load_one.
  destruct (negb _); [by intros [= _ <-]|]. destruct (manifestIDFromFileName _) as [id|]; [|done].
  destruct (String.eqb id ""); [by intros [= _ <-]|].
  rewrite M_bind_ok. intros (s1 & data & _ & Hr). destruct (decryptManifest v data id) as [rec|e]; [|done].
  destruct (String.eqb (mr_Path rec) ""); [by injection Hr as _ <-|].
  apply M_bind_ok in Hr as (s2 & u & _ & [= _ <-]). apply Forall_app. split; [done|].
  by apply Forall_singleton, Hl.
Qed.

Lemma group_one_from m c :
  map_Forall (fun _ l => all_from l) m → S (mc_Source c) → map_Forall (fun _ l => all_from l) (group_one v m c).
Proof.
  intros Hm Hc. unfold group_one. destruct (CleanVirtualPath _) as [cleaned|e]; [|done].
  destruct (_ || _); [done|]. apply map_Forall_insert_2; [|done].
  apply Forall_app. split; [|by apply Forall_singleton].
  destruct (m !! cleaned) eqn:E; [by eapply Hm|by constructor].
Qed.

Lemma group_by_path_from cands : all_from cands → map_Forall (fun _ l => all_from l) (group_by_path v cands).
Proof.
  intros Hc. unfold group_by_path. assert (Hm : map_Forall (fun _ l => all_from l) (∅ : gmap string (list manifestCandidate)))
    by apply map_Forall_empty.
  revert Hm. generalize (∅ : gmap string (list manifestCandidate)).
  induction Hc as [|c cands Hc _ IH]; intros m Hm; cbn [fold_left]; [done|]. apply IH. by apply group_one_from.
Qed.

Lemma reconcile_from t p l live cs rs :
  all_from l → reconcilePathCandidates t p l = Some (live, cs, rs) → plan_from cs rs.
Proof.
  intros Hl Hr. destruct (decide (l = [])) as [->|Hne]; [injection Hr as <- <- <-; by split; constructor|].
  apply reconcile_shape in Hr as (w & rest & Hw & [= _ -> ->]); [|done].
  assert (Hsub : ∀ c, c ∈ w :: rest → S (mc_Source c)).
  { intros c Hc. rewrite <- Hw in Hc. apply winner_sort_members in Hc. by eapply Forall_forall in Hl. }
  assert (Hls : ∀ x, x ∈ map pc_Source (fst (losers t p (mc_Record w) rest)) ++ snd (losers t p (mc_Record w) rest) → S x).
  { intros x. rewrite <- losers_sources. intros (c & -> & Hc)%list_elem_of_fmap. apply Hsub. by right. }
  split; [|apply Forall_app; split].
  - apply Forall_forall. intros c Hc. apply Hls, elem_of_app. left. by apply list_elem_of_fmap_2.
  - apply Forall_forall. intros x (c & -> & Hc)%list_elem_of_fmap. apply elem_of_bfilter in Hc as [Hc _].
    by eapply Forall_forall in Hl.
  - apply Forall_forall. intros x Hx. apply Hls, elem_of_app. by right.
Qed.

Lemma reconcile_all_from t byPath gs acc fs cs rs :
  Forall (fun g => all_from g.2) gs → plan_from acc.1.2 acc.2 →
  reconcile_all t byPath acc gs = Some (fs, cs, rs) → plan_from cs rs.
Proof.
  revert acc. induction gs as [|g gs IH]; intros acc Hg Hacc; cbn [reconcile_all].
  { by intros [= ->]. }
  apply Forall_cons in Hg as [Hg Hgs]. intros Hr. apply bind_Some in Hr as (acc' & Ha & Hr).
  eapply IH; [done| |exact Hr]. unfold reconcile_one in Ha. destruct acc as [[fs0 cs0] rs0], g as [p l].
  apply bind_Some in Ha as ([[live cs1] rs1] & Hrec & [= <-]). cbn in *.
  apply reconcile_from in Hrec as [Hc1 Hr1]; [|done]. destruct Hacc as [Hc0 Hr0].
  split; apply Forall_app; (split; [done|]); [|done].
  apply Forall_forall. intros c [Hc _]%elem_of_bfilter. by eapply Forall_forall in Hc1.
Qed.
End sources.

Section plan.
Context `{GoUnicode} `{AEAD} `{Env} `{JSON ManifestRecord} `{JSON Index} (v : Vault).

(** Every file a plan names is one of the manifest tree. *)
Lemma loadManifestIndex_sources s s' idx plan :
  loadManifestIndex v s = (s', Ok (idx, plan)) →
  plan_from (fun x => ∃ q, x = os_path q ∧ q ∈ files_below (st_files s) (manifestRoot v))
    (pl_conflicts plan) (pl_removeManifests plan).
Proof.
  set (S := fun x => _). unfold loadManifestIndex. rewrite M_bind_ok. intros (s1 & r & Hs1 & Hr).
  assert (Es : st_files s1 = st_files s).
  { pose proof (preserves_try (eq (st_files s)) (os_Stat (manifestRoot v)) (preserves_query _ _) s eq_refl) as E.
    by rewrite Hs1 in E. }
  assert (Hnil : plan_from S [] []) by (split; constructor).
  destruct r as [u|e].
  2:{ destruct (not_exist e); [|done]. apply M_bind_ok in Hr as (? & ? & _ & [= _ _ <-]). exact Hnil. }
  apply M_bind_ok in Hr as (s2 & ps & Hps & Hr). apply M_bind_ok in Hr as (s3 & cands & Hc & Hr).
  apply M_bind_ok in Hr as (s4 & t & _ & Hr).
  assert (HS : Forall (fun q => S (os_path q)) ps).
  { unfold os_Walk, query, syscall in Hps. destruct (env_fault _); [done|].
    destruct (is_dir (st_files s1) (manifestRoot v)); [|done]. injection Hps as _ <-. rewrite Es.
    apply Forall_forall. intros q Hq. by exists q. }
  assert (Hcands : all_from S cands).
  { revert Hc. apply (mfold_inv _ (all_from S)); [|by constructor].
    intros b a t1 t2 b' Ha Hb. by apply (load_one_from v S ps). }
  destruct cands as [|c0 ct]; [injection Hr as _ _ <-; exact Hnil|].
  apply M_bind_ok in Hr as (s5 & gs & Hgs & Hr). destruct (reconcile_all _ _ _ _) as [[[fs cs] rs]|] eqn:Er; [|done].
  injection Hr as _ _ <-. refine (reconcile_all_from S t _ gs (∅, [], []) fs cs rs _ Hnil Er).
  injection Hgs as _ <-. cbn [snd]. rewrite env_range_perm. apply Forall_forall. intros [p l] Hpl.
  apply elem_of_map_to_list in Hpl. by eapply (group_by_path_from v S (c0 :: ct) Hcands).
Qed.
End plan.

(** ** Frames of the steps that write *)

Lemma preserves_mfold_in {A B : Type} (I : files → Prop) (f : B → A → M B) l :
  (∀ b a, a ∈ l → preserves I (f b a)) → ∀ b, preserves I (mfold f b l).
Proof.
  induction l as [|a l IH]; intros Hf b; cbn [mfold]; [by intros s Hs|].
  apply preserves_bind; [apply Hf; by left|]. intros b'. apply IH. intros b2 a2 Ha. apply Hf. by right.
Qed.

Lemma below_app root q : below root (root ++ q) = true.
Proof. unfold below. rewrite take_app_length. by apply bool_decide_eq_true. Qed.

Lemma below_iff root q : below root q = true ↔ ∃ r, q = root ++ r.
Proof.
  split; [|intros [r ->]; apply below_app]. unfold below. intros E%bool_decide_eq_true.
  exists (drop (length root) q). rewrite <- E at 1. by rewrite take_drop.
Qed.

Lemma hex_head b : hex_digit (N.shiftr (Byte.to_N b) 4) ≠ dot.
Proof. by destruct b. Qed.

Lemma has_prefix_head c s d p : has_prefix (String c s) (String d p) = true → c = d.
Proof. unfold has_prefix. simpl. by destruct (ascii_dec d c). Qed.

Lemma hmacHex_not_tmp key data s : has_prefix (hmacHex key data +:+ s) ".tmp-" = false.
Proof.
  unfold hmacHex. pose proof (hmac_length key data) as Hl. destruct (hmac_sha256 key data) as [|b l]; [done|].
  apply not_true_is_false. intros Hp. apply (has_prefix_head (hex_digit (N.shiftr (Byte.to_N b) 4))) in Hp.
  by apply hex_head in Hp.
Qed.

Lemma base_snoc d x : base_of (d ++ [x]) = x.
Proof. apply last_last. Qed.
Lemma dir_snoc d x : dir_of (d ++ [x]) = d.
Proof. apply removelast_last. Qed.

Section write_frames.
Context `{GoUnicode} `{AEAD} `{Env} `{JSON ManifestRecord} `{JSON Index} (v : Vault).
Context (P : fpath → Prop) (fs0 : files).

(** [P] holds of no temporary file. *)
Hypothesis Htmp : ∀ q, P q → has_prefix (base_of q) ".tmp-" = false.

Lemma tmp_not_P d name : has_prefix name ".tmp-" = true → ¬ P (d ++ [name]).
Proof. intros Hn Ht%Htmp. rewrite base_snoc in Ht. congruence. Qed.

Lemma manifestPath_snoc id : manifestPath v id = (manifestRoot v ++ [id_prefix id]) ++ [id +:+ ".manifest"].
Proof. unfold manifestPath, manifestRoot. by rewrite <- !app_assoc. Qed.

Lemma manifestPath_below id : below (manifestRoot v) (manifestPath v id) = true.
Proof. rewrite manifestPath_snoc, <- app_assoc. apply below_app. Qed.

(** A save touches the manifest of its path only. *)
Lemma saveManifestRecord_agrees rec :
  (∀ cleaned, CleanVirtualPath (mr_Path rec) = Ok cleaned → ¬ P (manifestPath v (manifestID v cleaned))) →
  preserves (agrees P fs0) (saveManifestRecord v rec).
Proof.
  intros HP. unfold saveManifestRecord. destruct (CleanVirtualPath _) as [cleaned|e]; [|keep].
  destruct (String.eqb cleaned ""); [keep|].
  apply preserves_bind; [keep|]. intros t. apply preserves_bind; [keep|]. intros nonce.
  apply atomicWriteFile_agrees.
  - rewrite manifestPath_snoc. by destruct (manifestRoot v).
  - rewrite manifestPath_snoc, base_snoc. apply hmacHex_not_tmp.
  - by apply HP.
  - intros name. apply tmp_not_P.
Qed.

Lemma saveFileManifest_agrees p rec :
  (∀ c1 c2, CleanVirtualPath p = Ok c1 → CleanVirtualPath c1 = Ok c2 → ¬ P (manifestPath v (manifestID v c2))) →
  preserves (agrees P fs0) (saveFileManifest v p rec).
Proof.
  intros HP. unfold saveFileManifest. destruct (CleanVirtualPath _) as [cleaned|e]; [|keep].
  destruct (String.eqb cleaned ""); [keep|].
  apply preserves_bind; [keep|]. intros t. apply saveManifestRecord_agrees. intros c2. by apply HP.
Qed.

Lemma saveTombstone_agrees p g d c :
  (∀ c1 c2, CleanVirtualPath p = Ok c1 → CleanVirtualPath c1 = Ok c2 → ¬ P (manifestPath v (manifestID v c2))) →
  preserves (agrees P fs0) (saveTombstoneWithClock v p g d c).
Proof.
  intros HP. unfold saveTombstoneWithClock. destruct (CleanVirtualPath _) as [cleaned|e]; [|keep].
  destruct (String.eqb cleaned ""); [keep|].
  apply preserves_bind; [keep|]. intros t. apply saveManifestRecord_agrees. intros c2. by apply HP.
Qed.
End write_frames.

Section written.
Context `{GoUnicode} `{AEAD} `{Env} `{JSON ManifestRecord} `{JSON Index} (v : Vault).

Lemma now_run s : now s = (tick1 s, Ok (env_clock (st_tick s))).
Proof. done. Qed.

(** A saved record can be read back: its file is in place and decrypts to it. *)
Lemma saveManifestRecord_run rec cleaned s s' :
  CleanVirtualPath (mr_Path rec) = Ok cleaned → saveManifestRecord v rec s = (s', Ok tt) →
  ∃ t f, st_files s' !! manifestPath v (manifestID v cleaned) = Some f ∧
    (json_ok (fill_record t cleaned rec) →
     decryptManifest v (f_data f) (manifestID v cleaned) = Ok (fill_record t cleaned rec)) ∧
    ∀ q, q ≠ manifestPath v (manifestID v cleaned) → st_files s' !! q = st_files s !! q.
Proof.
  intros Hc. unfold saveManifestRecord. rewrite Hc. destruct (String.eqb cleaned ""); [done|].
  rewrite bind_run, now_run. cbv zeta. rewrite M_bind_ok. intros (s1 & nonce & Hn & Hw).
  set (t := env_clock (st_tick s)) in *. unfold randomBytes in Hn. destruct (env_fault _); [done|].
  injection Hn as <- <-.
  apply atomicWriteFile_run in Hw as (name & _ & _ & _ & _ & [[tf Hf] Hrest]%(fun f => f eq_refl)).
  - exists t. eexists. split; [exact Hf|]. split; [|exact Hrest].
    intros Hj. unfold decryptManifest. cbn [f_data].
    rewrite <- (env_rand_length (st_tick (tick1 s)) nonce_size) at 1. rewrite CryptoFacts.decode_encode.
    cbv beta iota delta [mbind result_bind].
    rewrite aead_open_seal by apply env_rand_length. by rewrite unmarshal_marshal.
  - rewrite manifestPath_snoc. by destruct (manifestRoot v).
  - rewrite manifestPath_snoc, base_snoc. apply hmacHex_not_tmp.
Qed.

Lemma saveFileManifest_run p cleaned rec s s' :
  CleanVirtualPath p = Ok cleaned → CleanVirtualPath cleaned = Ok cleaned → saveFileManifest v p rec s = (s', Ok tt) →
  ∃ t1 t2 f, let rec' := fill_record t2 cleaned (file_record t1 cleaned rec) in
    st_files s' !! manifestPath v (manifestID v cleaned) = Some f ∧
    (json_ok rec' → decryptManifest v (f_data f) (manifestID v cleaned) = Ok rec') ∧
    ∀ q, q ≠ manifestPath v (manifestID v cleaned) → st_files s' !! q = st_files s !! q.
Proof.
  intros Hc Hcc. unfold saveFileManifest. rewrite Hc. destruct (String.eqb cleaned ""); [done|].
  rewrite bind_run, now_run. intros Hs. apply saveManifestRecord_run with (cleaned := cleaned) in Hs as (t2 & f & Hf).
  - by exists (env_clock (st_tick s)), t2, f.
  - unfold file_record. cbn [mr_Path]. exact Hcc.
Qed.

(** What a record says of the file's contents and history; filling in dates and
    generations leaves it alone. *)
Definition payload (r : FileRecord) := (fr_Chunks r, fr_Size r, fr_Mode r, fr_ModTime r, fr_Clock r).
Lemma payload_UpdatedAt (b : bool) r t : payload (if b then with_UpdatedAt r t else r) = payload r.
Proof. by destruct b. Qed.
Lemma payload_Generation (b : bool) r g : payload (if b then with_Generation r g else r) = payload r.
Proof. by destruct b. Qed.

Lemma payload_ConflictOf r p : payload (with_ConflictOf r p) = payload r.
Proof. done. Qed.

Lemma fill_file_record t1 t2 cleaned rec :
  let r := fill_record t2 cleaned (file_record t1 cleaned rec) in
  mr_Path r = cleaned ∧ mr_Deleted r = false ∧ payload (mr_File r) = payload rec ∧ mr_Clock r = fr_Clock rec.
Proof.
  cbv zeta. unfold fill_record, file_record. cbv zeta. cbn [mr_Version mr_Path mr_Clock mr_Deleted mr_UpdatedAt mr_File].
  set (w := with_ConflictOf _ "").
  assert (Hw : payload w = payload rec)
    by (unfold w; by rewrite payload_ConflictOf, payload_Generation, payload_UpdatedAt).
  clearbody w. set (y := if fr_Generation _ =? 0 then _ else _).
  assert (Hy : payload y = payload rec) by (unfold y; by rewrite payload_Generation, payload_UpdatedAt).
  clearbody y. split; [done|]. split; [done|]. split; [done|].
  rewrite bool_decide_eq_true_2 by done. injection Hy as _ _ _ _ ->.
  case_bool_decide as E; cbn [negb andb]; [by rewrite E|done].
Qed.
End written.
