(* ===== verification/AppDir.v ===== *)
(** Where the program keeps its per-device data, and how it writes it (internal/appdir/appdir.go).

    The environment variables, the working directory, the home directory and the
    build's GOOS are the fields of [Platform]; paths are slash-separated. *)
From S2P Require Export GoPath ManifestStore.

Class Platform := {
  GOOS : string;
  getenv : string → string;
  getwd : result string;
  UserHomeDir : result string
}.

(** internal/appdir/appdir.go:13-13 [appName] *)
Definition appName : string := "open-seavault-rclone".

Section appdir.
Context `{Platform}.

(** [filepath.Abs]. *)
Definition filepath_abs (p : string) : result string :=
  if path_is_abs p then Ok (path_clean p) else wd ← getwd; Ok (path_join [wd; p]).

(** The home-directory cases both functions share. *)
Definition darwin_dir : result string :=
  home ← UserHomeDir; Ok (path_join [home; "Library"; "Application Support"; appName]).

(** internal/appdir/appdir.go:15-46 [ConfigDir] *)
Definition ConfigDir : result string :=
  let app_home := trim_space (getenv "SEAVAULT_APP_HOME") in
  let config_dir := trim_space (getenv "SEAVAULT_CONFIG_DIR") in
  if negb (String.eqb app_home "") then Ok (path_join [app_home; "config"])
  else if negb (String.eqb config_dir "") then filepath_abs config_dir
  else if String.eqb GOOS "windows" then
    if negb (String.eqb (getenv "APPDATA") "") then Ok (path_join [getenv "APPDATA"; appName])
    else home ← UserHomeDir; Ok (path_join [home; "AppData"; "Roaming"; appName])
  else if String.eqb GOOS "darwin" then darwin_dir
  else if negb (String.eqb (getenv "XDG_CONFIG_HOME") "") then Ok (path_join [getenv "XDG_CONFIG_HOME"; "seavault"])
  else home ← UserHomeDir; Ok (path_join [home; ".config"; "seavault"]).

(** internal/appdir/appdir.go:48-82 [DataDir] *)
Definition DataDir : result string :=
  let app_home := trim_space (getenv "SEAVAULT_APP_HOME") in
  let data_dir := trim_space (getenv "SEAVAULT_DATA_DIR") in
  if negb (String.eqb app_home "") then Ok (path_join [app_home; "data"])
  else if negb (String.eqb data_dir "") then filepath_abs data_dir
  else if String.eqb GOOS "windows" then
    if negb (String.eqb (getenv "LOCALAPPDATA") "") then Ok (path_join [getenv "LOCALAPPDATA"; appName])
    else if negb (String.eqb (getenv "APPDATA") "") then Ok (path_join [getenv "APPDATA"; appName])
    else home ← UserHomeDir; Ok (path_join [home; "AppData"; "Local"; appName])
  else if String.eqb GOOS "darwin" then darwin_dir
  else if negb (String.eqb (getenv "XDG_DATA_HOME") "") then Ok (path_join [getenv "XDG_DATA_HOME"; "seavault"])
  else home ← UserHomeDir; Ok (path_join [home; ".local"; "share"; "seavault"]).
End appdir.

(** ** Files of settings

    Files of settings below the configuration directory: the rest of
    internal/appdir/appdir.go, and [os.WriteFile]. *)

Local Open Scope Z_scope.

Section settings.
Context `{Env} `{Platform}.

(** [os.WriteFile]: the file is emptied or created, then written, then closed; each
    step may fail, and a failing write may have written a part. *)
Definition os_Truncate (p : fpath) : M unit := syscall (fun fs t =>
  if is_dir fs p then (fs, Err (ESentinel "EISDIR")) else (<[p := mkFile [] t]> fs, Ok tt)).
Definition os_WriteFile (p : fpath) (data : bytes) : M unit :=
  _ ← os_Truncate p;
  w ← try (os_Write p data);
  c ← try os_Quiet;
  match w with Err e => fail e | Ok _ => lift c end.

(** internal/appdir/appdir.go:86-96 [EnsureConfigDir] *)
Definition EnsureConfigDir (parts : list string) : M string :=
  base ← lift ConfigDir;
  let p := path_join (base :: parts) in
  _ ← os_MkdirAll (os_segs p);
  mret p.

(** internal/appdir/appdir.go:98-108 [EnsureDataDir] *)
Definition EnsureDataDir (parts : list string) : M string :=
  base ← lift DataDir;
  let p := path_join (base :: parts) in
  _ ← os_MkdirAll (os_segs p);
  mret p.

(** internal/appdir/appdir.go:84-84 [RuntimeDir] *)
Definition RuntimeDir : M string := EnsureDataDir ["rclone"].

(** Reading a file of settings: [None] when there is none. *)
Definition read_settings {A} `{JSON A} (p : fpath) : M (option A) :=
  r ← try (os_ReadFile p);
  match r with
  | Err e => if not_exist e then mret None else fail e
  | Ok data => match unmarshal data with Some a => mret (Some a) | None => fail (ENew "invalid character in settings") end
  end.
End settings.

(** [strings.ContainsAny(name, "/\\")]. *)
Definition has_separator (s : string) : bool :=
  existsb (fun c => Ascii.eqb c slash || Ascii.eqb c backslash) (list_ascii_of_string s).
