(* ===== verification/Anchor.v ===== *)
(** The configuration's integrity tag and the device-local freshness anchor
    (internal/vault/anchor.go, internal/vault/configmac.go). *)
From S2P Require Export AppDir Store ManifestStore GoBase64.
Local Open Scope Z_scope.
Local Open Scope seavault_scope.

(** [json.Marshal], the compact form next to [json.MarshalIndent] ([marshal]);
    [json.Unmarshal] reads both back. *)
Class CompactJSON (A : Type) `{JSON A} := {
  compact : A → bytes;
  unmarshal_compact a : json_ok a → unmarshal (compact a) = Some a
}.

(** internal/vault/anchor.go:30-41 [freshnessAnchor] *)
Record freshnessAnchor : Type := mkAnchor { an_FormatEpoch : Z; an_HasTag : bool; an_ConfigTag : string }.
#[global] Instance freshnessAnchor_eq_dec : EqDecision freshnessAnchor.
Proof. solve_decision. Defined.

Definition zero_anchor : freshnessAnchor := mkAnchor 0 false "".

(** internal/vault/vault.go:75-82 [OpenOptions] *)
Record OpenOptions : Type := mkOpenOptions { AcceptRollback : bool }.

(** internal/vault/anchor.go:20-20 [anchorUnavailableNote] *)
Definition anchorUnavailableNote : string :=
  "freshness anchoring unavailable (app data directory not writable); rollback protection is disabled for this open".

(** internal/vault/anchor.go:59-59 [anchorInfo] *)
Definition anchorInfo : string := "seavault-anchor-id-v1".
(** internal/vault/configmac.go:19-19 [configMACInfo] *)
Definition configMACInfo : string := "seavault-config-mac-v1".

Definition ErrConfigTampered : err := ESentinel "ErrConfigTampered".
Definition ErrConfigRolledBack : err := ESentinel "ErrConfigRolledBack".
Definition ErrConfigDiverged : err := ESentinel "ErrConfigDiverged".

(** A vault whose configuration and notes can change: the fields [Config] and
    [anchorNote] of a [Vault]. *)
Record Handle : Type := mkHandle { h_vault : Vault; h_anchorNote : string }.
Definition set_Config (v : Vault) (c : VaultConfig) : Vault :=
  mkVault (v_Root v) (v_MetaRoot v) c (v_keys v) (v_chunkAEAD v) (v_indexAEAD v) (v_deviceID v).
(** [if note != "" { v.anchorNote = note }]. *)
Definition note_or (note old : string) : string := if String.eqb note "" then old else note.

(** ** The tag *)

Section tag.
Context `{JV : JSON VaultConfig} `{!CompactJSON VaultConfig}.

(** internal/vault/configmac.go:32-32 [configMACKey] *)
Definition configMACKey (master : bytes) : bytes := deriveSubkey master configMACInfo.

(** internal/vault/configmac.go:40-43 [canonicalConfigBytes] *)
Definition canonicalConfigBytes (cfg : VaultConfig) : bytes := compact (set_ConfigTag cfg "").

(** internal/vault/configmac.go:47-55 [computeConfigTag] *)
Definition computeConfigTag (master : bytes) (cfg : VaultConfig) : string :=
  b64_encode (hmac_sha256 (configMACKey master) (canonicalConfigBytes cfg)).

(** internal/vault/configmac.go:61-71 [verifyConfigTag] *)
Definition verifyConfigTag (master : bytes) (cfg : VaultConfig) : bool :=
  let want := ConfigTag cfg in
  if String.eqb want "" then false else constantTimeStringEqual (computeConfigTag master cfg) want.
End tag.

(** ** The anchor *)

Section anchor.
Context `{Platform} `{Env} `{JA : JSON freshnessAnchor}.

(** internal/vault/anchor.go:49-55 [anchorStorePath] *)
Definition anchorStorePath (anchorID : string) : result fpath :=
  base ← DataDir; mret (os_segs (path_join [base; "vault-anchors"; anchorID +:+ ".json"])).

(** internal/vault/anchor.go:82-84 [anchorID] *)
Definition anchorID (v : Vault) : string := str_take 32 (hmacHex (MasterKey (v_keys v)) (bytes_of anchorInfo)).
(** internal/vault/anchor.go:86-86 [anchorPath] *)
Definition anchorPath (v : Vault) : result fpath := anchorStorePath (anchorID v).

(** internal/vault/anchor.go:95-109 [loadAnchor] *)
Definition loadAnchor (p : fpath) : M (freshnessAnchor * bool) :=
  r ← try (os_ReadFile p);
  match r with
  | Err e => if not_exist e then mret (zero_anchor, false) else fail e
  | Ok data => match unmarshal data with Some a => mret (a, true) | None => mret (zero_anchor, false) end
  end.

(** internal/vault/anchor.go:114-120 [saveAnchor] *)
Definition saveAnchor (p : fpath) (a : freshnessAnchor) : M unit := atomicWriteFile p (marshal a).

(** internal/vault/anchor.go:133-168 [recordAnchor]: the anchor to store next to the
    one read. *)
Definition next_anchor (cur : freshnessAnchor) (epoch : Z) (hasTag : bool) (tag : string) : freshnessAnchor :=
  let tagged :=
    if an_FormatEpoch cur <? epoch
    then mkAnchor epoch (an_HasTag cur) (if String.eqb tag "" then an_ConfigTag cur else tag)
    else if (epoch =? an_FormatEpoch cur) && String.eqb (an_ConfigTag cur) "" && negb (String.eqb tag "")
    then mkAnchor (an_FormatEpoch cur) (an_HasTag cur) tag
    else cur in
  if hasTag then mkAnchor (an_FormatEpoch tagged) true (an_ConfigTag tagged) else tagged.

(** internal/vault/anchor.go:133-168 [recordAnchor] *)
Definition recordAnchor (v : Vault) (epoch : Z) (hasTag : bool) (tag : string) : M string :=
  match anchorPath v with
  | Err _ => mret anchorUnavailableNote
  | Ok path =>
      r ← try (loadAnchor path);
      let '(cur, existed) := match r with Ok ce => ce | Err _ => (zero_anchor, false) end in
      let next := next_anchor cur epoch hasTag tag in
      if existed && bool_decide (next = cur) then mret ""
      else
        w ← try (saveAnchor path next);
        mret (match w with Ok _ => "" | Err _ => anchorUnavailableNote end)
  end.

(** internal/vault/anchor.go:175-184 [clearAnchor] *)
Definition clearAnchor (v : Vault) : M string :=
  match anchorPath v with
  | Err _ => mret anchorUnavailableNote
  | Ok path =>
      r ← try (os_Remove path);
      mret (match r with
            | Ok _ => ""
            | Err e => if not_exist e then "" else anchorUnavailableNote
            end)
  end.

(** internal/vault/configmac.go:131-168 [checkFreshness]; the result is the
    vault's anchor note. *)
Definition checkFreshness (h : Handle) (opts : OpenOptions) : M string :=
  let v := h_vault h in
  match anchorPath v with
  | Err _ => mret anchorUnavailableNote
  | Ok path =>
      r ← try (loadAnchor path);
      match r with
      | Err _ => mret anchorUnavailableNote
      | Ok (anc, existed) =>
          let epoch := FormatEpoch (v_Config v) in
          let tag := ConfigTag (v_Config v) in
          note ←
            (if existed && (epoch <? an_FormatEpoch anc) then
               if AcceptRollback opts then c ← clearAnchor v; mret (note_or c (h_anchorNote h))
               else fail ErrConfigRolledBack
             else if existed && (epoch =? an_FormatEpoch anc) && negb (String.eqb (an_ConfigTag anc) "") &&
                     negb (constantTimeStringEqual tag (an_ConfigTag anc))
             then fail ErrConfigDiverged
             else mret (h_anchorNote h));
          n ← recordAnchor v epoch true tag;
          mret (note_or n note)
      end
  end.

Context `{JV : JSON VaultConfig} `{!CompactJSON VaultConfig}.

(** internal/vault/configmac.go:81-110 [checkConfigIntegrity] *)
Definition checkConfigIntegrity (h : Handle) (opts : OpenOptions) : M string :=
  let v := h_vault h in
  if negb (String.eqb (ConfigTag (v_Config v)) "") then
    if negb (verifyConfigTag (MasterKey (v_keys v)) (v_Config v)) then fail ErrConfigTampered
    else checkFreshness h opts
  else
    match anchorPath v with
    | Err _ => mret anchorUnavailableNote
    | Ok path =>
        r ← try (loadAnchor path);
        match r with
        | Err _ => mret anchorUnavailableNote
        | Ok (anc, existed) =>
            if existed && an_HasTag anc then fail ErrConfigTampered else mret (h_anchorNote h)
        end
    end.

(** internal/vault/configmac.go:174-180 [writeConfigFile] *)
Definition writeConfigFile (v : Vault) (cfg : VaultConfig) : M unit :=
  atomicWriteFile (v_MetaRoot v ++ [ConfigFileName]) (marshal cfg).

(** internal/vault/rotation.go:38-52 [rewriteConfig]: the common end of every rewrite
    of the configuration: bump the epoch, tag, publish, then advance the anchor. *)
Definition publish (h : Handle) (next : VaultConfig) : M Handle :=
  let v := h_vault h in
  let next := set_FormatEpoch next (FormatEpoch (v_Config v) +64 1) in
  let next := set_ConfigTag next (computeConfigTag (MasterKey (v_keys v)) next) in
  _ ← writeConfigFile v next;
  let v' := set_Config v next in
  note ← recordAnchor v' (FormatEpoch next) true (ConfigTag next);
  mret (mkHandle v' (note_or note (h_anchorNote h))).

(** internal/vault/configmac.go:194-215 [EnsureConfigMAC] *)
Definition EnsureConfigMAC (h : Handle) : M (Handle * bool) :=
  if negb (String.eqb (ConfigTag (v_Config (h_vault h))) "") then mret (h, false)
  else h' ← publish h (v_Config (h_vault h)); mret (h', true).

(** internal/vault/rotation.go:27-52 [rewriteConfig] *)
Definition rewriteConfig (h : Handle) (mutate : VaultConfig → M VaultConfig) : M Handle :=
  next ← mutate (v_Config (h_vault h));
  publish h next.
End anchor.
