(* ===== verification/Fields.v ===== *)
(** The serialisation the witnesses run on, in place of encoding/json: a value is a
    list of fields, a field its bytes, each byte after a mark; the fields of a
    value are those of its parts in order, those of a list after its length. *)
From S2P Require Export LoadFacts Crypto Anchor.
Local Open Scope Z_scope.

(** ** Fields as bytes *)

Fixpoint field_bytes (s : bytes) : bytes :=
  match s with [] => [Byte.x00] | b :: s => Byte.x01 :: b :: field_bytes s end.
Definition fields_bytes (l : list bytes) : bytes := flat_map field_bytes l.
(** [cur] is the field being read, last byte first. *)
Fixpoint read_fields (cur l : bytes) : option (list bytes) :=
  match l with
  | [] => match cur with [] => Some [] | _ => None end
  | Byte.x00 :: l => r ← read_fields [] l; Some (rev cur :: r)
  | Byte.x01 :: b :: l => read_fields (b :: cur) l
  | _ => None
  end.

Lemma read_field s cur rest : read_fields cur (field_bytes s ++ rest) = (r ← read_fields [] rest; Some ((rev cur ++ s) :: r)).
Proof.
  revert cur. induction s as [|b s IH]; intros cur; cbn [field_bytes app read_fields]; [by rewrite app_nil_r|].
  rewrite IH. cbn [rev]. by rewrite <- app_assoc.
Qed.
Lemma read_fields_bytes l : read_fields [] (fields_bytes l) = Some l.
Proof. induction l as [|s l IH]; [done|]. cbn [fields_bytes flat_map]. rewrite read_field. fold (fields_bytes l). by rewrite IH. Qed.

(** ** Values as fields *)

(** [put a] is the fields of [a]; [get] reads a value off the front. *)
Class Fields (A : Type) := {
  put : A → list bytes;
  get : list bytes → option (A * list bytes);
  get_put a l : get (put a ++ l) = Some (a, l)
}.

Fixpoint pos_bytes (p : positive) : bytes :=
  match p with xH => [] | xO p => Byte.x30 :: pos_bytes p | xI p => Byte.x31 :: pos_bytes p end.
Fixpoint bytes_pos (l : bytes) : option positive :=
  match l with
  | [] => Some 1%positive
  | b :: l => p ← bytes_pos l; if bool_decide (b = Byte.x31) then Some (xI p)
              else if bool_decide (b = Byte.x30) then Some (xO p) else None
  end.
Lemma bytes_pos_bytes p : bytes_pos (pos_bytes p) = Some p.
Proof. induction p as [p IH|p IH|]; simpl; [by rewrite IH..|done]. Qed.
Definition z_field (z : Z) : bytes :=
  match z with Z0 => [] | Zpos p => Byte.x2b :: pos_bytes p | Zneg p => Byte.x2d :: pos_bytes p end.
Definition z_read (l : bytes) : option Z :=
  match l with
  | [] => Some 0
  | b :: l => p ← bytes_pos l; Some (if bool_decide (b = Byte.x2d) then Zneg p else Zpos p)
  end.
Lemma z_read_field z : z_read (z_field z) = Some z.
Proof. destruct z; cbn; [done|by rewrite bytes_pos_bytes..]. Qed.
Lemma str_of_bytes_of s : str_of (bytes_of s) = s.
Proof. apply string_of_list_byte_of_string. Qed.

#[global] Instance Z_Fields : Fields Z.
Proof.
  refine {| put z := [z_field z]; get l := match l with f :: l => z ← z_read f; Some (z, l) | [] => None end |}.
  intros z l. cbn [app]. by rewrite z_read_field.
Defined.
#[global] Instance string_Fields : Fields string.
Proof.
  refine {| put s := [bytes_of s]; get l := match l with f :: l => Some (str_of f, l) | [] => None end |}.
  intros s l. cbn [app]. by rewrite str_of_bytes_of.
Defined.
#[global] Instance bool_Fields : Fields bool.
Proof.
  refine {| put (b : bool) := [if b then [Byte.x31] else []];
            get l := match l with f :: l => Some (match f with [] => false | _ => true end, l) | [] => None end |}.
  by intros [] l.
Defined.
#[global] Instance unit_Fields : Fields ().
Proof. refine {| put _ := []; get l := Some ((), l) |}. by intros [] l. Defined.
#[global] Instance prod_Fields `{Fields A, Fields B} : Fields (A * B).
Proof.
  refine {| put x := put x.1 ++ put x.2; get l := '(a, l) ← get l; '(b, l) ← get l; Some ((a, b), l) |}.
  intros [a b] l. cbn [fst snd]. rewrite <- app_assoc, get_put. cbn [mbind option_bind]. by rewrite get_put.
Defined.

Section list.
Context `{Fields A}.
Fixpoint get_n (n : nat) (l : list bytes) : option (list A * list bytes) :=
  match n with
  | O => Some ([], l)
  | S n => '(a, l) ← get l; '(r, l) ← get_n n l; Some (a :: r, l)
  end.
Lemma get_n_put (x : list A) l : get_n (length x) (flat_map put x ++ l) = Some (x, l).
Proof.
  induction x as [|a x IH]; [done|]. cbn [length flat_map get_n]. rewrite <- app_assoc, get_put. cbn [mbind option_bind].
  by rewrite IH.
Qed.
#[global] Instance list_Fields : Fields (list A).
Proof.
  refine {| put x := put (Z.of_nat (length x)) ++ flat_map put x; get l := '(n, l) ← get l; get_n (Z.to_nat n) l |}.
  intros x l. rewrite <- app_assoc, get_put. cbn [mbind option_bind]. rewrite Nat2Z.id. apply get_n_put.
Defined.
End list.

(** A type whose values are those of another that has fields. *)
Section via.
Context `{Fields B} {A : Type} (f : A → B) (g : B → A) (Hfg : ∀ a, g (f a) = a).
Definition Fields_via : Fields A.
Proof.
  refine {| put a := put (f a); get l := '(b, l) ← get l; Some (g b, l) |}.
  intros a l. rewrite get_put. cbn [mbind option_bind]. by rewrite Hfg.
Defined.
End via.

#[global] Instance option_Fields `{Fields A} : Fields (option A).
Proof.
  refine (Fields_via (fun o : option A => match o with Some a => [a] | None => [] end) (fun l => head l) _). by intros [].
Defined.
#[global] Instance map_Fields `{Fields A} : Fields (gmap string A).
Proof. exact (Fields_via map_to_list list_to_map list_to_map_to_list). Defined.

(** ** The JSON of a type with fields *)

Section json.
Context `{Fields A}.
Definition fields_marshal (a : A) : bytes := fields_bytes (put a).
Definition fields_unmarshal (l : bytes) : option A :=
  l ← read_fields [] l; '(a, r) ← get l; match r with [] => Some a | _ => None end.
Lemma fields_roundtrip (a : A) : True → fields_unmarshal (fields_marshal a) = Some a.
Proof.
  intros _. unfold fields_unmarshal, fields_marshal. rewrite read_fields_bytes. cbn [mbind option_bind].
  rewrite <- (app_nil_r (put a)), get_put. done.
Qed.
Definition fields_json : JSON A :=
  {| marshal := fields_marshal; unmarshal := fields_unmarshal; json_ok _ := True; unmarshal_marshal := fields_roundtrip |}.
End json.

(** ** The records of a vault

    The records of a vault as fields, and a first run on a concrete vault. *)

#[global] Instance ChunkRef_Fields : Fields ChunkRef.
Proof. by apply (Fields_via (fun r => (ref_ID r, ref_Size r)) (fun '(i, n) => MkChunkRef i n)); intros []. Defined.
#[global] Instance FileRecord_Fields : Fields FileRecord.
Proof.
  by apply (Fields_via
    (fun r => (fr_Size r, fr_Mode r, fr_ModTime r, fr_UpdatedAt r, fr_Generation r, fr_Chunks r, fr_ConflictOf r, fr_Clock r, fr_ClockAge r))
    (fun '(a, b, c, d, e, f, g, h, i) => MkFileRecord a b c d e f g h i)); intros [].
Defined.
#[global] Instance ManifestRecord_Fields : Fields ManifestRecord.
Proof.
  by apply (Fields_via (fun r => (mr_Version r, mr_Path r, mr_UpdatedAt r, mr_Deleted r, mr_DeletedGeneration r, mr_Clock r, mr_File r))
    (fun '(a, b, c, d, e, f, g) => MkManifestRecord a b c d e f g)); intros [].
Defined.
#[global] Instance Index_Fields : Fields Index.
Proof. by apply (Fields_via (fun r => (ix_Version r, ix_UpdatedAt r, ix_Files r)) (fun '(a, b, c) => MkIndex a b c)); intros []. Defined.
#[global] Instance LegacyID_Fields : Fields LegacyID.
Proof. by apply (Fields_via (fun r => (lid_Root r, lid_Salt r)) (fun '(a, b) => mkLegacyID a b)); intros []. Defined.

Definition json_manifest : JSON ManifestRecord := fields_json.
Definition json_index : JSON Index := fields_json.
Definition json_legacy : JSON LegacyID := fields_json.
Definition json_seen : JSON (gmap string string) := fields_json.

#[local] Existing Instances demo_unicode demo_aead demo_env json_manifest json_index json_legacy json_seen.

Definition empty_st : St := mkSt ∅ 0 None 0 None.
Definition demo_file : FileRecord := MkFileRecord 5 384 "2024-01-01T00:00:00Z" "2024-01-01T00:00:00Z" 7
  [MkChunkRef "ab" 5] "" {["dev-a" := 7%Z]} ∅.
Definition demo_saved : St * result () :=
  saveFileManifest demo_vault "content/a" demo_file empty_st.
Example demo_load :
  (fun '(s, r) => match r with Ok (i, _) => map_to_list (ix_Files i) | Err _ => [] end)
    (loadManifestIndex demo_vault demo_saved.1) = [("content/a", demo_file)].
Proof. vm_compute. reflexivity. Qed.

(** ** The configuration and the stores of a device

    The configuration, the freshness anchor and the device-local stores as fields,
    and a platform to run on. *)

#[global] Instance anchor_Fields : Fields freshnessAnchor.
Proof. by apply (Fields_via (fun a => (an_FormatEpoch a, an_HasTag a, an_ConfigTag a)) (fun '(e, h, t) => mkAnchor e h t)); intros []. Defined.
#[global] Instance kdf_Fields : Fields KDFConfig.
Proof.
  by apply (Fields_via
    (fun k => (Algorithm k, Iterations k, Salt k, ScryptN k, ScryptR k, ScryptP k, MemoryKiB k, Time k, Parallelism k))
    (fun '(a, i, s, n, r, p, m, t, q) => mkKDF a i s n r p m t q)); intros [].
Defined.
#[global] Instance entry_Fields : Fields WrapEntry.
Proof.
  by apply (Fields_via (fun e => (we_ID e, we_Type e, we_KDF e, we_Nonce e, we_CT e, we_AAD e))
    (fun '(i, t, k, n, c, a) => mkWrapEntry i t k n c a)); intros [].
Defined.
#[global] Instance crypto_Fields : Fields CryptoConfig.
Proof.
  by apply (Fields_via
    (fun k => (KeyWrap k, ChunkAEAD k, IndexAEAD k, ObjectID k, ChunkerName k, StorageMode k, ManifestMode k, ManifestShards k, DirIDEpoch k))
    (fun '(a, b, c, d, e, f, g, m, n) => mkCrypto a b c d e f g m n)); intros [].
Defined.
#[global] Instance params_Fields : Fields ChunkParams.
Proof. by apply (Fields_via (fun p => (MinSize p, AvgSize p, MaxSize p)) (fun '(a, b, c) => mkChunkParams a b c)); intros []. Defined.
#[global] Instance config_Fields : Fields VaultConfig.
Proof.
  by apply (Fields_via
    (fun c => (Version c, MinReader c, FormatEpoch c, VaultID c, CreatedAt c, KDF c, Crypto c, Chunk c, WrappedKeys c, WrapNonce c, WrapEntries c, ConfigTag c))
    (fun '(v, m, e, i, t, k, y, p, w, n, es, g) => mkConfig v m e i t k y p w n es g)); intros [].
Defined.

Definition fields_compact `{Fields A} : @CompactJSON A fields_json := @Build_CompactJSON A fields_json fields_marshal fields_roundtrip.
Definition json_config : JSON VaultConfig := fields_json.
Definition json_anchor : JSON freshnessAnchor := fields_json.
Definition compact_config : @CompactJSON VaultConfig json_config := fields_compact.

Definition demo_platform : Platform := {| GOOS := "linux"; getenv _ := ""; getwd := Ok "/"; UserHomeDir := Ok "/home/u" |}.
