(* ===== verification/Compact.v ===== *)
(** Compaction: applying the plan a load computed (internal/vault/compact.go).

    [compact] returns its report beside its error, so its result is the pair; an
    entry of [cr_Errors] is the error and the format string around it. *)
From S2P Require Export Cache.
Local Open Scope Z_scope.

(** [time.Hour], and [t.Sub(u)], which saturates at the bounds of [Duration]. *)
Definition hour : Z := 3600 * nano.
Definition dur_sub (t u : Z) : Z := Z.max int64_min (Z.min int64_max (t - u)).

(** internal/vault/gc.go:25-25 [GCIntentDirName] *)
Definition GCIntentDirName : string := "gc-intents".

(** internal/vault/compact.go:20-20 [GCFenceDefault] *)
Definition GCFenceDefault : Z := 72 * hour.

(** internal/vault/compact.go:29-34 [CompactReport] *)
Record CompactReport : Type := mkCompactReport {
  cr_Conflicts : list string;
  cr_RemovedManifests : Z;
  cr_TmpOrphans : list fpath;
  cr_Errors : list err
}.

(** internal/vault/compact.go:38-40 [CompactReport.Materialised] *)
Definition Materialised (r : CompactReport) : bool :=
  negb (bool_decide (cr_Conflicts r = [])) || (0 <? cr_RemovedManifests r) || negb (bool_decide (cr_TmpOrphans r = [])).

(** One step of the report. *)
Definition add_conflict (r : CompactReport) (p : string) : CompactReport :=
  mkCompactReport (cr_Conflicts r ++ [p]) (cr_RemovedManifests r) (cr_TmpOrphans r) (cr_Errors r).
Definition add_removed (r : CompactReport) : CompactReport :=
  mkCompactReport (cr_Conflicts r) (cr_RemovedManifests r + 1) (cr_TmpOrphans r) (cr_Errors r).
Definition add_error (r : CompactReport) (e : err) : CompactReport :=
  mkCompactReport (cr_Conflicts r) (cr_RemovedManifests r) (cr_TmpOrphans r) (cr_Errors r ++ [e]).

Section compact.
Context `{GoUnicode} `{AEAD} `{Env} `{JSON ManifestRecord} `{JSON Index} (v : Vault).

(** internal/vault/compact.go:158-178 [sweepTmpOrphans]: the callback of [sweepTmpOrphans] on one file: the orphans and errors so far. *)
Definition sweep_one (now : Z) (apply : bool) (fence : Z) (acc : list fpath * list err) (p : fpath)
    : M (list fpath * list err) :=
  let '(orphans, errs) := acc in
  if negb (has_prefix (base_of p) ".tmp-") then mret acc
  else
    r ← try (os_Info p);
    match r with
    | Err e => if not_exist e then mret acc else mret (orphans, errs ++ [EWrap "stat %s: " e])
    | Ok f =>
        if dur_sub now (f_mtime f) <? fence then mret acc
        else
          let orphans := orphans ++ [p] in
          if apply then
            r ← try (removeWithRetry p);
            match r with
            | Ok _ => mret (orphans, errs)
            | Err e => mret (orphans, errs ++ [EWrap "sweep %s: " e])
            end
          else mret (orphans, errs)
    end.

(** The three trees [atomicWriteFile] writes into. *)
Definition tmp_roots : list fpath :=
  [v_MetaRoot v ++ ["objects"; "chunks"]; v_MetaRoot v ++ [ManifestDirName]; v_MetaRoot v ++ [GCIntentDirName]].

(** internal/vault/compact.go:142-182 [sweepTmpOrphans] *)
Definition sweepTmpOrphans (now : Z) (apply : bool) (fence : Z) : M (list fpath * list err) :=
  mfold (fun (acc : list fpath * list err) root =>
    r ← try (os_Walk root);
    match r with
    | Err e => if not_exist e then mret acc else mret (acc.1, acc.2 ++ [EWrap "walk %s: " e])
    | Ok ps => mfold (sweep_one now apply fence) acc ps
    end) ([], []) tmp_roots.

(** internal/vault/compact.go:86-102 [compact]: one planned conflict: write the conflict manifest, then remove its source. *)
Definition apply_conflict (apply : bool) (report : CompactReport) (c : plannedConflict) : M CompactReport :=
  if negb apply then mret (add_removed (add_conflict report (pc_Path c)))
  else
    r ← try (saveFileManifest v (pc_Path c) (pc_Rec c));
    match r with
    | Err e => mret (add_error report (EWrap "materialise conflict %s: " e))
    | Ok _ =>
        let report := add_conflict report (pc_Path c) in
        r ← try (removeWithRetry (os_segs (pc_Source c)));
        match r with
        | Err e => mret (add_error report (EWrap "remove superseded %s: " e))
        | Ok _ => mret (add_removed report)
        end
    end.

(** internal/vault/compact.go:106-116 [compact]: one manifest to remove. *)
Definition apply_remove (apply : bool) (report : CompactReport) (p : string) : M CompactReport :=
  if negb apply then mret (add_removed report)
  else
    r ← try (removeWithRetry (os_segs p));
    match r with
    | Err e => mret (add_error report (EWrap "remove %s: " e))
    | Ok _ => mret (add_removed report)
    end.

(** internal/vault/compact.go:68-133 [compact] *)
Definition compact (now : Z) (apply : bool) (fence : Z) : M (CompactReport * option err) :=
  '(_, plan) ← loadManifestIndex v;
  report ← mfold (apply_conflict apply) (mkCompactReport [] 0 [] []) (pl_conflicts plan);
  report ← mfold (apply_remove apply) report (pl_removeManifests plan);
  '(orphans, sweepErrs) ← sweepTmpOrphans now apply fence;
  let report := mkCompactReport (cr_Conflicts report) (cr_RemovedManifests report) orphans (cr_Errors report ++ sweepErrs) in
  _ ← (if apply && Materialised report then modify (fun s => set_cached s None) else mret tt);
  mret (report, match cr_Errors report with
                | [] => None
                | _ => Some (ENew "compact completed with %d error(s)")
                end).

(** internal/vault/compact.go:51-53 [Compact] *)
Definition Compact : M (CompactReport * option err) := t ← now; compact t true GCFenceDefault.

(** internal/vault/compact.go:57-59 [CompactPlan] *)
Definition CompactPlan : M (CompactReport * option err) := t ← now; compact t false GCFenceDefault.
End compact.
