(* ===== verification/CompactFacts.v ===== *)
(** Properties of compaction: what it may touch, and that a losing edit is on disk
    under its conflict name before the manifest it came from is removed. *)
From S2P Require Export Fields Compact.
Local Open Scope Z_scope.

Section dry.
Context `{GoUnicode} `{AEAD} `{Env} `{JSON ManifestRecord} `{JSON Index} (v : Vault) (I : files → Prop).

Lemma sweep_plan_preserves now fence acc p : preserves I (sweep_one now false fence acc p).
Proof. unfold sweep_one, os_Info. destruct acc. keep. Qed.

Lemma compact_plan_preserves now fence : preserves I (compact v now false fence).
Proof.
  unfold compact, sweepTmpOrphans, os_Walk, apply_conflict, apply_remove. cbn [negb andb].
  pose proof (sweep_plan_preserves now fence). keep.
Qed.
End dry.

Section frame.
Context `{GoUnicode} `{AEAD} `{Env} `{JSON ManifestRecord} `{JSON Index} (v : Vault).
Context (P : fpath → Prop) (fs0 : files).
Hypothesis HP : ∀ q, P q → below (manifestRoot v) q = false ∧ has_prefix (base_of q) ".tmp-" = false.

Lemma no_tmp q : P q → has_prefix (base_of q) ".tmp-" = false.
Proof. by intros [_ ?]%HP. Qed.
Lemma manifest_not_P id : ¬ P (manifestPath v id).
Proof. intros [Hb _]%HP. rewrite manifestPath_below in Hb. congruence. Qed.

Lemma sweep_agrees now apply fence acc p : preserves (agrees P fs0) (sweep_one now apply fence acc p).
Proof.
  unfold sweep_one, os_Info. destruct acc as [orphans errs].
  destruct (has_prefix (base_of p) ".tmp-") eqn:Ep; cbn [negb]; [|keep].
  assert (Hp : ¬ P p) by (intros [_ Ht]%HP; congruence).
  pose proof (removeWithRetry_agrees P fs0 p Hp). keep.
Qed.

Lemma sweepTmpOrphans_agrees now apply fence : preserves (agrees P fs0) (sweepTmpOrphans v now apply fence).
Proof. unfold sweepTmpOrphans, os_Walk. pose proof (sweep_agrees now apply fence). keep. Qed.

Lemma source_not_P src :
  wf_disk fs0 → (∃ q, src = os_path q ∧ q ∈ files_below fs0 (manifestRoot v)) → ¬ P (os_segs src).
Proof.
  intros Hwf (q & -> & (Hq & Hb & _)%files_below_spec).
  destruct (Hwf q Hq) as [Hne Hs]. rewrite os_segs_path by done. intros [Hf _]%HP. congruence.
Qed.

Lemma compact_agrees now apply fence s :
  wf_disk fs0 → st_files s = fs0 → agrees P fs0 (st_files (compact v now apply fence s).1).
Proof.
  intros Hwf Hs. unfold compact. rewrite bind_run.
  pose proof (loadManifestIndex_preserves v (eq fs0) s (eq_sym Hs)) as Hload.
  destruct (loadManifestIndex v s) as [s1 [[idx plan]|e]] eqn:El; cbn in Hload; [|by cbn; rewrite <- Hload].
  apply loadManifestIndex_sources in El as [Hc Hr]. rewrite Hs in Hc, Hr.
  rewrite Forall_forall in Hc. rewrite Forall_forall in Hr.
  match goal with |- agrees _ _ (st_files (?m s1).1) => enough (Hm : preserves (agrees P fs0) m) end.
  { apply Hm. by rewrite <- Hload. }
  apply preserves_bind.
  { apply preserves_mfold_in. intros b c Hin. unfold apply_conflict.
    pose proof (saveFileManifest_agrees v P fs0 no_tmp (pc_Path c) (pc_Rec c) (fun _ _ _ _ => manifest_not_P _)).
    pose proof (removeWithRetry_agrees P fs0 _ (source_not_P _ Hwf (Hc c Hin))). keep. }
  intros report. apply preserves_bind.
  { apply preserves_mfold_in. intros b p Hin. unfold apply_remove.
    pose proof (removeWithRetry_agrees P fs0 _ (source_not_P _ Hwf (Hr p Hin))). keep. }
  intros report'. pose proof (sweepTmpOrphans_agrees now apply fence). keep.
Qed.
End frame.

Section materialise.
Context `{GoUnicode} `{AEAD} `{Env} `{JSON ManifestRecord} `{JSON Index} (v : Vault).

(** [rec]'s edit can be read back from the manifest of [cleaned]. *)
Definition edit_saved (cleaned : string) (rec : FileRecord) (fs : files) : Prop :=
  ∃ f r, fs !! manifestPath v (manifestID v cleaned) = Some f ∧
    decryptManifest v (f_data f) (manifestID v cleaned) = Ok r ∧
    mr_Path r = cleaned ∧ mr_Deleted r = false ∧ payload (mr_File r) = payload rec.

(** C32. Compaction loses no edit, whatever calls fail and wherever it stops: if the
    manifest a losing edit came from is gone after its step, the edit is on disk
    as a live record under its conflict name, with the same chunks, size, times
    and clock. *)
Theorem conflict_saved_before_removal (report : CompactReport) (c : plannedConflict) (cleaned : string)
    (s s' : St) (r : result CompactReport) :
  CleanVirtualPath (pc_Path c) = Ok cleaned → CleanVirtualPath cleaned = Ok cleaned →
  (∀ t1 t2, json_ok (fill_record t2 cleaned (file_record t1 cleaned (pc_Rec c)))) →
  os_segs (pc_Source c) ≠ manifestPath v (manifestID v cleaned) →
  has_prefix (base_of (os_segs (pc_Source c))) ".tmp-" = false →
  apply_conflict v true report c s = (s', r) →
  st_files s' !! os_segs (pc_Source c) ≠ st_files s !! os_segs (pc_Source c) →
  edit_saved cleaned (pc_Rec c) (st_files s').
Proof.
  intros Hc Hcc Hj Hne Htmp Hrun Hgone. set (q := os_segs (pc_Source c)) in *.
  unfold apply_conflict in Hrun. cbn [negb] in Hrun. rewrite bind_run in Hrun. unfold try in Hrun.
  destruct (saveFileManifest v (pc_Path c) (pc_Rec c) s) as [s1 [[]|e]] eqn:Es.
  - apply (saveFileManifest_run v _ cleaned) in Es as (t1 & t2 & f & Hf & Hd & _); [|done..].
    set (mp := manifestPath v (manifestID v cleaned)) in *.
    destruct (fill_file_record t1 t2 cleaned (pc_Rec c)) as (Hp & Hl & Hpay & _).
    pose proof (removeWithRetry_agrees (eq mp) (st_files s1) q (not_eq_sym Hne) s1 (agrees_refl _ _)) as Hk.
    exists f, (fill_record t2 cleaned (file_record t1 cleaned (pc_Rec c))).
    split; [|by split; [apply Hd, Hj|]].
    rewrite <- Hf. rewrite bind_run in Hrun. fold q in Hrun.
    destruct (removeWithRetry q s1) as [s2 [u|e]]; injection Hrun as <- _; by apply Hk.
  - injection Hrun as <- _. exfalso. apply Hgone.
    pose proof (saveFileManifest_agrees v (eq q) (st_files s)) as Hk.
    specialize (Hk ltac:(by intros ? <-) (pc_Path c) (pc_Rec c)).
    assert (HP : ∀ c1 c2, CleanVirtualPath (pc_Path c) = Ok c1 → CleanVirtualPath c1 = Ok c2 → q ≠ manifestPath v (manifestID v c2)).
    { intros c1 c2 E1 E2. rewrite Hc in E1. injection E1 as <-. rewrite Hcc in E2. by injection E2 as <-. }
    specialize (Hk HP s (agrees_refl _ _)). rewrite Es in Hk. by apply Hk.
Qed.
End materialise.

(** ** A concrete run *)

#[local] Existing Instances demo_unicode demo_aead demo_env json_manifest json_index.

Definition demo_loser : fpath := ["m"; "manifests"; "ab"; "loser.manifest"].
Definition demo_conflict : plannedConflict := MkConflict "content/a.conflict-1" demo_file (os_path demo_loser).
Definition demo_before : St := mkSt {[demo_loser := mkFile (bytes_of "copy") 5]} 0 None 0 None.
Definition demo_after : St * result CompactReport :=
  apply_conflict demo_vault true (mkCompactReport [] 0 [] []) demo_conflict demo_before.

Lemma demo_after_run :
  apply_conflict demo_vault true (mkCompactReport [] 0 [] []) demo_conflict demo_before = (demo_after.1, demo_after.2).
Proof. unfold demo_after. by destruct (apply_conflict _ _ _ _ _). Qed.

Lemma conflict_saved_before_removal_witness :
  st_files demo_after.1 !! demo_loser = None ∧
  edit_saved demo_vault "content/a.conflict-1" demo_file (st_files demo_after.1).
Proof.
  assert (E : st_files demo_after.1 !! demo_loser = None) by (vm_compute; reflexivity).
  split; [exact E|].
  refine (conflict_saved_before_removal demo_vault (mkCompactReport [] 0 [] []) demo_conflict "content/a.conflict-1"
    demo_before demo_after.1 demo_after.2 _ _ _ _ _ _ _).
  - vm_compute. reflexivity.
  - vm_compute. reflexivity.
  - exact (fun _ _ => Logic.I).
  - intros E'. apply (f_equal base_of) in E'. vm_compute in E'. discriminate E'.
  - vm_compute. reflexivity.
  - exact demo_after_run.
  - intros E'. change (os_segs (pc_Source demo_conflict)) with demo_loser in E'. rewrite E in E'. discriminate E'.
Defined.
