(* ===== verification/GC.v ===== *)
(** Two-phase garbage collection (internal/vault/gc.go).

    An instant is nanoseconds since the epoch; [zero_time] is Go's zero [Time].
    [gr_Fence] is the duration whose [String()] the code reports.  A report the
    code returns beside an error is dropped. *)
From S2P Require Export Compact AppDir.
Local Open Scope Z_scope.

Definition zero_time : Z := -62135596800 * nano.
(** internal/vault/gc.go:27-27 [gcIntentSuffix] *)
Definition gcIntentSuffix : string := ".intent".
(** internal/vault/gc.go:32-32 [GCFenceMin] *)
Definition GCFenceMin : Z := hour.
(** internal/vault/gc.go:41-41 [ErrGCRefused] *)
Definition ErrGCRefused : err := ESentinel "ErrGCRefused".

(** internal/vault/gc.go:45-58 [GCOptions]; the injected clock is [env_clock]. *)
Record GCOptions : Type := mkGCOptions { Confirm : bool; Fence : Z; SeenStore : string }.

(** internal/vault/gc.go:62-66 [PendingIntent] *)
Record PendingIntent : Type := mkPending { pi_ChunkID : string; pi_Recorded : string; pi_AgeSeconds : Z }.

(** internal/vault/gc.go:69-82 [GCReport] *)
Record GCReport : Type := mkGCReport {
  gr_Confirm : bool;
  gr_Fence : Z;
  gr_Candidates : list string;
  gr_CandidateBytes : Z;
  gr_IntentsWritten : list string;
  gr_Cancelled : list string;
  gr_Reaped : list string;
  gr_RemovedChunks : list string;
  gr_RemovedBytes : Z;
  gr_Pending : list PendingIntent;
  gr_Phase2Reloads : Z;
  gr_Compact : option CompactReport
}.

(** internal/vault/gc.go:409-414 [logicalIntent] *)
Record logicalIntent : Type := mkIntent { li_files : list fpath; li_recorded : option Z }.

(** internal/vault/gc.go:478-482 [chunkFile] *)
Record chunkFile : Type := mkChunkFile { cf_path : fpath; cf_size : Z; cf_mtime : Z }.

(** internal/vault/gc.go:484-490 [totalSize] *)
Definition totalSize (fs : list chunkFile) : Z := fold_left (fun n f => wrap64 (n + cf_size f)) fs 0.

(** internal/vault/gc.go:495-503 [newestMtime] *)
Definition newestMtime (fs : list chunkFile) : Z :=
  fold_left (fun newest f => if newest <? cf_mtime f then cf_mtime f else newest) fs zero_time.

(** internal/vault/gc.go:505-507 [chunkPresent] *)
Definition chunkPresent (chunks : gmap string (list chunkFile)) (id : string) : bool :=
  (0 <? length (default [] (chunks !! id)))%nat.

(** internal/vault/gc.go:630-641 [parseSeenTime]; the second layout accepts what
    the first does. *)
Definition parseSeenTime (s : string) : option Z :=
  if String.eqb s "" then None else parse_rfc3339 s.

(** internal/vault/gc.go:570-582 [pendingList]; the seconds are truncated from the
    exact quotient, where the code goes through a float64. *)
Definition pendingList (intents : gmap string logicalIntent) (now : Z) : list PendingIntent :=
  go_sort (fun a b => str_gtb (pi_ChunkID b) (pi_ChunkID a))
    ((fun '(id, li) => match li_recorded li with
                       | Some t => mkPending id (format_rfc3339 t) (Z.quot (dur_sub now t) nano)
                       | None => mkPending id "" 0
                       end) <$> map_to_list intents).

(** The fence a run uses. *)
Definition effective_fence (fence : Z) : Z :=
  let fence := if fence <=? 0 then GCFenceDefault else fence in
  if fence <? GCFenceMin then GCFenceMin else fence.

(** internal/vault/gc.go:359-367 [gcConfirm]: the fences phase 2 checks before it
    removes the files of an unreferenced chunk: the intent, this device's first
    sight of it and every copy are at least [fence] old. *)
Definition collectable (seen : gmap string string) (t fence : Z)
    (id : string) (li : logicalIntent) (fs : list chunkFile) : bool :=
  match li_recorded li with
  | None => false
  | Some r =>
      negb (dur_sub t r <? fence) &&
      match parseSeenTime (default "" (seen !! id)) with
      | None => false
      | Some fst_ => negb (dur_sub t fst_ <? fence) && negb (dur_sub t (newestMtime fs) <? fence)
      end
  end.

(** The three ids lists of a phase, and the first-seen record with its dirty flag. *)
Record Marks : Type := mkMarks { m_cancelled : list string; m_reaped : list string; m_seen : gmap string string; m_dirty : bool }.
Definition forget (id : string) (m : Marks) : Marks :=
  mkMarks (m_cancelled m) (m_reaped m) (delete id (m_seen m)) (m_dirty m || bool_decide (is_Some (m_seen m !! id))).

Section gc.
Context `{GoUnicode} `{AEAD} `{Env} `{Platform} `{JSON ManifestRecord} `{JSON Index} `{JSON LegacyID}
  `{JSON (gmap string string)} (v : Vault).

Definition intent_dir : fpath := v_MetaRoot v ++ [GCIntentDirName].
Definition chunk_root : fpath := v_MetaRoot v ++ ["objects"; "chunks"].

(** internal/vault/gc.go:460-466 [readIntentTime] *)
Definition readIntentTime (p : fpath) : M (option Z) :=
  r ← try (os_ReadFile p);
  match r with
  | Err _ => mret None
  | Ok data => mret (parseSeenTime (trim_space (string_of_list_byte data)))
  end.

(** internal/vault/gc.go:431-447 [walkIntents]: one entry of the intents directory. *)
Definition walk_intent (out : gmap string logicalIntent) (name : string) : M (gmap string logicalIntent) :=
  let id := chunkIDFromFileName name in
  if String.eqb id "" then mret out
  else
    let p := intent_dir ++ [name] in
    let li := default (mkIntent [] None) (out !! id) in
    ts ← readIntentTime p;
    let recorded := match ts, li_recorded li with
                    | Some t, None => Some t
                    | Some t, Some r => if t <? r then Some t else Some r
                    | None, r => r
                    end in
    mret (<[id := mkIntent (li_files li ++ [p]) recorded]> out).

(** internal/vault/gc.go:419-449 [walkIntents] *)
Definition walkIntents : M (gmap string logicalIntent) :=
  r ← try (os_ReadDir intent_dir);
  match r with
  | Err e => if not_exist e then mret ∅ else fail e
  | Ok names => mfold walk_intent ∅ names
  end.

(** internal/vault/gc.go:451-458 [writeIntent] *)
Definition writeIntent (id : string) (t : Z) : M unit :=
  _ ← os_MkdirAll intent_dir;
  atomicWriteFile (intent_dir ++ [id +:+ gcIntentSuffix]) (bytes_of (format_rfc3339 t +:+ newline)).

(** internal/vault/gc.go:468-475 [removeIntentFiles] *)
Definition removeIntentFiles (li : logicalIntent) : M unit :=
  mfold (fun _ f => removeWithRetry f) tt (li_files li).

(** internal/vault/gc.go:509-516 [removeChunkFiles] *)
Definition removeChunkFiles (fs : list chunkFile) : M unit :=
  mfold (fun _ f => removeWithRetry (cf_path f)) tt fs.

(** internal/vault/gc.go:524-546 [walkChunkFiles]: one file of the chunk tree. *)
Definition walk_chunk (out : gmap string (list chunkFile)) (p : fpath) : M (gmap string (list chunkFile)) :=
  if negb (has_suffix (to_lower (base_of p)) ".chunk") then mret out
  else
    let id := chunkIDFromFileName (base_of p) in
    if String.eqb id "" then mret out
    else
      r ← try (os_Info p);
      match r with
      | Err e => if not_exist e then mret out else fail e
      | Ok f =>
          let c := mkChunkFile p (Z.of_nat (length (f_data f))) (f_mtime f) in
          mret (<[id := default [] (out !! id) ++ [c]]> out)
      end.

(** internal/vault/gc.go:521-552 [walkChunkFiles] *)
Definition walkChunkFiles : M (gmap string (list chunkFile)) :=
  ps ← walk_or_empty chunk_root;
  mfold walk_chunk ∅ ps.

(** The ids an index references, in lower case. *)
Definition live_of (idx : Index) : gset string :=
  list_to_set (map_to_list (ix_Files idx) ≫= fun '(_, rec) => (fun r => to_lower (ref_ID r)) <$> fr_Chunks rec).

(** internal/vault/gc.go:556-568 [liveChunkSet] *)
Definition liveChunkSet : M (gset string) := idx ← LoadIndex v; mret (live_of idx).

(** internal/vault/gc.go:586-596 [seenStorePath] *)
Definition seenStorePath (override : string) : result fpath :=
  let dir := trim_space override in
  dir ← (if String.eqb dir "" then base ← DataDir; mret (path_join [base; "gc-seen"]) else mret dir);
  mret (os_segs (path_join [dir; ID v +:+ ".json"])).

(** internal/vault/gc.go:598-617 [loadSeenStore] *)
Definition loadSeenStore (p : fpath) : M (gmap string string) :=
  r ← try (os_ReadFile p);
  match r with
  | Err e => if not_exist e then mret ∅ else fail e
  | Ok data =>
      if String.eqb (trim_space (string_of_list_byte data)) "" then mret ∅
      else match unmarshal data with
           | Some m => mret m
           | None => fail (ENew "invalid character in JSON")
           end
  end.

(** internal/vault/gc.go:619-628 [saveSeenStore] *)
Definition saveSeenStore (p : fpath) (m : gmap string string) : M unit :=
  _ ← os_MkdirAll (dir_of p);
  atomicWriteFile p (marshal m).

(** internal/vault/gc.go:129-161 [gcRefusalGate] *)
Definition gcRefusalGate : M unit :=
  if negb (usesManifestStore v) then mret tt
  else
    idx ← LoadIndex v;
    if negb (bool_decide (ix_Files idx = ∅)) then mret tt
    else
      st ← inspectManifestStore v;
      if hasNonTombstone st
      then fail (EWrap "the loaded index is empty but a non-tombstone manifest still exists on disk; restore the index from a backup or another device: " ErrGCRefused)
      else if negb (hasAny st) then
        chunks ← walkChunkFiles;
        if bool_decide (chunks = ∅) then mret tt
        else fail (EWrap "no manifests exist but %d chunk object(s) are present; restore the manifests from a backup or another device: " ErrGCRefused)
      else mret tt.

(** internal/vault/gc.go:281-288 [gcConfirm]: the unreferenced chunks, sorted, and their bytes. *)
Definition candidates_of (live : gset string) (chunks : gmap string (list chunkFile)) : list string * Z :=
  let l := List.filter (fun '(id, _) => negb (bool_decide (id ∈ live))) (map_to_list chunks) in
  (sort_strings (fst <$> l), fold_left (fun n c => wrap64 (n + totalSize c.2)) l 0).

(** internal/vault/gc.go:169-202 [gcDryRun] *)
Definition gcDryRun (fence now : Z) : M GCReport :=
  _ ← ReloadIndex v;
  live ← liveChunkSet;
  chunks ← walkChunkFiles;
  let '(cands, n) := candidates_of live chunks in
  intents ← walkIntents;
  '(plan, e) ← compact v now false fence;
  match e with
  | Some e => fail e
  | None => mret (mkGCReport false fence cands n [] [] [] [] 0 (pendingList intents now) 0 (Some plan))
  end.

(** internal/vault/gc.go:247-276 [gcConfirm]: phase 1 on one existing intent: cancel, reap, or record the first sight. *)
Definition mark_intent (live : gset string) (chunks : gmap string (list chunkFile)) (m : Marks)
    (x : string * logicalIntent) : M Marks :=
  let '(id, li) := x in
  if bool_decide (id ∈ live) then
    _ ← removeIntentFiles li;
    let m := forget id m in
    mret (mkMarks (m_cancelled m ++ [id]) (m_reaped m) (m_seen m) (m_dirty m))
  else if negb (chunkPresent chunks id) then
    _ ← removeIntentFiles li;
    let m := forget id m in
    mret (mkMarks (m_cancelled m) (m_reaped m ++ [id]) (m_seen m) (m_dirty m))
  else match m_seen m !! id with
       | Some _ => mret m
       | None =>
           t ← now;
           mret (mkMarks (m_cancelled m) (m_reaped m) (<[id := format_rfc3339 t]> (m_seen m)) true)
       end.

(** internal/vault/gc.go:281-294 [gcConfirm]: phase 1 on one present chunk: an intent for every candidate that has none. *)
Definition mark_chunk (live : gset string) (intents : gmap string logicalIntent) (written : list string)
    (x : string * list chunkFile) : M (list string) :=
  let id := x.1 in
  if bool_decide (id ∈ live) || bool_decide (is_Some (intents !! id)) then mret written
  else t ← now; _ ← writeIntent id t; mret (written ++ [id]).

(** What phase 2 accumulates: cancelled, removed, removed bytes, seen, dirty. *)
Record Sweep : Type := mkSweep {
  w_cancelled : list string; w_removed : list string; w_bytes : Z; w_seen : gmap string string; w_dirty : bool }.
Definition sweep_forget (id : string) (w : Sweep) : Sweep :=
  mkSweep (w_cancelled w) (w_removed w) (w_bytes w) (delete id (w_seen w)) (w_dirty w || bool_decide (is_Some (w_seen w !! id))).

(** internal/vault/gc.go:340-389 [gcConfirm]: phase 2 on one intent. *)
Definition collect_intent (live : gset string) (chunks : gmap string (list chunkFile)) (t fence : Z) (w : Sweep)
    (x : string * logicalIntent) : M Sweep :=
  let '(id, li) := x in
  match chunks !! id with
  | None => mret w
  | Some fs =>
      if bool_decide (id ∈ live) then
        _ ← removeIntentFiles li;
        let w := sweep_forget id w in
        mret (mkSweep (w_cancelled w ++ [id]) (w_removed w) (w_bytes w) (w_seen w) (w_dirty w))
      else if negb (collectable (w_seen w) t fence id li fs) then mret w
      else
        _ ← removeChunkFiles fs;
        _ ← removeIntentFiles li;
        let w := sweep_forget id w in
        mret (mkSweep (w_cancelled w) (w_removed w ++ [id]) (wrap64 (w_bytes w + totalSize fs)) (w_seen w) (w_dirty w))
  end.

(** internal/vault/gc.go:221-304 [gcConfirm]: phase 1: the fingerprint, the live set, the report's lists. *)
Definition gc_mark (seenPath : fpath) : M (Z * gset string * Marks * list string * (list string * Z)) :=
  _ ← ReloadIndex v;
  fpPhase1 ← indexFingerprint v;
  live ← liveChunkSet;
  chunks ← walkChunkFiles;
  intents ← walkIntents;
  seen ← loadSeenStore seenPath;
  l ← range intents;
  m ← mfold (mark_intent live chunks) (mkMarks [] [] seen false) l;
  l ← range chunks;
  written ← mfold (mark_chunk live intents) [] l;
  _ ← (if m_dirty m then saveSeenStore seenPath (m_seen m) else mret tt);
  mret (fpPhase1, live, m, written, candidates_of live chunks).

(** internal/vault/gc.go:311-323 [gcConfirm]: the live set phase 2 uses, and the number of reloads it took. *)
Definition gc_refresh (fpPhase1 : Z) (live : gset string) : M (gset string * Z) :=
  fpNow ← indexFingerprint v;
  if fpNow =? fpPhase1 then mret (live, 0)
  else
    _ ← ReloadIndex v;
    live ← liveChunkSet;
    mret (live, 1).

(** internal/vault/gc.go:324-395 [gcConfirm]: phase 2. *)
Definition gc_collect (seenPath : fpath) (live : gset string) (fence : Z) : M (Sweep * Z) :=
  intents ← walkIntents;
  chunks ← walkChunkFiles;
  seen ← loadSeenStore seenPath;
  t ← now;
  l ← range intents;
  w ← mfold (collect_intent live chunks t fence) (mkSweep [] [] 0 seen false) l;
  _ ← (if w_dirty w then saveSeenStore seenPath (w_seen w) else mret tt);
  mret (w, t).

(** internal/vault/gc.go:205-403 [gcConfirm] *)
Definition gcConfirm (fence : Z) (seenStore : string) : M GCReport :=
  t0 ← now;
  '(cr, e) ← compact v t0 true fence;
  match e with
  | Some e => fail e
  | None =>
      seenPath ← lift (seenStorePath seenStore);
      '(fp, live, m, written, (cands, n)) ← gc_mark seenPath;
      '(live, reloads) ← gc_refresh fp live;
      '(w, t) ← gc_collect seenPath live fence;
      pending ← walkIntents;
      mret (mkGCReport true fence cands n (sort_strings written)
        (sort_strings (m_cancelled m) ++ w_cancelled w) (sort_strings (m_reaped m))
        (sort_strings (w_removed w)) (w_bytes w) (pendingList pending t) reloads (Some cr))
  end.

(** internal/vault/gc.go:92-119 [GarbageCollect] *)
Definition GarbageCollect (opts : GCOptions) : M GCReport :=
  let fence := effective_fence (Fence opts) in
  _ ← ReloadIndex v;
  _ ← gcRefusalGate;
  if negb (Confirm opts) then t ← now; gcDryRun fence t
  else gcConfirm fence (SeenStore opts).
End gc.
