(* ===== verification/GCFacts.v ===== *)
(** Properties of the garbage collector: a dry run writes nothing, and a chunk file
    disappears only past every fence and unreferenced. *)
From S2P Require Export GC CompactFacts.
Local Open Scope Z_scope.

Section reads.
Context `{GoUnicode} `{AEAD} `{Env} `{Platform} `{JSON ManifestRecord} `{JSON Index} `{JSON LegacyID}
  `{JSON (gmap string string)} (v : Vault) (I : files → Prop).

Lemma walkIntents_preserves : preserves I (walkIntents v).
Proof. unfold walkIntents, walk_intent, readIntentTime, os_ReadDir, os_ReadFile. keep. Qed.
Lemma walkChunkFiles_preserves : preserves I (walkChunkFiles v).
Proof. unfold walkChunkFiles, walk_chunk, os_Info. keep. Qed.
Lemma liveChunkSet_preserves : preserves I (liveChunkSet v).
Proof. unfold liveChunkSet. keep. Qed.
Lemma loadSeenStore_preserves p : preserves I (loadSeenStore p).
Proof. unfold loadSeenStore, os_ReadFile. keep. Qed.
Hint Resolve walkIntents_preserves walkChunkFiles_preserves liveChunkSet_preserves compact_plan_preserves : keep.
Lemma gcRefusalGate_preserves : preserves I (gcRefusalGate v).
Proof. unfold gcRefusalGate. keep. Qed.
Lemma gcDryRun_preserves fence t : preserves I (gcDryRun v fence t).
Proof. unfold gcDryRun. keep. Qed.
Lemma gc_refresh_preserves fp live : preserves I (gc_refresh v fp live).
Proof. unfold gc_refresh. keep. Qed.
End reads.
#[export] Hint Resolve walkIntents_preserves walkChunkFiles_preserves liveChunkSet_preserves compact_plan_preserves
  loadSeenStore_preserves gcRefusalGate_preserves gcDryRun_preserves gc_refresh_preserves : keep.

Section walks.
Context `{GoUnicode} `{AEAD} `{Env} `{JSON (gmap string string)} (v : Vault) (fs : files).

(** What a walk of the intents reports of one: its files carry the chunk's id, and
    its time is read from one of them. *)
Definition intent_ok (id : string) (li : logicalIntent) : Prop :=
  Forall (fun p => ∃ name, p = intent_dir v ++ [name] ∧ chunkIDFromFileName name = id) (li_files li) ∧
  ∀ r, li_recorded li = Some r → ∃ name f, fs !! (intent_dir v ++ [name]) = Some f ∧
    chunkIDFromFileName name = id ∧ parseSeenTime (trim_space (string_of_list_byte (f_data f))) = Some r.

(** What a walk of the chunks reports of the copies of one. *)
Definition chunk_ok (id : string) (l : list chunkFile) : Prop :=
  id ≠ "" ∧ (∃ name, chunkIDFromFileName name = id) ∧ Forall (fun c => below (chunk_root v) (cf_path c) = true ∧ chunkIDFromFileName (base_of (cf_path c)) = id ∧
    ∃ f, fs !! cf_path c = Some f ∧ cf_mtime c = f_mtime f) l.

Lemma readIntentTime_triple p :
  triple (eq fs) (readIntentTime p)
    (fun ts fs' => fs = fs' ∧ ∀ r, ts = Some r → ∃ f, fs !! p = Some f ∧
       parseSeenTime (trim_space (string_of_list_byte (f_data f))) = Some r) (eq fs).
Proof.
  unfold readIntentTime. eapply triple_bind.
  - apply triple_try with (E' := eq fs), (triple_query fs _ (fun d fs' => fs = fs' ∧ ∃ f, fs !! p = Some f ∧ f_data f = d)).
    intros d. destruct (fs !! p) as [f|]; [|done]. intros [= <-]. split; [done|]. by exists f.
  - intros [d|e]; apply triple_ret.
    + intros fs' [<- (f & Hf & <-)]. split; [done|]. intros r Hr. by exists f.
    + by intros fs' <-.
Qed.

Lemma walk_intent_triple m name :
  triple (fun fs' => fs = fs' ∧ map_Forall intent_ok m) (walk_intent v m name)
    (fun m' fs' => fs = fs' ∧ map_Forall intent_ok m') (eq fs).
Proof.
  unfold walk_intent. destruct (String.eqb _ ""); [by apply triple_ret|].
  apply triple_assume. intros Hm. eapply triple_bind; [apply readIntentTime_triple|].
  intros ts. apply triple_ret. intros fs' [Hfs Hts]. split; [done|]. apply map_Forall_insert_2; [|done].
  set (id := chunkIDFromFileName name). set (li := default _ (m !! id)).
  assert (Hli : intent_ok id li).
  { unfold li. destruct (m !! id) eqn:E; [by apply Hm|]. split; [by constructor|done]. }
  destruct Hli as [Hf Hr]. split; cbn [li_files li_recorded].
  - apply Forall_app. split; [done|]. apply Forall_singleton. by exists name.
  - intros r Er. assert (Hcase : ts = Some r ∨ li_recorded li = Some r).
    { destruct ts as [t|], (li_recorded li) as [r0|]; try (by auto). destruct (t <? r0); auto. }
    destruct Hcase as [Hc|Hc]; [|by apply Hr]. destruct (Hts r Hc) as (f & Hff & Hp). by exists name, f.
Qed.

Lemma walkIntents_triple :
  triple (eq fs) (walkIntents v) (fun m fs' => fs = fs' ∧ map_Forall intent_ok m) (eq fs).
Proof.
  unfold walkIntents. eapply triple_bind.
  - apply triple_try with (E' := eq fs), (triple_query fs _ (fun _ => eq fs)). done.
  - intros [names|e].
    + intros s Hs. pose proof (triple_mfold (fun m fs' => fs = fs' ∧ map_Forall intent_ok m) (eq fs) (walk_intent v) names
        (fun b a _ => walk_intent_triple b a) ∅ s) as Ht. by apply Ht.
    + destruct (not_exist e); [|by apply triple_fail]. by apply triple_ret.
Qed.

Lemma walk_chunk_triple m p :
  below (chunk_root v) p = true →
  triple (fun fs' => fs = fs' ∧ map_Forall chunk_ok m) (walk_chunk m p)
    (fun m' fs' => fs = fs' ∧ map_Forall chunk_ok m') (eq fs).
Proof.
  intros Hb. unfold walk_chunk. destruct (negb _); [by apply triple_ret|].
  destruct (String.eqb_spec (chunkIDFromFileName (base_of p)) ""); [by apply triple_ret|].
  apply triple_assume. intros Hm. eapply triple_bind.
  - apply triple_try with (E' := eq fs), (triple_query fs _ (fun f fs' => fs = fs' ∧ fs !! p = Some f)).
    intros f. destruct (fs !! p) as [g|]; [|done]. by intros [= <-].
  - intros [f|e].
    + apply triple_ret. intros fs' [Hfs Hf]. split; [done|]. apply map_Forall_insert_2; [|done].
      split; [done|]. split; [by eexists|]. apply Forall_app. split.
      * destruct (m !! _) eqn:E; [by apply Hm|by constructor].
      * apply Forall_singleton. split; [done|]. split; [done|]. by exists f.
    + destruct (not_exist e); [by apply triple_ret|by apply triple_fail].
Qed.

Lemma walk_or_empty_triple root :
  triple (eq fs) (walk_or_empty root) (fun ps fs' => fs = fs' ∧ Forall (fun p => below root p = true) ps) (eq fs).
Proof.
  unfold walk_or_empty. eapply triple_bind.
  - apply triple_try with (E' := eq fs),
      (triple_query fs _ (fun ps fs' => fs = fs' ∧ Forall (fun p => below root p = true) ps)).
    intros ps. destruct (is_dir fs root); [|done]. intros [= <-]. split; [done|].
    apply Forall_forall. intros p Hp. by apply files_below_spec in Hp as (_ & ? & _).
  - intros [ps|e]; [by apply triple_ret|]. destruct (not_exist e); [|by apply triple_fail].
    apply triple_ret. intros fs' Hfs. by split; [|constructor].
Qed.

Lemma walkChunkFiles_triple :
  triple (eq fs) (walkChunkFiles v) (fun m fs' => fs = fs' ∧ map_Forall chunk_ok m) (eq fs).
Proof.
  unfold walkChunkFiles. eapply triple_bind; [apply walk_or_empty_triple|]. intros ps.
  apply triple_assume. intros Hps. rewrite Forall_forall in Hps.
  eapply triple_conseq; [apply (triple_mfold (fun m fs' => fs = fs' ∧ map_Forall chunk_ok m) (eq fs))|..]; [|done..].
  intros b a Ha. by apply walk_chunk_triple, Hps.
Qed.

Lemma loadSeenStore_triple p :
  triple (eq fs) (loadSeenStore p)
    (fun m fs' => fs = fs' ∧ (m = ∅ ∨ ∃ f, fs !! p = Some f ∧ unmarshal (f_data f) = Some m)) (eq fs).
Proof.
  unfold loadSeenStore. eapply triple_bind.
  - apply triple_try with (E' := eq fs), (triple_query fs _ (fun d fs' => fs = fs' ∧ ∃ f, fs !! p = Some f ∧ f_data f = d)).
    intros d. destruct (fs !! p) as [f|]; [|done]. intros [= <-]. split; [done|]. by exists f.
  - intros [d|e].
    + destruct (String.eqb _ ""); [apply triple_ret; intros fs' [Hfs _]; auto|].
      destruct (unmarshal d) as [m|] eqn:E; [|apply triple_fail; by intros fs' [? _]].
      apply triple_ret. intros fs' [Hfs (f & Hf & <-)]. split; [done|]. right. by exists f.
    + destruct (not_exist e); [apply triple_ret; auto|by apply triple_fail].
Qed.
End walks.

(** ** The fences *)

Lemma age_mono t x y : x ≤ y → dur_sub t y ≤ dur_sub t x.
Proof. unfold dur_sub. lia. Qed.

Lemma newestMtime_ge l c : c ∈ l → cf_mtime c ≤ newestMtime l.
Proof.
  unfold newestMtime. generalize zero_time.
  assert (Hge : ∀ l z, z ≤ fold_left (fun newest f => if newest <? cf_mtime f then cf_mtime f else newest) l z).
  { clear. induction l as [|a l IH]; intros z; cbn [fold_left]; [lia|].
    etransitivity; [|apply IH]. destruct (Z.ltb_spec z (cf_mtime a)); lia. }
  induction l as [|a l IH]; intros z Hc; [by apply elem_of_nil in Hc|]. cbn [fold_left].
  apply elem_of_cons in Hc as [->|Hc]; [|by apply IH].
  etransitivity; [|apply Hge]. destruct (Z.ltb_spec z (cf_mtime a)); lia.
Qed.

Section collect.
Context `{GoUnicode} `{AEAD} `{Env} `{Platform} `{JSON ManifestRecord} `{JSON Index} `{JSON LegacyID}
  `{JSON (gmap string string)} (v : Vault) (seenPath : fpath) (live : gset string) (fence : Z) (fs : files).

(** The file [q] of chunk [id] is past every fence at [t]: unreferenced, and its
    own modification time, this device's first sight of an intent for it and the
    time that intent records are all at least [fence] before [t]. *)
Record fenced_at (t : Z) (id : string) (f : File) : Prop := {
  fenced_live : id ∉ live;
  fenced_mtime : fence ≤ dur_sub t (f_mtime f);
  fenced_seen : ∃ g m x first, fs !! seenPath = Some g ∧ unmarshal (f_data g) = Some m ∧ m !! id = Some x ∧
    parseSeenTime x = Some first ∧ fence ≤ dur_sub t first;
  fenced_intent : ∃ name i r, fs !! (intent_dir v ++ [name]) = Some i ∧ chunkIDFromFileName name = id ∧
    parseSeenTime (trim_space (string_of_list_byte (f_data i))) = Some r ∧ fence ≤ dur_sub t r
}.

Lemma fenced_seen_dec t id : Decision (∃ g m x first, fs !! seenPath = Some g ∧ unmarshal (f_data g) = Some m ∧
  m !! id = Some x ∧ parseSeenTime x = Some first ∧ fence ≤ dur_sub t first).
Proof.
  destruct (fs !! seenPath) as [g|] eqn:Eg; [|right; by intros (? & ? & ? & ? & ? & _)].
  destruct (unmarshal (f_data g)) as [m|] eqn:Em; [|right; intros (g' & m' & ? & ? & ? & ? & _); congruence].
  destruct (m !! id) as [x|] eqn:Ex; [|right; intros (g' & m' & x' & ? & ? & ? & ? & _); congruence].
  destruct (parseSeenTime x) as [first|] eqn:Ef; [|right; intros (g' & m' & x' & ? & ? & ? & ? & ? & _); congruence].
  destruct (decide (fence ≤ dur_sub t first)); [left; by exists g, m, x, first|right].
  intros (g' & m' & x' & f' & ? & ? & ? & ? & ?). simplify_option_eq. lia.
Defined.

Lemma fenced_intent_dec t id : Decision (∃ name i r, fs !! (intent_dir v ++ [name]) = Some i ∧ chunkIDFromFileName name = id ∧
  parseSeenTime (trim_space (string_of_list_byte (f_data i))) = Some r ∧ fence ≤ dur_sub t r).
Proof.
  set (Q := fun qi : fpath * File => qi.1 = intent_dir v ++ [base_of qi.1] ∧ chunkIDFromFileName (base_of qi.1) = id ∧
    match parseSeenTime (trim_space (string_of_list_byte (f_data qi.2))) with Some r => fence ≤ dur_sub t r | None => False end).
  assert (HQ : ∀ qi, Decision (Q qi)).
  { intros qi. unfold Q. destruct (parseSeenTime _); apply _. }
  destruct (decide (Exists Q (map_to_list fs))) as [He|Hn]; [left|right].
  - apply Exists_exists in He as ([q i] & Hin & Hq & Hid & Hr). apply elem_of_map_to_list in Hin. cbn [fst snd] in *.
    destruct (parseSeenTime _) as [r|] eqn:Er; [|done]. exists (base_of q), i, r. by rewrite <- Hq.
  - intros (name & i & r & Hi & Hid & Hr & Hle). apply Hn, Exists_exists. exists (intent_dir v ++ [name], i).
    split; [by apply elem_of_map_to_list|]. unfold Q. cbn [fst snd]. by rewrite base_snoc, Hr.
Defined.

#[global] Instance fenced_at_dec t id f : Decision (fenced_at t id f).
Proof.
  destruct (decide (id ∉ live)); [|right; by intros []].
  destruct (decide (fence ≤ dur_sub t (f_mtime f))); [|right; by intros []].
  destruct (fenced_seen_dec t id); [|right; by intros []].
  destruct (fenced_intent_dec t id); [|right; by intros []]. left. by split.
Defined.

Definition fenced (k : nat) (q : fpath) (f : File) : Prop := fenced_at (env_clock k) (chunkIDFromFileName (base_of q)) f.

(** The files a collection at [env_clock k] must leave alone. *)
Definition spared (k : nat) (q : fpath) : Prop :=
  q ≠ seenPath ∧ has_prefix (base_of q) ".tmp-" = false ∧ below (intent_dir v) q = false ∧
  ∀ f, fs !! q = Some f → below (chunk_root v) q = true → ¬ fenced k q f.

Lemma collectable_fenced seen t id li l c f :
  intent_ok v fs id li → chunk_ok v fs id l → (seen = ∅ ∨ ∃ g, fs !! seenPath = Some g ∧ unmarshal (f_data g) = Some seen) →
  id ∉ live → collectable seen t fence id li l = true → c ∈ l → fs !! cf_path c = Some f →
  fenced_at t (chunkIDFromFileName (base_of (cf_path c))) f.
Proof.
  intros [_ Hi] Hl Hseen. unfold collectable. intros Hlive Hc Hin Hf.
  destruct (li_recorded li) as [r|]; [|done]. apply andb_true_iff in Hc as [Hr Hc].
  destruct (parseSeenTime (default "" (seen !! id))) as [first|] eqn:Efirst; [|done].
  apply andb_true_iff in Hc as [Hfirst Hm]. apply negb_true_iff, Z.ltb_ge in Hr, Hfirst, Hm.
  destruct Hl as (_ & _ & Hl). rewrite Forall_forall in Hl. destruct (Hl c Hin) as (_ & -> & g & Hg & Hgm).
  rewrite Hf in Hg. injection Hg as <-. split; [done|..].
  - rewrite <- Hgm. etransitivity; [exact Hm|]. by apply age_mono, newestMtime_ge.
  - destruct (seen !! id) as [x|] eqn:Ex; [|done]. destruct Hseen as [->|(g & Hg & Hu)]; [done|]. by exists g, seen, x, first.
  - destruct (Hi r eq_refl) as (name & i & ?). exists name, i, r. tauto.
Qed.

Lemma removeIntentFiles_agrees k id li : intent_ok v fs id li → preserves (agrees (spared k) fs) (removeIntentFiles li).
Proof.
  intros [Hf _]. unfold removeIntentFiles. rewrite Forall_forall in Hf. apply preserves_mfold_in.
  intros b p Hp. apply removeWithRetry_agrees. intros (_ & _ & Hb & _).
  destruct (Hf p Hp) as (name & -> & _). by rewrite below_app in Hb.
Qed.

Lemma removeChunkFiles_agrees id seen k li l :
  intent_ok v fs id li → chunk_ok v fs id l → (seen = ∅ ∨ ∃ g, fs !! seenPath = Some g ∧ unmarshal (f_data g) = Some seen) →
  id ∉ live → collectable seen (env_clock k) fence id li l = true → preserves (agrees (spared k) fs) (removeChunkFiles l).
Proof.
  intros Hi Hl Hseen Hlive Hc. unfold removeChunkFiles. apply preserves_mfold_in. intros b c Hin.
  apply removeWithRetry_agrees. intros (_ & _ & _ & Hk).
  pose proof Hl as (_ & _ & Hl'). rewrite Forall_forall in Hl'. destruct (Hl' c Hin) as (Hb & _ & f & Hf & _).
  apply (Hk f Hf Hb). by eapply collectable_fenced.
Qed.

(** Dropping entries of the first-seen record makes nothing collectable. *)
Lemma collectable_mono seen seen' t id li l :
  seen' ⊆ seen → collectable seen' t fence id li l = true → collectable seen t fence id li l = true.
Proof.
  intros Hs. unfold collectable. destruct (seen' !! id) as [x|] eqn:E.
  - by rewrite (lookup_weaken _ _ _ _ E Hs).
  - cbn [default parseSeenTime]. intros Hc. destruct (li_recorded li); [|done].
    apply andb_true_iff in Hc as [_ Hc]. done.
Qed.

Lemma saveSeenStore_agrees k m :
  seenPath ≠ [] → has_prefix (base_of seenPath) ".tmp-" = false → preserves (agrees (spared k) fs) (saveSeenStore seenPath m).
Proof.
  intros Hne Hb. unfold saveSeenStore, os_MkdirAll. apply preserves_bind; [keep|]. intros _.
  apply atomicWriteFile_agrees; [done|done|by intros [Hq _]|].
  intros name Hn (_ & Ht & _). rewrite base_snoc in Ht. congruence.
Qed.

Lemma collect_intent_triple chunks (intents : gmap string logicalIntent) seen k w x :
  map_Forall (chunk_ok v fs) chunks → map_Forall (intent_ok v fs) intents →
  (seen = ∅ ∨ ∃ g, fs !! seenPath = Some g ∧ unmarshal (f_data g) = Some seen) → intents !! x.1 = Some x.2 →
  let R w fs' := agrees (spared k) fs fs' ∧ w_seen w ⊆ seen in
  triple (R w) (collect_intent live chunks (env_clock k) fence w x) R (agrees (spared k) fs).
Proof.
  intros Hch Hin Hseen Hx R. destruct x as [id li]. cbn in Hx. unfold collect_intent.
  apply triple_assume. intros Hw.
  assert (Hforget : ∀ a b n, w_seen (mkSweep a b n (w_seen (sweep_forget id w)) (w_dirty (sweep_forget id w))) ⊆ seen).
  { intros a b n. cbn. etransitivity; [apply delete_subseteq|done]. }
  destruct (chunks !! id) as [l|] eqn:El; [|by apply triple_ret].
  pose proof (removeIntentFiles_agrees k id li (Hin id li Hx)) as Hri.
  case_bool_decide as Hlive.
  { eapply triple_bind; [by apply (triple_keep _ (agrees (spared k) fs))|]. intros ?. by apply triple_ret. }
  destruct (collectable (w_seen w) (env_clock k) fence id li l) eqn:Ec; cbn [negb]; [|by apply triple_ret].
  apply (collectable_mono seen) in Ec; [|done].
  pose proof (removeChunkFiles_agrees id seen k li l (Hin id li Hx) (Hch id l El) Hseen Hlive Ec) as Hrc.
  eapply triple_bind; [by apply (triple_keep _ (agrees (spared k) fs))|]. intros ?.
  eapply triple_bind; [by apply (triple_keep _ (agrees (spared k) fs))|]. intros ?. by apply triple_ret.
Qed.

Lemma gc_collect_agrees :
  seenPath ≠ [] → has_prefix (base_of seenPath) ".tmp-" = false →
  triple (eq fs) (gc_collect v seenPath live fence) (fun _ fs' => ∃ k, agrees (spared k) fs fs') (fun fs' => ∃ k, agrees (spared k) fs fs').
Proof.
  intros Hne Hb. unfold gc_collect.
  assert (Heq : ∀ k fs', fs = fs' → agrees (spared k) fs fs') by (intros k fs' Hfs q _; by rewrite <- Hfs).
  assert (Hex : ∀ fs', fs = fs' → ∃ k, agrees (spared k) fs fs') by (intros fs' Hfs; exists 0%nat; by apply Heq).
  eapply triple_bind; [eapply triple_conseq; [apply walkIntents_triple|done|done|done]|].
  intros intents. apply triple_assume. intros Hin.
  eapply triple_bind; [eapply triple_conseq; [apply walkChunkFiles_triple|done|done|done]|].
  intros chunks. apply triple_assume. intros Hch.
  eapply triple_bind; [eapply triple_conseq; [apply loadSeenStore_triple|done|done|done]|].
  intros seen. apply triple_assume. intros Hseen.
  apply triple_now. intros k.
  apply triple_conseq with (P' := eq fs) (Q' := fun _ => agrees (spared k) fs) (E' := agrees (spared k) fs); [|done|by eauto..].
  apply triple_range. intros l Hl.
  set (R w fs' := agrees (spared k) fs fs' ∧ w_seen w ⊆ seen).
  eapply (triple_bind _ _ R).
  - eapply triple_conseq; [apply (triple_mfold R (agrees (spared k) fs))| |done|done].
    + intros w x Hx. rewrite Hl in Hx. destruct x as [id li]. apply elem_of_map_to_list in Hx.
      by apply (collect_intent_triple chunks intents seen k w (id, li)).
    + intros fs' Hfs. by split; [apply Heq|].
  - intros w. eapply (triple_bind _ _ (fun _ => agrees (spared k) fs)); [|intros _; by apply triple_ret].
    apply triple_keep; [|by intros fs' [? _]].
    destruct (w_dirty w); [by apply saveSeenStore_agrees|keep].
Qed.
End collect.

(** ** The marking phase and the live set *)

Lemma hex_not_tmp c t s : isHex (String c t) = true → has_prefix (String (ascii_lower c) s) ".tmp-" = false.
Proof.
  cbn [isHex]. cbn. intros [Hc _]%andb_true_iff. apply not_true_is_false. intros Hp.
  apply has_prefix_head in Hp. revert Hc Hp. clear. by destruct c as [[] [] [] [] [] [] [] []].
Qed.

Lemma isHex_ascii s : isHex s = true → is_ascii s = true.
Proof.
  destruct s as [|c s]; [done|]. unfold isHex, is_ascii. rewrite !forallb_forall. intros Hx x Hin.
  specialize (Hx x Hin). revert Hx. unfold in_range. rewrite !orb_true_iff, !andb_true_iff, !Z.leb_le, Z.ltb_lt. lia.
Qed.

Lemma chunkID_not_tmp `{GoUnicode} name s :
  chunkIDFromFileName name ≠ "" → has_prefix (chunkIDFromFileName name +:+ s) ".tmp-" = false.
Proof.
  unfold chunkIDFromFileName. destruct (_ && isHex (str_take 64 name)) eqn:E; [|done]. intros _.
  apply andb_true_iff in E as [_ Hx]. rewrite to_lower_ascii.
  - destruct (str_take 64 name) as [|c t]; [done|]. by apply (hex_not_tmp c t).
  - by apply isHex_ascii.
Qed.

Section live.
Context `{GoUnicode} `{AEAD} `{Env} `{JSON ManifestRecord} `{JSON Index} (v : Vault).

Lemma indexFingerprint_keeps : keeps_cache (indexFingerprint v).
Proof. unfold indexFingerprint, walk_or_empty, os_Walk, os_Info. kept_cache. Qed.

(** [live] holds what an index references that was loaded from a disk [fs]. *)
Definition live_on (fs : files) (live : gset string) : Prop :=
  ∃ s1 s2 idx, st_files s1 = fs ∧ loadIndexFromDisk v s1 = (s2, Ok idx) ∧ live = live_of idx.

Lemma ReloadIndex_run s s' : ReloadIndex v s = (s', Ok tt) →
  st_files s' = st_files s ∧ ∃ s1 s2 idx, st_files s1 = st_files s ∧ loadIndexFromDisk v s1 = (s2, Ok idx) ∧ st_cached s' = Some idx.
Proof.
  intros Hr. split.
  { pose proof (ReloadIndex_preserves v (eq (st_files s)) s eq_refl) as Hk. by rewrite Hr in Hk. }
  unfold ReloadIndex, cachedIndexLocked in Hr. rewrite bind_run in Hr. cbn [modify] in Hr.
  rewrite bind_run in Hr. unfold gets at 1 in Hr. rewrite bind_run in Hr. cbn [st_cached set_cached] in Hr.
  rewrite bind_run in Hr. destruct (loadIndexFromDisk v (set_cached s None)) as [s2 [idx|e]] eqn:El; [|done].
  exists (set_cached s None), s2, idx. split; [done|]. split; [done|]. by injection Hr as <-.
Qed.

Lemma liveChunkSet_run s idx : st_cached s = Some idx → liveChunkSet v s = (s, Ok (live_of idx)).
Proof.
  intros Hc. unfold liveChunkSet, LoadIndex, cachedIndexLocked. rewrite !bind_run. unfold gets. by rewrite Hc.
Qed.

Lemma triple_reload {A : Type} fs (k : gset string → M A) Q (E : files → Prop) :
  (∀ fs', fs = fs' → E fs') → (∀ live, live_on fs live → triple (eq fs) (k live) Q E) →
  triple (eq fs) (_ ← ReloadIndex v; live ← liveChunkSet v; k live) Q E.
Proof.
  intros HE Hk s Hs. rewrite bind_run. destruct (ReloadIndex v s) as [s' [[]|e]] eqn:Er.
  - apply ReloadIndex_run in Er as (Hf & s1 & s2 & idx & Hs1 & Hl & Hc).
    rewrite bind_run, (liveChunkSet_run _ idx Hc). apply Hk; [|by rewrite Hf]. exists s1, s2, idx. by rewrite Hs1.
  - pose proof (ReloadIndex_preserves v (eq fs) s Hs) as Hf. rewrite Er in Hf. by apply HE.
Qed.

Lemma triple_reload_fp {A : Type} fs (k : Z → gset string → M A) Q (E : files → Prop) :
  (∀ fs', fs = fs' → E fs') → (∀ fp live, live_on fs live → triple (eq fs) (k fp live) Q E) →
  triple (eq fs) (_ ← ReloadIndex v; fp ← indexFingerprint v; live ← liveChunkSet v; k fp live) Q E.
Proof.
  intros HE Hk s Hs. rewrite bind_run. destruct (ReloadIndex v s) as [s' [[]|e]] eqn:Er.
  - apply ReloadIndex_run in Er as (Hf & s1 & s2 & idx & Hs1 & Hl & Hc). rewrite bind_run.
    pose proof (indexFingerprint_keeps s') as Hkc.
    pose proof (indexFingerprint_preserves v (eq fs) s') as Hkf.
    destruct (indexFingerprint v s') as [s'' [fp|e]]; cbn in Hkc, Hkf.
    + rewrite bind_run, (liveChunkSet_run _ idx) by congruence. apply Hk; [|apply Hkf; congruence].
      exists s1, s2, idx. by rewrite Hs1.
    + apply HE, Hkf. congruence.
  - pose proof (ReloadIndex_preserves v (eq fs) s Hs) as Hf. rewrite Er in Hf. by apply HE.
Qed.
End live.

Section whole.
Context `{GoUnicode} `{AEAD} `{Env} `{Platform} `{JSON ManifestRecord} `{JSON Index} `{JSON LegacyID}
  `{JSON (gmap string string)} (v : Vault) (seenPath : fpath).
Hypothesis seen_nonempty : seenPath ≠ [].
Hypothesis seen_not_tmp : has_prefix (base_of seenPath) ".tmp-" = false.

(** The files marking leaves alone: all but the intents, the first-seen record and
    temporary files. *)
Definition unmarked (q : fpath) : Prop :=
  q ≠ seenPath ∧ has_prefix (base_of q) ".tmp-" = false ∧ below (intent_dir v) q = false.

Lemma intent_file_marked name : ¬ unmarked (intent_dir v ++ [name]).
Proof. intros (_ & _ & Hb). by rewrite below_app in Hb. Qed.

Lemma saveSeenStore_unmarked fs m : preserves (agrees unmarked fs) (saveSeenStore seenPath m).
Proof.
  unfold saveSeenStore, os_MkdirAll. apply preserves_bind; [keep|]. intros _.
  apply atomicWriteFile_agrees; [done|done|by intros [Hq _]|].
  intros name Hn (_ & Ht & _). rewrite base_snoc in Ht. congruence.
Qed.

Lemma mark_intent_agrees fs fs1 live chunks m x :
  intent_ok v fs1 x.1 x.2 → preserves (agrees unmarked fs) (mark_intent live chunks m x).
Proof.
  destruct x as [id li]. intros [Hf _]. rewrite Forall_forall in Hf.
  assert (Hr : preserves (agrees unmarked fs) (removeIntentFiles li)).
  { apply preserves_mfold_in. intros b p Hp. apply removeWithRetry_agrees.
    destruct (Hf p Hp) as (name & -> & _). apply intent_file_marked. }
  unfold mark_intent. keep.
Qed.

Lemma mark_chunk_agrees fs fs1 live intents w x :
  chunk_ok v fs1 x.1 x.2 → preserves (agrees unmarked fs) (mark_chunk v live intents w x).
Proof.
  destruct x as [id l]. intros (Hid & (name & Hname) & _). cbn [fst] in *. unfold mark_chunk. cbn [fst].
  destruct (_ || _); [keep|].
  assert (Hw : ∀ t, preserves (agrees unmarked fs) (writeIntent v id t)).
  { intros t. unfold writeIntent, os_MkdirAll. apply preserves_bind; [keep|]. intros _. apply atomicWriteFile_agrees.
    - by destruct (intent_dir v).
    - rewrite base_snoc, <- Hname. apply chunkID_not_tmp. congruence.
    - apply intent_file_marked.
    - intros n Hn (_ & Ht & _). rewrite base_snoc in Ht. congruence. }
  keep.
Qed.

Lemma gc_mark_triple fs :
  triple (eq fs) (gc_mark v seenPath) (fun r fs' => agrees unmarked fs fs' ∧ live_on v fs r.1.1.1.2) (agrees unmarked fs).
Proof.
  assert (Heq : ∀ fs', fs = fs' → agrees unmarked fs fs') by (intros fs' <-; apply agrees_refl).
  unfold gc_mark. apply triple_reload_fp; [done|]. intros fp live Hlive.
  eapply triple_bind; [eapply triple_conseq; [apply walkChunkFiles_triple|done|done|done]|].
  intros chunks. apply triple_assume. intros Hch.
  eapply triple_bind; [eapply triple_conseq; [apply walkIntents_triple|done|done|done]|].
  intros intents. apply triple_assume. intros Hin.
  eapply (triple_conseq _ (agrees unmarked fs) _ _ (fun r fs' => agrees unmarked fs fs' ∧ r.1.1.1.2 = live) _ (agrees unmarked fs));
    [|exact Heq|by intros r fs' [? ->]|done].
  set (I := agrees unmarked fs).
  eapply triple_bind; [apply (triple_keep _ I); [keep|done]|]. intros seen.
  apply triple_range. intros l Hl. eapply triple_bind; [apply (triple_keep _ I); [|done]|].
  { apply preserves_mfold_in. intros m [id li] Hx. rewrite Hl, elem_of_map_to_list in Hx.
    by apply (mark_intent_agrees fs fs), Hin. }
  intros m. apply triple_range. intros l2 Hl2. eapply triple_bind; [apply (triple_keep _ I); [|done]|].
  { apply preserves_mfold_in. intros w [id fs'] Hx. rewrite Hl2, elem_of_map_to_list in Hx.
    by apply (mark_chunk_agrees fs fs), Hch. }
  intros written. eapply triple_bind; [apply (triple_keep _ I); [|done]|].
  { destruct (m_dirty m); [apply saveSeenStore_unmarked|keep]. }
  intros ?. by apply triple_ret.
Qed.

Definition is_manifest (q : fpath) : Prop := below (manifestRoot v) q = true ∧ has_prefix (base_of q) ".tmp-" = false.
Definition is_object (q : fpath) : Prop := below (chunk_root v) q = true ∧ has_prefix (base_of q) ".tmp-" = false.

(** From [fs] to [fs'], a chunk file disappears only if no record of an index that
    was loaded from the manifests [fs'] has references it, and it is old. *)
Definition collected_safely (fence : Z) (fs fs' : files) : Prop :=
  ∀ q f, is_object q → fs !! q = Some f →
    fs' !! q = Some f ∨
    ∃ k live fs0, live_on v fs0 live ∧ agrees is_manifest fs0 fs' ∧
      (chunkIDFromFileName (base_of q) ∉ live) ∧ fence ≤ dur_sub (env_clock k) (f_mtime f).

Hypothesis seen_outside : below (v_MetaRoot v) seenPath = false.

Lemma meta_below q root : below (v_MetaRoot v ++ root) q = true → below (v_MetaRoot v) q = true.
Proof. rewrite !below_iff. intros [r ->]. exists (root ++ r). by rewrite app_assoc. Qed.

Lemma meta_apart a b ra rb q : a ≠ b → below (v_MetaRoot v ++ a :: ra) q = true → below (v_MetaRoot v ++ b :: rb) q = false.
Proof.
  intros Hab. rewrite below_iff. intros [r ->]. apply not_true_is_false. rewrite below_iff. intros [r' E].
  rewrite <- !app_assoc in E. apply app_inv_head in E. cbn in E. injection E as E _. done.
Qed.

Lemma manifest_unmarked q : is_manifest q → unmarked q.
Proof.
  intros [Hb Ht]. split; [|split; [done|by refine (meta_apart "manifests" _ [] [] q _ Hb)]].
  intros ->. apply meta_below in Hb. congruence.
Qed.
Lemma object_unmarked q : is_object q → unmarked q.
Proof.
  intros [Hb Ht]. split; [|split; [done|by refine (meta_apart "objects" _ ["chunks"] [] q _ Hb)]].
  intros ->. apply meta_below in Hb. congruence.
Qed.

Lemma gc_refresh_triple fs0 fs fp live :
  live_on v fs0 live →
  triple (eq fs) (gc_refresh v fp live)
    (fun r fs' => fs = fs' ∧ (live_on v fs0 r.1 ∨ live_on v fs r.1)) (eq fs).
Proof.
  intros Hlive. unfold gc_refresh. eapply triple_bind; [apply (triple_keep _ (eq fs)); [keep|done]|].
  intros fpNow. destruct (fpNow =? fp); [apply triple_ret; auto|].
  apply triple_reload; [done|]. intros live' Hl. apply triple_ret. auto.
Qed.

Lemma agrees_trans P fs0 fs1 fs2 : agrees P fs0 fs1 → agrees P fs1 fs2 → agrees P fs0 fs2.
Proof. intros H1' H2' q Hq. rewrite H2' by done. by apply H1'. Qed.

Lemma objects_kept fence fs fs' : agrees is_object fs fs' → collected_safely fence fs fs'.
Proof. intros Ha q f Hq Hf. left. by rewrite Ha. Qed.

Lemma compact_triple now apply fence fs : wf_disk fs →
  triple (eq fs) (compact v now apply fence) (fun _ => agrees is_object fs) (agrees is_object fs).
Proof.
  intros Hwf s Hs. pose proof (compact_agrees v is_object fs) as Hk.
  assert (HP : ∀ q, is_object q → below (manifestRoot v) q = false ∧ has_prefix (base_of q) ".tmp-" = false).
  { intros q [Hb Ht]. split; [|done]. by refine (meta_apart "objects" _ ["chunks"] [] q _ Hb). }
  specialize (Hk HP now apply fence s Hwf (eq_sym Hs)). by destruct (compact v now apply fence s) as [s' [?|?]].
Qed.

Lemma not_object_manifest p : is_manifest p → below (chunk_root v) p = false.
Proof. intros [Hp _]. by refine (meta_apart "manifests" _ [] ["chunks"] p _ Hp). Qed.

Lemma collect_safe k fence fs live fs1 fs2 fs3 :
  agrees is_object fs fs1 → agrees unmarked fs1 fs2 → (live_on v fs1 live ∨ live_on v fs2 live) →
  agrees (spared v seenPath live fence fs2 k) fs2 fs3 → collected_safely fence fs fs3.
Proof.
  intros Hobj Hmark Hlive Hcol q f Hq Hf.
  assert (Hf2 : fs2 !! q = Some f) by (rewrite Hmark; [by rewrite Hobj|by apply object_unmarked]).
  assert (Hman : agrees is_manifest fs2 fs3).
  { intros p Hp. apply Hcol. destruct (manifest_unmarked p Hp) as (? & ? & ?). split; [done|].
    split; [done|]. split; [done|]. intros g _ Hg. by rewrite not_object_manifest in Hg. }
  assert (Hlive' : ∃ fs0, live_on v fs0 live ∧ agrees is_manifest fs0 fs3).
  { destruct Hlive as [Hl|Hl]; [exists fs1|by exists fs2]. split; [done|]. apply (agrees_trans _ _ fs2); [|done].
    eapply agrees_weaken; [|exact Hmark]. apply manifest_unmarked. }
  destruct (decide (fenced_at v seenPath live fence fs2 (env_clock k) (chunkIDFromFileName (base_of q)) f)) as [Hd|Hd].
  - right. destruct Hlive' as (fs0 & ? & ?). exists k, live, fs0. by destruct Hd.
  - left. rewrite Hcol; [done|]. destruct (object_unmarked q Hq) as (? & ? & ?). split; [done|]. split; [done|].
    split; [done|]. intros g Hg _. rewrite Hf2 in Hg. by injection Hg as <-.
Qed.

Lemma gcConfirm_triple fence store fs :
  wf_disk fs → seenStorePath v store = Ok seenPath →
  triple (eq fs) (gcConfirm v fence store) (fun _ => collected_safely fence fs) (collected_safely fence fs).
Proof.
  intros Hwf Hseen. unfold gcConfirm. apply triple_now. intros k0.
  assert (Hobj : ∀ fs', agrees is_object fs fs' → collected_safely fence fs fs') by (intros; by apply objects_kept).
  eapply triple_bind; [eapply triple_conseq; [by apply compact_triple|done|done|exact Hobj]|].
  intros [cr [e|]]; [by apply triple_fail|]. rewrite Hseen.
  eapply (triple_bind _ _ (fun p fs' => agrees is_object fs fs' ∧ p = seenPath)); [by apply (triple_ret _ seenPath)|].
  intros p. apply triple_assume. intros ->. apply triple_from. intros fs1 Hfs1.
  assert (Hun : ∀ fs', agrees unmarked fs1 fs' → collected_safely fence fs fs').
  { intros fs' Hu. apply Hobj. apply (agrees_trans _ _ fs1); [done|]. eapply agrees_weaken; [|exact Hu]. apply object_unmarked. }
  eapply triple_bind; [eapply triple_conseq; [apply gc_mark_triple|done|done|exact Hun]|].
  intros [[[[fp live] m] written] [cands n]]. apply triple_assume. intros Hlive. cbn [fst snd] in Hlive.
  apply triple_from. intros fs2 Hfs2.
  eapply triple_bind; [eapply triple_conseq; [by apply (gc_refresh_triple fs1 fs2)|done|done|intros fs' <-; by apply Hun]|].
  intros [live' reloads]. apply triple_assume. intros Hlive'. cbn [fst] in Hlive'.
  assert (Hcol : ∀ fs', (∃ k, agrees (spared v seenPath live' fence fs2 k) fs2 fs') → collected_safely fence fs fs').
  { intros fs' [k Hk]. by apply (collect_safe k fence fs live' fs1 fs2 fs'). }
  set (Safe := collected_safely fence fs) in *. apply (triple_bind _ _ (fun _ => Safe)).
  { eapply triple_conseq; [by apply gc_collect_agrees|done|intros ?; exact Hcol|exact Hcol]. }
  intros [w t]. apply (triple_bind _ _ (fun _ => Safe)); [apply triple_keep; [keep|done]|].
  intros pending. by apply triple_ret.
Qed.
End whole.

(** ** The collector's guarantees *)

Section guarantees.
Context `{GoUnicode} `{AEAD} `{Env} `{Platform} `{JSON ManifestRecord} `{JSON Index} `{JSON LegacyID}
  `{JSON (gmap string string)} (v : Vault).

(** C33. Whatever is on disk and whatever calls fail, phase 2 of a collection
    removes a file only if it is a chunk file that is past every fence at the
    phase's one clock reading: unreferenced, with its own time, the time of one of
    its intents and this device's first sight of an intent at least the fence
    old.  Every file but the intents, the first-seen record and temporary files is
    otherwise left as it was. *)
Theorem gc_collect_fences (seenPath : fpath) (live : gset string) (fence : Z) (s s' : St) (r : result (Sweep * Z)) :
  seenPath ≠ [] → has_prefix (base_of seenPath) ".tmp-" = false →
  gc_collect v seenPath live fence s = (s', r) →
  ∃ k, ∀ q f, st_files s !! q = Some f → unmarked v seenPath q →
    st_files s' !! q = Some f ∨
    (below (chunk_root v) q = true ∧ fenced v seenPath live fence (st_files s) k q f).
Proof.
  intros Hne Hb Hrun. pose proof (gc_collect_agrees v seenPath live fence (st_files s) Hne Hb s eq_refl) as Ht.
  rewrite Hrun in Ht. assert (Hk : ∃ k, agrees (spared v seenPath live fence (st_files s) k) (st_files s) (st_files s'))
    by (by destruct r). destruct Hk as [k Hk]. exists k. intros q f Hq (Hs & Htmp & Hi).
  destruct (decide (below (chunk_root v) q = true ∧ fenced_at v seenPath live fence (st_files s) (env_clock k)
    (chunkIDFromFileName (base_of q)) f)) as [Hd|Hd]; [by right|left].
  rewrite Hk; [done|]. split; [done|]. split; [done|]. split; [done|]. intros g Hg Hbel Hf.
  rewrite Hq in Hg. injection Hg as <-. by apply Hd.
Qed.

(** C34. A collection never removes a chunk that is in use: whatever is on disk and
    whatever calls fail, a chunk file that is gone or changed after a confirmed
    run belongs to no chunk referenced by an index loaded during the run from the
    manifests the run left, and it is at least the fence old. *)
Theorem gc_keeps_referenced (opts : GCOptions) (seenPath : fpath) (s s' : St) (r : result GCReport) :
  wf_disk (st_files s) → Confirm opts = true → seenStorePath v (SeenStore opts) = Ok seenPath →
  seenPath ≠ [] → has_prefix (base_of seenPath) ".tmp-" = false → below (v_MetaRoot v) seenPath = false →
  GarbageCollect v opts s = (s', r) →
  collected_safely v (effective_fence (Fence opts)) (st_files s) (st_files s').
Proof.
  intros Hwf Hc Hseen Hne Hb Hout Hrun. set (Safe := collected_safely v _ (st_files s)).
  assert (Hsafe : ∀ fs', st_files s = fs' → Safe fs').
  { intros fs' <-. apply objects_kept, agrees_refl. }
  assert (Ht : triple (eq (st_files s)) (GarbageCollect v opts) (fun _ => Safe) Safe).
  { unfold GarbageCollect. rewrite Hc. cbn [negb].
    eapply triple_bind; [eapply triple_conseq; [apply (triple_keep _ (eq (st_files s))); [keep|done]|done|done|exact Hsafe]|].
    intros ?. eapply triple_bind; [eapply triple_conseq; [apply (triple_keep _ (eq (st_files s))); [keep|done]|done|done|exact Hsafe]|].
    intros ?. by apply gcConfirm_triple with (seenPath := seenPath). }
  specialize (Ht s eq_refl). rewrite Hrun in Ht. by destruct r.
Qed.

(** A dry run writes nothing, and a run the refusal gate stops writes nothing
    and fails, confirmed or not. *)
Theorem gc_unconfirmed_writes_nothing (opts : GCOptions) (s s' : St) (r : result GCReport) :
  GarbageCollect v opts s = (s', r) →
  (Confirm opts = false → st_files s' = st_files s) ∧
  (∀ e, is_ok (ReloadIndex v s).2 = true → (gcRefusalGate v (ReloadIndex v s).1).2 = Err e →
     r = Err e ∧ st_files s' = st_files s).
Proof.
  intros Hrun. split.
  - intros Hc. assert (Hk : preserves (eq (st_files s)) (GarbageCollect v opts)).
    { unfold GarbageCollect. rewrite Hc. cbn [negb]. keep. }
    specialize (Hk s eq_refl). by rewrite Hrun in Hk.
  - intros e Hok Hgate. unfold GarbageCollect in Hrun. rewrite bind_run in Hrun.
    pose proof (ReloadIndex_preserves v (eq (st_files s)) s eq_refl) as Hf.
    destruct (ReloadIndex v s) as [s1 [u|e1]]; [|done]. cbn [fst] in *.
    pose proof (gcRefusalGate_preserves v (eq (st_files s)) s1 Hf) as Hg. rewrite bind_run in Hrun.
    destruct (gcRefusalGate v s1) as [s2 [u'|e2]]; [done|]. cbn in Hgate, Hg. injection Hgate as ->.
    by injection Hrun as <- <-.
Qed.
End guarantees.

(** ** A concrete collection *)

Definition demo_platform : Platform := {| GOOS := "linux"; getenv _ := ""; getwd := Ok "/"; UserHomeDir := Ok "/home/u" |}.

Section demo.
#[local] Existing Instances demo_unicode demo_aead demo_env demo_platform json_manifest json_index json_legacy json_seen.

(** A vault with one file, its chunk, and a chunk nothing references; both chunks
    old, both with an old intent this device saw long ago. *)
Definition used_id : string := String.concat "" (repeat "aa" 32).
Definition orphan_id : string := String.concat "" (repeat "bb" 32).
Definition chunk_file (id : string) : fpath := ["m"; "objects"; "chunks"; str_take 2 id; id +:+ ".chunk"].
Definition gc_seen : fpath := [""; "m2"; "0123456789abcdef0123456789abcdef.json"].
Definition old_time : string := "2020-01-01T00:00:00Z".
Definition gc_files : list (fpath * File) :=
  [(chunk_file used_id, mkFile (bytes_of "x") 5); (chunk_file orphan_id, mkFile (bytes_of "y") 5);
   (["m"; "gc-intents"; used_id +:+ ".intent"], mkFile (bytes_of old_time) 5);
   (["m"; "gc-intents"; orphan_id +:+ ".intent"], mkFile (bytes_of old_time) 5);
   (gc_seen, mkFile (marshal {[used_id := old_time; orphan_id := old_time]}) 5)].
Definition gc_start : St := mkSt (list_to_map gc_files) 0 None 0 None.
Definition gc_run : St * result (Sweep * Z) := gc_collect demo_vault gc_seen {[used_id]} (72 * hour) gc_start.

Lemma gc_collect_fences_witness :
  st_files gc_run.1 !! chunk_file used_id = Some (mkFile (bytes_of "x") 5) ∧
  st_files gc_run.1 !! chunk_file orphan_id = None ∧
  ∃ k, fenced demo_vault gc_seen {[used_id]} (72 * hour) (st_files gc_start) k (chunk_file orphan_id) (mkFile (bytes_of "y") 5).
Proof.
  assert (E : st_files gc_run.1 !! chunk_file orphan_id = None) by (vm_compute; reflexivity).
  split; [vm_compute; reflexivity|]. split; [exact E|].
  assert (Hrun : gc_collect demo_vault gc_seen {[used_id]} (72 * hour) gc_start = (gc_run.1, gc_run.2))
    by (unfold gc_run; by destruct (gc_collect _ _ _ _ _)).
  destruct (gc_collect_fences demo_vault gc_seen {[used_id]} (72 * hour) gc_start gc_run.1 gc_run.2) as [k Hk].
  - discriminate.
  - vm_compute. reflexivity.
  - exact Hrun.
  - exists k. specialize (Hk (chunk_file orphan_id) (mkFile (bytes_of "y") 5)). rewrite E in Hk.
    destruct Hk as [Hk|Hk]; [vm_compute; reflexivity|split; [discriminate|split; vm_compute; reflexivity]|discriminate Hk|apply Hk].
Defined.

(** The same vault with the manifest of a file made of the used chunk: a whole
    confirmed run. *)
Definition used_file : FileRecord := MkFileRecord 1 384 "2024-01-01T00:00:00Z" "2024-01-01T00:00:00Z" 7
  [MkChunkRef used_id 1] "" {["dev-a" := 7]} ∅.
Definition gc_full_start : St := (saveFileManifest demo_vault "content/a" used_file gc_start).1.
Definition gc_opts : GCOptions := mkGCOptions true 0 "/m2".
Definition gc_full : St * result GCReport := GarbageCollect demo_vault gc_opts gc_full_start.
Lemma gc_full_run : GarbageCollect demo_vault gc_opts gc_full_start = (gc_full.1, gc_full.2).
Proof. unfold gc_full. by destruct (GarbageCollect _ _ _). Qed.

Lemma gc_keeps_referenced_witness :
  match gc_full.2 with Ok r => gr_RemovedChunks r | Err _ => [] end = [orphan_id] ∧
  collected_safely demo_vault (72 * hour) (st_files gc_full_start) (st_files gc_full.1).
Proof.
  split; [vm_compute; reflexivity|].
  refine (gc_keeps_referenced demo_vault gc_opts gc_seen gc_full_start gc_full.1 gc_full.2 _ _ _ _ _ _ gc_full_run).
  - intros q Hq. apply (proj1 (Forall_forall (fun q => q ≠ [] ∧ Forall (fun x => no_slash x = true) q)
      (fst <$> map_to_list (st_files gc_full_start)))).
    + by_decide.
    + destruct Hq as [f Hf]. apply list_elem_of_fmap. exists (q, f). split; [done|]. by apply elem_of_map_to_list.
  - vm_compute. reflexivity.
  - vm_compute. reflexivity.
  - discriminate.
  - vm_compute. reflexivity.
  - vm_compute. reflexivity.
Defined.

Definition gc_dry : St * result GCReport := GarbageCollect demo_vault (mkGCOptions false 0 "") gc_full_start.
Lemma gc_dry_run : GarbageCollect demo_vault (mkGCOptions false 0 "") gc_full_start = (gc_dry.1, gc_dry.2).
Proof. unfold gc_dry. by destruct (GarbageCollect _ _ _). Qed.

Lemma gc_unconfirmed_writes_nothing_witness :
  match gc_dry.2 with Ok r => gr_Candidates r | Err _ => [] end = [orphan_id] ∧
  st_files gc_dry.1 = st_files gc_full_start.
Proof.
  split; [vm_compute; reflexivity|].
  exact (proj1 (gc_unconfirmed_writes_nothing demo_vault (mkGCOptions false 0 "") gc_full_start gc_dry.1 gc_dry.2 gc_dry_run) eq_refl).
Defined.
End demo.
