(* ===== verification/VaultOps.v ===== *)
(** The operations of an open vault: storing, reading, listing, removing and
    verifying files (internal/vault/vault.go, internal/vault/directories.go,
    internal/vault/put_directory_contents.go).

    The source tree of an import and the destination of an export are paths of the
    same file system.  A file's permission bits are not tracked: [os.Stat] reports
    [default_perm].  A modification time of [None] is the zero [time.Time]. *)
From S2P Require Export GC.
Local Open Scope Z_scope.

Definition default_perm : Z := 384. (* 0o600 *)

(** internal/vault/vault.go:225-230 [PutResult] *)
Record PutResult : Type := mkPutResult { pr_Path : string; pr_Size : Z; pr_ChunkCount : Z; pr_NewChunkCount : Z }.

(** internal/vault/vault.go:232-237 [Stats]; the bytes, where the code has MiB in a
    float64. *)
Record Stats_ : Type := mkStats { ss_Files : Z; ss_Referenced : Z; ss_Objects : Z; ss_ReferencedBytes : Z }.

(** internal/vault/vault.go:740-743 [PutReport] *)
Record PutReport : Type := mkPutReport { pt_Results : list PutResult; pt_Warnings : list fpath }.

(** What [putReader]'s callback accumulates. *)
Record Putting : Type := mkPutting { pg_refs : list ChunkRef; pg_new : Z; pg_total : Z }.

(** internal/vault/content.go:144-147 [markerFileRecord] *)
Definition markerFileRecord (t : Z) : FileRecord :=
  let now := format_rfc3339nano t in
  MkFileRecord 0 448 now now (unixNanoOrNow t now) [] "" ∅ ∅.

(** The paths of an index, sorted. *)
Definition sorted_paths (fs : gmap string FileRecord) : list string := sort_strings (fst <$> map_to_list fs).

Section put.
Context `{GoUnicode} `{AEAD} `{Env} `{Platform} `{JSON ManifestRecord} `{JSON Index} (v : Vault).

(** internal/vault/vault.go:912-922 [putReader]: the callback. *)
Definition put_chunk (sp : St * Putting) (chunk : bytes) : (St * Putting) * option err :=
  let '(s, p) := sp in
  let total := wrap64 (pg_total p + Z.of_nat (length chunk)) in
  match storeChunk v chunk s with
  | (s, Err e) => ((s, mkPutting (pg_refs p) (pg_new p) total), Some e)
  | (s, Ok (ref, created)) =>
      ((s, mkPutting (pg_refs p ++ [ref]) (if created : bool then pg_new p + 1 else pg_new p) total), None)
  end.

(** [ForEachChunk] with that callback. *)
Definition put_chunks (reads : list read) : M Putting := fun s =>
  match ForEachChunk (s, mkPutting [] 0 0) reads (Chunk (v_Config v)) put_chunk with
  | ((s, p), None) => (s, Ok p)
  | ((s, _), Some e) => (s, Err e)
  end.

(** internal/vault/vault.go:907-945 [putReader]; the index it updates is returned. *)
Definition putReader (reads : list read) (virtualPath : string) (size mode : Z) (modTime : option Z) (idx : Index)
    : M (PutResult * Index) :=
  p ← put_chunks reads;
  modTime ← (match modTime with Some t => mret t | None => now end);
  let mode := if mode =? 0 then 384 else mode in
  let size := if size <? 0 then pg_total p else size in
  t ← now;
  let nows := format_rfc3339nano t in
  let wallNano := unixNanoOrNow t nows in
  generation ← nextGeneration wallNano;
  let '(clk, clockAge) := nextRecordClock (v_deviceID v) idx virtualPath wallNano in
  let rec := MkFileRecord size mode (format_rfc3339nano modTime) nows generation (pg_refs p) "" clk clockAge in
  mret (mkPutResult virtualPath size (Z.of_nat (length (pg_refs p))) (pg_new p),
        with_Files idx (<[virtualPath := rec]> (ix_Files idx))).

(** Saving what a put changed: the manifests of [written], or the whole index. *)
Definition commit_written (idx : Index) (written : list string) : M unit :=
  if usesManifestStore v then
    mfold (fun _ p => commitFileManifest v p (default zero_FileRecord (ix_Files idx !! p))) tt written
  else SaveIndex v idx.

(** internal/vault/vault.go:876-905 [PutReader] *)
Definition PutReader (reads : list read) (virtualPath : string) (size mode : Z) (modTime : option Z) : M PutResult :=
  idx ← LoadIndex v;
  vp ← lift (normalizeContentFilePath virtualPath);
  _ ← (match ix_Files idx !! vp with
       | Some _ => mret tt
       | None =>
           match reservedNewPathError vp with
           | Some e => fail e
           | None => match ValidatePortableName (path_base vp) with Some e => fail e | None => mret tt end
           end
       end);
  '(res, idx) ← putReader reads vp size mode modTime idx;
  _ ← commit_written idx [vp];
  mret res.

(** [os.Stat(p)] and its [IsDir()]. *)
Definition os_IsDir (p : fpath) : M bool := query (fun fs =>
  if is_dir fs p then Ok true else if bool_decide (is_Some (fs !! p)) then Ok false else Err ErrNotExist).

(** internal/vault/vault.go:855-874 [putFile] *)
Definition putFile (sourcePath : fpath) (virtualPath : string) (idx : Index) : M (PutResult * Index) :=
  _ ← (match ix_Files idx !! virtualPath with
       | Some _ => mret tt
       | None => match ValidatePortableName (path_base virtualPath) with Some e => fail e | None => mret tt end
       end);
  info ← os_Info sourcePath;
  data ← os_ReadFile sourcePath;
  putReader [(data, None)] virtualPath (Z.of_nat (length (f_data info))) default_perm (Some (f_mtime info)) idx.

(** The segments of [p] below [source], its file name last. *)
Definition rel_segs (source p : fpath) : fpath := drop (length source) p.

(** The directories a walk of [source] enters on the way to [p], [source] itself
    first. *)
Definition dirs_to (source p : fpath) : list fpath :=
  (fun n => source ++ take n (rel_segs source p)) <$> seq 0 (length (rel_segs source p)).

(** The walk skips [.git] and this vault's own metadata directory. *)
Definition skipped_dir (d : fpath) : bool := String.eqb (base_of d) ".git" || bool_decide (d = v_MetaRoot v).
Definition walk_source (source : fpath) (ps : list fpath) : list fpath :=
  List.filter (fun p => negb (existsb skipped_dir (dirs_to source p))) ps.

(** The directories visited that merely share a metadata name, in walk order. *)
Definition foreign_dirs (source : fpath) (ps : list fpath) : list fpath :=
  List.filter (fun d => isMetadataDirName (base_of d)) (rev (remove_dups (rev (ps ≫= dirs_to source)))).

(** One file of an imported tree; [strict] is the empty-path check of
    [PutDirectoryContents]. *)
Definition put_one (strict : bool) (base : string) (source : fpath) (acc : Index * list PutResult * list string) (p : fpath)
    : M (Index * list PutResult * list string) :=
  let '(idx, results, written) := acc in
  vp ← lift (virtualJoin base (join_slash (rel_segs source p)));
  _ ← (if strict && String.eqb vp "" then fail (ENew "empty virtual path for %s") else mret tt);
  '(res, idx) ← putFile p vp idx;
  mret (idx, results ++ [res], written ++ [vp]).

(** internal/vault/vault.go:758-853 [PutPathReport] *)
Definition PutPathReport (sourcePath : fpath) (virtualPath : string) : M PutReport :=
  isdir ← os_IsDir sourcePath;
  idx ← LoadIndex v;
  let vp := if String.eqb (trim_space virtualPath) "" then base_of sourcePath else virtualPath in
  if negb isdir then
    cleaned ← lift (normalizeContentFilePath vp);
    _ ← (match ix_Files idx !! cleaned with
         | Some _ => mret tt
         | None => match reservedNewPathError cleaned with Some e => fail e | None => mret tt end
         end);
    '(res, idx) ← putFile sourcePath cleaned idx;
    _ ← commit_written idx [cleaned];
    mret (mkPutReport [res] [])
  else
    baseVirtual ← lift (normalizeContentDirPath vp);
    all ← os_Walk sourcePath;
    let ps := walk_source sourcePath all in
    '(idx, results, written) ← mfold (put_one false baseVirtual sourcePath) (idx, [], []) ps;
    _ ← commit_written idx written;
    mret (mkPutReport results (foreign_dirs sourcePath ps)).

(** internal/vault/vault.go:745-748 [PutPath] *)
Definition PutPath (sourcePath : fpath) (virtualPath : string) : M (list PutResult) :=
  rep ← PutPathReport sourcePath virtualPath; mret (pt_Results rep).

(** internal/vault/put_directory_contents.go:18-94 [PutDirectoryContents] *)
Definition PutDirectoryContents (sourceDir : fpath) (virtualBase : string) : M (list PutResult) :=
  isdir ← os_IsDir sourceDir;
  if negb isdir then fail (ENew "source %s is not a directory")
  else
    idx ← LoadIndex v;
    let base := trim_space virtualBase in
    base ← (if String.eqb base "" then mret ContentRootName else lift (normalizeContentDirPath base));
    all ← os_Walk sourceDir;
    '(idx, results, written) ← mfold (put_one true base sourceDir) (idx, [], []) (walk_source sourceDir all);
    _ ← commit_written idx written;
    mret results.
End put.

Section get.
Context `{GoUnicode} `{AEAD} `{Env} `{Platform} `{JSON ManifestRecord} `{JSON Index} (v : Vault).

(** internal/vault/vault.go:985-1003 [ensureDestinationOutsideVault]; the
    destination and the metadata directory are absolute paths. *)
Definition ensureDestinationOutsideVault (dest : fpath) : M unit :=
  if below (v_MetaRoot v) dest
  then fail (ENew "refusing to write decrypted output inside the encrypted vault directory %q: choose a destination outside the vault so plaintext is never synced to the server")
  else mret tt.

(** internal/vault/vault.go:1047-1096 [restoreFile] *)
Definition restoreFile (rec : FileRecord) (destPath : fpath) : M unit :=
  _ ← os_MkdirAll (dir_of destPath);
  tmp ← os_CreateTemp (dir_of destPath) ".seavault-restore-";
  _ ← mfold (fun _ ref =>
        guarded tmp (chunk ← loadChunk v ref; os_Write tmp chunk)) tt (fr_Chunks rec);
  r ← try os_Quiet;
  match r with
  | Err e => _ ← try (os_Remove tmp); fail e
  | Ok _ =>
      _ ← try os_Quiet;
      _ ← (if String.eqb (fr_ModTime rec) "" then mret tt
           else match parse_rfc3339 (fr_ModTime rec) with
                | Some t => _ ← try (os_Chtimes tmp t); mret tt
                | None => mret tt
                end);
      _ ← renameWithRetry tmp destPath;
      _ ← try os_Quiet;
      mret tt
  end.

(** The entries below a virtual directory, sorted. *)
Definition in_dir (prefix p : string) : bool := String.eqb prefix "" || has_prefix p prefix.
Definition entries_below (prefix : string) (fs : gmap string FileRecord) : list string :=
  List.filter (in_dir prefix) (sorted_paths fs).
Definition dir_prefix (vp : string) : string :=
  if negb (String.eqb vp "") && negb (has_suffix vp "/") then vp +:+ "/" else vp.

(** internal/vault/vault.go:1005-1045 [GetPath] *)
Definition GetPath (virtualPath : string) (destPath : fpath) : M unit :=
  _ ← ensureDestinationOutsideVault destPath;
  idx ← LoadIndex v;
  vp ← lift (normalizeContentDirPath virtualPath);
  match ix_Files idx !! vp with
  | Some rec => restoreFile rec destPath
  | None =>
      let prefix := dir_prefix vp in
      let matches := entries_below prefix (ix_Files idx) in
      match matches with
      | [] => fail (ENew "virtual path %q not found")
      | _ =>
          mfold (fun _ p =>
            let rel := if negb (String.eqb prefix "") then trim_prefix p prefix else p in
            r ← try (restoreFile (default zero_FileRecord (ix_Files idx !! p))
                       (os_segs (path_join [os_path destPath; rel])));
            match r with Ok _ => mret tt | Err e => fail (EWrap "restore %s: " e) end) tt matches
      end
  end.

(** internal/vault/vault.go:1098-1121 [WriteFileTo]; what the writer receives. *)
Definition WriteFileTo (virtualPath : string) : M bytes :=
  idx ← LoadIndex v;
  vp ← lift (normalizeContentFilePath virtualPath);
  match ix_Files idx !! vp with
  | None => fail (ENew "virtual path %q not found")
  | Some rec => mfold (fun out ref => chunk ← loadChunk v ref; mret (out ++ chunk)) [] (fr_Chunks rec)
  end.

(** internal/vault/vault.go:1203-1217 [List] *)
Definition List : M (list string) :=
  idx ← LoadIndex v;
  mret (List.filter (fun p => negb (IsInternalVirtualPath p)) (sorted_paths (ix_Files idx))).

(** internal/vault/vault.go:1219-1230 [FileInfo] *)
Definition FileInfo (virtualPath : string) : M (FileRecord * bool) :=
  idx ← LoadIndex v;
  vp ← lift (normalizeContentFilePath virtualPath);
  mret (match ix_Files idx !! vp with Some rec => (rec, true) | None => (zero_FileRecord, false) end).

(** internal/vault/vault.go:1232-1246 [Files] *)
Definition Files : M (gmap string FileRecord) :=
  idx ← LoadIndex v;
  mret (filter (fun kv => IsInternalVirtualPath kv.1 = false) (ix_Files idx)).

(** internal/vault/vault.go:1248-1259 [AllEntries] *)
Definition AllEntries : M (gmap string FileRecord) := idx ← LoadIndex v; mret (ix_Files idx).

(** The loop of [RemovePath] that fixes each target's generation, superseded
    generation and clock. *)
Definition remove_plan (idx : Index) (targets : list string) : M (list (string * (Z * Z * clock))) :=
  mfold (fun acc p =>
    t1 ← now;
    g ← nextGeneration (unix_nano t1);
    t2 ← now;
    let rec := default zero_FileRecord (ix_Files idx !! p) in
    mret (acc ++ [(p, (g, fr_Generation rec, advanceClock (v_deviceID v) (fr_Clock rec) (unix_nano t2)))])) [] targets.

(** internal/vault/vault.go:1272-1336 [RemovePath] *)
Definition RemovePath (virtualPath : string) : M Z :=
  idx ← LoadIndex v;
  vp ← lift (normalizeContentDirPath virtualPath);
  if String.eqb vp ContentRootName
  then fail (ENew "%s/ is the protected vault workspace and cannot be deleted")
  else
    targets ← (match ix_Files idx !! vp with
               | Some _ => mret [vp]
               | None =>
                   l ← range (ix_Files idx);
                   mret (List.filter (in_dir (dir_prefix vp)) (fst <$> l))
               end);
    match targets with
    | [] => fail (ENew "virtual path %q not found")
    | _ =>
        plan ← remove_plan idx targets;
        if usesManifestStore v then
          _ ← mfold (fun _ '(p, (g, d, c)) => commitTombstone v p g d c) tt plan;
          mret (Z.of_nat (length targets))
        else
          _ ← SaveIndex v (with_Files idx (foldr (fun p m => delete p m) (ix_Files idx) targets));
          mret (Z.of_nat (length targets))
    end.

(** internal/vault/vault.go:1261-1270 [Remove] *)
Definition Remove (virtualPath : string) : M unit :=
  n ← RemovePath virtualPath;
  if n =? 0 then fail (ENew "virtual path %q not found") else mret tt.
End get.

(** internal/vault/vault.go:1338-1344 [VerifyIssue] *)
Record VerifyIssue : Type := mkIssue { vi_Path : string; vi_ChunkID : string; vi_ChunkPath : fpath; vi_Kind : string; vi_Error : err }.

(** internal/vault/vault.go:1346-1358 [VerifyReport] *)
Record VerifyReport_ : Type := mkVerify {
  vr_OK : bool; vr_FilesChecked : Z; vr_ChunksChecked : Z; vr_BytesChecked : Z;
  vr_MissingChunks : Z; vr_CorruptChunks : Z; vr_OtherErrors : Z;
  vr_Issues : list VerifyIssue; vr_PendingIntents : list PendingIntent }.

(** [err.Error()] up to the operands of its format verbs. *)
Fixpoint err_text (e : err) : string :=
  match e with ENew m => m | ESentinel n => n | EWrap pre e => pre +:+ err_text e end.

Section verify.
Context `{GoUnicode} `{AEAD} `{Env} `{Platform} `{JSON ManifestRecord} `{JSON Index} (v : Vault).

(** internal/vault/vault.go:1427-1439 [classifyVerifyIssue] of an error. *)
Definition classifyVerifyIssue (e : err) : string :=
  if not_exist e then "missing_chunk"
  else
    let msg := to_lower (err_text e) in
    if str_contains msg "decrypt" || str_contains msg "authenticate" || str_contains msg "size mismatch" ||
       str_contains msg "object id mismatch" || str_contains msg "decode"
    then "corrupt_chunk" else "read_error".

(** One chunk of one file. *)
Definition verify_chunk (p : string) (r : VerifyReport_) (ref : ChunkRef) : M VerifyReport_ :=
  let r := mkVerify (vr_OK r) (vr_FilesChecked r) (vr_ChunksChecked r + 1) (wrap64 (vr_BytesChecked r + ref_Size ref))
    (vr_MissingChunks r) (vr_CorruptChunks r) (vr_OtherErrors r) (vr_Issues r) (vr_PendingIntents r) in
  x ← try (loadChunk v ref);
  match x with
  | Ok _ => mret r
  | Err e =>
      let kind := classifyVerifyIssue e in
      let missing := String.eqb kind "missing_chunk" in
      let corrupt := String.eqb kind "corrupt_chunk" in
      mret (mkVerify false (vr_FilesChecked r) (vr_ChunksChecked r) (vr_BytesChecked r)
        (if missing then vr_MissingChunks r + 1 else vr_MissingChunks r)
        (if corrupt then vr_CorruptChunks r + 1 else vr_CorruptChunks r)
        (if missing || corrupt then vr_OtherErrors r else vr_OtherErrors r + 1)
        (vr_Issues r ++ [mkIssue p (ref_ID ref) (chunkPath v (ref_ID ref)) kind e]) (vr_PendingIntents r))
  end.

(** internal/vault/vault.go:1382-1425 [VerifyReport] *)
Definition VerifyReport : M VerifyReport_ :=
  r ← try (LoadIndex v);
  match r with
  | Err e => fail (EWrap "load vault index: " e)
  | Ok idx =>
      let paths := sorted_paths (ix_Files idx) in
      r ← mfold (fun r p => mfold (verify_chunk p) r (fr_Chunks (default zero_FileRecord (ix_Files idx !! p))))
            (mkVerify true (Z.of_nat (length paths)) 0 0 0 0 0 [] []) paths;
      i ← try (walkIntents v);
      match i with
      | Err _ => mret r
      | Ok intents =>
          t ← now;
          mret (mkVerify (vr_OK r) (vr_FilesChecked r) (vr_ChunksChecked r) (vr_BytesChecked r) (vr_MissingChunks r)
            (vr_CorruptChunks r) (vr_OtherErrors r) (vr_Issues r) (pendingList intents t))
      end
  end.

(** internal/vault/vault.go:1371-1380 [Verify]; the [VerifyError] carries the
    report. *)
Definition Verify : M unit :=
  r ← VerifyReport;
  if vr_OK r then mret tt else fail (ENew "vault verification failed: %d issue(s), %d missing chunk(s), %d corrupt chunk(s), %d other error(s)").

(** internal/vault/vault.go:1454-1483 [Stats] *)
Definition Stats : M Stats_ :=
  idx ← LoadIndex v;
  let visible := filter (fun kv => IsInternalVirtualPath kv.1 = false) (ix_Files idx) in
  let refs := map_to_list visible ≫= fun '(_, rec) => fr_Chunks rec in
  r ← try (walk_or_empty (chunk_root v));
  let objects := match r with
                 | Ok ps => length (List.filter (fun p => has_suffix (base_of p) ".chunk") ps)
                 | Err _ => O
                 end in
  mret (mkStats (Z.of_nat (size visible)) (Z.of_nat (size (list_to_set (C := gset string) (ref_ID <$> refs))))
    (Z.of_nat objects) (fold_left (fun n r => wrap64 (n + ref_Size r)) refs 0)).

(** ** Directories *)

(** internal/vault/directories.go:121-137 [markerWouldMaskWipe] *)
Definition markerWouldMaskWipe (idx : Index) : M bool :=
  if negb (bool_decide (ix_Files idx = ∅)) || negb (usesManifestStore v) then mret false
  else
    present ← manifestFilesPresent v;
    if present : bool then mret true
    else chunks ← walkChunkFiles v; mret (negb (bool_decide (chunks = ∅))).

Definition rootMarker : string := path_join [ContentRootName; DirectoryMarkerName].
(** A path of the layout before content/. *)
Definition old_layout (p : string) : bool :=
  negb (String.eqb p rootMarker || IsInternalVirtualPath p) && negb (has_prefix p (ContentRootName +:+ "/")).

(** internal/vault/directories.go:64-83 [EnsureContentLayout]: one old path moves
    under content/. *)
Definition migrate_one (acc : gmap string FileRecord * gmap string (Z * clock)) (oldPath : string)
    : gmap string FileRecord * gmap string (Z * clock) :=
  let '(fs, moved) := acc in
  if negb (old_layout oldPath) then acc
  else
    let newPath := if String.eqb oldPath ContentRootName
                   then path_join [ContentRootName; ContentRootName] else path_join [ContentRootName; oldPath] in
    let rec := default zero_FileRecord (fs !! oldPath) in
    let moved := <[oldPath := (fr_Generation rec, fr_Clock rec)]> moved in
    let newPath := match fs !! newPath with Some _ => conflictPath newPath rec | None => newPath end in
    (delete oldPath (<[newPath := rec]> fs), moved).

(** internal/vault/directories.go:18-110 [EnsureContentLayout] *)
Definition EnsureContentLayout : M unit :=
  idx ← LoadIndex v;
  fc ← (match ix_Files idx !! rootMarker with
        | Some _ => mret (ix_Files idx, false)
        | None =>
            mask ← markerWouldMaskWipe idx;
            if mask : bool then mret (ix_Files idx, false)
            else t ← now; mret (<[rootMarker := markerFileRecord t]> (ix_Files idx), true)
        end);
  let '(fs, changed) := fc in
  let paths := sorted_paths fs in
  let '(fs, moved) := fold_left migrate_one paths (fs, ∅) in
  let changed := changed || existsb old_layout paths in
  if negb changed then mret tt
  else if usesManifestStore v then
    l ← range fs;
    _ ← mfold (fun _ '(p, rec) => commitFileManifest v p rec) tt l;
    mfold (fun _ oldPath =>
      if negb (old_layout oldPath) then mret tt
      else
        t ← now;
        let '(g, c) := default (0, ∅) (moved !! oldPath) in
        commitTombstone v oldPath 0 g (advanceClock (v_deviceID v) c (unix_nano t))) tt paths
  else SaveIndex v (with_Files idx fs).

(** internal/vault/directories.go:139-167 [EnsureDirectory] *)
Definition EnsureDirectory (virtualPath : string) : M unit :=
  marker ← lift (directoryMarkerPath virtualPath);
  idx ← LoadIndex v;
  match ix_Files idx !! marker with
  | Some _ => mret tt
  | None =>
      match reservedNewPathError (path_dir marker) with
      | Some e => fail e
      | None =>
          match ValidatePortableName (path_base (path_dir marker)) with
          | Some e => fail e
          | None =>
              t ← now;
              let rec := markerFileRecord t in
              if usesManifestStore v then commitFileManifest v marker rec
              else SaveIndex v (with_Files idx (<[marker := rec]> (ix_Files idx)))
          end
      end
  end.

(** internal/vault/directories.go:181-196 [directoryExistsInIndex] *)
Definition directoryExistsInIndex (fs : gmap string FileRecord) (vp : string) : bool :=
  let vp := trim_slash vp in
  String.eqb vp "" || bool_decide (is_Some (fs !! path_join [vp; DirectoryMarkerName])) ||
  existsb (fun p => has_prefix p (trim_suffix vp "/" +:+ "/")) (fst <$> map_to_list fs).

(** internal/vault/directories.go:169-179 [DirectoryExists] *)
Definition DirectoryExists (virtualPath : string) : M bool :=
  vp ← lift (normalizeContentDirPath virtualPath);
  idx ← LoadIndex v;
  mret (directoryExistsInIndex (ix_Files idx) vp).
End verify.
