(* ===== verification/VaultFacts.v ===== *)
(** Properties of the operations of an open vault: what is put can be read back. *)
From S2P Require Export VaultOps GCFacts.
Local Open Scope Z_scope.

Lemma str_app_inj_r (a b s : string) : a +:+ s = b +:+ s → a = b.
Proof.
  revert b. induction a as [|c a IH]; intros [|d b] E; cbn in E.
  - done.
  - apply (f_equal String.length) in E. cbn in E. rewrite str_length_app in E. lia.
  - apply (f_equal String.length) in E. cbn in E. rewrite str_length_app in E. lia.
  - injection E as -> E. by rewrite (IH b).
Qed.

Section put_get.
Context `{GoUnicode} `{AEAD} `{Env} `{Platform} `{JSON ManifestRecord} `{JSON Index} (v : Vault).

Definition chunk_id (c : bytes) : string := hmacHex (IndexKey (v_keys v)) c.
Definition chunk_ref (c : bytes) : ChunkRef := MkChunkRef (chunk_id c) (Z.of_nat (length c)).
Definition object_of (c : bytes) : fpath := chunkPath v (chunk_id c).

(** The object of [c], if there is one, decodes to [c], and nothing lies below its
    path. *)
Definition fine (fs : files) (c : bytes) : Prop :=
  (∀ q, is_Some (fs !! q) → below (object_of c) q = true → q = object_of c) ∧
  ∀ f, fs !! object_of c = Some f → decodeChunk v (f_data f) (chunk_ref c) = Ok c.
Definition stored (fs : files) (c : bytes) : Prop :=
  ∃ f, fs !! object_of c = Some f ∧ decodeChunk v (f_data f) (chunk_ref c) = Ok c.

Lemma chunkPath_snoc id : chunkPath v id = (v_MetaRoot v ++ ["objects"; "chunks"; id_prefix id]) ++ [id +:+ ".chunk"].
Proof. unfold chunkPath. by rewrite <- app_assoc. Qed.

Lemma chunkPath_inj id1 id2 : chunkPath v id1 = chunkPath v id2 → id1 = id2.
Proof. rewrite !chunkPath_snoc. intros [_ E]%app_inj_tail. by apply str_app_inj_r in E. Qed.

Lemma fine_not_dir fs c : fine fs c → fs !! object_of c = None → is_dir fs (object_of c) = false.
Proof.
  intros [Hb _] Hn. unfold is_dir. apply not_true_is_false. rewrite existsb_elem.
  intros (q & Hq & [Hbq Hne]%andb_true_iff). apply list_elem_of_fmap in Hq as ([q' f] & -> & Hq).
  apply elem_of_map_to_list in Hq. apply negb_true_iff, bool_decide_eq_false in Hne. apply Hne, Hb; [by eexists|done].
Qed.

(** What a freshly written object decodes to. *)
Lemma decode_fresh nonce c :
  length nonce = nonce_size →
  decodeChunk v (encodeEncrypted chunkMagic nonce (aead_seal (v_chunkAEAD v) nonce c (bytes_of (chunkAADPrefix +:+ chunk_id c)))) (chunk_ref c) = Ok c.
Proof.
  intros Hl. unfold decodeChunk. rewrite <- Hl at 1. rewrite CryptoFacts.decode_encode.
  cbv beta iota delta [mbind result_bind]. cbn [ref_ID ref_Size chunk_ref].
  rewrite aead_open_seal by done. rewrite Z.eqb_refl. cbn [negb].
  unfold constantTimeStringEqual. change (hmacHex (IndexKey (v_keys v)) c) with (chunk_id c). by rewrite String.eqb_refl.
Qed.

Lemma query_files {A : Type} (act : files → result A) s s' r : query act s = (s', r) → st_files s' = st_files s.
Proof. unfold query, syscall. destruct (env_fault _); by intros [= <- _]. Qed.

(** The path of a store that writes. *)
Lemma store_write c s s' ref b :
  (_ ← os_MkdirAll (dir_of (object_of c));
   nonce ← randomBytes nonce_size;
   _ ← atomicWriteFile (object_of c) (encodeEncrypted chunkMagic nonce
         (aead_seal (v_chunkAEAD v) nonce c (bytes_of (chunkAADPrefix +:+ chunk_id c))));
   mret (chunk_ref c, true)) s = (s', Ok (ref, b)) →
  ref = chunk_ref c ∧ stored (st_files s') c ∧ ∀ q, q ≠ object_of c → st_files s' !! q = st_files s !! q.
Proof.
  rewrite M_bind_ok. intros (s1 & u & Hm & Hr). apply query_files in Hm. rewrite <- Hm. clear Hm.
  apply M_bind_ok in Hr as (s2 & nonce & Hn & Hr). unfold randomBytes in Hn.
  destruct (env_fault (st_tick s1)); [done|]. injection Hn as <- <-.
  apply M_bind_ok in Hr as (s3 & [] & Hw & [= <- <- <-]).
  apply atomicWriteFile_run in Hw as (name & _ & _ & _ & _ & [[tf Hf] Hrest]%(fun f => f eq_refl)).
  - split; [done|]. split; [|exact Hrest]. eexists. split; [exact Hf|]. apply decode_fresh, env_rand_length.
  - unfold object_of. rewrite chunkPath_snoc. by destruct (v_MetaRoot v).
  - unfold object_of. rewrite chunkPath_snoc, base_snoc. apply hmacHex_not_tmp.
Qed.

(** ... and of one that finds the object there. *)
Lemma store_touch c s s' ref b :
  stored (st_files s) c →
  (t ← now; _ ← try (os_Chtimes (object_of c) t); mret (chunk_ref c, false)) s = (s', Ok (ref, b)) →
  ref = chunk_ref c ∧ stored (st_files s') c ∧ ∀ q, q ≠ object_of c → st_files s' !! q = st_files s !! q.
Proof.
  intros (f & Hf & Hd). rewrite bind_run, now_run, bind_run. unfold try, os_Chtimes, syscall. cbn [st_tick st_files tick1].
  destruct (env_fault _); [intros [= <- <- <-]; split; [done|]; split; [by exists f|done]|].
  rewrite Hf. intros [= <- <- <-]. cbn [st_files tick1 set_files]. split; [done|]. split.
  - eexists. split; [apply lookup_insert_eq|exact Hd].
  - intros q Hq. by rewrite lookup_insert_ne.
Qed.

(** Storing a chunk puts its object in place and touches no other file. *)
Lemma storeChunk_run c s s' ref b :
  fine (st_files s) c → storeChunk v c s = (s', Ok (ref, b)) →
  ref = chunk_ref c ∧ stored (st_files s') c ∧ ∀ q, q ≠ object_of c → st_files s' !! q = st_files s !! q.
Proof.
  intros Hf. unfold storeChunk. cbv zeta. fold (chunk_id c). fold (object_of c). fold (chunk_ref c). rewrite bind_run.
  destruct (try (os_Stat (object_of c)) s) as [s1 [r|e]] eqn:Es; [|done].
  assert (Hs1 : st_files s1 = st_files s).
  { unfold try in Es. destruct (os_Stat (object_of c) s) as [s0 r0] eqn:E0. injection Es as <- _.
    by apply query_files in E0. }
  rewrite <- Hs1. destruct r as [u|e].
  - apply store_touch. rewrite Hs1. unfold try, os_Stat, query, syscall in Es.
    destruct (env_fault _); [done|]. destruct (st_files s !! object_of c) as [f|] eqn:Eo.
    + exists f. split; [done|]. by apply Hf.
    + rewrite (fine_not_dir _ _ Hf Eo), bool_decide_eq_false_2 in Es by (by intros [? ?]). done.
  - destruct (negb (not_exist e)); [done|]. apply store_write.
Qed.

Definition no_clash (cs : list bytes) : Prop := ∀ c1 c2, c1 ∈ cs → c2 ∈ cs → chunk_id c1 = chunk_id c2 → c1 = c2.

Lemma object_length c : length (object_of c) = (length (v_MetaRoot v) + 4)%nat.
Proof. unfold object_of, chunkPath. rewrite length_app. done. Qed.

Lemma below_same_length (root q : fpath) : length root = length q → below root q = true → q = root.
Proof.
  intros Hl [r ->]%below_iff. rewrite length_app in Hl. destruct r; [by rewrite app_nil_r|cbn in Hl; lia].
Qed.

Lemma fine_kept cs fs fs' c c' :
  no_clash cs → c ∈ cs → c' ∈ cs → fine fs c' → stored fs' c → (∀ q, q ≠ object_of c → fs' !! q = fs !! q) → fine fs' c'.
Proof.
  intros Hnc Hc Hc' [Hb Hd] (f & Hf & Hdf) Hq.
  destruct (decide (object_of c' = object_of c)) as [E|E].
  - apply chunkPath_inj, Hnc in E; [|done..]. subst c'. split.
    + intros q Hs Hbq. destruct (decide (q = object_of c)) as [|Hne]; [done|]. rewrite Hq in Hs by done. by apply Hb.
    + intros g Hg. rewrite Hf in Hg. by injection Hg as <-.
  - split.
    + intros q Hs Hbq. destruct (decide (q = object_of c)) as [->|Hne].
      * apply below_same_length; [by rewrite !object_length|done].
      * rewrite Hq in Hs by done. by apply Hb.
    + intros g Hg. rewrite Hq in Hg by done. by apply Hd.
Qed.

Lemma stored_kept cs fs fs' c c' :
  no_clash cs → c ∈ cs → c' ∈ cs → stored fs c' → stored fs' c → (∀ q, q ≠ object_of c → fs' !! q = fs !! q) → stored fs' c'.
Proof.
  intros Hnc Hc Hc' (f & Hf & Hd) Hs Hq. destruct (decide (object_of c' = object_of c)) as [E|E].
  - apply chunkPath_inj, Hnc in E; [|done..]. by subst c'.
  - exists f. by rewrite Hq.
Qed.

Lemma put_feed all cs : no_clash all → (∀ c, c ∈ cs → c ∈ all) → ∀ s p s' p',
  (∀ c, c ∈ all → fine (st_files s) c) → feed (put_chunk v) (s, p) cs = ((s', p'), None) →
  pg_refs p' = pg_refs p ++ map chunk_ref cs ∧ (∀ c, c ∈ cs → stored (st_files s') c) ∧
  (∀ c, c ∈ all → stored (st_files s) c → stored (st_files s') c).
Proof.
  intros Hnc. induction cs as [|c cs IH]; intros Hsub s p s' p' Hfine; cbn [feed map].
  { intros [= <- <-]. rewrite app_nil_r. split; [done|]. split; [intros c Hc; by apply elem_of_nil in Hc|done]. }
  unfold put_chunk at 1. destruct (storeChunk v c s) as [s1 [[ref b]|e]] eqn:Es; [|done].
  assert (Hc : c ∈ all) by (apply Hsub; by left).
  apply storeChunk_run in Es as (-> & Hst & Hq); [|by apply Hfine]. intros Hfeed.
  apply IH in Hfeed as (Hr & Hs & Hk); [|intros c' Hc'; apply Hsub; by right|].
  2:{ intros c' Hc'. by apply (fine_kept all (st_files s) _ c); auto. }
  split; [rewrite Hr; cbn [pg_refs]; by rewrite <- app_assoc|]. split.
  - intros c' [->|Hc']%elem_of_cons; [by apply Hk|by apply Hs].
  - intros c' Hc' Hst'. apply Hk; [done|]. by apply (stored_kept all (st_files s) _ c).
Qed.

(** The count of the bytes that were put. *)
Lemma feed_total cs : ∀ s p s' p', feed (put_chunk v) (s, p) cs = ((s', p'), None) →
  0 ≤ pg_total p → pg_total p + Z.of_nat (length (concat cs)) ≤ int64_max →
  pg_total p' = pg_total p + Z.of_nat (length (concat cs)).
Proof.
  induction cs as [|c cs IH]; intros s p s' p'; cbn [feed concat]; [intros [= _ <-] _ _; cbn; lia|].
  rewrite length_app. unfold put_chunk at 1. destruct (storeChunk v c s) as [s1 [[ref b]|e]]; [|done].
  intros Hfeed Hp0 Hl. rewrite wrap64_id in Hfeed by (unfold in_int64, int64_min; lia).
  apply IH in Hfeed; cbn [pg_total] in *; lia.
Qed.

(** ** The cached index *)

Lemma with_retry_keeps fn ok n : keeps_cache fn → keeps_cache (with_retry fn ok n).
Proof. intros Hf. induction n as [|n IH]; cbn [with_retry]; [kept_cache|]. kept_cache. Qed.

Lemma atomicWriteFile_keeps p d : keeps_cache (atomicWriteFile p d).
Proof.
  unfold atomicWriteFile, guarded, discard_temp, os_MkdirAll, os_CreateTemp, os_Quiet, os_Remove, renameWithRetry, os_Rename.
  assert (Hr : ∀ tmp, keeps_cache (with_retry (os_Rename tmp p) (fun _ => false) renameAttempts)).
  { intros tmp. apply with_retry_keeps, keeps_syscall. }
  unfold os_Rename in Hr. kept_cache.
Qed.
Hint Resolve atomicWriteFile_keeps : cache.

Lemma storeChunk_keeps c : keeps_cache (storeChunk v c).
Proof. unfold storeChunk, os_Stat, os_Chtimes, os_MkdirAll. cbv zeta. kept_cache. Qed.

Lemma feed_keeps cs : ∀ s p, st_cached (feed (put_chunk v) (s, p) cs).1.1 = st_cached s.
Proof.
  induction cs as [|c cs IH]; intros s p; cbn [feed]; [done|]. unfold put_chunk at 1.
  pose proof (storeChunk_keeps c s) as Hk. destruct (storeChunk v c s) as [s1 [[ref b]|e]]; [|done].
  by rewrite IH.
Qed.

Lemma saveFileManifest_keeps p rec : keeps_cache (saveFileManifest v p rec).
Proof. unfold saveFileManifest, saveManifestRecord. cbv zeta. kept_cache. Qed.

(** ** The stages of a put *)

Definition cut_up (reads : list read) : list bytes := chunks (Chunk (v_Config v)) (concat reads.*1).

Lemma put_chunks_run reads s s' p :
  clean_reads reads → no_clash (cut_up reads) → (∀ c, c ∈ cut_up reads → fine (st_files s) c) →
  put_chunks v reads s = (s', Ok p) →
  pg_refs p = map chunk_ref (cut_up reads) ∧ (∀ c, c ∈ cut_up reads → stored (st_files s') c) ∧ st_cached s' = st_cached s ∧
  (Z.of_nat (length (concat reads.*1)) ≤ int64_max → pg_total p = Z.of_nat (length (concat reads.*1))).
Proof.
  intros Hcl Hnc Hf. unfold put_chunks, ForEachChunk. destruct (Validate _); [done|].
  rewrite read_loop_clean by done. fold (chunks (Chunk (v_Config v)) (concat reads.*1)). fold (cut_up reads).
  pose proof (feed_keeps (cut_up reads) s (mkPutting [] 0 0)) as Hk.
  destruct (feed _ _ _) as [[s1 p1] [e|]] eqn:Ef; [done|]. intros [= <- <-].
  assert (Hcat : concat (cut_up reads) = concat reads.*1) by (unfold cut_up, chunks; by rewrite cut_concat).
  pose proof (feed_total _ _ _ _ _ Ef ltac:(done)) as Ht. rewrite Hcat in Ht. cbn [pg_total] in Ht. rewrite Z.add_0_l in Ht.
  apply (put_feed (cut_up reads)) in Ef as (Hr & Hs & _); done.
Qed.

Lemma putReader_run reads vp size mode mt idx s s' res idx' :
  clean_reads reads → no_clash (cut_up reads) → (∀ c, c ∈ cut_up reads → fine (st_files s) c) →
  putReader v reads vp size mode mt idx s = (s', Ok (res, idx')) →
  pr_Path res = vp ∧ pr_ChunkCount res = Z.of_nat (length (cut_up reads)) ∧
  (∃ rec, ix_Files idx' !! vp = Some rec ∧ fr_Chunks rec = map chunk_ref (cut_up reads) ∧ fr_Size rec = pr_Size res) ∧
  (∀ c, c ∈ cut_up reads → stored (st_files s') c) ∧ st_cached s' = st_cached s ∧
  (Z.of_nat (length (concat reads.*1)) ≤ int64_max →
   pr_Size res = if size <? 0 then Z.of_nat (length (concat reads.*1)) else size).
Proof.
  intros Hcl Hnc Hf. unfold putReader. rewrite M_bind_ok. intros (s1 & p & Hp & Hr).
  apply put_chunks_run in Hp as (Hrefs & Hst & Hc & Htot); [|done..].
  apply M_bind_ok in Hr as (s2 & t1 & Ht & Hr).
  assert (Hs2 : st_files s2 = st_files s1 ∧ st_cached s2 = st_cached s1) by (destruct mt; injection Ht as <- <-; done).
  rewrite bind_run, now_run, bind_run in Hr. unfold nextGeneration in Hr.
  destruct (nextRecordClock _ _ _ _) as [clk age]. injection Hr as <- <- <-. cbn [pr_Path pr_ChunkCount ix_Files with_Files].
  split; [done|]. split; [by rewrite Hrefs, length_map|]. destruct Hs2 as [Hs2f Hs2c].
  split; [eexists; split; [apply lookup_insert_eq|done]|].
  split; [intros c Hin; cbn [st_files set_maxGen tick1]; rewrite Hs2f; by apply Hst|].
  split; [cbn [st_cached set_maxGen tick1]; congruence|]. intros Hl. cbn [pr_Size]. by rewrite Htot.
Qed.

Lemma object_not_manifest c id : object_of c ≠ manifestPath v id.
Proof. intros E. apply app_inv_head in E. done. Qed.

Lemma stored_agrees fs fs' c : agrees (fun q => ∃ c, q = object_of c) fs fs' → stored fs c → stored fs' c.
Proof. intros Ha (f & Hf & Hd). exists f. rewrite Ha by (by exists c). done. Qed.

Lemma object_not_tmp q : (∃ c, q = object_of c) → has_prefix (base_of q) ".tmp-" = false.
Proof. intros [c ->]. unfold object_of. rewrite chunkPath_snoc, base_snoc. apply hmacHex_not_tmp. Qed.

Lemma commit_run idx vp rec idx0 s s' :
  CleanVirtualPath vp = Ok vp → vp ≠ "" → ix_Files idx !! vp = Some rec → st_cached s = Some idx0 →
  commit_written v idx [vp] s = (s', Ok tt) →
  (∃ idx' rec', st_cached s' = Some idx' ∧ ix_Files idx' !! vp = Some rec' ∧ fr_Chunks rec' = fr_Chunks rec ∧ fr_Size rec' = fr_Size rec) ∧
  ∀ c, stored (st_files s) c → stored (st_files s') c.
Proof.
  intros Hcl Hne Hrec Hc0. unfold commit_written. set (P := fun q => ∃ c, q = object_of c).
  destruct (usesManifestStore v) eqn:Eu.
  - cbn [mfold]. rewrite M_bind_ok. intros (s1 & [] & Hc & [= <-]). rewrite Hrec in Hc. cbn [from_option id] in Hc.
    unfold commitFileManifest in Hc. apply M_bind_ok in Hc as (s2 & [] & Hs & [= <-]).
    pose proof (saveFileManifest_keeps vp rec s) as Hk. rewrite Hs in Hk. cbn [fst] in Hk.
    pose proof (saveFileManifest_agrees v P (st_files s) object_not_tmp vp rec) as Ha.
    specialize (Ha ltac:(intros c1 c2 _ _ [c E]; symmetry in E; by apply object_not_manifest in E) s (agrees_refl _ _)).
    rewrite Hs in Ha. cbn [fst] in Ha. rewrite Hk, Hc0. split; [|intros c; by apply stored_agrees].
    eexists _, _. split; [done|]. cbn [ix_Files with_Files]. unfold cacheKey. rewrite Hcl.
    apply String.eqb_neq in Hne. rewrite Hne. split; [apply lookup_insert_eq|done].
  - unfold SaveIndex. rewrite Eu. rewrite bind_run, now_run. cbv zeta. rewrite M_bind_ok.
    intros (s1 & nonce & Hn & Hr). unfold randomBytes in Hn. destruct (env_fault _); [done|]. injection Hn as <- <-.
    apply M_bind_ok in Hr as (s2 & [] & Hw & [= <-]). split.
    + eexists _, rec. split; [done|]. done.
    + intros c. cbn [st_files set_cached]. apply stored_agrees.
      match type of Hw with atomicWriteFile ?p ?d ?x = _ =>
        pose proof (atomicWriteFile_agrees P (st_files s) p d) as Ha; specialize (fun h1 h2 h3 h4 => Ha h1 h2 h3 h4 x (agrees_refl _ _)) as Ha' end.
      rewrite Hw in Ha'. cbn [fst] in Ha'. apply Ha'.
      * by destruct (v_MetaRoot v).
      * by rewrite base_snoc.
      * intros [c' E]. apply app_inv_head in E. done.
      * intros name Hn Hp. apply object_not_tmp in Hp. rewrite base_snoc in Hp. congruence.
Qed.

Lemma read_back cs : ∀ s out,
  (∀ c, c ∈ cs → stored (st_files s) c) → (∀ i, (st_tick s ≤ i)%nat → env_fault i = None) →
  ∃ s', mfold (fun out ref => chunk ← loadChunk v ref; mret (out ++ chunk)) out (map chunk_ref cs) s = (s', Ok (out ++ concat cs)).
Proof.
  induction cs as [|c cs IH]; intros s out Hst Hq; cbn [map mfold concat].
  { exists s. by rewrite app_nil_r. }
  destruct (Hst c) as (f & Hf & Hd); [by left|]. rewrite !bind_run. unfold loadChunk at 1. rewrite bind_run. unfold try.
  change (chunkPath v (ref_ID (chunk_ref c))) with (object_of c).
  unfold os_ReadFile. rewrite query_quiet by (apply Hq; lia). rewrite Hf, Hd. cbn [mret M_ret].
  destruct (IH (tick1 s) (out ++ c)) as [s' Hs'].
  - intros c' Hc'. apply Hst. by right.
  - intros i Hi. apply Hq. cbn in Hi. lia.
  - exists s'. rewrite <- app_assoc in Hs'. exact Hs'.
Qed.

Lemma LoadIndex_run s s' idx : LoadIndex v s = (s', Ok idx) → st_cached s' = Some idx ∧ st_files s' = st_files s.
Proof.
  intros Hl. pose proof (LoadIndex_preserves v (eq (st_files s)) s eq_refl) as Hf. rewrite Hl in Hf. split; [|done].
  unfold LoadIndex, cachedIndexLocked in Hl. rewrite bind_run in Hl. unfold gets in Hl.
  destruct (st_cached s) as [i|] eqn:Ec; [by injection Hl as <- <-|].
  apply M_bind_ok in Hl as (s1 & i & _ & Hl). by injection Hl as <- <-.
Qed.

(** The gates of [PutReader] read and write nothing. *)
Definition put_gate (idx : Index) (vp : string) : M () :=
  match ix_Files idx !! vp with
  | Some _ => mret tt
  | None =>
      match reservedNewPathError vp with
      | Some e => fail e
      | None => match ValidatePortableName (path_base vp) with Some e => fail e | None => mret tt end
      end
  end.
Lemma put_gate_run idx vp s s' : put_gate idx vp s = (s', Ok tt) → s' = s.
Proof.
  unfold put_gate. destruct (ix_Files idx !! vp); [by intros [= <-]|].
  destruct (reservedNewPathError vp); [done|]. destruct (ValidatePortableName _); [done|]. by intros [= <-].
Qed.

Lemma normalized_nonempty path vp : normalizeContentFilePath path = Ok vp → vp ≠ "".
Proof.
  unfold normalizeContentFilePath. intros Hn. apply bind_ok in Hn as (q & _ & Hn).
  destruct (String.eqb_spec q ""); [done|]. cbn [orb] in Hn. destruct (_ || _); [done|].
  destruct (IsDirectoryMarkerPath q); [done|]. by injection Hn as <-.
Qed.

(** What a successful put leaves: the path's record, in the cached index, lists the
    chunks of the stream, and each chunk is stored. *)
Lemma put_leaves (reads : list read) (path vp : string) (size mode : Z) (mt : option Z) (s s' : St) (res : PutResult) :
  clean_reads reads → normalizeContentFilePath path = Ok vp → CleanVirtualPath vp = Ok vp →
  no_clash (cut_up reads) → (∀ c, c ∈ cut_up reads → fine (st_files s) c) →
  PutReader v reads path size mode mt s = (s', Ok res) →
  pr_Path res = vp ∧ pr_ChunkCount res = Z.of_nat (length (cut_up reads)) ∧
  (∃ idx rec, st_cached s' = Some idx ∧ ix_Files idx !! vp = Some rec ∧ fr_Chunks rec = map chunk_ref (cut_up reads) ∧
     fr_Size rec = pr_Size res) ∧
  (∀ c, c ∈ cut_up reads → stored (st_files s') c) ∧
  (Z.of_nat (length (concat reads.*1)) ≤ int64_max →
   pr_Size res = if size <? 0 then Z.of_nat (length (concat reads.*1)) else size).
Proof.
  intros Hcl Hn Hvp Hnc Hf Hput. unfold PutReader in Hput.
  apply M_bind_ok in Hput as (s1 & idx & Hl & Hput). apply LoadIndex_run in Hl as [Hc1 Hf1].
  rewrite Hn in Hput. apply M_bind_ok in Hput as (s2 & vp' & [= <- <-] & Hput).
  apply M_bind_ok in Hput as (s3 & [] & Hg & Hput). apply put_gate_run in Hg. subst s3.
  apply M_bind_ok in Hput as (s3 & [res' idx'] & Hr & Hput).
  apply putReader_run in Hr as (Hp & Hcount & (rec & Hrec & Hrefs & Hsz) & Hst & Hc3 & Htot); [|done|done|by rewrite Hf1].
  apply M_bind_ok in Hput as (s4 & [] & Hw & [= -> ->]).
  apply (commit_run idx' vp rec idx) in Hw as [(idx2 & rec2 & Hc4 & Hrec2 & Hrefs2 & Hsz2) Hst4];
    [|done|by eapply normalized_nonempty|done|congruence].
  split; [done|]. split; [done|]. split; [|auto]. exists idx2, rec2. by rewrite Hrefs2, Hsz2, Hrefs.
Qed.

(** A file whose chunks are stored reads back. *)
Lemma WriteFileTo_stored cs path vp idx rec s : normalizeContentFilePath path = Ok vp → st_cached s = Some idx →
  ix_Files idx !! vp = Some rec → fr_Chunks rec = map chunk_ref cs → (∀ c, c ∈ cs → stored (st_files s) c) →
  (∀ i, (st_tick s ≤ i)%nat → env_fault i = None) → ∃ s2, WriteFileTo v path s = (s2, Ok (concat cs)).
Proof.
  intros Hn Hc Hrec Hrefs Hst Hq. unfold WriteFileTo, LoadIndex, cachedIndexLocked. rewrite !bind_run. unfold gets. rewrite Hc.
  cbn [mret M_ret]. rewrite Hn. unfold lift. rewrite bind_run, Hrec, Hrefs. destruct (read_back cs s [] Hst Hq) as [s5 Hs5]. eauto.
Qed.

(** C11. What is put can be read back, byte for byte: whatever calls failed or
    were retried during it, when a put reports success a read of the path with no
    failing calls returns exactly the bytes that were streamed in, however they
    were split into reads; the report carries the path and the number of chunks.
    The conditions: the stream ends without a read error; the path, once normalised,
    is one that cleaning leaves as it is (of a no-break space before a last slash the
    space is left, and cut when the record is stored: such a put reports success for a
    name that cannot be read, [put_unstable]); the ids of the chunks do not clash; and an object already stored
    under one of them is sound, since a damaged one is not rewritten. *)
Theorem put_get (reads : list read) (path vp : string) (size mode : Z) (mt : option Z) (s s' : St) (res : PutResult) :
  clean_reads reads → normalizeContentFilePath path = Ok vp → CleanVirtualPath vp = Ok vp →
  no_clash (cut_up reads) → (∀ c, c ∈ cut_up reads → fine (st_files s) c) →
  PutReader v reads path size mode mt s = (s', Ok res) →
  (∀ i, (st_tick s' ≤ i)%nat → env_fault i = None) →
  pr_Path res = vp ∧ pr_ChunkCount res = Z.of_nat (length (cut_up reads)) ∧
  ∃ s2, WriteFileTo v path s' = (s2, Ok (concat reads.*1)).
Proof.
  intros Hcl Hn Hvp Hnc Hf Hput Hq.
  destruct (put_leaves _ _ _ _ _ _ _ _ _ Hcl Hn Hvp Hnc Hf Hput) as (Hp & Hcount & (idx & rec & Hc & Hrec & Hrefs & _) & Hst & _).
  split; [done|]. split; [done|].
  destruct (WriteFileTo_stored _ _ _ _ _ _ Hn Hc Hrec Hrefs Hst Hq) as [s2 E].
  exists s2. rewrite E. unfold cut_up, chunks. by rewrite cut_concat.
Qed.
End put_get.

Section demo.
#[local] Existing Instances demo_unicode demo_aead demo_env demo_platform json_manifest json_index json_legacy json_seen.

Definition put_reads : list read := [(bytes_of "the quick bro", None); (bytes_of "wn fox", None)].
Definition put_run : St * result PutResult := PutReader demo_vault put_reads "notes/fox.txt" (-1) 0 None empty_st.
Definition put_res : PutResult := match put_run.2 with Ok r => r | Err _ => mkPutResult "" 0 0 0 end.
Lemma put_ran : PutReader demo_vault put_reads "notes/fox.txt" (-1) 0 None empty_st = (put_run.1, Ok put_res).
Proof.
  unfold put_res. assert (E : is_ok put_run.2 = true) by (vm_compute; reflexivity). revert E. unfold put_run.
  by destruct (PutReader _ _ _ _ _ _ _) as [s [r|e]].
Qed.

Definition ids_differ (l : list bytes) : bool :=
  forallb (fun c1 => forallb (fun c2 => negb (String.eqb (chunk_id demo_vault c1) (chunk_id demo_vault c2)) || bool_decide (c1 = c2)) l) l.
Lemma ids_differ_no_clash l : ids_differ l = true → no_clash demo_vault l.
Proof.
  unfold ids_differ. intros Hd c1 c2 H1 H2 E. rewrite forallb_forall in Hd. rewrite list_elem_of_In in H1, H2.
  specialize (Hd c1 H1). rewrite forallb_forall in Hd. specialize (Hd c2 H2).
  rewrite E, String.eqb_refl in Hd. by apply bool_decide_eq_true in Hd.
Qed.

Lemma put_get_witness :
  pr_Path put_res = "content/notes/fox.txt" ∧
  ∃ s2, WriteFileTo demo_vault "notes/fox.txt" put_run.1 = (s2, Ok (bytes_of "the quick brown fox")).
Proof.
  split; [vm_compute; reflexivity|].
  refine (proj2 (proj2 (put_get demo_vault put_reads "notes/fox.txt" "content/notes/fox.txt" (-1) 0 None empty_st put_run.1 put_res
    _ _ _ _ _ put_ran _))).
  - by repeat constructor.
  - vm_compute. reflexivity.
  - vm_compute. reflexivity.
  - apply ids_differ_no_clash. vm_compute. reflexivity.
  - intros c _. split; [intros q [f Hq]; discriminate Hq|intros f Hq; discriminate Hq].
  - intros i _. reflexivity.
Defined.

(** A path whose normal form is not stable, ["x"], a no-break space and a slash: the put
    reports success, the read does not find it, and the record is another name's. *)
Definition nbsp : string := String (Ascii.ascii_of_nat 194) (String (Ascii.ascii_of_nat 160) "").
Example put_unstable : let p := "x" +:+ nbsp +:+ "/" in
  normalizeContentFilePath p = Ok ("content/x" +:+ nbsp) ∧ CleanVirtualPath ("content/x" +:+ nbsp) = Ok "content/x" ∧
  let s := PutReader demo_vault put_reads p (-1) 0 None empty_st in
  match s.2 with Ok r => pr_Path r = "content/x" +:+ nbsp | Err _ => False end ∧ is_ok (WriteFileTo demo_vault p s.1).2 = false ∧
  map fst (map_to_list (ix_Files (default (MkIndex 0 "" ∅) (st_cached s.1)))) = ["content/x"].
Proof. vm_compute. by split_and!. Qed.

(** The check of the destination does not cover the targets below it: a record
    whose path holds the name of the metadata directory (such a record can come
    from a peer) is restored into the vault's own metadata directory, over its
    configuration, when the destination is the vault's root. *)
Definition nested_vault : Vault :=
  mkVault "/r" ["r"; "SeaVaultData"] (v_Config demo_vault) (v_keys demo_vault) (v_chunkAEAD demo_vault) (v_indexAEAD demo_vault) "".
Definition nested_index : Index := MkIndex 2 ""
  {["content/SeaVaultData/vault.json" := MkFileRecord 0 384 "" "" 1 [] "" ∅ ∅]}.
Definition nested_start : St :=
  mkSt {[["r"; "SeaVaultData"; "vault.json"] := mkFile (bytes_of "config") 5]} 0 (Some nested_index) 0 None.
Theorem GetPath_writes_into_metadata :
  let s := (GetPath nested_vault "content" ["r"] nested_start).1 in
  f_data <$> (st_files nested_start !! ["r"; "SeaVaultData"; "vault.json"]) = Some (bytes_of "config") ∧
  f_data <$> (st_files s !! ["r"; "SeaVaultData"; "vault.json"]) = Some [].
Proof. vm_compute. split; reflexivity. Qed.
End demo.
