(* ===== verification/Export.v ===== *)
(** Exporting files out of a vault (internal/vault/export.go): the targets a batch is
    written under, the overwrite policies, plain files and ZIP archives.

    [ctx.Err()] is a call that may fail.  archive/zip is the class [Zip]: an encoder
    of a list of members with its inverse; what its writer has put into the file
    before it is closed is not modelled.  A result the code returns beside an error is
    the first half of a pair. *)
From S2P Require Export VaultOps.
Local Open Scope Z_scope.

(** internal/vault/export.go:19-23 [OverwriteFail] *)
Inductive Overwrite : Type := OverwriteFail | OverwriteSkip | OverwriteReplace.
#[global] Instance Overwrite_eq_dec : EqDecision Overwrite.
Proof. solve_decision. Defined.

(** internal/vault/export.go:25-29 [ExportOptions] *)
Record ExportOptions : Type := mkExportOptions { eo_Overwrite : string; eo_Zip : bool; eo_DryRun : bool }.

(** internal/vault/export.go:31-40 [ExportEntry] *)
Record ExportEntry : Type := mkEntry {
  ee_Path : string; ee_DestPath : string; ee_Size : Z; ee_Skipped : bool; ee_Reason : string; ee_Error : string }.

(** internal/vault/export.go:42-54 [ExportResult] *)
Record ExportResult : Type := mkExportResult {
  er_VirtualPath : string; er_DestPath : string; er_Zip : bool; er_Overwrite : option Overwrite; er_DryRun : bool;
  er_Files : Z; er_Exported : Z; er_Skipped : Z; er_Failed : Z; er_Bytes : Z; er_Entries : list ExportEntry }.
Definition zero_ExportResult : ExportResult := mkExportResult "" "" false None false 0 0 0 0 0 [].

(** One more entry of an export, with what it adds to the counts. *)
Definition add_entry (r : ExportResult) (exported skipped failed bytes_ : Z) (e : ExportEntry) : ExportResult :=
  mkExportResult (er_VirtualPath r) (er_DestPath r) (er_Zip r) (er_Overwrite r) (er_DryRun r) (er_Files r)
    (er_Exported r + exported) (er_Skipped r + skipped) (er_Failed r + failed) (wrap64 (er_Bytes r + bytes_)) (er_Entries r ++ [e]).

(** A member of an archive: name, mode, modification time, contents. *)
Record ZipMember : Type := mkMember { zm_Name : string; zm_Mode : Z; zm_Modified : option Z; zm_Data : bytes }.
Class Zip := {
  zip_encode : list ZipMember → bytes;
  zip_decode : bytes → option (list ZipMember);
  zip_decode_encode l : zip_decode (zip_encode l) = Some l
}.

Definition errSkipExisting : err := ESentinel "errSkipExisting".

(** [filepath.Ext]: from the last dot of the last element. *)
Fixpoint ext_rev (acc : list ascii) (l : list ascii) : string :=
  match l with
  | [] => ""
  | c :: l => if Ascii.eqb c slash then "" else if Ascii.eqb c dot then string_of_list_ascii (c :: acc) else ext_rev (c :: acc) l
  end.
Definition filepath_Ext (p : string) : string := ext_rev [] (rev (list_ascii_of_string p)).
(** [strings.Trim(s, ".")]. *)
Definition trim_dots (s : string) : string :=
  string_of_list_ascii (drop_while (Ascii.eqb dot) (list_ascii_of_string (trim_right (Ascii.eqb dot) s))).

Section names.
Context `{GoUnicode}.

(** internal/vault/export.go:56-67 [normalizeOverwrite] *)
Definition normalizeOverwrite (policy : string) : result Overwrite :=
  let p := to_lower (trim_space policy) in
  if String.eqb p "" || String.eqb p "fail" then Ok OverwriteFail
  else if String.eqb p "skip" then Ok OverwriteSkip
  else if String.eqb p "replace" || String.eqb p "overwrite" then Ok OverwriteReplace
  else Err (ENew "unsupported overwrite policy %q; use fail, skip, or replace").

(** internal/vault/content.go:149-159 [visibleIndex] *)
Definition visibleIndex (idx : Index) : Index :=
  MkIndex 2 (ix_UpdatedAt idx) (filter (fun kv => IsInternalVirtualPath kv.1 = false) (ix_Files idx)).

(** internal/vault/export.go:257-270 [exportRelativePath] *)
Definition exportRelativePath (p vp : string) (exactFile : bool) : string :=
  if exactFile then path_base p
  else if String.eqb vp "" then p
  else
    let prefix := trim_suffix vp "/" +:+ "/" in
    let rel := trim_prefix p prefix in
    if String.eqb rel "" || String.eqb rel p then path_base p else rel.

(** internal/vault/export.go:272-284 [exportZipPath] *)
Definition exportZipPath (destPath vp : string) : string :=
  if equal_fold (filepath_Ext destPath) ".zip" then destPath
  else
    let name :=
      if String.eqb (trim_space vp) "" then "seavault-export"
      else let n := trim_dots (path_base vp) in
           if String.eqb n "" || String.eqb n "/" then "seavault-export" else n in
    path_join [destPath; name +:+ ".zip"].

(** internal/vault/export.go:195-200 [exportTargets]: the segments of one match made
    portable *)
Definition portable_segments (rel : string) : list string :=
  (fun s => match ValidatePortableName s with Some _ => sanitizePortableSegment s | None => s end) <$> split_slash rel.

Definition target_key (segs : list string) : string := to_lower (join_slash segs).

(** internal/vault/export.go:208-211 [exportTargets]: the numbered names, from [n];
    one round per name taken and one more is enough ([numbered_free]). *)
Fixpoint numbered (fuel : nat) (used : gset string) (init : list string) (base : string) (n : Z) : list string :=
  let segs := init ++ [base +:+ "." +:+ itoa n] in
  match fuel with
  | O => segs
  | S f => if bool_decide (target_key segs ∈ used) then numbered f used init base (n + 1) else segs
  end.

(** internal/vault/export.go:194-215 [exportTargets]: one match *)
Definition export_target (files : gmap string FileRecord) (vp : string) (exactFile : bool)
    (acc : gmap string string * gset string) (p : string) : gmap string string * gset string :=
  let '(rels, used) := acc in
  let segs := portable_segments (exportRelativePath p vp exactFile) in
  let segs :=
    if bool_decide (target_key segs ∈ used) then
      let base := List.last segs "" +:+ "." +:+ conflictSuffix (default zero_FileRecord (files !! p)) in
      let segs := removelast segs ++ [base] in
      if bool_decide (target_key segs ∈ used) then numbered (S (size used)) used (removelast segs) base 2 else segs
    else segs in
  (<[p := join_slash segs]> rels, {[target_key segs]} ∪ used).

(** internal/vault/export.go:191-217 [exportTargets] *)
Definition exportTargets (matches : list string) (idx : Index) (vp : string) (exactFile : bool) : gmap string string :=
  (fold_left (export_target (ix_Files idx) vp exactFile) matches (∅, ∅)).1.
End names.

Section export.
Context `{GoUnicode} `{AEAD} `{Env} `{Platform} `{JSON ManifestRecord} `{JSON Index} `{Zip} (v : Vault).

(** internal/vault/export.go:219-255 [exportMatches] *)
Definition exportMatches (virtualPath : string) : M (list string * Index * string) :=
  idx ← LoadIndex v;
  vp ← lift (normalizeContentDirPath virtualPath);
  if bool_decide (is_Some (ix_Files idx !! vp)) && negb (String.eqb vp "") && negb (IsInternalVirtualPath vp)
  then mret ([vp], visibleIndex idx, vp)
  else
    let prefix := dir_prefix vp in
    let matches := List.filter (fun p => negb (IsInternalVirtualPath p) && in_dir prefix p) (sorted_paths (ix_Files idx)) in
    match matches with
    | [] => fail (ENew "virtual path %q not found")
    | _ => mret (matches, visibleIndex idx, vp)
    end.

(** internal/vault/export.go:288-302 [checkOverwrite] *)
Definition checkOverwrite (target : fpath) (overwrite : Overwrite) : M unit :=
  r ← try (os_Stat target);
  match r with
  | Ok _ => match overwrite with
            | OverwriteSkip => fail errSkipExisting
            | OverwriteReplace => mret tt
            | OverwriteFail => fail (ENew "destination already exists: %s")
            end
  | Err e => if not_exist e then mret tt else fail e
  end.

(** [os.Chtimes] of a record's time, where it parses. *)
Definition restore_time (tmp : fpath) (modTime : string) : M unit :=
  if String.eqb modTime "" then mret tt
  else match parse_rfc3339 modTime with
       | Some t => _ ← try (os_Chtimes tmp t); mret tt
       | None => mret tt
       end.

(** internal/vault/export.go:304-348 [restoreFileWithOverwrite] *)
Definition restoreFileWithOverwrite (rec : FileRecord) (destPath : fpath) (overwrite : Overwrite) : M unit :=
  _ ← os_MkdirAll (dir_of destPath);
  tmp ← os_CreateTemp (dir_of destPath) ".seavault-export-";
  _ ← mfold (fun _ ref => guarded tmp (chunk ← loadChunk v ref; os_Write tmp chunk)) tt (fr_Chunks rec);
  r ← try os_Quiet;
  match r with
  | Err e => _ ← try (os_Remove tmp); fail e
  | Ok _ =>
      _ ← try os_Quiet;
      _ ← restore_time tmp (fr_ModTime rec);
      _ ← (if bool_decide (overwrite = OverwriteReplace) then _ ← try (os_Remove destPath); mret tt else mret tt);
      os_Rename tmp destPath
  end.

(** internal/vault/export.go:364-391 [writeZip]: one member; the header, then each
    chunk as the compressor takes it *)
Definition zip_member (idx : Index) (rels : gmap string string) (members : list ZipMember) (p : string) : M (list ZipMember) :=
  _ ← os_Quiet;
  let rec := default zero_FileRecord (ix_Files idx !! p) in
  let mt := if String.eqb (fr_ModTime rec) "" then None else parse_rfc3339 (fr_ModTime rec) in
  _ ← os_Quiet;
  data ← mfold (fun out ref => chunk ← loadChunk v ref; _ ← os_Quiet; mret (out ++ chunk)) [] (fr_Chunks rec);
  mret (members ++ [mkMember (default "" (rels !! p)) (fr_Mode rec) mt data]).

(** internal/vault/export.go:350-402 [writeZip] *)
Definition writeZip (zipPath : fpath) (matches : list string) (idx : Index) (rels : gmap string string) : M unit :=
  tmp ← os_CreateTemp (dir_of zipPath) ".seavault-zip-";
  r ← try (mfold (zip_member idx rels) [] matches);
  match r with
  | Err e => discard_temp tmp e
  | Ok members =>
      r ← try (os_Write tmp (zip_encode members));
      match r with
      | Err e => _ ← try (os_Remove tmp); fail e
      | Ok _ =>
          r ← try os_Quiet;
          match r with
          | Err e => _ ← try (os_Remove tmp); fail e
          | Ok _ => os_Rename tmp zipPath
          end
      end
  end.

(** internal/vault/export.go:136-178 [ExportPath]: one file; the second component is
    an error that ends the batch *)
Definition export_one (destPath : string) (overwrite : Overwrite) (dry : bool) (idx : Index) (rels : gmap string string)
    (acc : ExportResult * option err) (p : string) : M (ExportResult * option err) :=
  match acc with
  | (r, Some e) => mret (r, Some e)
  | (r, None) =>
      c ← try os_Quiet;
      match c with
      | Err e => mret (r, Some e)
      | Ok _ =>
          let rec := default zero_FileRecord (ix_Files idx !! p) in
          let target := path_join [destPath; default "" (rels !! p)] in
          let entry skipped reason error := mkEntry p target (fr_Size rec) skipped reason error in
          if dry then mret (add_entry r 0 0 0 (fr_Size rec) (entry false "" ""), None)
          else
            c ← try (checkOverwrite (os_segs target) overwrite);
            match c with
            | Err e =>
                if bool_decide (overwrite = OverwriteSkip) && errors_is "errSkipExisting" e
                then mret (add_entry r 0 1 0 (fr_Size rec) (entry true "destination exists" ""), None)
                else mret (add_entry r 0 0 1 (fr_Size rec) (entry false "" (err_text e)), None)
            | Ok _ =>
                w ← try (restoreFileWithOverwrite rec (os_segs target) overwrite);
                match w with
                | Err e => mret (add_entry r 0 0 1 (fr_Size rec) (entry false "" (err_text e)), None)
                | Ok _ => mret (add_entry r 1 0 0 (fr_Size rec) (entry false "" ""), None)
                end
            end
      end
  end.

(** internal/vault/export.go:95-134 [ExportPath]: the archive *)
Definition export_zip (r : ExportResult) (zipPath : string) (overwrite : Overwrite) (matches : list string) (idx : Index)
    (rels : gmap string string) : M (ExportResult * option err) :=
  let r := foldl (fun r p => let rec := default zero_FileRecord (ix_Files idx !! p) in
                   add_entry r 0 0 0 (fr_Size rec) (mkEntry p zipPath (fr_Size rec) false "" "")) r matches in
  let finish (exported skipped : Z) (entries : list ExportEntry) :=
    mkExportResult (er_VirtualPath r) (er_DestPath r) (er_Zip r) (er_Overwrite r) (er_DryRun r) (er_Files r)
      exported skipped 0 (er_Bytes r) entries in
  if er_DryRun r then mret (r, None)
  else
    x ← try os_Quiet;
    match x with Err e => mret (r, Some e) | Ok _ =>
    c ← try (checkOverwrite (os_segs zipPath) overwrite);
    match c with
    | Err e =>
        if bool_decide (overwrite = OverwriteSkip) && errors_is "errSkipExisting" e
        then mret (finish 0 (Z.of_nat (length matches))
               ((fun e => mkEntry (ee_Path e) (ee_DestPath e) (ee_Size e) true "destination ZIP already exists" (ee_Error e)) <$> er_Entries r), None)
        else mret (r, Some e)
    | Ok _ =>
        w ← try (_ ← os_MkdirAll (dir_of (os_segs zipPath));
                 _ ← (if bool_decide (overwrite = OverwriteReplace) then _ ← try (os_Remove (os_segs zipPath)); mret tt else mret tt);
                 writeZip (os_segs zipPath) matches idx rels);
        match w with
        | Err e => mret (r, Some e)
        | Ok _ => mret (finish (Z.of_nat (length matches)) 0 (er_Entries r), None)
        end
    end end.

(** internal/vault/export.go:69-177 [ExportPath]; [destPath] is an absolute path. *)
Definition ExportPath (virtualPath destPath : string) (opts : ExportOptions) : M (ExportResult * option err) :=
  p ← try (overwrite ← lift (normalizeOverwrite (eo_Overwrite opts));
           if String.eqb (trim_space destPath) "" then fail (ENew "destination path is required")
           else _ ← ensureDestinationOutsideVault v (os_segs destPath);
                m ← exportMatches virtualPath; mret (overwrite, m));
  match p with
  | Err e => mret (zero_ExportResult, Some e)
  | Ok (overwrite, (matches, idx, vp)) =>
      let exactFile := bool_decide (is_Some (ix_Files idx !! vp)) && negb (String.eqb vp "") in
      let rels := exportTargets matches idx vp exactFile in
      let r dest := mkExportResult vp dest (eo_Zip opts) (Some overwrite) (eo_DryRun opts) (Z.of_nat (length matches)) 0 0 0 0 [] in
      if eo_Zip opts then
        let zipPath := exportZipPath destPath vp in export_zip (r zipPath) zipPath overwrite matches idx rels
      else
        '(r, e) ← mfold (export_one destPath overwrite (eo_DryRun opts) idx rels) (r destPath, None) matches;
        match e with
        | Some e => mret (r, Some e)
        | None => mret (r, if 0 <? er_Failed r then Some (ENew "export completed with %d error(s); see per-entry detail") else None)
        end
  end.
End export.
