(* ===== verification/RecoveryWordsFacts.v ===== *)
(** Facts of the word form: the word list is what the printed cards say, and the
    packing and its inverse agree on every secret and on every phrase. *)
From stdpp Require Import stringmap.
From S2P Require Export RecoveryWords.
Local Open Scope Z_scope.

(** ** The word list *)

(** The SHA-256 of the list is the one the program's tests pin. *)
Example wordlist_pinned :
  hex_encode (sha256 (bytes_of recoveryWordlistText)) = "2f5eed53a4727b4bf8880d8f3f199efc90e58503646d9ff8eff3a2ed3b24dbda".
Proof. vm_compute. reflexivity. Qed.

Lemma wordlist_length : length recoveryWordlist = 2048%nat.
Proof. vm_compute. reflexivity. Qed.

Definition lower_letter (c : ascii) : bool := (97 <=? ascii_code c) && (ascii_code c <=? 122).
Definition plain_word (w : string) : bool :=
  negb (String.eqb w "") && forallb lower_letter (list_ascii_of_string w) &&
  String.eqb (trim_space w) w && is_ascii w && String.eqb (lower_ascii w) w.
Lemma wordlist_plain : forallb plain_word recoveryWordlist = true.
Proof. vm_compute. reflexivity. Qed.

Lemma wordlist_index_ok :
  forallb (fun '(i, w) => bool_decide (recoveryWordIndex !! w = Some i)) (imap pair recoveryWordlist) = true.
Proof. vm_compute. reflexivity. Qed.

Lemma build_snoc l w : buildRecoveryWordIndex (l ++ [w]) = <[w := length l]> (buildRecoveryWordIndex l).
Proof. unfold buildRecoveryWordIndex. by rewrite imap_app, fold_left_app; cbn; rewrite Nat.add_0_r. Qed.

Lemma build_lookup l w i : buildRecoveryWordIndex l !! w = Some i → l !! i = Some w.
Proof.
  induction l as [|x l IH] using rev_ind; [done|]. rewrite build_snoc.
  destruct (decide (x = w)) as [->|Hx].
  - rewrite lookup_insert_eq. intros [= <-]. by rewrite lookup_app_r, Nat.sub_diag by lia.
  - rewrite lookup_insert_ne by done. intros Hi%IH. by apply lookup_app_l_Some.
Qed.

Lemma index_spec w i : recoveryWordIndex !! w = Some i ↔ recoveryWordlist !! i = Some w.
Proof.
  split; [apply build_lookup|]. intros Hi.
  pose proof (proj1 (forallb_forall _ _) wordlist_index_ok (i, w)) as Hw.
  cbv beta iota in Hw. apply bool_decide_eq_true in Hw; [done|].
  apply list_elem_of_In, (list_elem_of_lookup_2 _ i). by rewrite list_lookup_imap, Hi.
Qed.

Lemma wordlist_lookup i : (i < 2048)%nat → recoveryWordlist !! i = Some (nth i recoveryWordlist "").
Proof. intros Hi. rewrite <- wordlist_length in Hi. apply lookup_lt_is_Some_2 in Hi as [w Hw]. by rewrite Hw, (nth_lookup_Some _ _ _ _ Hw). Qed.

(** ** Bits *)

(** Bit [j] of a byte slice, most significant first. *)
Definition bit_of (data : bytes) (j : nat) : bool := Z.testbit (at_ data (j / 8)) (7 - Z.of_nat (j mod 8)).

Lemma land_1 z n : 0 ≤ n → Z.land (Z.shiftr z n) 1 = Z.b2z (Z.testbit z n).
Proof.
  intros Hn. change 1 with (Z.ones 1). rewrite Z.land_ones by lia. change (2 ^ 1) with 2.
  by rewrite <- Z.bit0_mod, Z.shiftr_spec, Z.add_0_l by lia.
Qed.

Lemma at_range data i : 0 ≤ at_ data i < 256.
Proof. apply b64_val_range. Qed.

Lemma b64_val_byte n : 0 ≤ n < 256 → b64_val (b64_byte n) = n.
Proof.
  intros Hn. unfold b64_byte, b64_val. destruct (Byte.of_N (Z.to_N n)) as [b|] eqn:Hb.
  - apply Byte.to_of_N in Hb. rewrite Hb. lia.
  - apply Byte.of_N_None_iff in Hb. lia.
Qed.

Lemma at_insert data i k b : (i < length data)%nat →
  at_ (<[i := b]> data) k = if decide (k = i) then b64_val b else at_ data k.
Proof.
  intros Hi. unfold at_. rewrite !nth_lookup.
  destruct (decide (k = i)) as [->|Hk]; [by rewrite list_lookup_insert_eq|by rewrite list_lookup_insert_ne by congruence].
Qed.

Lemma lor_bit_range n k : 0 ≤ n < 256 → 0 ≤ k < 8 → 0 ≤ Z.lor n (Z.shiftl 1 k) < 256.
Proof.
  intros Hn Hk. rewrite Z.shiftl_1_l. assert (Hs : 0 < 2 ^ k) by (apply Z.pow_pos_nonneg; lia).
  assert (H0 : 0 ≤ Z.lor n (2 ^ k)) by (apply Z.lor_nonneg; lia). split; [done|].
  destruct (decide (Z.lor n (2 ^ k) = 0)) as [->|]; [lia|]. change 256 with (2 ^ 8).
  apply Z.log2_lt_pow2; [lia|]. rewrite Z.log2_lor, Z.log2_pow2 by lia.
  destruct (decide (n = 0)) as [->|]; [cbn; lia|]. assert (Z.log2 n < 8) by (apply Z.log2_lt_pow2; lia). lia.
Qed.

Lemma bit_of_set data k j : (k / 8 < length data)%nat →
  bit_of (<[(k / 8)%nat := b64_byte (Z.lor (at_ data (k / 8)) (Z.shiftl 1 (7 - Z.of_nat (k mod 8))))]> data) j
  = bit_of data j || (j =? k)%nat.
Proof.
  intros Hk. unfold bit_of. rewrite at_insert by done.
  pose proof (Nat.mod_upper_bound k 8). pose proof (Nat.mod_upper_bound j 8).
  pose proof (Nat.div_mod_eq k 8). pose proof (Nat.div_mod_eq j 8).
  destruct (decide _) as [He|He].
  - rewrite b64_val_byte, Z.lor_spec, He by (apply lor_bit_range; [apply at_range|lia]). f_equal.
    rewrite Z.shiftl_1_l. destruct (Nat.eqb_spec j k) as [->|Hn]; [by apply Z.pow2_bits_true; lia|].
    apply Z.pow2_bits_false. intros ?. apply Hn. lia.
  - destruct (Nat.eqb_spec j k) as [->|Hn]; [done|by rewrite orb_false_r].
Qed.

(** Shifting a bit in. *)
Lemma lor_b2z v bt : Z.lor (Z.shiftl v 1) (Z.b2z bt) = 2 * v + Z.b2z bt.
Proof.
  apply Z.bits_inj'. intros i Hi. rewrite Z.lor_spec. destruct (decide (i = 0)) as [->|Hi0].
  - by rewrite Z.shiftl_spec, Z.testbit_neg_r, Z.testbit_0_r, Z.b2z_bit0 by lia.
  - replace i with (Z.succ (i - 1)) by lia. rewrite Z.testbit_succ_r, Z.shiftl_spec by lia.
    replace (Z.succ (i - 1) - 1) with (i - 1) by lia.
    rewrite <- (orb_false_r (Z.testbit v (i - 1))) at 2. f_equal. destruct bt; [|apply Z.testbit_0_l].
    apply Z.bits_above_log2; cbn; lia.
Qed.

(** What the first [n] rounds of [read11Bits] read. *)
Lemma read_bits data pos n :
  let v := fold_left (fun v b =>
      let bit := Z.land (Z.shiftr (at_ data ((pos + b) / 8)) (7 - Z.of_nat ((pos + b) mod 8))) 1 in
      Z.lor (Z.shiftl v 1) bit) (seq 0 n) 0 in
  0 ≤ v < 2 ^ Z.of_nat n ∧ ∀ b, (b < n)%nat → Z.testbit v (Z.of_nat (n - 1 - b)) = bit_of data (pos + b).
Proof.
  induction n as [|n IH]; [by cbn; split; [lia|intros; lia]|].
  rewrite seq_S, fold_left_app. cbn [fold_left]. cbv zeta. rewrite Nat.add_0_l.
  cbv zeta in IH. destruct IH as [Hv IH]. set (v := fold_left _ (seq 0 n) 0) in *.
  pose proof (Nat.mod_upper_bound (pos + n) 8). rewrite land_1 by lia. fold (bit_of data (pos + n)).
  rewrite lor_b2z. set (bt := bit_of data (pos + n)) in *. split.
  { rewrite Nat2Z.inj_succ, Z.pow_succ_r by lia. destruct bt; cbn [Z.b2z]; lia. }
  intros b Hb. destruct (decide (b = n)) as [->|Hn].
  - replace (Z.of_nat (S n - 1 - n)) with 0 by lia. by rewrite Z.testbit_0_r.
  - replace (Z.of_nat (S n - 1 - b)) with (Z.succ (Z.of_nat (n - 1 - b))) by lia.
    rewrite Z.testbit_succ_r by lia. apply IH. lia.
Qed.

(** [read11Bits] reads the eleven bits at its position. *)
Lemma read11Bits_spec data pos :
  0 ≤ read11Bits data pos < 2048 ∧
  ∀ b, (b < 11)%nat → Z.testbit (read11Bits data pos) (Z.of_nat (10 - b)) = bit_of data (pos + b).
Proof. exact (read_bits data pos 11). Qed.

Lemma write_bits data pos idx n : (pos + n ≤ 8 * length data)%nat → (n ≤ 11)%nat →
  let w := fold_left (fun data b =>
      let bit := Z.land (Z.shiftr idx (10 - Z.of_nat b)) 1 in
      if bit =? 1 then
        let j := ((pos + b) / 8)%nat in
        <[j := b64_byte (Z.lor (at_ data j) (Z.shiftl 1 (7 - Z.of_nat ((pos + b) mod 8))))]> data
      else data) (seq 0 n) data in
  length w = length data ∧
  ∀ j, bit_of w j = bit_of data j || ((pos <=? j)%nat && (j <? pos + n)%nat && Z.testbit idx (10 - Z.of_nat (j - pos))).
Proof.
  induction n as [|n IH]; intros Hlen Hn.
  { split; [done|]. intros j. destruct (Nat.leb_spec pos j), (Nat.ltb_spec j (pos + 0)); try lia;
    cbn [andb fold_left seq]; by rewrite orb_false_r. }
  rewrite seq_S, fold_left_app. cbn [fold_left]. cbv zeta. rewrite Nat.add_0_l.
  cbv zeta in IH. destruct IH as [Hl IH]; [lia..|]. set (w := fold_left _ (seq 0 n) data) in *.
  rewrite land_1 by lia.
  assert (Hk : ((pos + n) / 8 < length w)%nat) by (rewrite Hl; apply Nat.Div0.div_lt_upper_bound; lia).
  destruct (Z.testbit idx (10 - Z.of_nat n)) eqn:Hb; cbn [Z.b2z Z.eqb Pos.eqb]; cbv iota.
  - split; [by rewrite length_insert|]. intros j. rewrite bit_of_set, IH by done. rewrite <- orb_assoc. f_equal.
    destruct (Nat.eqb_spec j (pos + n)) as [->|Hj].
    + replace (pos + n - pos)%nat with n by lia. rewrite Hb, orb_true_r.
      symmetry. rewrite !andb_true_iff. split; [split|done]; [apply Nat.leb_le|apply Nat.ltb_lt]; lia.
    + rewrite orb_false_r. f_equal. f_equal. apply eq_true_iff_eq. rewrite !Nat.ltb_lt. lia.
  - split; [done|]. intros j. rewrite IH. f_equal.
    destruct (Nat.eqb_spec j (pos + n)) as [->|Hj].
    + replace (pos + n - pos)%nat with n by lia. by rewrite Hb, !andb_false_r.
    + f_equal. f_equal. apply eq_true_iff_eq. rewrite !Nat.ltb_lt. lia.
Qed.

(** [write11Bits] sets the bits of the index at its position, and no other. *)
Lemma write11Bits_spec data pos idx : (pos + 11 ≤ 8 * length data)%nat →
  length (write11Bits data pos idx) = length data ∧
  ∀ j, bit_of (write11Bits data pos idx) j =
    bit_of data j || ((pos <=? j)%nat && (j <? pos + 11)%nat && Z.testbit idx (10 - Z.of_nat (j - pos))).
Proof. intros Hlen. by apply (write_bits data pos idx 11). Qed.

(** A byte slice is determined by its bits. *)
Lemma bits_ext a b : length a = length b → (∀ j, (j < 8 * length a)%nat → bit_of a j = bit_of b j) → a = b.
Proof.
  intros Hl Hb. apply (nth_ext a b Byte.x00 Byte.x00 Hl). intros i Hi.
  rewrite <- (b64_byte_val (nth i a Byte.x00)), <- (b64_byte_val (nth i b Byte.x00)). f_equal.
  fold (at_ a i) (at_ b i). apply Z.bits_inj'. intros k Hk.
  destruct (decide (k < 8)) as [H8|H8].
  - specialize (Hb (8 * i + Z.to_nat (7 - k))%nat ltac:(lia)). unfold bit_of in Hb.
    replace ((8 * i + Z.to_nat (7 - k)) / 8)%nat with i in Hb by (apply Nat.div_unique with (Z.to_nat (7 - k)); lia).
    replace ((8 * i + Z.to_nat (7 - k)) mod 8)%nat with (Z.to_nat (7 - k)) in Hb
      by (apply Nat.mod_unique with i; lia).
    by replace (7 - Z.of_nat (Z.to_nat (7 - k))) with k in Hb by lia.
  - assert (Hz : ∀ x, 0 ≤ x < 256 → Z.testbit x k = false).
    { intros x Hx. destruct (decide (x = 0)) as [->|]; [apply Z.testbit_0_l|]. apply Z.bits_above_log2; [lia|].
      assert (Z.log2 x < 8) by (apply Z.log2_lt_pow2; lia). lia. }
    by rewrite !Hz by apply at_range.
Qed.

(** ** The packing *)

Fixpoint pack (i : nat) (l : list nat) (data : bytes) : bytes :=
  match l with [] => data | x :: l => pack (S i) l (write11Bits data (i * 11) (Z.of_nat x)) end.

Lemma pack_snoc i l x data : pack i (l ++ [x]) data = write11Bits (pack i l data) ((i + length l) * 11) (Z.of_nat x).
Proof.
  revert i data. induction l as [|y l IH]; intros i data; cbn [app pack length]; [by rewrite Nat.add_0_r|].
  rewrite IH. by replace (S i + length l)%nat with (i + S (length l))%nat by lia.
Qed.

Abbreviation blank := (repeat Byte.x00 (recoveryEntropyBytes + 1)).

Lemma bit_of_blank j : bit_of blank j = false.
Proof.
  unfold bit_of, at_. replace (nth (j / 8) blank Byte.x00) with Byte.x00; [apply Z.testbit_0_l|].
  by rewrite nth_repeat.
Qed.

Lemma block_at k b : (b < 11)%nat → ((k * 11 + b) / 11 = k ∧ (k * 11 + b) mod 11 = b)%nat.
Proof. intros Hb. split; [symmetry; apply Nat.div_unique with b; lia|symmetry; apply Nat.mod_unique with k; lia]. Qed.

Lemma pack_bits l : (length l ≤ recoveryWordCount)%nat →
  length (pack 0 l blank) = (recoveryEntropyBytes + 1)%nat ∧
  ∀ j, bit_of (pack 0 l blank) j =
    ((j <? length l * 11)%nat && Z.testbit (Z.of_nat (nth (j / 11) l 0%nat)) (10 - Z.of_nat (j mod 11))).
Proof.
  unfold recoveryWordCount. induction l as [|x l IH] using rev_ind; intros Hn.
  { split; [done|]. intros j. by rewrite bit_of_blank. }
  rewrite length_app in *. cbn [length] in *. destruct IH as [Hlen IH]; [lia|]. rewrite pack_snoc, Nat.add_0_l.
  destruct (write11Bits_spec (pack 0 l blank) (length l * 11) (Z.of_nat x)) as [Hl Hw].
  { rewrite Hlen. cbn. lia. }
  split; [by rewrite Hl|]. intros j. rewrite Hw, IH.
  pose proof (Nat.div_mod_eq j 11) as Hj. pose proof (Nat.mod_upper_bound j 11 ltac:(lia)) as Hr.
  destruct (Nat.ltb_spec j (length l * 11)) as [Hlt|Hge]; cbn [andb].
  - rewrite (proj2 (Nat.leb_gt (length l * 11) j)) by lia.
    rewrite (proj2 (Nat.ltb_lt j ((length l + 1) * 11))) by lia. cbn [andb].
    rewrite orb_false_r, app_nth1; [done|]. apply Nat.Div0.div_lt_upper_bound. lia.
  - rewrite (proj2 (Nat.leb_le (length l * 11) j)) by lia. cbn [andb orb].
    replace (length l * 11 + 11)%nat with ((length l + 1) * 11)%nat by lia.
    destruct (Nat.ltb_spec j ((length l + 1) * 11)) as [Hlt|_]; [|done]. cbn [andb].
    assert (Hd : (j / 11 = length l)%nat) by nia. rewrite app_nth2, Hd, Nat.sub_diag by lia. cbn [nth].
    idtac. replace (j - length l * 11)%nat with (j mod 11)%nat by lia. done.
Qed.

(** The eleven-bit words of a packed list are the list. *)
Lemma read_pack l i : (length l ≤ recoveryWordCount)%nat → Forall (fun x => (x < 2048)%nat) l → (i < length l)%nat →
  read11Bits (pack 0 l blank) (i * 11) = Z.of_nat (nth i l 0%nat).
Proof.
  intros Hl Hx Hi. destruct (read11Bits_spec (pack 0 l blank) (i * 11)) as [Hr Hb].
  destruct (pack_bits l Hl) as [_ Hp].
  assert (Hn : (nth i l 0 < 2048)%nat) by (eapply List.Forall_forall in Hx; [exact Hx|by apply nth_In]).
  apply Z.bits_inj'. intros k Hk. destruct (decide (k ≤ 10)) as [H10|H10].
  - specialize (Hb (Z.to_nat (10 - k)) ltac:(lia)). replace (Z.of_nat (10 - Z.to_nat (10 - k))) with k in Hb by lia.
    rewrite Hb, Hp. destruct (block_at i (Z.to_nat (10 - k))) as [-> ->]; [lia|].
    rewrite (proj2 (Nat.ltb_lt _ _)) by lia. cbn [andb]. f_equal. lia.
  - assert (Hz : ∀ x, 0 ≤ x < 2048 → Z.testbit x k = false); [|by rewrite !Hz by lia].
    intros x Hx'. destruct (decide (x = 0)) as [->|]; [apply Z.testbit_0_l|]. apply Z.bits_above_log2; [lia|].
    assert (Z.log2 x < 11) by (apply Z.log2_lt_pow2; lia). lia.
Qed.

(** The indices an encoding writes down. *)
Definition indices (data : bytes) : list nat :=
  map (fun i => Z.to_nat (read11Bits data (i * 11))) (seq 0 recoveryWordCount).

Lemma indices_bound data : Forall (fun x => (x < 2048)%nat) (indices data).
Proof. apply Forall_map, Forall_true. intros i. destruct (read11Bits_spec data (i * 11)). lia. Qed.
Lemma indices_length data : length (indices data) = recoveryWordCount.
Proof. unfold indices. by rewrite length_map, length_seq. Qed.
Lemma indices_nth data i : (i < recoveryWordCount)%nat →
  nth i (indices data) 0%nat = Z.to_nat (read11Bits data (i * 11)).
Proof.
  intros Hi. apply nth_lookup_Some. unfold indices. rewrite list_lookup_fmap, lookup_seq_lt by done. done.
Qed.

(** Packing the eleven-bit words of 33 bytes gives the bytes back. *)
Lemma pack_read data : length data = (recoveryEntropyBytes + 1)%nat → pack 0 (indices data) blank = data.
Proof.
  intros Hd. pose proof (indices_length data) as Hl.
  destruct (pack_bits (indices data)) as [Hlen Hp]; [lia|]. apply bits_ext; [congruence|]. rewrite Hlen. intros j Hj.
  change (8 * (recoveryEntropyBytes + 1))%nat with 264%nat in Hj.
  rewrite Hp, Hl, (proj2 (Nat.ltb_lt _ _)) by (unfold recoveryWordCount; lia). cbn [andb].
  pose proof (Nat.mod_upper_bound j 11 ltac:(lia)) as Hr. pose proof (Nat.div_mod_eq j 11) as Hjm.
  rewrite indices_nth by (apply Nat.Div0.div_lt_upper_bound; unfold recoveryWordCount; lia).
  destruct (read11Bits_spec data (j / 11 * 11)) as [Hv Hb]. rewrite Z2Nat.id by lia.
  replace (10 - Z.of_nat (j mod 11)) with (Z.of_nat (10 - j mod 11)) by lia. rewrite Hb by lia. f_equal. lia.
Qed.

(** ** Encoding and decoding *)

#[local] Opaque recoveryWordIndex recoveryWordlist sha256.

Section decode.
Context `{GoUnicode}.

Lemma decode_loop_pack i ws data :
  decode_loop i ws data =
    match mapM (λ w, recoveryWordIndex !! normalise w) ws with
    | Some l => Ok (pack i l data)
    | None => Err (ESentinel "ErrRecoveryWordUnknown")
    end.
Proof.
  revert i data. induction ws as [|w ws IH]; intros i data; [done|]. cbn [decode_loop mapM].
  destruct (recoveryWordIndex !! normalise w) as [x|]; [|done]. rewrite IH. cbn [mbind option_bind].
  by destruct (mapM _ ws).
Qed.

Lemma plain_word_normalise w : plain_word w = true → normalise w = w.
Proof.
  unfold plain_word, normalise. rewrite !andb_true_iff. intros [[[_ Ht] Ha] Hl].
  apply String.eqb_eq in Ht, Hl. by rewrite Ht, to_lower_ascii.
Qed.

Lemma listed_plain i w : recoveryWordlist !! i = Some w → plain_word w = true.
Proof.
  intros Hi. apply (proj1 (forallb_forall _ _) wordlist_plain). apply list_elem_of_In.
  by apply list_elem_of_lookup_2 with i.
Qed.

Lemma encode_indices secret :
  EncodeRecoveryWords secret = map (fun x => nth x recoveryWordlist "") (indices (secret ++ take 1 (sha256 secret))).
Proof. unfold EncodeRecoveryWords, indices. by rewrite map_map. Qed.

Lemma lookup_words l : Forall (fun x => (x < 2048)%nat) l →
  mapM (λ w, recoveryWordIndex !! w) (map (fun x => nth x recoveryWordlist "") l) = Some l.
Proof.
  induction 1 as [|x l Hx _ IH]; [done|]. cbn [map mapM].
  by rewrite (proj2 (index_spec _ x) (wordlist_lookup x Hx)); cbn [mbind option_bind]; rewrite IH.
Qed.

Lemma words_of_lookup ws l : mapM (λ w, recoveryWordIndex !! w) ws = Some l →
  ws = map (fun x => nth x recoveryWordlist "") l ∧ Forall (fun x => (x < 2048)%nat) l.
Proof.
  revert l. induction ws as [|w ws IH]; intros l; [by intros [= <-]|]. cbn [mapM].
  destruct (recoveryWordIndex !! w) as [x|] eqn:Hx; [|done]. destruct (mapM _ ws) as [l'|] eqn:Hl; [|done].
  intros [= <-]. destruct (IH l' eq_refl) as [-> Hf]. apply index_spec in Hx. split.
  - cbn [map]. by rewrite (nth_lookup_Some _ _ _ _ Hx).
  - constructor; [|done]. rewrite <- wordlist_length. by eapply lookup_lt_Some.
Qed.

Lemma encoded_normalise secret : map normalise (EncodeRecoveryWords secret) = EncodeRecoveryWords secret.
Proof.
  rewrite encode_indices. pose proof (indices_bound (secret ++ take 1 (sha256 secret))) as Hb.
  induction Hb as [|x l Hx _ IH]; [done|]. cbn [map]. rewrite IH. f_equal.
  eapply plain_word_normalise, listed_plain, wordlist_lookup, Hx.
Qed.

Lemma encoded_length secret : length (EncodeRecoveryWords secret) = recoveryWordCount.
Proof. by rewrite encode_indices, length_map, indices_length. Qed.

Lemma sum_length m : length (take 1 (sha256 m)) = 1%nat.
Proof. rewrite length_take, sha256_length. lia. Qed.

Lemma mapM_normalise ws :
  mapM (λ w, recoveryWordIndex !! normalise w) ws = mapM (λ w, recoveryWordIndex !! w) (map normalise ws).
Proof. induction ws as [|w ws IH]; [done|]. cbn [map mapM]. by rewrite IH. Qed.

(** Decoding a phrase of the right length: its indices are packed, and the last
    byte is the checksum. *)
Lemma decode_run ws : length ws = recoveryWordCount →
  DecodeRecoveryWords ws =
    match mapM (λ w, recoveryWordIndex !! w) (map normalise ws) with
    | None => Err (ESentinel "ErrRecoveryWordUnknown")
    | Some l => let data := pack 0 l blank in
        if bool_decide (drop recoveryEntropyBytes data = take 1 (sha256 (take recoveryEntropyBytes data)))
        then Ok (take recoveryEntropyBytes data) else Err (ESentinel "ErrRecoveryChecksum")
    end.
Proof.
  intros Hl. unfold DecodeRecoveryWords. rewrite Hl, Nat.eqb_refl. cbn [negb].
  rewrite decode_loop_pack, mapM_normalise. by destruct (mapM _ (map normalise ws)).
Qed.

(** C39. The word form of a recovery secret is exact: a phrase decodes to a 32-byte
    secret if and only if, each word trimmed and lower-cased, it is that secret's
    own encoding.  So every encoding decodes back, no two phrases name one secret,
    and nothing else is accepted. *)
Theorem decode_iff_encoded ws secret : length secret = recoveryEntropyBytes →
  DecodeRecoveryWords ws = Ok secret ↔ map normalise ws = EncodeRecoveryWords secret.
Proof.
  intros Hs. split.
  - intros Hd. destruct (decide (length ws = recoveryWordCount)) as [Hl|Hl].
    2:{ exfalso. unfold DecodeRecoveryWords in Hd. by rewrite (proj2 (Nat.eqb_neq _ _) Hl) in Hd. }
    rewrite decode_run in Hd by done. destruct (mapM _ (map normalise ws)) as [l|] eqn:Hm; [|done].
    cbv zeta in Hd. case_bool_decide as Hsum; [|done].
    assert (Hd' : take recoveryEntropyBytes (pack 0 l blank) = secret) by congruence. clear Hd.
    destruct (words_of_lookup _ _ Hm) as [Hws Hb]. rewrite Hws, encode_indices.
    assert (Hll : length l = recoveryWordCount) by (apply (f_equal length) in Hws; rewrite !length_map in Hws; congruence).
    f_equal. rewrite Hd' in Hsum. rewrite <- Hd' at 1. rewrite <- Hsum, take_drop.
    apply (nth_ext _ _ 0%nat 0%nat); [by rewrite indices_length|]. intros i Hi.
    rewrite indices_nth by lia.
    rewrite read_pack by (done || lia). by rewrite Nat2Z.id.
  - intros He. assert (Hl : length ws = recoveryWordCount) by (by rewrite <- (length_map normalise), He, encoded_length).
    rewrite decode_run, He, encode_indices, lookup_words by (done || apply indices_bound).
    cbv zeta. rewrite pack_read by (rewrite length_app, sum_length; lia).
    rewrite take_app_length', drop_app_length' by done. by rewrite bool_decide_eq_true_2.
Qed.

(** A wrong count, an unknown word and a wrong checksum are the only errors, each
    with its own value. *)
Lemma decode_errors ws e : DecodeRecoveryWords ws = Err e →
  (e = ESentinel "ErrRecoveryWordCount" ∧ length ws ≠ recoveryWordCount) ∨
  (e = ESentinel "ErrRecoveryWordUnknown" ∧ ∃ w, In w ws ∧ ¬ In (normalise w) recoveryWordlist) ∨
  e = ESentinel "ErrRecoveryChecksum".
Proof.
  destruct (decide (length ws = recoveryWordCount)) as [Hl|Hl].
  - rewrite decode_run by done. destruct (mapM _ (map normalise ws)) as [l|] eqn:Hm.
    { cbv zeta. case_bool_decide; [done|]. intros [= <-]. by right; right. }
    intros [= <-]. right; left. split; [done|]. apply mapM_None_1 in Hm.
    apply Exists_exists in Hm as (w' & Hin & Hw). apply list_elem_of_In, in_map_iff in Hin as (w & <- & Hin).
    exists w. split; [done|]. intros [i Hi]%list_elem_of_In%list_elem_of_lookup_1.
    apply index_spec in Hi. congruence.
  - unfold DecodeRecoveryWords. rewrite (proj2 (Nat.eqb_neq _ _) Hl). intros [= <-]. by left.
Qed.
End decode.

Lemma decode_iff_encoded_witness :
  let _ := demo_unicode in
  DecodeRecoveryWords (EncodeRecoveryWords (repeat Byte.x00 32)) = Ok (repeat Byte.x00 32).
Proof. intros u. apply (decode_iff_encoded _ (repeat Byte.x00 32)); [reflexivity|]. apply encoded_normalise. Defined.
