(* ===== verification/RecoveryPhrase.v ===== *)
(** Recovery phrases (internal/vault/recovery_phrase.go): the minted secret, its
    grouped base32 form, its word form, and the routing of what an owner types. *)
From stdpp Require Import stringmap.
From S2P Require Export World GoBase64 RecoveryWordsFacts.
Local Open Scope Z_scope.

(** [strings.Fields]: split around runs of the runes of [unicode.IsSpace].  [w] is
    the field being read; one unit of fuel per byte and one for the end is enough
    ([fields_solid]). *)
Fixpoint fields_fuel (fuel : nat) (w s : string) : list string :=
  match fuel with
  | O => []
  | S f =>
      match s with
      | EmptyString => if String.eqb w "" then [] else [w]
      | String c s' =>
          match List.find (has_prefix s) space_runes with
          | Some r => (if String.eqb w "" then [] else [w]) ++ fields_fuel f "" (str_drop (String.length r) s)
          | None => fields_fuel f (w +:+ String c "") s'
          end
      end
  end.
Definition str_fields (s : string) : list string := fields_fuel (S (String.length s)) "" s.

(** internal/vault/recovery_phrase.go:17-17 [recoveryPhraseBits] *)
Definition recoveryPhraseBits : nat := 256.
(** internal/vault/recovery_phrase.go:21-21 [recoveryGroupSize] *)
Definition recoveryGroupSize : nat := 4.

(** internal/vault/recovery_phrase.go:44-57 [groupRecovery]: the loop from the
    second group on; each group takes a byte at least. *)
Fixpoint group_from (fuel : nat) (rest : string) : string :=
  match fuel, rest with
  | S f, String _ _ => "-" +:+ str_take recoveryGroupSize rest +:+ group_from f (str_drop recoveryGroupSize rest)
  | _, _ => ""
  end.
(** internal/vault/recovery_phrase.go:44-57 [groupRecovery] *)
Definition groupRecovery (canon : string) : string :=
  str_take recoveryGroupSize canon +:+ group_from (String.length canon) (str_drop recoveryGroupSize canon).

(** internal/vault/recovery_phrase.go:70-81 [canonicalRecovery]: over the runes of
    [strings.ToUpper(s)].  Besides the ASCII letters, two runes have an upper case
    in the alphabet: the dotless i (C4 B1) and the long s (C5 BF). *)
Fixpoint canonical_chars (l : list ascii) : list ascii :=
  match l with
  | [] => []
  | c :: t =>
      let u := ascii_upper c in
      if b32_alphabet u then u :: canonical_chars t
      else match t with
           | d :: t' =>
               if (ascii_code c =? 196) && (ascii_code d =? 177) then "I"%char :: canonical_chars t'
               else if (ascii_code c =? 197) && (ascii_code d =? 191) then "S"%char :: canonical_chars t'
               else canonical_chars t
           | [] => []
           end
  end.
(** internal/vault/recovery_phrase.go:70-81 [canonicalRecovery] *)
Definition canonicalRecovery (s : string) : string := string_of_list_ascii (canonical_chars (list_ascii_of_string s)).

(** internal/vault/recovery_phrase.go:129-129 [errRecoveryReadbackMismatch] *)
Definition errRecoveryReadbackMismatch : err := ESentinel "errRecoveryReadbackMismatch".

Section phrase.
Context `{GoUnicode}.

(** internal/vault/recovery_phrase.go:100-122 [canonicalRecoverySecret] *)
Definition canonicalRecoverySecret (input : string) : result string :=
  let tokens := str_fields input in
  let n := length tokens in
  let inList := length (List.filter (fun t => bool_decide (is_Some (recoveryWordIndex !! to_lower t))) tokens) in
  let wordShaped := (20 <=? n)%nat && (n <=? 28)%nat && (n <? inList * 2)%nat in
  if wordShaped then secret ← DecodeRecoveryWords tokens; Ok (b32_encode secret)
  else Ok (canonicalRecovery input).

(** internal/vault/recovery_phrase.go:137-147 [RecoveryPhraseCheck] *)
Definition RecoveryPhraseCheck (minted input : string) : option err :=
  let want := canonicalRecovery minted in
  match canonicalRecoverySecret input with
  | Err e => Some e
  | Ok got =>
      if String.eqb want "" || String.eqb got "" || negb (String.eqb want got) then Some errRecoveryReadbackMismatch
      else None
  end.

(** internal/vault/recovery_phrase.go:155-157 [RecoveryPhraseMatches] *)
Definition RecoveryPhraseMatches (minted input : string) : bool :=
  match RecoveryPhraseCheck minted input with None => true | Some _ => false end.
End phrase.

(** internal/vault/recovery_phrase.go:166-188 [RecoveryPhraseWords] *)
Definition RecoveryPhraseWords (phrase : string) : result (list string) :=
  let canon := canonicalRecovery phrase in
  match b32_decode canon with
  | None => Err (ENew "illegal base32 data at input byte %d")
  | Some raw =>
      if negb (length raw =? recoveryEntropyBytes)%nat
      then Err (ENew (str_concat ["recovery phrase is "; itoa (Z.of_nat (length raw)); " bytes, expected ";
                                  itoa (Z.of_nat recoveryEntropyBytes)]))
      else if negb (String.eqb (b32_encode raw) canon)
      then Err (ENew "recovery phrase is not canonical base32 (its trailing bits are not zero)")
      else Ok (EncodeRecoveryWords raw)
  end.

(** internal/vault/recovery_phrase.go:32-39 [mintRecoverySecret] *)
Definition mintRecoverySecret `{Env} : M (string * string) :=
  raw ← randomBytes (recoveryPhraseBits / 8);
  let canon := b32_encode raw in
  mret (canon, groupRecovery canon).

Example group_ex : groupRecovery "ABCDEFGHIJ" = "ABCD-EFGH-IJ".
Proof. reflexivity. Qed.
Example canonical_ex : canonicalRecovery "abcd efgh-i1j" = "ABCDEFGHIJ".
Proof. reflexivity. Qed.
