(* ===== verification/RecoveryPhraseFacts.v ===== *)
(** Facts of recovery phrases: both printed forms of a minted secret lead back to
    the one string the key derivation was given. *)
From stdpp Require Import stringmap.
From S2P Require Export RecoveryPhrase.
Local Open Scope Z_scope.
#[local] Opaque EncodeRecoveryWords DecodeRecoveryWords recoveryWordIndex recoveryWordlist sha256.

(** ** Fields *)

(** Visible ASCII. *)
Definition solid (c : ascii) : bool := (33 <=? ascii_code c) && (ascii_code c <=? 126).
Abbreviation solid_str s := (Forall (fun c => solid c = true) (list_ascii_of_string s)).

Definition head_solid (r : string) : bool := match r with String d _ => solid d | EmptyString => true end.
Lemma space_heads : forallb (fun r => negb (head_solid r)) space_runes = true.
Proof. vm_compute. reflexivity. Qed.

Lemma no_space c s : solid c = true → List.find (has_prefix (String c s)) space_runes = None.
Proof.
  intros Hc. destruct (List.find _ _) as [r|] eqn:Hf; [|done]. exfalso.
  apply find_some in Hf as [Hin Hp]. pose proof (proj1 (forallb_forall _ _) space_heads r Hin) as Hh.
  destruct r as [|d r]; [done|]. unfold has_prefix in Hp. cbn in Hp, Hh.
  destruct (ascii_dec d c) as [->|]; [|done]. by rewrite Hc in Hh.
Qed.

Lemma fields_word w pre rest f : solid_str w →
  fields_fuel (String.length w + f) pre (w +:+ rest) = fields_fuel f (pre +:+ w) rest.
Proof.
  revert pre. induction w as [|c w IH]; intros pre Hw; [by rewrite str_app_nil|].
  cbn [list_ascii_of_string] in Hw. apply Forall_cons in Hw as [Hc Hw].
  change (String c w +:+ rest) with (String c (w +:+ rest)). cbn [String.length Nat.add fields_fuel].
  rewrite no_space, IH by done. by rewrite str_app_assoc.
Qed.

Lemma fields_space f pre rest : pre ≠ "" → fields_fuel (S f) pre (String " " rest) = pre :: fields_fuel f "" rest.
Proof.
  intros Hp. cbn [fields_fuel].
  replace (List.find (has_prefix (String " " rest)) space_runes) with (Some " ").
  - apply String.eqb_neq in Hp. by rewrite Hp.
  - unfold space_runes. cbn. by destruct rest.
Qed.

Lemma fields_end f pre : pre ≠ "" → fields_fuel (S f) pre "" = [pre].
Proof. intros Hp. apply String.eqb_neq in Hp. cbn. by rewrite Hp. Qed.

(** Words joined by single spaces are the fields of their line. *)
Lemma fields_join ws : Forall (fun w => solid_str w ∧ w ≠ "") ws → str_fields (String.concat " " ws) = ws.
Proof.
  unfold str_fields. induction 1 as [|w ws [Hw Hn] Hws IH]; [done|].
  destruct ws as [|w2 ws].
  - cbn [String.concat]. rewrite <- (str_app_nil w) at 2. rewrite <- Nat.add_1_r, fields_word by done.
    by apply fields_end.
  - change (String.concat " " (w :: w2 :: ws)) with (w +:+ String " " (String.concat " " (w2 :: ws))).
    rewrite str_length_app. cbn [String.length]. rewrite <- Nat.add_succ_r, fields_word by done.
    change ("" +:+ w) with w. by rewrite fields_space, IH.
Qed.

Lemma fields_solid s : solid_str s → s ≠ "" → str_fields s = [s].
Proof. intros Hs Hn. apply (fields_join [s]). by repeat constructor. Qed.

(** ** The base32 form *)

(** The alphabet's characters are visible and their own upper case. *)
Definition alphabet_ok (n : nat) : bool :=
  let c := ascii_of_nat n in
  negb (b32_alphabet c) || (solid c && Ascii.eqb (ascii_upper c) c).
Lemma alphabet_all : forallb alphabet_ok (seq 0 256) = true.
Proof. vm_compute. reflexivity. Qed.
Lemma alphabet_spec c : b32_alphabet c = true → solid c = true ∧ ascii_upper c = c.
Proof.
  intros Hc. pose proof (proj1 (forallb_forall _ _) alphabet_all (nat_of_ascii c)) as H.
  rewrite in_seq in H. specialize (H ltac:(pose proof (nat_ascii_bounded c); lia)). unfold alphabet_ok in H.
  rewrite ascii_nat_embedding, Hc in H. cbn [negb orb] in H. apply andb_true_iff in H as [? H].
  by apply Ascii.eqb_eq in H.
Qed.

Abbreviation in_alphabet l := (Forall (fun c => b32_alphabet c = true) l).

Lemma canonical_app l t : in_alphabet l → canonical_chars (l ++ t) = l ++ canonical_chars t.
Proof.
  induction 1 as [|c l Hc _ IH]; [done|]. cbn [app canonical_chars].
  destruct (alphabet_spec c Hc) as [_ Hu]. by rewrite Hu, Hc, IH.
Qed.

Lemma canonical_dash t : canonical_chars ("-"%char :: t) = canonical_chars t.
Proof. by destruct t. Qed.

Lemma canonical_id s : in_alphabet (list_ascii_of_string s) → canonicalRecovery s = s.
Proof.
  intros Hs. unfold canonicalRecovery. rewrite <- (app_nil_r (list_ascii_of_string s)), canonical_app by done.
  by rewrite app_nil_r, string_of_list_ascii_of_string.
Qed.

Lemma Forall_take_drop (P : ascii → Prop) n s : Forall P (list_ascii_of_string s) →
  Forall P (list_ascii_of_string (str_take n s)) ∧ Forall P (list_ascii_of_string (str_drop n s)).
Proof. intros H. rewrite <- (str_take_drop n s), chars_app in H. by apply Forall_app in H. Qed.

Lemma canonical_group_from fuel s : (String.length s ≤ fuel)%nat → in_alphabet (list_ascii_of_string s) →
  canonical_chars (list_ascii_of_string (group_from fuel s)) = list_ascii_of_string s.
Proof.
  revert s. induction fuel as [|f IH]; intros s Hf Hs; [destruct s; [done|cbn in Hf; lia]|].
  destruct s as [|c s]; [done|]. cbn [group_from]. set (r := String c s) in *.
  destruct (Forall_take_drop _ recoveryGroupSize r Hs) as [Ht Hd].
  rewrite !chars_app. change (list_ascii_of_string "-") with ["-"%char].
  cbn [app]. rewrite canonical_dash, canonical_app, IH by
    (done || (rewrite str_drop_length; unfold recoveryGroupSize; lia)).
  by rewrite <- chars_app, str_take_drop.
Qed.

(** Grouping is undone by reading a phrase back. *)
Lemma canonical_group s : in_alphabet (list_ascii_of_string s) → canonicalRecovery (groupRecovery s) = s.
Proof.
  intros Hs. unfold canonicalRecovery, groupRecovery. destruct (Forall_take_drop _ recoveryGroupSize s Hs) as [Ht Hd].
  rewrite chars_app, canonical_app, canonical_group_from by (done || (rewrite str_drop_length; lia)).
  by rewrite <- chars_app, str_take_drop, string_of_list_ascii_of_string.
Qed.

Lemma group_from_solid fuel s : solid_str s → solid_str (group_from fuel s).
Proof.
  revert s. induction fuel as [|f IH]; intros s Hs; [constructor|]. destruct s as [|c s]; [constructor|].
  cbn [group_from]. destruct (Forall_take_drop _ recoveryGroupSize _ Hs) as [Ht Hd]. rewrite !chars_app.
  apply Forall_app; split; [by repeat constructor|]. apply Forall_app; split; [done|by apply IH].
Qed.

Lemma group_solid s : solid_str s → solid_str (groupRecovery s).
Proof.
  intros Hs. unfold groupRecovery. destruct (Forall_take_drop _ recoveryGroupSize _ Hs). rewrite chars_app.
  apply Forall_app; split; [done|by apply group_from_solid].
Qed.

Lemma encode_solid raw : solid_str (b32_encode raw).
Proof. eapply Forall_impl; [apply b32_encode_alphabet|]. intros c Hc. by apply alphabet_spec. Qed.

(** ** Both forms lead back to the secret *)

Section phrase.
Context `{GoUnicode}.

(** One field is never word-shaped. *)
Lemma single_field_base32 s : solid_str s → canonicalRecoverySecret s = Ok (canonicalRecovery s).
Proof.
  intros Hs. unfold canonicalRecoverySecret. destruct (decide (s = "")) as [->|Hn]; [done|].
  by rewrite fields_solid.
Qed.

Lemma letters_solid w : forallb lower_letter (list_ascii_of_string w) = true → solid_str w.
Proof.
  rewrite forallb_forall. intros Hw. apply List.Forall_forall. intros c Hc. specialize (Hw c Hc).
  unfold lower_letter, solid in *. apply andb_true_iff in Hw as [H1%Z.leb_le H2%Z.leb_le].
  apply andb_true_iff. split; apply Z.leb_le; lia.
Qed.

Lemma plain_word_solid w : plain_word w = true → solid_str w ∧ w ≠ "" ∧ to_lower w = w.
Proof.
  unfold plain_word. rewrite !andb_true_iff. intros [[[[Hn Hs] Ht] Ha] Hl]. split; [by apply letters_solid|].
  split; [by apply negb_true_iff, String.eqb_neq in Hn|]. apply String.eqb_eq in Hl. by rewrite to_lower_ascii.
Qed.

Lemma encoded_listed secret w : In w (EncodeRecoveryWords secret) →
  plain_word w = true ∧ is_Some (recoveryWordIndex !! w).
Proof.
  rewrite encode_indices. intros (x & <- & Hx)%in_map_iff.
  pose proof (proj1 (List.Forall_forall _ _) (indices_bound _) x Hx) as Hb. cbv beta in Hb.
  pose proof (wordlist_lookup x Hb) as Hl. split; [by eapply listed_plain|].
  exists x. by apply index_spec.
Qed.

Lemma filter_all {A} (p : A → bool) l : (∀ x, In x l → p x = true) → List.filter p l = l.
Proof. induction l as [|x l IH]; intros Hp; [done|]. cbn. rewrite (Hp x) by (by left).
  rewrite IH; [done|]. intros y Hy. apply Hp. by right. Qed.

Lemma encoded_solid secret : Forall (fun w => solid_str w ∧ w ≠ "") (EncodeRecoveryWords secret).
Proof.
  apply List.Forall_forall. intros w [Hp _]%encoded_listed. destruct (plain_word_solid w Hp) as (? & ? & _).
  split; assumption.
Qed.

(** The membership test of the routing. *)
Definition listed (t : string) : bool := bool_decide (is_Some (recoveryWordIndex !! to_lower t)).
Lemma encoded_all_listed secret : List.filter listed (EncodeRecoveryWords secret) = EncodeRecoveryWords secret.
Proof.
  apply filter_all. intros w [Hp Hi]%encoded_listed. destruct (plain_word_solid w Hp) as (_ & _ & Hl).
  unfold listed. rewrite Hl. apply bool_decide_eq_true_2, Hi.
Qed.

(** What 24 fields with a majority of list words do. *)
Lemma word_shaped ws : Forall (fun w => solid_str w ∧ w ≠ "") ws → length ws = recoveryWordCount →
  (12 < length (List.filter listed ws))%nat →
  canonicalRecoverySecret (String.concat " " ws) = (secret ← DecodeRecoveryWords ws; Ok (b32_encode secret)).
Proof.
  intros Hs Hl Hf. unfold canonicalRecoverySecret. rewrite fields_join by exact Hs. fold listed. rewrite Hl.
  unfold recoveryWordCount. rewrite (proj2 (Nat.ltb_lt 24 _)) by lia. reflexivity.
Qed.

(** The words of a secret, in one line, are word-shaped and decode to it. *)
Lemma words_canonical secret : length secret = recoveryEntropyBytes →
  canonicalRecoverySecret (String.concat " " (EncodeRecoveryWords secret)) = Ok (b32_encode secret).
Proof.
  intros Hs. rewrite word_shaped.
  - rewrite (proj2 (decode_iff_encoded _ secret Hs) (encoded_normalise secret)). reflexivity.
  - apply encoded_solid.
  - apply encoded_length.
  - rewrite encoded_all_listed, encoded_length. unfold recoveryWordCount. lia.
Qed.

(** Both printed forms of a minted recovery secret redeem to the one string the
    wrap key is derived from: reading back the grouped base32 phrase gives it, the
    phrase has a word form of 24 words, reading back those words in one line gives
    it too, and each form passes the read-back check against the phrase. *)
Theorem minted_forms_agree raw : length raw = recoveryEntropyBytes →
  let secret := b32_encode raw in let phrase := groupRecovery secret in
  canonicalRecoverySecret phrase = Ok secret ∧
  RecoveryPhraseWords phrase = Ok (EncodeRecoveryWords raw) ∧
  length (EncodeRecoveryWords raw) = recoveryWordCount ∧
  canonicalRecoverySecret (String.concat " " (EncodeRecoveryWords raw)) = Ok secret ∧
  RecoveryPhraseMatches phrase phrase = true ∧
  RecoveryPhraseMatches phrase (String.concat " " (EncodeRecoveryWords raw)) = true.
Proof.
  intros Hr secret phrase.
  assert (Hg : canonicalRecovery phrase = secret) by apply canonical_group, b32_encode_alphabet.
  assert (H1 : canonicalRecoverySecret phrase = Ok secret).
  { rewrite single_field_base32, Hg; [done|]. apply group_solid, encode_solid. }
  pose proof (words_canonical raw Hr) as H2. fold secret in H2.
  assert (Hne : String.eqb secret "" = false).
  { apply String.eqb_neq. intros E. pose proof (b32_round_trip raw) as Hd. fold secret in Hd. rewrite E in Hd.
    injection Hd as <-. done. }
  split; [done|]. split; [|split; [apply encoded_length|split; [done|]]].
  - unfold RecoveryPhraseWords. rewrite Hg. unfold secret at 1. rewrite b32_round_trip, Hr, Nat.eqb_refl. cbn [negb].
    by rewrite String.eqb_refl.
  - unfold RecoveryPhraseMatches, RecoveryPhraseCheck. rewrite H1, H2, Hg. rewrite Hne, String.eqb_refl. split; reflexivity.
Qed.

Lemma filter_insert {A} (p : A → bool) l i x y : l !! i = Some y →
  (length (List.filter p l) ≤ S (length (List.filter p (<[i := x]> l))))%nat.
Proof.
  revert i. induction l as [|z l IH]; intros [|i]; [done..| |].
  - intros [= ->]. cbn. destruct (p y), (p x); cbn; lia.
  - intros Hi. change (<[S i := x]> (z :: l)) with (z :: <[i := x]> l). specialize (IH i Hi).
    cbn [List.filter]. destruct (p z); cbn [length]; lia.
Qed.

Lemma unknown_word i w l : l !! i = Some w → recoveryWordIndex !! normalise w = None →
  mapM (λ w, recoveryWordIndex !! w) (map normalise l) = None.
Proof.
  intros Hi Hw. destruct (mapM _ _) as [r|] eqn:Hm; [exfalso|reflexivity]. apply mapM_Some_1 in Hm.
  eapply Forall2_lookup_l with (i := i) in Hm as (x & _ & Hsome); [|rewrite list_lookup_fmap, Hi; reflexivity].
  congruence.
Qed.

(** A mistyped word is reported as a word: if one of the 24 words of a phrase is
    replaced by one that is not in the list, redeeming it fails with the unknown-word
    error.  It is never taken for a base32 phrase, which would strip it to a wrong
    secret. *)
Theorem mistyped_word_reported raw i w : length raw = recoveryEntropyBytes → (i < recoveryWordCount)%nat →
  solid_str w → w ≠ "" → recoveryWordIndex !! to_lower w = None → recoveryWordIndex !! normalise w = None →
  canonicalRecoverySecret (String.concat " " (<[i := w]> (EncodeRecoveryWords raw))) =
  Err (ESentinel "ErrRecoveryWordUnknown").
Proof.
  intros Hr Hi Hw Hn Hx Hy. set (ws := EncodeRecoveryWords raw). set (l := <[i := w]> ws).
  assert (Hl : length l = recoveryWordCount) by (unfold l; by rewrite length_insert; apply encoded_length).
  destruct (lookup_lt_is_Some_2 ws i) as [w0 Hw0]; [unfold ws; by rewrite encoded_length|].
  pose proof (filter_insert listed ws i w w0 Hw0) as Hf. fold l in Hf.
  unfold ws in Hf at 1. rewrite encoded_all_listed, encoded_length in Hf. unfold recoveryWordCount in Hf.
  rewrite word_shaped; [|unfold l; apply Forall_insert; [apply encoded_solid|split; assumption]|exact Hl|lia].
  rewrite decode_run by exact Hl. rewrite (unknown_word i w l); [reflexivity| |exact Hy].
  unfold l. apply list_lookup_insert_eq. eapply lookup_lt_Some, Hw0.
Qed.
End phrase.

(** ** A golden vector, as the program's tests have it *)

Definition zero_secret : bytes := repeat Byte.x00 32.
Example golden_words : EncodeRecoveryWords zero_secret = repeat "abandon" 23 ++ ["art"].
Proof. vm_compute. reflexivity. Qed.

Lemma minted_forms_agree_witness :
  let _ := demo_unicode in
  length zero_secret = recoveryEntropyBytes ∧
  canonicalRecoverySecret (String.concat " " (EncodeRecoveryWords zero_secret)) = Ok (b32_encode zero_secret).
Proof. intros u. split; [reflexivity|]. apply (minted_forms_agree zero_secret). reflexivity. Defined.

Lemma mistyped_word_reported_witness :
  let _ := demo_unicode in
  canonicalRecoverySecret (String.concat " " (<[3%nat := "abandom"]> (EncodeRecoveryWords zero_secret))) =
  Err (ESentinel "ErrRecoveryWordUnknown").
Proof.
  intros u. apply (mistyped_word_reported zero_secret 3 "abandom"); try reflexivity; try done.
  - unfold recoveryWordCount. lia.
  - repeat constructor.
Defined.
