(* ===== verification/AnchorFacts.v ===== *)
(** What the configuration gate guarantees: the tag binds every field, a replayed,
    stripped or divergent configuration is refused, and the configuration file
    changes in one step. *)
From S2P Require Export Anchor StoreFacts GoPathFacts Fields.
Local Open Scope Z_scope.
Local Open Scope seavault_scope.

(** ** The tag *)

Section tag.
Context `{JV : JSON VaultConfig} `{!CompactJSON VaultConfig}.

Lemma canonical_set_tag c t : canonicalConfigBytes (set_ConfigTag c t) = canonicalConfigBytes c.
Proof. done. Qed.

Lemma computed_tag_nonempty master c : computeConfigTag master c ≠ "".
Proof.
  unfold computeConfigTag. pose proof (hmac_length (configMACKey master) (canonicalConfigBytes c)) as Hl.
  destruct (hmac_sha256 _ _) as [|b0 [|b1 [|b2 l]]]; [done|discriminate..].
Qed.

(** A freshly tagged configuration verifies. *)
Lemma verify_tagged master c : verifyConfigTag master (set_ConfigTag c (computeConfigTag master c)) = true.
Proof.
  unfold verifyConfigTag. cbn [ConfigTag set_ConfigTag].
  rewrite (proj2 (String.eqb_neq _ _) (computed_tag_nonempty master c)).
  unfold computeConfigTag. rewrite canonical_set_tag. apply String.eqb_refl.
Qed.

Lemma compact_inj a b : json_ok a → json_ok b → compact a = compact b → a = b.
Proof.
  intros Ha Hb E. pose proof (unmarshal_compact a Ha) as H1. rewrite E, unmarshal_compact in H1 by done. by injection H1.
Qed.

Lemma verified_tag master c : verifyConfigTag master c = true → ConfigTag c = computeConfigTag master c.
Proof.
  unfold verifyConfigTag. destruct (String.eqb (ConfigTag c) ""); [done|]. by intros H%String.eqb_eq.
Qed.

Lemma same_but_tag c1 c2 : set_ConfigTag c1 "" = set_ConfigTag c2 "" → ConfigTag c1 = ConfigTag c2 → c1 = c2.
Proof. destruct c1, c2. cbn. intros [= -> -> -> -> -> -> -> -> -> -> ->] ->. done. Qed.

(** C17. The tag binds the whole configuration: two configurations that carry the
    same tag and both verify under one master key are equal in every field, or their
    own canonical bytes differ and have the same HMAC-SHA256 under the key of the tag.
    (Without the tag, both are configurations that JSON reads back.) *)
Theorem tag_binds_config master c1 c2 :
  json_ok (set_ConfigTag c1 "") → json_ok (set_ConfigTag c2 "") →
  verifyConfigTag master c1 = true → verifyConfigTag master c2 = true → ConfigTag c1 = ConfigTag c2 →
  c1 = c2 ∨
  canonicalConfigBytes c1 ≠ canonicalConfigBytes c2 ∧
  hmac_sha256 (configMACKey master) (canonicalConfigBytes c1) = hmac_sha256 (configMACKey master) (canonicalConfigBytes c2).
Proof.
  intros J1 J2 V1%verified_tag V2%verified_tag E.
  destruct (decide (canonicalConfigBytes c1 = canonicalConfigBytes c2)) as [Hc|Hc].
  - left. apply same_but_tag; [by apply compact_inj|done].
  - right. split; [done|].
    rewrite V1, V2 in E. unfold computeConfigTag in E. apply (f_equal b64_decode) in E.
    rewrite !b64_decode_encode in E. apply (inj Some) in E. exact E.
Qed.
End tag.

(** ** The anchor *)

Section anchor.
Context `{Platform} `{Env} `{JA : JSON freshnessAnchor}.

(** No failing call claims that a file is missing. *)
Definition honest : Prop := ∀ i e, env_fault i = Some e → not_exist e = false.

(** The anchor a disk holds for a vault. *)
Definition anchor_of (fs : files) (v : Vault) : option freshnessAnchor :=
  match anchorPath v with
  | Ok p => f ← fs !! p; unmarshal (f_data f)
  | Err _ => None
  end.

(** Reading the anchor: the disk is left alone, and the answer is the disk's, or an
    error. *)
Lemma loadAnchor_run p s s' r : honest → loadAnchor p s = (s', r) →
  st_files s' = st_files s ∧
  match r with
  | Ok ce => ce = match (f ← st_files s !! p; unmarshal (f_data f)) with
                  | Some a => (a, true) | None => (zero_anchor, false) end
  | Err _ => True
  end.
Proof.
  intros Hh. unfold loadAnchor. rewrite bind_run, try_run. unfold os_ReadFile, query, syscall.
  destruct (env_fault (st_tick s)) as [e|] eqn:Hf.
  - cbn [fst snd]. rewrite (Hh _ _ Hf). by intros [= <- <-].
  - cbn [fst snd]. destruct (st_files s !! p) as [f|].
    + cbn [mbind option_bind]. destruct (unmarshal (f_data f)); by intros [= <- <-].
    + cbn. by intros [= <- <-].
Qed.

(** The gate, as a function of the configuration and of what the device remembers:
    the specification of [checkConfigIntegrity]. *)
Definition gate `{JV : JSON VaultConfig} `{!CompactJSON VaultConfig}
    (master : bytes) (cfg : VaultConfig) (anc : option freshnessAnchor) (opts : OpenOptions) : option err :=
  if String.eqb (ConfigTag cfg) "" then
    match anc with Some a => if an_HasTag a then Some ErrConfigTampered else None | None => None end
  else if negb (verifyConfigTag master cfg) then Some ErrConfigTampered
  else
    match anc with
    | None => None
    | Some a =>
        if FormatEpoch cfg <? an_FormatEpoch a then if AcceptRollback opts then None else Some ErrConfigRolledBack
        else if (FormatEpoch cfg =? an_FormatEpoch a) && negb (String.eqb (an_ConfigTag a) "") &&
                negb (String.eqb (ConfigTag cfg) (an_ConfigTag a)) then Some ErrConfigDiverged
        else None
    end.

Lemma never_fails_bind {A B} (m : M A) (f : A → B) s s' e : (∀ s, is_ok (m s).2 = true) →
  (x ← m; mret (f x)) s = (s', Err e) → False.
Proof. intros Hm. rewrite bind_run. specialize (Hm s). by destruct (m s) as [s1 [a|e']]. Qed.

Lemma recordAnchor_ok v epoch ht tag s : is_ok (recordAnchor v epoch ht tag s).2 = true.
Proof.
  unfold recordAnchor. destruct (anchorPath v); [|done]. rewrite bind_run, try_run.
  destruct (loadAnchor a s).2 as [[c ex]|]; cbv zeta; destruct (_ && _); done || (rewrite bind_run, try_run; done).
Qed.
Lemma clearAnchor_ok v s : is_ok (clearAnchor v s).2 = true.
Proof. unfold clearAnchor. destruct (anchorPath v); [|done]. by rewrite bind_run, try_run. Qed.

Context `{JV : JSON VaultConfig} `{!CompactJSON VaultConfig}.

(** The gate's specification and its code, run by run. *)
Lemma checkConfigIntegrity_run h opts s s' r :
  honest → checkConfigIntegrity h opts s = (s', r) →
  let v := h_vault h in
  let verdict := gate (MasterKey (v_keys v)) (v_Config v) (anchor_of (st_files s) v) opts in
  match r with
  | Err e => verdict = Some e
  | Ok note => (verdict = None ∨ note = anchorUnavailableNote) ∧
               (ConfigTag (v_Config v) ≠ "" → verifyConfigTag (MasterKey (v_keys v)) (v_Config v) = true)
  end.
Proof.
  intros Hh Hrun v verdict. unfold checkConfigIntegrity in Hrun. fold v in Hrun. unfold verdict, gate.
  destruct (String.eqb_spec (ConfigTag (v_Config v)) "") as [Ht|Ht]; cbn [negb] in Hrun.
  - unfold anchor_of. destruct (anchorPath v) as [p|]; [|injection Hrun as <- <-; auto].
    rewrite bind_run, try_run in Hrun. destruct (loadAnchor p s) as [s1 r1] eqn:Hl.
    apply loadAnchor_run in Hl as [_ Hl]; [|done]. cbn [fst snd] in Hrun.
    destruct r1 as [ce|e1]; [subst ce|injection Hrun as <- <-; auto].
    destruct (f ← st_files s !! p; unmarshal (f_data f)) as [a|]; cbn [andb] in Hrun.
    + destruct (an_HasTag a); injection Hrun as <- <-; auto.
    + injection Hrun as <- <-; auto.
  - destruct (verifyConfigTag _ _) eqn:Hv; cbn [negb] in *; [|by injection Hrun as <- <-].
    unfold checkFreshness in Hrun. fold v in Hrun. unfold anchor_of.
    destruct (anchorPath v) as [p|] eqn:Hp; [|injection Hrun as <- <-; auto].
    rewrite bind_run, try_run in Hrun. destruct (loadAnchor p s) as [s1 r1] eqn:Hl.
    apply loadAnchor_run in Hl as [_ Hl]; [|done]. cbn [fst snd] in Hrun.
    destruct r1 as [ce|e1]; [subst ce|injection Hrun as <- <-; auto].
    assert (Hend : ∀ (m : M string) s2 r2, (∀ s, is_ok (m s).2 = true) →
      (note ← m; n ← recordAnchor v (FormatEpoch (v_Config v)) true (ConfigTag (v_Config v)); mret (note_or n note)) s1
        = (s2, r2) → is_ok r2 = true).
    { intros m s2 r2 Hm Hr. rewrite bind_run in Hr. specialize (Hm s1). destruct (m s1) as [s3 [n3|]]; [|done].
      destruct r2; [done|]. exfalso. eapply never_fails_bind; [|exact Hr]. intros. apply recordAnchor_ok. }
    destruct (f ← st_files s !! p; unmarshal (f_data f)) as [a|]; cbn [andb] in Hrun.
    + unfold constantTimeStringEqual in Hrun.
      destruct (FormatEpoch (v_Config v) <? an_FormatEpoch a).
      * destruct (AcceptRollback opts); [|by rewrite bind_run in Hrun; injection Hrun as <- <-].
        apply Hend in Hrun; [destruct r; [auto|done]|]. intros s0. rewrite bind_run.
        pose proof (clearAnchor_ok v s0) as Hc. by destruct (clearAnchor v s0) as [? []].
      * destruct (_ && _ && _); [by rewrite bind_run in Hrun; injection Hrun as <- <-|].
        apply Hend in Hrun; [destruct r; [auto|done]|done].
    + apply Hend in Hrun; [destruct r; [auto|done]|done].
Qed.

(** ** Where the anchor is *)

Definition anchor_name (v : Vault) : string := anchorID v +:+ ".json".

Lemma anchor_name_shape v : ∃ c t, anchor_name v = String c t ∧ c ≠ dot.
Proof.
  unfold anchor_name, anchorID, hmacHex. pose proof (hmac_length (MasterKey (v_keys v)) (bytes_of anchorInfo)) as Hl.
  destruct (hmac_sha256 _ _) as [|b l]; [done|]. eexists _, _. split; [reflexivity|]. apply hex_head.
Qed.

Lemma anchor_name_plain v : plain_seg (anchor_name v).
Proof.
  destruct (anchor_name_shape v) as (c & t & E & Hc). rewrite E. split; [done|].
  split; [|split]; [intros [= -> ->]; by apply Hc..|]. rewrite <- E. unfold anchor_name.
  rewrite no_slash_app. unfold anchorID. by rewrite no_slash_take by apply hex_no_slash.
Qed.

Lemma ok_inj {A} (a b : A) : Ok a = Ok b → a = b.
Proof. by intros [= ->]. Qed.

(** The anchor's file name; it is no temporary name and not the configuration's. *)
Lemma anchorPath_base v p : anchorPath v = Ok p →
  p ≠ [] ∧ base_of p = anchor_name v ∧ has_prefix (base_of p) ".tmp-" = false ∧ base_of p ≠ ConfigFileName.
Proof.
  unfold anchorPath, anchorStorePath. destruct DataDir as [base|]; [|done].
  cbv beta iota delta [mbind result_bind mret result_ret]. intros Hp%ok_inj. rewrite <- Hp. fold (anchor_name v).
  assert (Hb : base_of (os_segs (path_join [base; "vault-anchors"; anchor_name v])) = anchor_name v)
    by (apply path_join3_last; [done|apply anchor_name_plain]).
  rewrite Hb. split; [apply split_slash_nonnil|]. split; [done|]. split.
  - destruct (anchor_name_shape v) as (c & t & -> & Hc). apply not_true_is_false. by intros ->%has_prefix_head.
  - intros E. apply (f_equal String.length) in E. unfold anchor_name, anchorID in E.
    rewrite str_length_app, str_take_length in E; [done|]. unfold hmacHex. rewrite hex_encode_length, hmac_length. lia.
Qed.

(** ** What recording leaves on the disk *)

Lemma recordAnchor_run v epoch ht tag s s' note : honest → recordAnchor v epoch ht tag s = (s', Ok note) →
  note = "" →
  (∀ a, anchor_of (st_files s) v = Some a ∨ a = zero_anchor → json_ok (next_anchor a epoch ht tag)) →
  ∃ cur, anchor_of (st_files s') v = Some (next_anchor cur epoch ht tag) ∧
         (anchor_of (st_files s) v = Some cur ∨ cur = zero_anchor).
Proof.
  intros Hh Hrun -> Hj. unfold recordAnchor in Hrun. unfold anchor_of.
  destruct (anchorPath v) as [p|] eqn:Hp; [|done]. destruct (anchorPath_base v p Hp) as (Hne & _ & Htmp & _).
  rewrite bind_run, try_run in Hrun. destruct (loadAnchor p s) as [s1 r1] eqn:Hl.
  apply loadAnchor_run in Hl as [Hfs Hl]; [|done]. cbn [fst snd] in Hrun.
  set (cur := match r1 with Ok ce => ce.1 | Err _ => zero_anchor end).
  set (ex := match r1 with Ok ce => ce.2 | Err _ => false end).
  replace (match r1 with Ok ce => ce | Err _ => (zero_anchor, false) end) with (cur, ex) in Hrun
    by (unfold cur, ex; by destruct r1 as [[]|]). cbv beta iota zeta in Hrun.
  assert (Hcur : (f ← st_files s !! p; unmarshal (f_data f)) = Some cur ∨ cur = zero_anchor).
  { unfold cur. destruct r1 as [ce|]; [subst ce|by right]. destruct (f ← _; _); [by left|by right]. }
  exists cur. split; [|exact Hcur]. destruct (ex && bool_decide (next_anchor cur epoch ht tag = cur)) eqn:Hsame.
  - injection Hrun as <-. rewrite Hfs. apply andb_true_iff in Hsame as [Hex Hn]. apply bool_decide_eq_true in Hn. rewrite Hn.
    unfold ex, cur in *. destruct r1 as [ce|]; [subst ce|done]. by destruct (f ← _; _).
  - rewrite bind_run, try_run in Hrun. unfold saveAnchor in Hrun.
    destruct (atomicWriteFile p _ s1) as [s2 w] eqn:Hw. cbn [fst snd] in Hrun.
    destruct w as [u|e]; [|done]. injection Hrun as <-. destruct u.
    destruct (atomicWriteFile_run p _ s1 s2 _ Hne Htmp Hw) as (_ & _ & _ & _ & _ & Hok).
    destruct (Hok eq_refl) as [[t Ht] _]. rewrite Ht. cbn [mbind option_bind f_data]. apply unmarshal_marshal, Hj.
    unfold anchor_of. by rewrite Hp.
Qed.

(** The high-water mark and the tag bit never go back. *)
Lemma next_anchor_monotone cur epoch ht tag :
  an_FormatEpoch cur ≤ an_FormatEpoch (next_anchor cur epoch ht tag) ∧
  epoch ≤ an_FormatEpoch (next_anchor cur epoch ht tag) ∧
  (an_HasTag cur = true → an_HasTag (next_anchor cur epoch ht tag) = true) ∧
  (ht = true → an_HasTag (next_anchor cur epoch ht tag) = true).
Proof.
  unfold next_anchor. destruct (Z.ltb_spec (an_FormatEpoch cur) epoch) as [Hlt|Hge].
  - destruct ht; cbn; repeat split; (lia || done || auto).
  - destruct (_ && _ && _); destruct ht; cbn; repeat split; (lia || done || auto).
Qed.
(** C15. The open gate implements its specification, whatever calls fail: it refuses
    exactly when the gate refuses and with the same error, and when it opens either
    the gate allows it or the anchor was unreachable, which the note says; in no
    case does a present tag that does not verify pass. *)
Theorem checkConfigIntegrity_refines h opts s s' r :
  honest → checkConfigIntegrity h opts s = (s', r) →
  let v := h_vault h in
  let verdict := gate (MasterKey (v_keys v)) (v_Config v) (anchor_of (st_files s) v) opts in
  match r with
  | Err e => verdict = Some e
  | Ok note => (verdict = None ∨ note = anchorUnavailableNote) ∧
               (ConfigTag (v_Config v) ≠ "" → verifyConfigTag (MasterKey (v_keys v)) (v_Config v) = true)
  end.
Proof. apply checkConfigIntegrity_run. Qed.

Lemma anchor_of_keys fs v v' : v_keys v = v_keys v' → anchor_of fs v = anchor_of fs v'.
Proof. intros E. unfold anchor_of, anchorPath, anchorID. by rewrite E. Qed.

Lemma clearAnchor_run v s s' : honest → clearAnchor v s = (s', Ok "") → anchor_of (st_files s') v = None.
Proof.
  intros Hh Hrun. unfold clearAnchor in Hrun. unfold anchor_of. destruct (anchorPath v) as [p|]; [|done].
  rewrite bind_run, try_run in Hrun. unfold os_Remove, syscall in Hrun.
  destruct (env_fault (st_tick s)) as [e|] eqn:Hf; cbn [fst snd] in Hrun.
  - by rewrite (Hh _ _ Hf) in Hrun.
  - destruct (st_files s !! p) as [f|] eqn:Hp; cbn [fst snd] in Hrun; injection Hrun as <-; cbn [st_files tick1 set_files].
    + by rewrite lookup_delete_eq.
    + by rewrite Hp.
Qed.

Lemma note_or_empty n old : note_or n old = "" → n = "" ∧ old = "".
Proof. unfold note_or. destruct (String.eqb_spec n ""); [done|]. by intros ->. Qed.

(** An accepted configuration that is not older than the anchor becomes the anchor. *)
Lemma record_current epoch tag a : 0 ≤ epoch → tag ≠ "" →
  (a = zero_anchor ∨ (an_FormatEpoch a ≤ epoch ∧
    (an_FormatEpoch a = epoch → an_ConfigTag a = "" ∨ an_ConfigTag a = tag))) →
  next_anchor a epoch true tag = mkAnchor epoch true tag.
Proof.
  intros He Ht Ha. unfold next_anchor. apply String.eqb_neq in Ht. rewrite Ht. cbn [negb].
  assert (Ha' : an_FormatEpoch a ≤ epoch ∧ (an_FormatEpoch a = epoch → an_ConfigTag a = "" ∨ an_ConfigTag a = tag)).
  { destruct Ha as [->|Ha]; [|done]. cbn. split; [lia|auto]. }
  clear Ha. destruct Ha' as [Hle Htie]. destruct (Z.ltb_spec (an_FormatEpoch a) epoch) as [|Hge]; [done|].
  assert (E : an_FormatEpoch a = epoch) by lia. rewrite E, Z.eqb_refl. cbn [andb].
  destruct (Htie E) as [->|Hat]; [done|]. rewrite Hat, Ht. cbn [andb an_FormatEpoch an_ConfigTag]. by rewrite E, Hat.
Qed.

(** A configuration that opened without a note is anchored as it is. *)
Lemma accepted_is_anchored h opts s s' :
  let v := h_vault h in let c := v_Config v in
  honest → ConfigTag c ≠ "" → 0 ≤ FormatEpoch c → json_ok (mkAnchor (FormatEpoch c) true (ConfigTag c)) →
  checkConfigIntegrity h opts s = (s', Ok "") →
  anchor_of (st_files s') v = Some (mkAnchor (FormatEpoch c) true (ConfigTag c)).
Proof.
  intros v c Hh Ht He Hj Hrun. unfold checkConfigIntegrity in Hrun. fold v c in Hrun.
  rewrite (proj2 (String.eqb_neq _ _) Ht) in Hrun. cbn [negb] in Hrun.
  destruct (verifyConfigTag _ c); [|done]. cbn [negb] in Hrun. unfold checkFreshness in Hrun. fold v c in Hrun.
  destruct (anchorPath v) as [p|] eqn:Hp; [|done].
  rewrite bind_run, try_run in Hrun. destruct (loadAnchor p s) as [s1 r1] eqn:Hl.
  apply loadAnchor_run in Hl as [Hfs Hl]; [|done]. cbn [fst snd] in Hrun. destruct r1 as [ce|e1]; [|done].
  assert (Hend : ∀ s2, (∀ a, anchor_of (st_files s2) v = Some a →
      an_FormatEpoch a ≤ FormatEpoch c ∧ (an_FormatEpoch a = FormatEpoch c → an_ConfigTag a = "" ∨ an_ConfigTag a = ConfigTag c)) →
    recordAnchor v (FormatEpoch c) true (ConfigTag c) s2 = (s', Ok "") →
    anchor_of (st_files s') v = Some (mkAnchor (FormatEpoch c) true (ConfigTag c))).
  { intros s2 Ha Hr. assert (Hn : ∀ a, anchor_of (st_files s2) v = Some a ∨ a = zero_anchor →
      next_anchor a (FormatEpoch c) true (ConfigTag c) = mkAnchor (FormatEpoch c) true (ConfigTag c)).
    { intros a [Hs|Hz]; apply record_current; auto. }
    apply recordAnchor_run in Hr as (cur & -> & Hcur); [by rewrite Hn|done|done|]. intros a Hs. by rewrite Hn. }
  assert (Hrec : ∀ s2 note, (n ← recordAnchor v (FormatEpoch c) true (ConfigTag c); mret (note_or n note)) s2 = (s', Ok "") →
    note = "" ∧ recordAnchor v (FormatEpoch c) true (ConfigTag c) s2 = (s', Ok "")).
  { intros s2 note Hr. rewrite bind_run in Hr. destruct (recordAnchor _ _ _ _ s2) as [s3 [n|]]; [|done].
    injection Hr as -> Hn. by apply note_or_empty in Hn as [-> ->]. }
  assert (Ha : anchor_of (st_files s1) v = (f ← st_files s !! p; unmarshal (f_data f))) by (unfold anchor_of; by rewrite Hp, Hfs).
  subst ce. destruct (f ← st_files s !! p; unmarshal (f_data f)) as [a|]; cbn [andb] in Hrun.
  - destruct (Z.ltb_spec (FormatEpoch c) (an_FormatEpoch a)) as [Hlt|Hge].
    + destruct (AcceptRollback opts); [|by rewrite bind_run in Hrun].
      rewrite bind_run, bind_run in Hrun. destruct (clearAnchor v s1) as [s2 [n|]] eqn:Hc; [|done].
      apply Hrec in Hrun as [Hn Hr]. apply note_or_empty in Hn as [-> _]. apply clearAnchor_run in Hc; [|done].
      apply (Hend s2); [by rewrite Hc|done].
    + destruct (_ && _ && _) eqn:Hdiv; [by rewrite bind_run in Hrun|]. rewrite bind_run in Hrun.
      apply Hrec in Hrun as [_ Hr]. apply (Hend s1); [|done]. rewrite Ha. intros a' [= <-]. split; [lia|]. intros E.
      rewrite E, Z.eqb_refl in Hdiv. cbn [andb] in Hdiv. apply andb_false_iff in Hdiv as [Hd|Hd]; apply negb_false_iff, String.eqb_eq in Hd; auto.
  - rewrite bind_run in Hrun. apply Hrec in Hrun as [_ Hr]. apply (Hend s1); [by rewrite Ha|done].
Qed.

(** A run whose verdict is a refusal. *)
Ltac by_verdict :=
  match goal with Hrun : match ?r with Ok _ => _ | Err _ => _ end |- _ =>
    destruct r as [n|e]; [destruct Hrun as [[?| ->] _]; [done|auto]|injection Hrun as <-; auto] end.

(** C16. Once a device has opened a tagged configuration (no note), a replay is
    refused there, as long as the anchor that open left is unchanged and the later open
    does not ask to accept a rollback: a configuration for the same keys whose tag was
    stripped, whose epoch is lower, or which ties it under another tag does not open,
    whatever calls fail while it tries (none of them reporting a missing file that is
    there), unless the anchor cannot be read, which the note says.  (The epoch of the
    first configuration is not negative, and its anchor is one JSON reads back.) *)
Theorem replay_refused h1 h2 opts1 opts2 s s1 s2 s3 r :
  let v1 := h_vault h1 in let c1 := v_Config v1 in let c2 := v_Config (h_vault h2) in
  honest → ConfigTag c1 ≠ "" → 0 ≤ FormatEpoch c1 → json_ok (mkAnchor (FormatEpoch c1) true (ConfigTag c1)) →
  checkConfigIntegrity h1 opts1 s = (s1, Ok "") →
  v_keys (h_vault h2) = v_keys v1 → anchor_of (st_files s2) v1 = anchor_of (st_files s1) v1 → AcceptRollback opts2 = false →
  ConfigTag c2 = "" ∨ FormatEpoch c2 < FormatEpoch c1 ∨ (FormatEpoch c2 = FormatEpoch c1 ∧ ConfigTag c2 ≠ ConfigTag c1) →
  checkConfigIntegrity h2 opts2 s2 = (s3, r) →
  r = Ok anchorUnavailableNote ∨
  r = Err ErrConfigTampered ∨ r = Err ErrConfigRolledBack ∨ r = Err ErrConfigDiverged.
Proof.
  intros v1 c1 c2 Hh Ht He Hj Hopen Hk Hsame Hacc Hbad Hrun.
  apply accepted_is_anchored in Hopen; [|done..]. fold v1 c1 in Hopen.
  apply checkConfigIntegrity_run in Hrun; [|done]. cbv zeta in Hrun.
  rewrite (anchor_of_keys _ (h_vault h2) v1 Hk), Hsame, Hopen in Hrun. fold c2 in Hrun. unfold gate in Hrun.
  cbn [an_HasTag an_FormatEpoch an_ConfigTag] in Hrun. rewrite Hacc in Hrun.
  destruct (String.eqb_spec (ConfigTag c2) "") as [E|Hne].
  { by_verdict. }
  destruct Hbad as [?|Hbad]; [done|].
  destruct (verifyConfigTag _ c2); cbn [negb] in Hrun.
  2:{ by_verdict. }
  destruct (Z.ltb_spec (FormatEpoch c2) (FormatEpoch c1)) as [Hlt|Hge].
  { by_verdict. }
  destruct Hbad as [?|[E Hd]]; [lia|]. rewrite E, Z.eqb_refl in Hrun.
  apply String.eqb_neq in Ht, Hd. rewrite Ht, Hd in Hrun. cbn [andb negb] in Hrun.
  by_verdict.
Qed.

(** ** Rewriting the configuration *)

Definition config_path (v : Vault) : fpath := v_MetaRoot v ++ [ConfigFileName].

(** The configuration a rewrite publishes. *)
Definition published (v : Vault) (next : VaultConfig) : VaultConfig :=
  let next := set_FormatEpoch next (FormatEpoch (v_Config v) +64 1) in
  set_ConfigTag next (computeConfigTag (MasterKey (v_keys v)) next).

Lemma published_tag v next : ConfigTag (published v next) ≠ "".
Proof. unfold published. cbv zeta. cbn [ConfigTag set_ConfigTag]. apply computed_tag_nonempty. Qed.
Lemma published_verifies v next : verifyConfigTag (MasterKey (v_keys v)) (published v next) = true.
Proof. unfold published. cbv zeta. apply verify_tagged. Qed.

Lemma verified_nonempty master c : verifyConfigTag master c = true → ConfigTag c ≠ "".
Proof. unfold verifyConfigTag. by destruct (String.eqb_spec (ConfigTag c) ""). Qed.

(** The anchored configuration itself passes. *)
Lemma gate_current master c opts : verifyConfigTag master c = true →
  gate master c (Some (mkAnchor (FormatEpoch c) true (ConfigTag c))) opts = None.
Proof.
  intros Hv. unfold gate. rewrite (proj2 (String.eqb_neq _ _) (verified_nonempty _ _ Hv)), Hv.
  cbn [negb an_FormatEpoch an_ConfigTag]. rewrite Z.ltb_irrefl, String.eqb_refl, andb_false_r. reflexivity.
Qed.

Lemma recordAnchor_frame v epoch ht tag v' :
  ∀ fs, preserves (agrees (fun q => q = config_path v') fs) (recordAnchor v epoch ht tag).
Proof.
  intros fs. unfold recordAnchor. destruct (anchorPath v) as [p|] eqn:Hp; [|keep].
  destruct (anchorPath_base v p Hp) as (Hne & _ & Htmp & Hcfg).
  apply preserves_bind; [unfold loadAnchor, os_ReadFile|].
  { apply preserves_try, preserves_bind; [keep|]. intros [d|e]; [destruct (unmarshal d); keep|destruct (not_exist e); keep]. }
  intros r. destruct (match r with Ok ce => ce | Err _ => (zero_anchor, false) end) as [cur ex]. cbv zeta.
  destruct (_ && _); [keep|]. apply preserves_bind; [|keep].
  apply preserves_try, atomicWriteFile_agrees; [done|done| |].
  - intros ->. unfold config_path in Hcfg. by rewrite base_snoc in Hcfg.
  - intros name Hn E. unfold config_path in E. apply app_inj_tail in E as [_ ->]. done.
Qed.

Lemma publish_run h next s s' r :
  let v := h_vault h in
  publish h next s = (s', r) →
  (st_files s' !! config_path v = st_files s !! config_path v ∨
   ∃ t, st_files s' !! config_path v = Some (mkFile (marshal (published v next)) t)) ∧
  ∀ h', r = Ok h' → h_vault h' = set_Config v (published v next) ∧
    (∃ t, st_files s' !! config_path v = Some (mkFile (marshal (published v next)) t)).
Proof.
  intros v Hrun. unfold publish in Hrun. fold v in Hrun. cbv zeta in Hrun. fold (published v next) in Hrun.
  unfold writeConfigFile in Hrun. fold (config_path v) in Hrun. rewrite bind_run in Hrun.
  destruct (atomicWriteFile (config_path v) _ s) as [s1 w] eqn:Hw.
  apply atomicWriteFile_run in Hw as (_ & _ & _ & _ & Hone & Hok);
    [|unfold config_path; by destruct (v_MetaRoot v)|unfold config_path; by rewrite base_snoc].
  destruct w as [u|e]; [|injection Hrun as <- <-; split; [exact Hone|done]].
  destruct u. destruct (Hok eq_refl) as [[t Ht] _]. rewrite bind_run in Hrun.
  destruct (recordAnchor _ _ _ _ s1) as [s2 n] eqn:Hrec.
  pose proof (recordAnchor_frame (set_Config v (published v next)) (FormatEpoch (published v next)) true
    (ConfigTag (published v next)) v (st_files s1) s1 (agrees_refl _ _) (config_path v) eq_refl) as Hf.
  rewrite Hrec in Hf. cbn [fst] in Hf. destruct n as [n|e]; injection Hrun as <- <-; rewrite Hf.
  - split; [right; eauto|]. intros h' E. apply ok_inj in E. rewrite <- E. eauto.
  - split; [right; eauto|done].
Qed.

(** Writing the configuration leaves the anchor alone. *)
Lemma writeConfigFile_anchor v c s : anchor_of (st_files (writeConfigFile v c s).1) v = anchor_of (st_files s) v.
Proof.
  unfold anchor_of. destruct (anchorPath v) as [p|] eqn:Hp; [|done]. destruct (anchorPath_base v p Hp) as (Hne & _ & Htmp & Hcfg).
  unfold writeConfigFile. fold (config_path v).
  rewrite (atomicWriteFile_agrees (fun q => q = p) (st_files s) (config_path v) (marshal c)); [done|..|apply agrees_refl|done].
  - unfold config_path. by destruct (v_MetaRoot v).
  - unfold config_path. by rewrite base_snoc.
  - intros <-. unfold config_path in Hcfg. by rewrite base_snoc in Hcfg.
  - intros name Hn <-. unfold config_path in Htmp. rewrite dir_snoc, base_snoc in Htmp. congruence.
Qed.

(** A rewrite of the configuration takes effect in one step: whatever calls
    fail and wherever the run stops, vault.json holds what it held, or the whole of
    the mutated configuration with the epoch bumped and a tag that verifies; a
    success means the latter, and the vault in memory is the one on disk. *)
Theorem rewriteConfig_atomic h mutate s s' r :
  let v := h_vault h in let old := st_files s !! config_path v in let new := st_files s' !! config_path v in
  (∀ c fs, preserves (agrees (fun q => q = config_path v) fs) (mutate c)) →
  rewriteConfig h mutate s = (s', r) →
  (new = old ∨ ∃ sm next t, mutate (v_Config v) s = (sm, Ok next) ∧ new = Some (mkFile (marshal (published v next)) t)) ∧
  ∀ h', r = Ok h' → ∃ sm next t, mutate (v_Config v) s = (sm, Ok next) ∧
    new = Some (mkFile (marshal (published v next)) t) ∧ h_vault h' = set_Config v (published v next) ∧
    verifyConfigTag (MasterKey (v_keys v)) (published v next) = true.
Proof.
  intros v old new Hm Hrun. unfold rewriteConfig in Hrun. fold v in Hrun. rewrite bind_run in Hrun.
  pose proof (Hm (v_Config v) (st_files s) s (agrees_refl _ _) (config_path v) eq_refl) as Hkeep.
  destruct (mutate (v_Config v) s) as [sm [next|e]] eqn:Em; cbn [fst] in Hkeep.
  2:{ injection Hrun as <- <-. split; [left; exact Hkeep|done]. }
  apply publish_run in Hrun as [Hone Hok]. fold v in Hone, Hok. unfold new, old. split.
  - destruct Hone as [E|[t Ht]]; [left; by rewrite E|right; eauto].
  - intros h' Hr. destruct (Hok h' Hr) as (Hv & t & Ht). exists sm, next, t. split; [done|]. split; [done|].
    split; [done|]. apply published_verifies.
Qed.

(** A rewrite never locks its device out: when the vault's configuration was
    not older than the device's anchor and the rewrite and its anchor were both
    written, opening the new configuration on this device is not refused, whatever
    calls fail during that open. *)
Theorem rewrite_then_open h mutate s s' s'' h' opts r :
  let v := h_vault h in let c := v_Config v in
  honest → (∀ c, preserves (agrees (fun _ => True) (st_files s)) (mutate c)) →
  0 ≤ FormatEpoch c < int64_max → (∀ a, anchor_of (st_files s) v = Some a → an_FormatEpoch a ≤ FormatEpoch c) →
  (∀ tag, json_ok (mkAnchor (FormatEpoch c + 1) true tag)) →
  h_anchorNote h = "" → rewriteConfig h mutate s = (s', Ok h') → h_anchorNote h' = "" →
  checkConfigIntegrity h' opts s' = (s'', r) → is_ok r = true.
Proof.
  intros v c Hh Hm He Hanc Hj Hn0 Hrun Hn Hopen. unfold rewriteConfig in Hrun. fold v c in Hrun. rewrite bind_run in Hrun.
  pose proof (Hm c s (agrees_refl _ _)) as Hkeep.
  destruct (mutate c s) as [sm [next|e]]; [|done]. cbn [fst] in Hkeep. apply agrees_all in Hkeep.
  unfold publish in Hrun. fold v in Hrun. cbv zeta in Hrun. fold (published v next) in Hrun. rewrite bind_run in Hrun.
  assert (Hep : FormatEpoch (published v next) = FormatEpoch c + 1).
  { cbn. fold c. apply wrap64_id. unfold in_int64, int64_min, int64_max in *. lia. }
  destruct (writeConfigFile v (published v next) sm) as [s1 [[]|]] eqn:Hw; [|done].
  assert (Ha1 : anchor_of (st_files s1) v = anchor_of (st_files s) v).
  { rewrite <- Hkeep, <- (writeConfigFile_anchor v (published v next) sm), Hw. done. }
  rewrite bind_run in Hrun. set (v' := set_Config v (published v next)) in *.
  destruct (recordAnchor v' _ _ _ s1) as [s2 [note|]] eqn:Hrec; [|done].
  injection Hrun as <- <-. cbn [h_anchorNote] in Hn. apply note_or_empty in Hn as [-> _].
  assert (Hnext : ∀ a, anchor_of (st_files s1) v' = Some a ∨ a = zero_anchor →
    next_anchor a (FormatEpoch (published v next)) true (ConfigTag (published v next))
      = mkAnchor (FormatEpoch c + 1) true (ConfigTag (published v next))).
  { intros a Hd. rewrite Hep. apply record_current; [lia|apply published_tag|]. destruct Hd as [Hd|]; [right|by left].
    rewrite (anchor_of_keys _ v' v eq_refl), Ha1 in Hd. apply Hanc in Hd. lia. }
  apply recordAnchor_run in Hrec as (cur & Hcur & Hor); [|done|done|intros a Hd; rewrite Hnext by done; apply Hj].
  rewrite Hnext in Hcur by done.
  apply checkConfigIntegrity_run in Hopen; [|done]. cbn [h_vault] in Hopen. rewrite Hcur in Hopen.
  rewrite <- Hep in Hopen.
  change (v_Config v') with (published v next) in Hopen. change (v_keys v') with (v_keys v) in Hopen.
  rewrite gate_current in Hopen by apply published_verifies. destruct r as [n|e]; [reflexivity|discriminate Hopen].
Qed.
End anchor.

(** ** Concrete runs *)

Section demo.
#[local] Existing Instances demo_platform demo_env json_config json_anchor compact_config.

Definition demo_handle : Handle := mkHandle demo_vault "".
(** A tagged vault: the demo vault after its first ratchet, with the disk and the
    anchor that leaves. *)
Definition ratchet : St * result (Handle * bool) := EnsureConfigMAC demo_handle empty_st.
Definition tagged : Handle := match ratchet.2 with Ok (h, _) => h | Err _ => demo_handle end.
Definition stripped : Handle := mkHandle (set_Config (h_vault tagged) (set_ConfigTag (v_Config (h_vault tagged)) "")) "".
Definition strict : OpenOptions := mkOpenOptions false.

Lemma demo_honest : honest.
Proof. by intros i e. Qed.

Lemma tag_binds_config_witness :
  let c := v_Config (h_vault tagged) in
  verifyConfigTag (MasterKey (v_keys demo_vault)) c = true ∧ (c = c ∨
  canonicalConfigBytes c ≠ canonicalConfigBytes c ∧ hmac_sha256 (configMACKey (MasterKey (v_keys demo_vault))) (canonicalConfigBytes c) =
    hmac_sha256 (configMACKey (MasterKey (v_keys demo_vault))) (canonicalConfigBytes c)).
Proof.
  intros c. assert (V : verifyConfigTag (MasterKey (v_keys demo_vault)) c = true) by (vm_compute; reflexivity).
  split; [exact V|]. exact (tag_binds_config (MasterKey (v_keys demo_vault)) c c I I V V eq_refl).
Defined.

Definition reopened : St * result string := checkConfigIntegrity tagged strict ratchet.1.
Definition replayed : St * result string := checkConfigIntegrity stripped strict reopened.1.
Lemma reopened_run : checkConfigIntegrity tagged strict ratchet.1 = (reopened.1, reopened.2).
Proof. unfold reopened. by destruct (checkConfigIntegrity _ _ _). Qed.
Lemma replayed_run : checkConfigIntegrity stripped strict reopened.1 = (replayed.1, replayed.2).
Proof. unfold replayed. by destruct (checkConfigIntegrity _ _ _). Qed.

Lemma checkConfigIntegrity_refines_witness :
  replayed.2 = Err ErrConfigTampered ∧
  let v := h_vault stripped in
  gate (MasterKey (v_keys v)) (v_Config v) (anchor_of (st_files reopened.1) v) strict = Some ErrConfigTampered.
Proof.
  assert (E : replayed.2 = Err ErrConfigTampered) by (vm_compute; reflexivity). split; [exact E|].
  pose proof (checkConfigIntegrity_refines stripped strict _ _ _ demo_honest replayed_run) as Hr. rewrite E in Hr. exact Hr.
Defined.

Lemma replay_refused_witness : replayed.2 = Err ErrConfigTampered ∧
  (replayed.2 = Ok anchorUnavailableNote ∨ replayed.2 = Err ErrConfigTampered ∨
   replayed.2 = Err ErrConfigRolledBack ∨ replayed.2 = Err ErrConfigDiverged).
Proof.
  split; [vm_compute; reflexivity|].
  assert (E : reopened.2 = Ok "") by (vm_compute; reflexivity).
  eapply (replay_refused tagged stripped strict strict ratchet.1 reopened.1 reopened.1 replayed.1 replayed.2).
  - exact demo_honest.
  - vm_compute. discriminate.
  - vm_compute. discriminate.
  - exact I.
  - rewrite <- E. exact reopened_run.
  - reflexivity.
  - reflexivity.
  - reflexivity.
  - left. reflexivity.
  - exact replayed_run.
Defined.

(** A rewrite that only raises the format version. *)
Definition bump (c : VaultConfig) : M VaultConfig := mret (set_Version c 3).
Definition bumped : St * result Handle := rewriteConfig tagged bump reopened.1.
Lemma bumped_run : rewriteConfig tagged bump reopened.1 = (bumped.1, bumped.2).
Proof. unfold bumped. by destruct (rewriteConfig _ _ _). Qed.
Definition bumped_handle : Handle := match bumped.2 with Ok h => h | Err _ => tagged end.
Lemma bumped_ok : bumped.2 = Ok bumped_handle.
Proof. assert (E : is_ok bumped.2 = true) by (vm_compute; reflexivity). unfold bumped_handle. by destruct bumped.2. Qed.
Lemma bump_preserves (I : files → Prop) c : preserves I (bump c).
Proof. unfold bump. keep. Qed.

Lemma rewriteConfig_atomic_witness :
  let v := h_vault tagged in
  ∃ sm next t, bump (v_Config v) reopened.1 = (sm, Ok next) ∧
    st_files bumped.1 !! config_path v = Some (mkFile (marshal (published v next)) t) ∧
    h_vault bumped_handle = set_Config v (published v next) ∧
    verifyConfigTag (MasterKey (v_keys v)) (published v next) = true.
Proof.
  intros v. refine (proj2 (rewriteConfig_atomic tagged bump reopened.1 bumped.1 bumped.2 _ bumped_run) bumped_handle bumped_ok).
  intros c fs. apply bump_preserves.
Defined.

Definition rereopened : St * result string := checkConfigIntegrity bumped_handle strict bumped.1.
Lemma rereopened_run : checkConfigIntegrity bumped_handle strict bumped.1 = (rereopened.1, rereopened.2).
Proof. unfold rereopened. by destruct (checkConfigIntegrity _ _ _). Qed.

Lemma rewrite_then_open_witness : is_ok rereopened.2 = true.
Proof.
  apply (rewrite_then_open tagged bump reopened.1 bumped.1 rereopened.1 bumped_handle strict rereopened.2).
  - exact demo_honest.
  - intros c. apply bump_preserves.
  - vm_compute. split; [discriminate|reflexivity].
  - intros a Ha. assert (E : anchor_of (st_files reopened.1) (h_vault tagged) =
      Some (mkAnchor (FormatEpoch (v_Config (h_vault tagged))) true (ConfigTag (v_Config (h_vault tagged))))) by (vm_compute; reflexivity).
    rewrite E in Ha. apply (inj Some) in Ha. rewrite <- Ha. vm_compute. discriminate.
  - intros tag. exact I.
  - vm_compute. reflexivity.
  - rewrite bumped_run, bumped_ok. reflexivity.
  - vm_compute. reflexivity.
  - exact rereopened_run.
Defined.
End demo.
