(* ===== verification/Rotation.v ===== *)
(** Rewrites of the wrapped keys and of the format level
    (internal/vault/rotation.go, internal/vault/seal.go). *)
From S2P Require Export Anchor RecoveryPhrase.
Local Open Scope Z_scope.

(** internal/vault/seal.go:17-17 [sealedVersion] *)
Definition sealedVersion : Z := 3.
(** internal/vault/seal.go:22-22 [graceVersion] *)
Definition graceVersion : Z := 2.
(** internal/vault/seal.go:27-27 [unsealedMinReader] *)
Definition unsealedMinReader : Z := 2.
(** internal/vault/vault.go:38-38 [SupportedFormat] *)
Definition SupportedFormat : Z := 3.

Definition ErrFormatTooNew : err := ESentinel "ErrFormatTooNew".
Definition ErrAlreadySealed : err := ESentinel "ErrAlreadySealed".
Definition ErrNotSealed : err := ESentinel "ErrNotSealed".
Definition ErrUnsealAfterReKey : err := ESentinel "ErrUnsealAfterReKey".

(** internal/vault/seal.go:52-57 [formatTooNew] *)
Definition formatTooNew (minReader supported : Z) : option err :=
  if supported <? minReader
  then Some (EWrap (str_concat ["this vault needs open-seavault-rclone format "; itoa minReader;
               " or newer (this build supports "; itoa supported; "): "]) ErrFormatTooNew)
  else None.

(** internal/vault/seal.go:64-71 [firstBarePasswordEntry] *)
Definition firstBarePasswordEntry (entries : list WrapEntry) : option WrapEntry :=
  List.find (fun e => String.eqb (we_Type e) WrapTypePassword && String.eqb (we_AAD e) "") entries.

(** internal/vault/rotation.go:72-79 [passwordEntryID] *)
Definition passwordEntryID (c : VaultConfig) : string :=
  match List.find (fun e => String.eqb (we_Type e) WrapTypePassword) (WrapEntries c) with
  | Some e => we_ID e
  | None => ""
  end.

(** internal/vault/rotation.go:241-253 [removeWrapEntry] *)
Definition removeWrapEntry (c : VaultConfig) (id wantType : string) : VaultConfig * bool :=
  let hit e := String.eqb (we_ID e) id && String.eqb (we_Type e) wantType in
  (set_WrapEntries c (List.filter (fun e => negb (hit e)) (WrapEntries c)), existsb hit (WrapEntries c)).

(** internal/vault/rotation.go:258-261 [WrapEntryRef] *)
Record WrapEntryRef : Type := mkWrapEntryRef { wr_ID : string; wr_Type : string }.

(** internal/vault/rotation.go:266-274 [WrapEntryRefs] *)
Definition WrapEntryRefs (v : Vault) : list WrapEntryRef :=
  map (fun e => mkWrapEntryRef (we_ID e) (we_Type e)) (WrapEntries (v_Config v)).

Section rotation.
Context `{GoUnicode} `{AEAD} `{Argon2} `{Platform} `{Env}.
Context `{JA : JSON freshnessAnchor} `{JV : JSON VaultConfig} `{!CompactJSON VaultConfig}.
(** The package variable [enforceRewrapFloor]; the program never clears it. *)
Context (enforce : bool).

(** internal/vault/crypto.go:194-200 [randomHex] *)
Definition randomHex (n : nat) : M string := b ← randomBytes n; mret (hex_encode b).

(** A computation that draws once from crypto/rand. *)
Definition drawing {A} (f : (nat → result bytes) → result A) : M A := fun s =>
  (tick1 s, f (fun n => (randomBytes n s).2)).
Definition wrap (password : string) (cfg : KDFConfig) (keys : Keys) : M (string * string) :=
  drawing (fun rand => wrapKeys rand password cfg keys).

(** internal/vault/rotation.go:57-68 [freshWrapKDF] *)
Definition freshWrapKDF (base : KDFConfig) : M KDFConfig :=
  salt ← randomBytes 32;
  k ← lift (raiseToFloor enforce base);
  mret (set_Salt k (b64_encode salt)).

Definition empty_password : err := ENew "new password must not be empty".

(** internal/vault/rotation.go:90-132 [applyPasswordRewrap] *)
Definition applyPasswordRewrap (c : VaultConfig) (newPassword : string) (keys : Keys) : M VaultConfig :=
  if String.eqb newPassword "" then fail empty_password
  else
    id ← (if String.eqb (passwordEntryID c) "" then randomHex 8 else mret (passwordEntryID c));
    entryKDF ← freshWrapKDF (KDF c);
    '(entryNonce, entryCT) ← wrap newPassword entryKDF keys;
    let newEntry := mkWrapEntry id WrapTypePassword entryKDF entryNonce entryCT "" in
    let kept := List.filter (fun e => negb (String.eqb (we_Type e) WrapTypePassword)) (WrapEntries c) in
    let c := set_WrapEntries c (kept ++ [newEntry]) in
    legKDF ← freshWrapKDF (KDF c);
    '(legNonce, legWrapped) ← wrap newPassword legKDF keys;
    mret (set_wrap c legKDF legWrapped legNonce).

(** internal/vault/rotation.go:142-150 [ChangePassword] *)
Definition ChangePassword (h : Handle) (newPassword : string) : M Handle :=
  if String.eqb newPassword "" then fail empty_password
  else rewriteConfig h (fun c => applyPasswordRewrap c newPassword (v_keys (h_vault h))).

(** internal/vault/rotation.go:181-195 [makeRecoveryEntry] *)
Definition makeRecoveryEntry (secret : string) (base : KDFConfig) (keys : Keys) : M WrapEntry :=
  kdf ← freshWrapKDF base;
  id ← randomHex 8;
  '(nonce, ct) ← wrap secret kdf keys;
  mret (mkWrapEntry id WrapTypeRecovery kdf nonce ct "").

(** internal/vault/rotation.go:160-177 [PrepareRecovery]: the closure it returns. *)
Definition commitRecovery (h : Handle) (secret : string) (keys : Keys) : M Handle :=
  rewriteConfig h (fun c =>
    entry ← makeRecoveryEntry secret (KDF c) keys;
    mret (set_WrapEntries c (WrapEntries c ++ [entry]))).

(** internal/vault/rotation.go:160-177 [PrepareRecovery]; the closure is given the
    vault as it is when it is called. *)
Definition PrepareRecovery (h : Handle) : M (string * (Handle → M Handle)) :=
  '(secret, phrase) ← mintRecoverySecret;
  mret (phrase, fun h' => commitRecovery h' secret (v_keys (h_vault h))).

Definition recovery_not_found (id : string) : err := ENew "recovery entry %q not found".

(** internal/vault/rotation.go:206-220 [RedeemRecovery] *)
Definition RedeemRecovery (h : Handle) (redeemedEntryID newPassword : string) : M Handle :=
  if String.eqb newPassword "" then fail empty_password
  else if String.eqb redeemedEntryID "" then fail (ENew "no recovery entry to redeem")
  else rewriteConfig h (fun c =>
    let '(c, removed) := removeWrapEntry c redeemedEntryID WrapTypeRecovery in
    if negb removed then fail (recovery_not_found redeemedEntryID)
    else applyPasswordRewrap c newPassword (v_keys (h_vault h))).

(** internal/vault/rotation.go:226-236 [RevokeRecovery] *)
Definition RevokeRecovery (h : Handle) (entryID : string) : M Handle :=
  if String.eqb entryID "" then fail (ENew "a recovery entry ID is required")
  else rewriteConfig h (fun c =>
    let '(c, removed) := removeWrapEntry c entryID WrapTypeRecovery in
    if negb removed then fail (recovery_not_found entryID) else mret c).

(** The legacy wrap moved into an entry, as sealing does it. *)
Definition seal_wrap (c : VaultConfig) : M VaultConfig :=
  if String.eqb (WrappedKeys c) "" then mret c
  else
    c ← match firstBarePasswordEntry (WrapEntries c) with
        | Some _ => mret c
        | None =>
            id ← randomHex 8;
            mret (set_WrapEntries c (WrapEntries c ++
              [mkWrapEntry id WrapTypePassword (KDF c) (WrapNonce c) (WrappedKeys c) ""]))
        end;
    mret (set_wrap c (KDF c) "" "").

(** internal/vault/seal.go:80-108 [SealFormat] *)
Definition SealFormat (h : Handle) : M Handle :=
  rewriteConfig h (fun c =>
    if (sealedVersion <=? Version c) && (SupportedFormat <=? MinReader c) then fail ErrAlreadySealed
    else
      c ← seal_wrap c;
      mret (set_MinReader (set_Version c sealedVersion) SupportedFormat)).

(** internal/vault/seal.go:118-140 [UnsealFormat] *)
Definition UnsealFormat (h : Handle) : M Handle :=
  rewriteConfig h (fun c =>
    if 0 <? DirIDEpoch (Crypto c) then fail ErrUnsealAfterReKey
    else if Version c <? sealedVersion then fail ErrNotSealed
    else
      let c := if String.eqb (WrappedKeys c) "" then
                 match firstBarePasswordEntry (WrapEntries c) with
                 | Some e => set_wrap c (we_KDF e) (we_CT e) (we_Nonce e)
                 | None => c
                 end
               else c in
      mret (set_MinReader (set_Version c graceVersion) unsealedMinReader)).
End rotation.
