(* ===== verification/RotationFacts.v ===== *)
(** What a rewrite of the wraps keeps and replaces. *)
From S2P Require Export Rotation AnchorFacts CryptoFacts RecoveryPhraseFacts.
Local Open Scope Z_scope.

Section rotation.
Context `{GoUnicode} `{AEAD} `{Argon2} `{Platform} `{Env}.
Context `{JA : JSON freshnessAnchor} `{JV : JSON VaultConfig} `{!CompactJSON VaultConfig}.
Context (enforce : bool).

(** The part of a configuration no rewrap touches. *)
Definition identity (c : VaultConfig) : Z * Z * string * string * CryptoConfig * ChunkParams :=
  (Version c, MinReader c, VaultID c, CreatedAt c, Crypto c, Chunk c).

(** A computation that leaves the disk alone. *)
Definition pure_disk {A} (m : M A) : Prop := ∀ s, st_files (m s).1 = st_files s.

Lemma pure_bind {A B} (m : M A) (f : A → M B) : pure_disk m → (∀ a, pure_disk (f a)) → pure_disk (m ≫= f).
Proof.
  intros Hm Hf s. rewrite bind_run. specialize (Hm s). destruct (m s) as [s1 [a|e]]; cbn [fst] in *; [|done].
  by rewrite Hf.
Qed.
Lemma pure_ret {A} (a : A) : pure_disk (mret a).
Proof. by intros s. Qed.
Lemma pure_fail {A} e : pure_disk (fail (A:=A) e).
Proof. by intros s. Qed.
Lemma pure_lift {A} (r : result A) : pure_disk (lift r).
Proof. by intros s. Qed.
Lemma pure_random n : pure_disk (randomBytes n).
Proof. intros s. unfold randomBytes. by destruct (env_fault _). Qed.
Lemma pure_drawing {A} (f : (nat → result bytes) → result A) : pure_disk (drawing f).
Proof. by intros s. Qed.
Lemma pure_hex n : pure_disk (randomHex n).
Proof. apply pure_bind; [apply pure_random|intros; apply pure_ret]. Qed.
Lemma pure_kdf base : pure_disk (freshWrapKDF enforce base).
Proof.
  unfold freshWrapKDF. apply pure_bind; [apply pure_random|]. intros salt.
  apply pure_bind; [apply pure_lift|intros; apply pure_ret].
Qed.

Create HintDb puredisk discriminated.
#[local] Hint Resolve pure_bind pure_ret pure_fail pure_lift pure_random pure_drawing pure_hex pure_kdf : puredisk.

Lemma pure_rewrap c pw keys : pure_disk (applyPasswordRewrap enforce c pw keys).
Proof.
  unfold applyPasswordRewrap, wrap. destruct (String.eqb pw ""); [apply pure_fail|].
  apply pure_bind; [destruct (String.eqb _ ""); auto with puredisk|]. intros id.
  apply pure_bind; [auto with puredisk|]. intros k. apply pure_bind; [auto with puredisk|]. intros [n ct]. cbv zeta.
  apply pure_bind; [auto with puredisk|]. intros k2. apply pure_bind; [auto with puredisk|]. intros [n2 ct2]. auto with puredisk.
Qed.

Lemma wrap_run pw cfg keys s s' n ct : wrap pw cfg keys s = (s', Ok (n, ct)) →
  unwrapKeys pw cfg n ct = Ok keys ∧ ∀ id ty ver, unwrapEntry pw ver (mkWrapEntry id ty cfg n ct "") = Ok keys.
Proof.
  unfold wrap, drawing. intros E. injection E as _ E.
  assert (Hr : ∀ n b, (randomBytes n s).2 = Ok b → length b = n).
  { intros k b. unfold randomBytes. destruct (env_fault _); [done|]. intros [= <-]. apply env_rand_length. }
  split; [|intros id ty ver].
  - by destruct (wrapped_opens _ _ _ _ _ _ "" "" 0 Hr E).
  - by destruct (wrapped_opens _ _ _ _ _ _ id ty ver Hr E).
Qed.

Definition is_password (e : WrapEntry) : bool := String.eqb (we_Type e) WrapTypePassword.
Definition others (c : VaultConfig) : list WrapEntry := List.filter (fun e => negb (is_password e)) (WrapEntries c).

(** What a rewrap of the password leaves. *)
Record rewrapped (c c' : VaultConfig) (pw : string) (keys : Keys) : Prop := {
  rw_identity : identity c' = identity c;
  rw_entries : ∃ e, WrapEntries c' = others c ++ [e] ∧ we_Type e = WrapTypePassword ∧ we_AAD e = "" ∧
    ∀ ver, unwrapEntry pw ver e = Ok keys;
  rw_legacy : unwrapKeys pw (KDF c') (WrapNonce c') (WrappedKeys c') = Ok keys
}.

Lemma applyPasswordRewrap_run c pw keys s s' c' :
  applyPasswordRewrap enforce c pw keys s = (s', Ok c') → rewrapped c c' pw keys.
Proof.
  unfold applyPasswordRewrap. destruct (String.eqb pw ""); [done|].
  intros (s1 & id & _ & E)%M_bind_ok. apply M_bind_ok in E as (s2 & k & _ & E).
  apply M_bind_ok in E as (s3 & [n ct] & Hw1 & E). cbv zeta in E.
  apply M_bind_ok in E as (s4 & k2 & _ & E). apply M_bind_ok in E as (s5 & [n2 ct2] & Hw2 & E).
  injection E as _ <-. apply wrap_run in Hw1 as [_ Hw1]. apply wrap_run in Hw2 as [Hw2 _].
  split; [done| |exact Hw2]. eexists. split; [reflexivity|]. cbn [we_Type we_AAD]. split; [done|]. split; [done|].
  intros ver. apply Hw1.
Qed.

Lemma first_opening_skip secret ver ty l r :
  Forall (fun e => we_Type e ≠ ty) l → first_opening secret ver ty (l ++ r) = first_opening secret ver ty r.
Proof.
  induction 1 as [|e l He _ IH]; [done|]. cbn [app first_opening]. apply String.eqb_neq in He. by rewrite He.
Qed.

Lemma others_not_password c : Forall (fun e => we_Type e ≠ WrapTypePassword) (others c).
Proof.
  apply List.Forall_forall. intros e [_ He]%filter_In. apply negb_true_iff in He. by apply String.eqb_neq.
Qed.

(** The new password opens a rewrapped configuration. *)
Lemma rewrapped_unlocks c c' pw keys : rewrapped c c' pw keys → unlockWith c' pw WrapTypePassword = Ok keys.
Proof.
  intros [_ (e & He & Ht & _ & Hu) _]. unfold unlockWith. rewrite He.
  assert (Hf : first_opening pw (Version c') WrapTypePassword (others c ++ [e]) = Some (keys, we_ID e)).
  { rewrite first_opening_skip by apply others_not_password. cbn [first_opening]. rewrite Ht, String.eqb_refl. cbn [negb].
    by rewrite Hu. }
  destruct (others c ++ [e]) as [|x l] eqn:E; [by apply app_eq_nil in E as [_ ?]|]. by rewrite Hf.
Qed.

Lemma rewriteConfig_ok h mutate s s' h' : rewriteConfig h mutate s = (s', Ok h') →
  ∃ sm next, mutate (v_Config (h_vault h)) s = (sm, Ok next) ∧
    h_vault h' = set_Config (h_vault h) (published (h_vault h) next).
Proof.
  unfold rewriteConfig. intros (sm & next & Hm & E)%M_bind_ok. apply publish_run in E as [_ E].
  destruct (E h' eq_refl) as [Hv _]. eauto.
Qed.

(** Tagging does not touch the wraps. *)
Lemma published_rewrapped v c c' pw keys : rewrapped c c' pw keys → rewrapped c (published v c') pw keys.
Proof. intros [A B C]. split; [exact A|exact B|exact C]. Qed.

(** C18. After a password change the new password unlocks the vault with the same
    keys, both through the wrap entries and through the top-level fields an older
    client reads; exactly one password entry is left, the recovery entries and
    everything the vault's data depends on are as they were. *)
Theorem ChangePassword_rewraps h pw s s' h' :
  let c := v_Config (h_vault h) in let c' := v_Config (h_vault h') in let keys := v_keys (h_vault h) in
  ChangePassword enforce h pw s = (s', Ok h') →
  unlockWith c' pw WrapTypePassword = Ok keys ∧
  unwrapKeys pw (KDF c') (WrapNonce c') (WrappedKeys c') = Ok keys ∧
  v_keys (h_vault h') = keys ∧ identity c' = identity c ∧
  (∃ e, WrapEntries c' = others c ++ [e] ∧ we_Type e = WrapTypePassword) ∧
  verifyConfigTag (MasterKey keys) c' = true.
Proof.
  intros c c' keys Hrun. unfold ChangePassword in Hrun. destruct (String.eqb pw ""); [done|].
  apply rewriteConfig_ok in Hrun as (sm & next & Hm & Hv). apply applyPasswordRewrap_run in Hm.
  unfold c'. rewrite Hv. cbn [v_Config v_keys set_Config]. pose proof (published_rewrapped (h_vault h) _ _ _ _ Hm) as Hp.
  split; [by eapply rewrapped_unlocks|]. destruct Hp as [Hi (e & He & Ht & _) Hl]. split; [exact Hl|].
  split; [done|]. split; [exact Hi|]. split; [eauto|]. apply published_verifies.
Qed.

(** ** Recovery entries *)

Lemma removeWrapEntry_run c id ty c' b : removeWrapEntry c id ty = (c', b) →
  WrapEntries c' = List.filter (fun e => negb (String.eqb (we_ID e) id && String.eqb (we_Type e) ty)) (WrapEntries c) ∧
  identity c' = identity c ∧ KDF c' = KDF c ∧ WrappedKeys c' = WrappedKeys c ∧ WrapNonce c' = WrapNonce c.
Proof. unfold removeWrapEntry. intros E. injection E as <- _. repeat split. Qed.

Definition recovery_left (id : string) (c : VaultConfig) : list WrapEntry :=
  List.filter (fun e => negb (String.eqb (we_ID e) id && String.eqb (we_Type e) WrapTypeRecovery)) (others c).

Lemma filter_comm {A} (p q : A → bool) l : List.filter p (List.filter q l) = List.filter q (List.filter p l).
Proof.
  induction l as [|a l IH]; [done|]. cbn [List.filter].
  destruct (p a) eqn:P, (q a) eqn:Q; cbn [List.filter]; rewrite ?P, ?Q, IH; done.
Qed.

Lemma others_removed c id c' b : removeWrapEntry c id WrapTypeRecovery = (c', b) → others c' = recovery_left id c.
Proof.
  intros (E & _)%removeWrapEntry_run. unfold others, recovery_left. rewrite E.
  apply filter_comm.
Qed.

(** C19. Redeeming a recovery entry is one step: the redeemed entry is gone, so the
    phrase no longer opens through it, every other recovery entry stays, and the
    new password unlocks the same keys on new and old clients; an unknown id
    changes nothing. *)
Theorem RedeemRecovery_replaces h id pw s s' r :
  let c := v_Config (h_vault h) in let keys := v_keys (h_vault h) in
  RedeemRecovery enforce h id pw s = (s', r) →
  match r with
  | Ok h' =>
      let c' := v_Config (h_vault h') in
      (∃ e, In e (WrapEntries c) ∧ we_ID e = id ∧ we_Type e = WrapTypeRecovery) ∧
      (∀ e, In e (WrapEntries c') → we_Type e = WrapTypeRecovery → we_ID e ≠ id ∧ In e (WrapEntries c)) ∧
      (∀ e, In e (WrapEntries c) → we_Type e = WrapTypeRecovery → we_ID e ≠ id → In e (WrapEntries c')) ∧
      unlockWith c' pw WrapTypePassword = Ok keys ∧
      unwrapKeys pw (KDF c') (WrapNonce c') (WrappedKeys c') = Ok keys
  | Err _ => (∀ e, In e (WrapEntries c) → we_ID e = id → we_Type e = WrapTypeRecovery → False) → st_files s' = st_files s
  end.
Proof.
  intros c keys Hrun. unfold RedeemRecovery in Hrun. destruct r as [h'|e].
  - destruct (String.eqb pw ""); [done|]. destruct (String.eqb id ""); [done|].
    apply rewriteConfig_ok in Hrun as (sm & next & Hm & Hv). fold c in Hm.
    destruct (removeWrapEntry c id WrapTypeRecovery) as [c1 b] eqn:Er. destruct b; [|done]. cbn [negb] in Hm.
    apply applyPasswordRewrap_run in Hm. apply (published_rewrapped (h_vault h)) in Hm. rewrite Hv. cbn [v_Config set_Config].
    pose proof (rewrapped_unlocks _ _ _ _ Hm) as Hu. destruct Hm as [_ (e & He & Ht & _) Hl]. cbv zeta.
    rewrite (others_removed _ _ _ _ Er) in He. rewrite He. unfold removeWrapEntry in Er. injection Er as _ Er.
    apply existsb_exists in Er as (e0 & Hin0 & Hhit). apply andb_true_iff in Hhit as [Hid%String.eqb_eq Hty%String.eqb_eq].
    unfold recovery_left, others. split; [eauto|]. split; [|split; [|done]].
    + intros e' [Hin|[<-|[]]]%in_app_or Hrec; [|rewrite Ht in Hrec; discriminate].
      apply filter_In in Hin as [Hin Hn]. apply filter_In in Hin as [Hin _]. split; [|done]. intros E.
      rewrite E, Hrec, !String.eqb_refl in Hn. done.
    + intros e' Hin Hrec Hne. apply in_or_app. left. apply filter_In. split; [apply filter_In; split; [done|]|].
      * unfold is_password. by rewrite Hrec.
      * apply String.eqb_neq in Hne. by rewrite Hne.
  - intros Hnone. destruct (String.eqb pw ""); [by injection Hrun as <- _|]. destruct (String.eqb id ""); [by injection Hrun as <- _|].
    unfold rewriteConfig in Hrun. fold c in Hrun. rewrite bind_run in Hrun.
    destruct (removeWrapEntry c id WrapTypeRecovery) as [c1 b] eqn:Er. destruct b; [exfalso|by injection Hrun as <- _].
    unfold removeWrapEntry in Er. injection Er as _ Er. apply existsb_exists in Er as (e0 & Hin0 & Hhit).
    apply andb_true_iff in Hhit as [Hid%String.eqb_eq Hty%String.eqb_eq]. eauto.
Qed.

Lemma first_opening_app secret ver ty l r :
  first_opening secret ver ty (l ++ r) =
    match first_opening secret ver ty l with Some x => Some x | None => first_opening secret ver ty r end.
Proof.
  induction l as [|e l IH]; [done|]. cbn [app first_opening]. destruct (negb _); [done|]. by destruct (unwrapEntry secret ver e).
Qed.

(** Appending an entry of another type does not disturb an unlock. *)
Lemma unlock_append c e pw ty k : we_Type e ≠ ty →
  (WrapEntries c = [] → WrappedKeys c ≠ "") →
  unlockWith c pw ty = Ok k → unlockWith (set_WrapEntries c (WrapEntries c ++ [e])) pw ty = Ok k.
Proof.
  intros Hty Hleg. unfold unlockWith.
  change (WrapEntries (set_WrapEntries c (WrapEntries c ++ [e]))) with (WrapEntries c ++ [e]).
  change (Version (set_WrapEntries c (WrapEntries c ++ [e]))) with (Version c).
  change (WrappedKeys (set_WrapEntries c (WrapEntries c ++ [e]))) with (WrappedKeys c).
  change (WrapNonce (set_WrapEntries c (WrapEntries c ++ [e]))) with (WrapNonce c).
  change (KDF (set_WrapEntries c (WrapEntries c ++ [e]))) with (KDF c).
  pose proof (first_opening_app pw (Version c) ty (WrapEntries c) [e]) as Ha. cbn [first_opening] in Ha.
  rewrite (proj2 (String.eqb_neq _ _) Hty) in Ha. cbn [negb] in Ha.
  destruct (WrapEntries c) as [|x l] eqn:El; cbn [app] in *.
  - destruct (String.eqb ty WrapTypePassword) eqn:Ep; cbn [negb]; [|done]. intros Hu. rewrite Ha. cbn [andb first_opening].
    rewrite (proj2 (String.eqb_neq _ _) (Hleg eq_refl)). cbn [negb]. by rewrite Hu.
  - rewrite Ha. destruct (first_opening pw (Version c) ty (x :: l)) as [[k' id]|]; done.
Qed.

(** C20. A committed recovery phrase works: the phrase shown to the owner reads
    back to a secret that opens the appended entry to the vault's keys under any
    format version; every earlier entry stays where it was, and whatever unlocked
    the vault with a password still does. *)
Theorem recovery_entry_opens h0 h s0 s0' phrase commit s s' h' :
  let c := v_Config (h_vault h) in let c' := v_Config (h_vault h') in let keys := v_keys (h_vault h0) in
  PrepareRecovery enforce h0 s0 = (s0', Ok (phrase, commit)) → commit h s = (s', Ok h') →
  (∃ secret e, canonicalRecoverySecret phrase = Ok secret ∧ WrapEntries c' = WrapEntries c ++ [e] ∧
    we_Type e = WrapTypeRecovery ∧ ∀ ver, unwrapEntry secret ver e = Ok keys) ∧
  ((WrapEntries c = [] → WrappedKeys c ≠ "") →
    ∀ pw k, unlockWith c pw WrapTypePassword = Ok k → unlockWith c' pw WrapTypePassword = Ok k).
Proof.
  intros c c' keys Hprep Hrun. unfold PrepareRecovery in Hprep.
  apply M_bind_ok in Hprep as (s1 & [secret ph] & Hmint & E). injection E as _ <- <-.
  unfold mintRecoverySecret in Hmint. apply M_bind_ok in Hmint as (s2 & raw & _ & E). injection E as _ <- <-.
  unfold commitRecovery in Hrun. apply rewriteConfig_ok in Hrun as (sm & next & Hm & Hv). fold c in Hm.
  apply M_bind_ok in Hm as (s3 & e & He & E). injection E as _ <-.
  unfold makeRecoveryEntry in He. apply M_bind_ok in He as (s4 & kdf & _ & He). apply M_bind_ok in He as (s5 & id & _ & He).
  apply M_bind_ok in He as (s6 & [n ct] & Hw & E). injection E as _ <-. apply wrap_run in Hw as [_ Hw].
  unfold c'. rewrite Hv. cbn [v_Config set_Config]. split.
  - exists (b32_encode raw), (mkWrapEntry id WrapTypeRecovery kdf n ct ""). split; [|split; [done|split; [done|intros ver; apply Hw]]].
    rewrite single_field_base32; [|apply group_solid, encode_solid]. f_equal. apply canonical_group, b32_encode_alphabet.
  - intros Hleg pw k Hu. by apply unlock_append.
Qed.

(** ** Sealing and unsealing *)

(** A bare entry opens as the same fields would at the top level, under any
    version. *)
Lemma bare_entry pw ver e k : we_AAD e = "" →
  unwrapEntry pw ver e = Ok k ↔ unwrapKeys pw (we_KDF e) (we_Nonce e) (we_CT e) = Ok k.
Proof.
  intros Ha. unfold unwrapEntry, unwrapKeys, wrapEntryAAD. rewrite Ha. cbn [String.eqb].
  destruct (b64_decode (we_Nonce e)); [|done]. by destruct (b64_decode (we_CT e)).
Qed.

Definition all_bare (c : VaultConfig) : Prop := Forall (fun e => we_AAD e = "") (WrapEntries c).

Lemma bare_version pw ver ver' ty l : Forall (fun e => we_AAD e = "") l →
  first_opening pw ver ty l = first_opening pw ver' ty l.
Proof.
  induction 1 as [|e l He _ IH]; [done|]. cbn [first_opening].
  assert (E : unwrapEntry pw ver e = unwrapEntry pw ver' e) by (unfold unwrapEntry, wrapEntryAAD; by rewrite He).
  by rewrite E, IH.
Qed.

(** A password that opens the top-level wrap opens the first bare password entry
    to the same keys: what every rewrap leaves for its password. *)
Definition coherent (c : VaultConfig) (pw : string) (k : Keys) : Prop :=
  ∀ e, firstBarePasswordEntry (WrapEntries c) = Some e → WrappedKeys c ≠ "" →
    unwrapKeys pw (KDF c) (WrapNonce c) (WrappedKeys c) = Ok k → unwrapKeys pw (we_KDF e) (we_Nonce e) (we_CT e) = Ok k.

Lemma rewrapped_coherent c c' pw keys : rewrapped c c' pw keys → all_bare c → coherent c' pw keys.
Proof.
  intros [_ (e & He & Ht & Ha & Hu) Hl] Hb e' Hf _ _. rewrite He in Hf. unfold firstBarePasswordEntry in Hf.
  apply find_some in Hf as [Hin Hp]. apply andb_true_iff in Hp as [Hp _]. apply String.eqb_eq in Hp.
  apply in_app_or in Hin as [Hin|[<-|[]]].
  - exfalso. eapply (proj1 (List.Forall_forall _ _) (others_not_password c)); done.
  - apply (bare_entry pw 0); auto.
Qed.

Lemma first_bare_spec l e : firstBarePasswordEntry l = Some e → In e l ∧ we_Type e = WrapTypePassword ∧ we_AAD e = "".
Proof.
  unfold firstBarePasswordEntry. intros [Hin Hp]%find_some. apply andb_true_iff in Hp as [Ht Ha].
  by apply String.eqb_eq in Ht, Ha.
Qed.

Lemma first_opening_in secret ver e l k : In e l → unwrapEntry secret ver e = Ok k →
  first_opening secret ver (we_Type e) l ≠ None.
Proof.
  intros Hin Hu. induction l as [|x l IH]; [done|]. cbn [first_opening].
  destruct (String.eqb_spec (we_Type x) (we_Type e)) as [Ht|Hne]; cbn [negb].
  - destruct (unwrapEntry secret ver x) eqn:Ex; [done|]. apply IH. destruct Hin as [->|]; [congruence|done].
  - apply IH. by destruct Hin as [->|].
Qed.

(** The three ways sealing treats the legacy wrap. *)
Definition migrated (c : VaultConfig) (id : string) : WrapEntry :=
  mkWrapEntry id WrapTypePassword (KDF c) (WrapNonce c) (WrappedKeys c) "".
Definition sealed_wrap (c c1 : VaultConfig) : Prop :=
  (WrappedKeys c = "" ∧ c1 = c) ∨
  (WrappedKeys c ≠ "" ∧ (∃ e, firstBarePasswordEntry (WrapEntries c) = Some e) ∧ c1 = set_wrap c (KDF c) "" "") ∨
  (WrappedKeys c ≠ "" ∧ firstBarePasswordEntry (WrapEntries c) = None ∧
   ∃ id, c1 = set_wrap (set_WrapEntries c (WrapEntries c ++ [migrated c id])) (KDF c) "" "").

Lemma seal_wrap_run c s s' c1 : seal_wrap c s = (s', Ok c1) → sealed_wrap c c1.
Proof.
  unfold seal_wrap. destruct (String.eqb_spec (WrappedKeys c) "") as [E|Hne]; [intros [= _ <-]; by left|].
  intros Hrun. right. destruct (firstBarePasswordEntry (WrapEntries c)) as [e|] eqn:Hf.
  - left. injection Hrun as _ <-. eauto.
  - right. apply M_bind_ok in Hrun as (s1 & c2 & Hrun & E). apply M_bind_ok in Hrun as (s2 & id & _ & E2).
    injection E2 as _ <-. injection E as _ <-. eauto.
Qed.

(** What the vault's passwords open is what they open after the wrap moved and the
    version changed. *)
Lemma sealed_unlocks c c1 ver mr pw k : sealed_wrap c c1 → all_bare c → coherent c pw k →
  unlockWith c pw WrapTypePassword = Ok k →
  unlockWith (set_MinReader (set_Version c1 ver) mr) pw WrapTypePassword = Ok k.
Proof.
  intros Hs Hb Hc Hu.
  assert (Hm : ∀ id v, unwrapKeys pw (KDF c) (WrapNonce c) (WrappedKeys c) = Ok k →
    first_opening pw v WrapTypePassword [migrated c id] = Some (k, id)).
  { intros id v Hk. cbn [first_opening migrated we_Type we_ID]. rewrite String.eqb_refl. cbn [negb].
    rewrite (proj2 (bare_entry pw v (migrated c id) k eq_refl)); [done|exact Hk]. }
  destruct Hs as [[E ->]|[(Hne & [e He] & ->)|(Hne & Hf & id & ->)]]; unfold unlockWith in *;
    cbn [WrapEntries Version WrappedKeys WrapNonce KDF set_MinReader set_Version set_wrap set_WrapEntries] in *.
  - destruct (WrapEntries c) as [|x l] eqn:El; [exact Hu|]. unfold all_bare in Hb. rewrite El in Hb.
    by rewrite (bare_version pw ver (Version c)).
  - destruct (first_bare_spec _ _ He) as (Hin & Ht & Ha). destruct (WrapEntries c) as [|x l] eqn:El; [done|].
    unfold all_bare in Hb. rewrite El in Hb. rewrite (bare_version pw ver (Version c)) by done.
    destruct (first_opening pw (Version c) WrapTypePassword (x :: l)) as [[k' i]|] eqn:Hfo; [done|exfalso].
    rewrite String.eqb_refl in Hu. cbn [andb] in Hu. rewrite (proj2 (String.eqb_neq _ _) Hne) in Hu. cbn [negb] in Hu.
    destruct (unwrapKeys pw _ _ _) as [k'|] eqn:Hk; [|done]. injection Hu as ->.
    pose proof (Hc e ltac:(by rewrite El) Hne Hk) as He'. apply (bare_entry pw (Version c)) in He'; [|done].
    apply (first_opening_in _ _ _ (x :: l)) in He'; [|done]. by rewrite Ht in He'.
  - pose proof (first_opening_app pw ver WrapTypePassword (WrapEntries c) [migrated c id]) as Ha.
    rewrite (bare_version pw ver (Version c) _ (WrapEntries c) Hb) in Ha.
    destruct (WrapEntries c) as [|x l] eqn:El; cbn [app] in *.
    + rewrite String.eqb_refl in Hu. cbn [negb] in Hu. by rewrite Ha, Hm.
    + rewrite Ha. destruct (first_opening pw (Version c) WrapTypePassword (x :: l)) as [[k' i]|]; [done|].
      rewrite String.eqb_refl in Hu. cbn [andb] in Hu. destruct (negb _); [|done].
      destruct (unwrapKeys pw (KDF c) _ _) as [k'|] eqn:Hk; [|done]. injection Hu as ->. by rewrite Hm.
Qed.

(** What a successful seal leaves. *)
Lemma SealFormat_ok h s s' h' : SealFormat h s = (s', Ok h') →
  ∃ c1, sealed_wrap (v_Config (h_vault h)) c1 ∧
    h_vault h' = set_Config (h_vault h) (published (h_vault h) (set_MinReader (set_Version c1 sealedVersion) SupportedFormat)).
Proof.
  intros Hrun. unfold SealFormat in Hrun. apply rewriteConfig_ok in Hrun as (sm & next & Hm & Hv).
  destruct (_ && _) in Hm; [done|]. apply M_bind_ok in Hm as (s1 & c1 & Hw & E). injection E as _ <-.
  apply seal_wrap_run in Hw. eauto.
Qed.

Lemma sealed_no_legacy c c1 : sealed_wrap c c1 → WrappedKeys c1 = "".
Proof. by intros [[E ->]|[(_ & _ & ->)|(_ & _ & id & ->)]]. Qed.

(** Sealing keeps the vault open to its owner and closes it to older clients:
    every password that unlocked it still unlocks the same keys, the version and
    the reader level are the sealed ones, and the top-level wrap an older client
    would read is gone; sealing a sealed vault is refused and writes nothing. *)
Theorem SealFormat_keeps_unlock h s s' r :
  let c := v_Config (h_vault h) in
  all_bare c → SealFormat h s = (s', r) →
  match r with
  | Ok h' =>
      let c' := v_Config (h_vault h') in
      Version c' = sealedVersion ∧ MinReader c' = SupportedFormat ∧ WrappedKeys c' = "" ∧
      ∀ pw k, coherent c pw k → unlockWith c pw WrapTypePassword = Ok k → unlockWith c' pw WrapTypePassword = Ok k
  | Err e => sealedVersion ≤ Version c → SupportedFormat ≤ MinReader c → e = ErrAlreadySealed ∧ s' = s
  end.
Proof.
  intros c Hb Hrun. destruct r as [h'|e].
  - apply SealFormat_ok in Hrun as (c1 & Hs & Hv). rewrite Hv. cbn [v_Config set_Config]. cbv zeta.
    split; [done|]. split; [done|]. split; [apply (sealed_no_legacy _ _ Hs)|].
    intros pw k Hc Hu. exact (sealed_unlocks c c1 sealedVersion SupportedFormat pw k Hs Hb Hc Hu).
  - intros Hver Hmin. unfold SealFormat, rewriteConfig in Hrun. fold c in Hrun. rewrite bind_run in Hrun.
    apply Z.leb_le in Hver, Hmin. rewrite Hver, Hmin in Hrun. by injection Hrun as <- <-.
Qed.

(** What a successful unseal leaves. *)
Lemma UnsealFormat_ok h s s' h' : UnsealFormat h s = (s', Ok h') →
  let c := v_Config (h_vault h) in let c' := v_Config (h_vault h') in
  DirIDEpoch (Crypto c) ≤ 0 ∧ sealedVersion ≤ Version c ∧
  Version c' = graceVersion ∧ MinReader c' = unsealedMinReader ∧ WrapEntries c' = WrapEntries c ∧
  (KDF c', WrapNonce c', WrappedKeys c') =
    if String.eqb (WrappedKeys c) "" then
      match firstBarePasswordEntry (WrapEntries c) with
      | Some e => (we_KDF e, we_Nonce e, we_CT e)
      | None => (KDF c, WrapNonce c, WrappedKeys c)
      end
    else (KDF c, WrapNonce c, WrappedKeys c).
Proof.
  intros Hrun c c'. unfold UnsealFormat in Hrun. apply rewriteConfig_ok in Hrun as (sm & next & Hm & Hv). fold c in Hm.
  destruct (Z.ltb_spec 0 (DirIDEpoch (Crypto c))); [done|]. destruct (Z.ltb_spec (Version c) sealedVersion); [done|].
  injection Hm as _ Hn. unfold c'. rewrite Hv. cbn [v_Config set_Config]. rewrite <- Hn.
  split; [done|]. split; [done|]. destruct (String.eqb (WrappedKeys c) ""); [|done].
  by destruct (firstBarePasswordEntry (WrapEntries c)).
Qed.

Lemma first_bare_migrated l c id : firstBarePasswordEntry l = None → firstBarePasswordEntry (l ++ [migrated c id]) = Some (migrated c id).
Proof.
  unfold firstBarePasswordEntry. induction l as [|x l IH]; [done|]. cbn [app List.find]. by destruct (_ && _).
Qed.

(** Unsealing undoes a seal for the older clients: back at version 2 and reader
    level 2, and the top-level wrap opens again, to the same keys, with any
    password that opened it before the seal. *)
Theorem seal_unseal h h1 h2 s s1 s1' s2 :
  let c := v_Config (h_vault h) in let c2 := v_Config (h_vault h2) in
  SealFormat h s = (s1, Ok h1) → UnsealFormat h1 s1' = (s2, Ok h2) → WrappedKeys c ≠ "" →
  Version c2 = 2 ∧ MinReader c2 = 2 ∧
  ∀ pw k, coherent c pw k → unwrapKeys pw (KDF c) (WrapNonce c) (WrappedKeys c) = Ok k →
    unwrapKeys pw (KDF c2) (WrapNonce c2) (WrappedKeys c2) = Ok k.
Proof.
  intros c c2 Hseal Hun Hne. apply SealFormat_ok in Hseal as (c1 & Hs & Hv1). fold c in Hs.
  apply UnsealFormat_ok in Hun as (_ & _ & Hver & Hmr & _ & Ht). fold c2 in Hver, Hmr, Ht. rewrite Hv1 in Ht.
  cbn [v_Config set_Config] in Ht. split; [exact Hver|]. split; [exact Hmr|]. intros pw k Hc Hk.
  change (WrappedKeys (published _ _)) with (WrappedKeys c1) in Ht.
  change (WrapEntries (published _ _)) with (WrapEntries c1) in Ht.
  rewrite (sealed_no_legacy _ _ Hs) in Ht. cbn [String.eqb] in Ht.
  destruct Hs as [[? _]|[(_ & [e He] & ->)|(_ & Hf & id & ->)]]; [done|..].
  - change (WrapEntries (set_wrap c (KDF c) "" "")) with (WrapEntries c) in Ht. rewrite He in Ht.
    injection Ht as -> -> ->. by apply Hc.
  - change (WrapEntries (set_wrap _ _ _ _)) with (WrapEntries c ++ [migrated c id]) in Ht.
    rewrite first_bare_migrated in Ht by done. by injection Ht as -> -> ->.
Qed.
End rotation.

(** ** Concrete runs *)

Section demo.
#[local] Existing Instances demo_unicode demo_aead demo_argon2 demo_platform demo_env json_config json_anchor compact_config.

(** The demo vault under Argon2id, given a password, then a recovery phrase, then
    the phrase redeemed; and sealed and unsealed. *)
Definition argon_kdf : KDFConfig := mkKDF "ARGON2ID" 0 "" 0 0 0 65536 3 4.
Definition argon_handle : Handle := mkHandle (set_Config demo_vault (set_wrap demo_config argon_kdf "" "")) "".
Definition handle_of (r : St * result Handle) : Handle := match r.2 with Ok h => h | Err _ => argon_handle end.
Lemma run_ok r : is_ok r.2 = true → r = (r.1, Ok (handle_of r)).
Proof. unfold handle_of. destruct r as [s' [h|e]]; done. Qed.

Definition changed : St * result Handle := ChangePassword true argon_handle "new-password" empty_st.
Strategy -100 [changed].
Lemma changed_ok : is_ok changed.2 = true.
Proof. vm_compute. reflexivity. Qed.
Lemma changed_run : ChangePassword true argon_handle "new-password" empty_st = (changed.1, Ok (handle_of changed)).
Proof. exact (run_ok changed changed_ok). Qed.

Lemma ChangePassword_rewraps_witness :
  unlockWith (v_Config (h_vault (handle_of changed))) "new-password" WrapTypePassword = Ok (v_keys (h_vault argon_handle)).
Proof. exact (proj1 (ChangePassword_rewraps true argon_handle "new-password" empty_st _ _ changed_run)). Defined.

(** The phrase and its commit. *)
Definition prepared : St * result (string * (Handle → M Handle)) := PrepareRecovery true (handle_of changed) changed.1.
Strategy -100 [prepared].
Definition prepared_commit : Handle → M Handle := match prepared.2 with Ok (_, f) => f | Err _ => mret end.
Definition prepared_phrase : string := match prepared.2 with Ok (p, _) => p | Err _ => "" end.
Lemma prepared_run : PrepareRecovery true (handle_of changed) changed.1 = (prepared.1, Ok (prepared_phrase, prepared_commit)).
Proof.
  assert (E : ∀ r : St * result (string * (Handle → M Handle)), is_ok r.2 = true →
    r = (r.1, Ok (match r.2 with Ok (p, _) => p | Err _ => "" end, match r.2 with Ok (_, f) => f | Err _ => mret end)))
    by (intros [s' [[p f]|e]]; done).
  exact (E prepared eq_refl).
Qed.
Definition committed : St * result Handle := prepared_commit (handle_of changed) prepared.1.
Strategy -100 [committed].
Lemma committed_ok : is_ok committed.2 = true.
Proof. vm_compute. reflexivity. Qed.
Lemma committed_run : prepared_commit (handle_of changed) prepared.1 = (committed.1, Ok (handle_of committed)).
Proof. exact (run_ok committed committed_ok). Qed.

Lemma recovery_entry_opens_witness :
  ∃ secret e, canonicalRecoverySecret prepared_phrase = Ok secret ∧
    WrapEntries (v_Config (h_vault (handle_of committed))) = WrapEntries (v_Config (h_vault (handle_of changed))) ++ [e] ∧
    we_Type e = WrapTypeRecovery ∧ ∀ ver, unwrapEntry secret ver e = Ok (v_keys (h_vault (handle_of changed))).
Proof.
  exact (proj1 (recovery_entry_opens true (handle_of changed) (handle_of changed) changed.1 prepared.1
    prepared_phrase prepared_commit prepared.1 committed.1 (handle_of committed) prepared_run committed_run)).
Defined.

(** The phrase redeemed. *)
Definition phrase_id : string :=
  match List.last (WrapEntries (v_Config (h_vault (handle_of committed)))) (mkWrapEntry "" "" argon_kdf "" "" "") with e => we_ID e end.
Definition redeemed : St * result Handle := RedeemRecovery true (handle_of committed) phrase_id "third" committed.1.
Strategy -100 [redeemed].
Lemma redeemed_ok : is_ok redeemed.2 = true.
Proof. vm_compute. reflexivity. Qed.
Lemma redeemed_run : RedeemRecovery true (handle_of committed) phrase_id "third" committed.1 = (redeemed.1, Ok (handle_of redeemed)).
Proof. exact (run_ok redeemed redeemed_ok). Qed.

Lemma RedeemRecovery_replaces_witness :
  unlockWith (v_Config (h_vault (handle_of redeemed))) "third" WrapTypePassword = Ok (v_keys (h_vault (handle_of committed))).
Proof.
  exact (proj1 (proj2 (proj2 (proj2
    (RedeemRecovery_replaces true (handle_of committed) phrase_id "third" committed.1 redeemed.1 _ redeemed_run))))).
Defined.

(** Sealed and unsealed. *)
Definition sealed : St * result Handle := SealFormat (handle_of changed) changed.1.
Strategy -100 [sealed].
Lemma sealed_ok : is_ok sealed.2 = true.
Proof. vm_compute. reflexivity. Qed.
Lemma sealed_run : SealFormat (handle_of changed) changed.1 = (sealed.1, Ok (handle_of sealed)).
Proof. exact (run_ok sealed sealed_ok). Qed.
Definition unsealed : St * result Handle := UnsealFormat (handle_of sealed) sealed.1.
Strategy -100 [unsealed].
Lemma unsealed_ok : is_ok unsealed.2 = true.
Proof. vm_compute. reflexivity. Qed.
Lemma unsealed_run : UnsealFormat (handle_of sealed) sealed.1 = (unsealed.1, Ok (handle_of unsealed)).
Proof. exact (run_ok unsealed unsealed_ok). Qed.

Lemma changed_bare : all_bare (v_Config (h_vault (handle_of changed))).
Proof.
  unfold all_bare. apply List.Forall_forall. intros e He.
  assert (E : forallb (fun e => String.eqb (we_AAD e) "") (WrapEntries (v_Config (h_vault (handle_of changed)))) = true)
    by (vm_compute; reflexivity).
  apply String.eqb_eq. exact (proj1 (forallb_forall _ _) E e He).
Qed.

Lemma SealFormat_keeps_unlock_witness :
  Version (v_Config (h_vault (handle_of sealed))) = sealedVersion ∧
  WrappedKeys (v_Config (h_vault (handle_of sealed))) = "".
Proof.
  destruct (SealFormat_keeps_unlock (handle_of changed) changed.1 sealed.1 _ changed_bare sealed_run) as (A & _ & B & _).
  split; [exact A|exact B].
Defined.

Lemma seal_unseal_witness : Version (v_Config (h_vault (handle_of unsealed))) = 2.
Proof.
  refine (proj1 (seal_unseal (handle_of changed) (handle_of sealed) (handle_of unsealed) changed.1 sealed.1 sealed.1 unsealed.1
    sealed_run unsealed_run _)).
  assert (E : String.eqb (WrappedKeys (v_Config (h_vault (handle_of changed)))) "" = false) by (vm_compute; reflexivity).
  apply String.eqb_neq. exact E.
Defined.
End demo.
