(* ===== verification/UserPath.v ===== *)
(** The paths a user types (internal/userpath/userpath.go): expansion, the checks
    before a vault is created, and the folders of sync clients.  What the operating
    system answers, [os.Stat], [filepath.Glob] and [os.LookupEnv], are the fields of
    [Host]; paths are slash-separated. *)
From S2P Require Export AppDir GoPathFacts.

(** What [os.Stat] says of a path. *)
Inductive stat_result : Type := IsDir | IsFile | Missing | StatErr (e : err).

Class Host := {
  host_stat : string → stat_result;
  host_glob : string → list string;
  host_lookupenv : string → option string
}.

(** ** [os.ExpandEnv] *)

Definition isAlphaNum (c : ascii) : bool :=
  Ascii.eqb c "_" || in_range 48 57 c || in_range 97 122 c || in_range 65 90 c.
Definition isShellSpecialVar (c : ascii) : bool :=
  existsb (Ascii.eqb c) ["*"; "#"; "$"; "@"; "!"; "?"; "-"]%char || in_range 48 57 c.
(** The bytes up to the first [stop], when there is one. *)
Fixpoint until (stop : ascii) (s : string) : option string :=
  match s with
  | EmptyString => None
  | String c s' => if Ascii.eqb c stop then Some "" else String c <$> until stop s'
  end.
Fixpoint alnum_prefix (s : string) : string :=
  match s with
  | String c s' => if isAlphaNum c then String c (alnum_prefix s') else ""
  | EmptyString => ""
  end.
Definition brace_close : ascii := "}".
(** [getShellName] on a non-empty string: the name and how many bytes it took. *)
Definition getShellName (s : string) : string * nat :=
  match s with
  | EmptyString => ("", 0)
  | String c s' =>
      if Ascii.eqb c "{" then
        match s' with
        | String d (String e _) =>
            if isShellSpecialVar d && Ascii.eqb e brace_close then (String d "", 3)
            else match until brace_close s' with
                 | Some "" => ("", 2)
                 | Some n => (n, String.length n + 2)
                 | None => ("", 1)
                 end
        | _ => match until brace_close s' with
               | Some "" => ("", 2)
               | Some n => (n, String.length n + 2)
               | None => ("", 1)
               end
        end
      else if isShellSpecialVar c then (String c "", 1)
      else (alnum_prefix s, String.length (alnum_prefix s))
  end.

Section userpath.
Context `{Platform} `{Host}.

(** [os.ExpandEnv]; one unit of fuel per byte. *)
Fixpoint expand_env_fuel (fuel : nat) (s : string) : string :=
  match fuel, s with
  | S f, String c s' =>
      if Ascii.eqb c "$" && negb (String.eqb s' "") then
        let '(name, w) := getShellName s' in
        (if String.eqb name "" then (if (0 <? w)%nat then "" else "$") else getenv name)
          +:+ expand_env_fuel f (str_drop w s')
      else String c (expand_env_fuel f s')
  | _, _ => s
  end.
Definition ExpandEnv (s : string) : string := expand_env_fuel (String.length s) s.

(** internal/userpath/userpath.go:55-83 [expandPercentEnv]; one unit of fuel per
    byte. *)
Fixpoint percent_fuel (fuel : nat) (s : string) : string :=
  match fuel, s with
  | S f, String c s' =>
      if negb (Ascii.eqb c "%") then String c (percent_fuel f s')
      else
        match until "%" s' with
        | None => String c (percent_fuel f s')
        | Some "" => "%%" +:+ percent_fuel f (str_drop 1 s')
        | Some name =>
            match host_lookupenv name with
            | Some val => val
            | None => "%" +:+ name +:+ "%"
            end +:+ percent_fuel f (str_drop (String.length name + 1) s')
        end
  | _, _ => ""
  end.
(** internal/userpath/userpath.go:55-83 [expandPercentEnv] *)
Definition expandPercentEnv (s : string) : string := percent_fuel (String.length s) s.

(** internal/userpath/userpath.go:33-53 [Expand] *)
Definition Expand (input : string) : result string :=
  let s := trim_space input in
  if String.eqb s "" then Err (ENew "vault path is required")
  else
    let s := expandPercentEnv (ExpandEnv s) in
    if String.eqb s "~" || has_prefix s "~/" || has_prefix s "~\" then
      match UserHomeDir with
      | Ok home =>
          if String.eqb (trim_space home) ""
          then Err (ENew "cannot expand ~ because the user home directory is unknown")
          else Ok (path_clean (if String.eqb s "~" then home else path_join [home; str_drop 2 s]))
      | Err _ => Err (ENew "cannot expand ~ because the user home directory is unknown")
      end
    else if has_prefix s "~" then Err (ENew "cannot expand %q; use ~/path instead of another user's home shortcut")
    else Ok (path_clean s).

(** internal/userpath/userpath.go:19-29 [Abs] *)
Definition Abs (input : string) : result string :=
  expanded ← Expand input;
  abs ← filepath_abs expanded;
  Ok (path_clean abs).

(** internal/userpath/userpath.go:147-150 [isVolumeRoot] *)
Definition isVolumeRoot (p : string) : bool :=
  let p := path_clean p in String.eqb (path_dir p) p.

(** [strings.IndexAny(rest, `/\`)]. *)
Fixpoint before_separator (s : string) : string :=
  match s with
  | EmptyString => ""
  | String c s' => if Ascii.eqb c slash || Ascii.eqb c backslash then "" else String c (before_separator s')
  end.
Fixpoint ltrim_separators (s : string) : string :=
  match s with
  | String c s' => if Ascii.eqb c slash || Ascii.eqb c backslash then ltrim_separators s' else s
  | EmptyString => ""
  end.
(** internal/userpath/userpath.go:152-168 [firstMissingComponent]; there are no
    volume names on a slash-separated system. *)
Definition firstMissingComponent (abs : string) : string :=
  let p := path_clean abs in
  if negb (path_is_abs p) then p else "/" +:+ before_separator (ltrim_separators p).

(** internal/userpath/userpath.go:124-145 [nearestExistingParent]; [None] when the
    fuel is used up. *)
Fixpoint nearest_fuel (fuel : nat) (p : string) : option (result string) :=
  match fuel with
  | O => None
  | S f =>
      let parent := path_dir p in
      if String.eqb parent p then
        Some (match host_stat parent with
              | IsDir | IsFile => Ok parent
              | Missing => Err (ESentinel "os.ErrNotExist")
              | StatErr e => Err e
              end)
      else
        match host_stat parent with
        | IsDir => Some (Ok parent)
        | IsFile => Some (Err (ENew ("nearest existing parent " +:+ parent +:+ " is not a directory")))
        | StatErr e => Some (Err e)
        | Missing => nearest_fuel f parent
        end
  end.
(** internal/userpath/userpath.go:124-145 [nearestExistingParent]: an absolute path
    takes at most as many rounds as it has bytes ([nearestExistingParent_total]). *)
Definition nearestExistingParent (path : string) : result string :=
  match nearest_fuel (S (String.length (path_clean path))) (path_clean path) with
  | Some r => r
  | None => Err (ENew "out of fuel")
  end.

(** internal/userpath/userpath.go:87-122 [ValidateCreatableVaultPath] *)
Definition ValidateCreatableVaultPath (absPath : string) : result unit :=
  if String.eqb (trim_space absPath) "" then Err (ENew "vault path is required")
  else
    abs ← filepath_abs absPath;
    let abs := path_clean abs in
    match host_stat abs with
    | IsDir => Ok tt
    | IsFile => Err (ENew (str_concat ["vault path "; abs; " exists and is not a directory"]))
    | StatErr e => Err e
    | Missing =>
        if negb (String.eqb GOOS "windows") && (String.eqb abs "/user" || has_prefix abs "/user/")
        then Err (ENew (str_concat [abs; " is under /user, which is normally not a writable home directory. Use ~/Nextcloud/seavault, /Users/<name>/Nextcloud/seavault on macOS, or /home/<name>/Nextcloud/seavault on Linux"]))
        else
          parent ← nearestExistingParent abs;
          if isVolumeRoot parent
          then Err (ENew (str_concat ["parent directory "; firstMissingComponent abs; " does not exist. Create or choose an existing local cloud-sync folder first; examples: ~/Nextcloud/seavault, ~/Dropbox/seavault, or ~/OneDrive/seavault"]))
          else match host_stat parent with
               | IsDir => Ok tt
               | IsFile => Err (ENew (str_concat ["nearest existing parent "; parent; " is not a directory"]))
               | Missing => Err (ESentinel "os.ErrNotExist")
               | StatErr e => Err e
               end
    end.

(** ** Sync folders *)

(** internal/userpath/userpath.go:176-179 [SyncRoot] *)
Record SyncRoot : Type := mkSyncRoot { sr_Provider : string; sr_Path : string }.
#[global] Instance SyncRoot_eq_dec : EqDecision SyncRoot.
Proof. solve_decision. Defined.

(** internal/userpath/userpath.go:189-198 [SyncFolderSegmentNames] *)
Definition SyncFolderSegmentNames : list string :=
  ["Dropbox"; "Nextcloud"; "Sync"; "OneDrive"; "com~apple~CloudDocs"; "iCloudDrive"; "Google Drive"; "My Drive"].
(** internal/userpath/userpath.go:205-205 [SyncFolderSegmentPrefixes] *)
Definition SyncFolderSegmentPrefixes : list string := ["OneDrive-"; "GoogleDrive-"].
(** internal/userpath/userpath.go:214-214 [syncthingMarkers] *)
Definition syncthingMarkers : list string := [".stfolder"; ".stignore"; ".stversions"].

Definition stat_ok (r : stat_result) : bool := match r with IsDir | IsFile => true | _ => false end.
(** internal/userpath/userpath.go:217-224 [hasSyncthingMarker] *)
Definition hasSyncthingMarker (dir : string) : bool :=
  existsb (fun m => stat_ok (host_stat (path_join [dir; m]))) syncthingMarkers.

(** internal/userpath/userpath.go:249-259 [DetectSyncRoots]: the closure [addDir];
    [out] holds what was seen, since a key is seen when its root is appended. *)
Definition addDir (out : list SyncRoot) (provider path : string) : list SyncRoot :=
  let r := mkSyncRoot provider (path_clean path) in
  if bool_decide (r ∈ out) then out
  else match host_stat (path_clean path) with IsDir => out ++ [r] | _ => out end.
(** internal/userpath/userpath.go:260-269 [DetectSyncRoots]: the closure [addGlob] *)
Definition addGlob (out : list SyncRoot) (provider pattern : string) : list SyncRoot :=
  fold_left (fun out m => addDir out provider m) (sort_strings (host_glob pattern)) out.

(** internal/userpath/userpath.go:294-299 [DetectSyncRoots]: the order of the result *)
Definition root_before (a b : SyncRoot) : bool :=
  if negb (String.eqb (sr_Path a) (sr_Path b)) then str_gtb (sr_Path b) (sr_Path a)
  else str_gtb (sr_Provider b) (sr_Provider a).

(** internal/userpath/userpath.go:242-301 [DetectSyncRoots] *)
Definition DetectSyncRoots (home goos : string) : list SyncRoot :=
  let home := trim_space home in
  if String.eqb home "" then []
  else
    let out := addDir [] "dropbox" (path_join [home; "Dropbox"]) in
    let out := addDir out "nextcloud" (path_join [home; "Nextcloud"]) in
    let syncDir := path_join [home; "Sync"] in
    let out := if hasSyncthingMarker syncDir then addDir out "syncthing" syncDir else out in
    let out := addDir out "onedrive" (path_join [home; "OneDrive"]) in
    let out :=
      if String.eqb goos "darwin" then
        let out := addGlob out "onedrive" (path_join [home; "Library"; "CloudStorage"; "OneDrive-*"]) in
        let out := addDir out "icloud" (path_join [home; "Library"; "Mobile Documents"; "com~apple~CloudDocs"]) in
        addGlob out "googledrive" (path_join [home; "Library"; "CloudStorage"; "GoogleDrive-*"; "My Drive"])
      else if String.eqb goos "windows" then
        let out := addDir out "icloud" (path_join [home; "iCloudDrive"]) in
        let out := addDir out "googledrive" (path_join [home; "Google Drive"]) in
        addDir out "googledrive" "G:\My Drive"
      else out in
    go_sort root_before out.

(** internal/userpath/userpath.go:315-322 [SuggestedVaultPaths]: the closure [add] *)
Definition add_path (out : list string) (p : string) : list string :=
  let p := path_clean p in
  if String.eqb p "." || bool_decide (p ∈ out) then out else out ++ [p].
(** internal/userpath/userpath.go:308-330 [SuggestedVaultPaths] *)
Definition SuggestedVaultPaths : list string :=
  match UserHomeDir with
  | Ok home =>
      if String.eqb (trim_space home) "" then ["~/Nextcloud/seavault"; "~/Dropbox/seavault"; "~/OneDrive/seavault"]
      else
        let out := fold_left (fun out r => add_path out (path_join [sr_Path r; "seavault"])) (DetectSyncRoots home GOOS) [] in
        let out := add_path out (path_join [home; "Nextcloud"; "seavault"]) in
        let out := add_path out (path_join [home; "open-seavault-rclone"]) in
        sort_strings out
  | Err _ => ["~/Nextcloud/seavault"; "~/Dropbox/seavault"; "~/OneDrive/seavault"]
  end.
End userpath.
