(* ===== verification/MetaDir.v ===== *)
(** Where a vault keeps its metadata and what its folder says about
    synchronisation (internal/vault/metadir.go). *)
From S2P Require Export UserPath ManifestStore.
Local Open Scope Z_scope.

Definition ErrAmbiguousMetadataDir : err := ESentinel "ErrAmbiguousMetadataDir".

Section resolve.
Context `{Env}.

(** internal/vault/metadir.go:34-40 [ResolveMetaDir]: the loop over the names *)
Definition probe_name (root : string) (found : list string) (n : string) : M (list string) :=
  r ← try (os_Stat (os_segs (path_join [root; n; ConfigFileName])));
  match r with
  | Ok _ => mret (found ++ [n])
  | Err e => if not_exist e then mret found else fail e
  end.

(** internal/vault/metadir.go:32-48 [ResolveMetaDir] *)
Definition ResolveMetaDir (root : string) : M (string * bool) :=
  found ← mfold (probe_name root) [] MetadataDirNames;
  match found with
  | [] => mret (List.hd "" MetadataDirNames, false)
  | [n] => mret (n, true)
  | _ => fail ErrAmbiguousMetadataDir
  end.
End resolve.

(** ** Sync-client folders *)

(** internal/vault/metadir.go:69-69 [extraSyncClientAliases] *)
Definition extraSyncClientAliases : list string := ["ownCloud"; "iCloud Drive"; "Syncthing"].
(** internal/vault/metadir.go:75-75 [extraOrgSuffixedSyncPrefixes] *)
Definition extraOrgSuffixedSyncPrefixes : list string := ["Box-"].

Section sync.
Context `{Platform}.

(** [filepath.ToSlash]. *)
Definition ToSlash (p : string) : string :=
  if String.eqb GOOS "windows" then replace_byte backslash slash p else p.

(** internal/vault/metadir.go:95-110 [hasSyncClientSegment]: one segment *)
Definition sync_segment (seg : string) : bool :=
  negb (String.eqb seg "") &&
  (existsb (equal_fold seg) (SyncFolderSegmentNames ++ extraSyncClientAliases) ||
   existsb (fun prefix => (String.length prefix <? String.length seg)%nat &&
                          equal_fold (str_take (String.length prefix) seg) prefix)
     (SyncFolderSegmentPrefixes ++ extraOrgSuffixedSyncPrefixes)).

(** internal/vault/metadir.go:86-113 [hasSyncClientSegment] *)
Definition hasSyncClientSegment (root : string) : bool := existsb sync_segment (split_slash (ToSlash root)).

(** internal/vault/metadir.go:123-131 [SyncClientPreflightNote] *)
Definition SyncClientPreflightNote (root : string) : string :=
  if negb (hasSyncClientSegment root) then ""
  else str_concat
    ["note: new vaults keep their encrypted data in the visible SeaVaultData directory. ";
     "If you open an older vault stored as .seavault, enable hidden-file sync in your client. ";
     "A vault created by this version is not found by open-seavault-rclone 0.15.0 or older on another device ";
     "(it reports a " +:+ String (ascii_of_N 34) "no such file" +:+ String (ascii_of_N 34)
       " error on .seavault/vault.json); upgrade every device before creating new vaults in a shared folder."].

(** internal/vault/metadir.go:140-146 [LegacyOpenPreflightNote] *)
Definition LegacyOpenPreflightNote (root : string) : string :=
  if negb (hasSyncClientSegment root) then ""
  else str_concat
    ["note: this vault keeps its encrypted data in the hidden .seavault directory; ";
     "enable hidden-file synchronization in your sync client so it reaches your other devices."].
End sync.
