(* ===== verification/Device.v ===== *)
(** This installation's identity and the inventory of readers it has seen
    (internal/appdir/deviceid.go, internal/vault/readers.go). *)
From S2P Require Export AppDir ManifestStore Rotation.
Local Open Scope Z_scope.

(** internal/appdir/deviceid.go:22-22 [deviceIDFileName] *)
Definition deviceIDFileName : string := "device-id.json".
(** internal/appdir/deviceid.go:27-29 [deviceIDStore] *)
Record deviceIDStore : Type := mkDeviceIDStore { ds_DeviceID : string }.

(** internal/vault/readers.go:21-34 [ReaderRecord] *)
Record ReaderRecord : Type := mkReaderRecord {
  rr_DeviceID : string;
  rr_SupportedFormat : Z;
  rr_Version : Z;
  rr_LastSeen : string
}.
(** internal/vault/readers.go:40-42 [readerInventory] *)
Record readerInventory : Type := mkInventory { inv_Readers : gmap string ReaderRecord }.

(** internal/appdir/deviceid.go:44-54 [validDeviceID] *)
Definition validDeviceID (s : string) : bool :=
  (String.length s =? 32)%nat && forallb (fun c => in_range 48 57 c || in_range 97 102 c) (list_ascii_of_string s).

Section device.
Context `{Platform} `{Env} `{JD : JSON deviceIDStore}.

(** internal/appdir/deviceid.go:32-38 [deviceIDPath] *)
Definition deviceIDPath : result fpath :=
  base ← DataDir; mret (os_segs (path_join [base; deviceIDFileName])).

(** internal/appdir/deviceid.go:102-116 [readDeviceID] *)
Definition readDeviceID (p : fpath) : M (option string) :=
  r ← try (os_ReadFile p);
  mret (match r with
        | Err _ => None
        | Ok data =>
            match unmarshal data with
            | None => None
            | Some st => let id := trim_space (ds_DeviceID st) in if validDeviceID id then Some id else None
            end
        end).

(** [defer os.Remove(tmpName)], run when [writeDeviceID] returns. *)
Definition removing (tmp : fpath) (m : M unit) : M unit :=
  r ← try m; _ ← try (os_Remove tmp); lift r.

(** internal/appdir/deviceid.go:120-147 [writeDeviceID] *)
Definition writeDeviceID (p : fpath) (id : string) : M unit :=
  tmp ← os_CreateTemp (dir_of p) ".tmp-device-";
  removing tmp
    (w ← try (os_Write tmp (marshal (mkDeviceIDStore id) ++ [Byte.x0a]));
     _ ← match w with Ok _ => mret tt | Err e => _ ← try os_Quiet; fail e end;
     c ← try os_Quiet;
     _ ← match c with Ok _ => mret tt | Err e => _ ← try os_Quiet; fail e end;
     _ ← os_Quiet;
     r ← try (os_Rename tmp p);
     match r with Ok _ => mret tt | Err e => fail (EWrap "persist device id: " e) end).

(** internal/appdir/deviceid.go:79-96 [DeviceID]: what a first use does *)
Definition mint_device (p : fpath) : M string :=
  buf ← randomBytes 16;
  let id := hex_encode buf in
  _ ← os_MkdirAll (dir_of p);
  _ ← writeDeviceID p id;
  landed ← readDeviceID p;
  mret (match landed with Some l => l | None => id end).

(** internal/appdir/deviceid.go:71-97 [DeviceID] *)
Definition DeviceID : M string :=
  p ← lift deviceIDPath;
  r ← readDeviceID p;
  match r with Some id => mret id | None => mint_device p end.

(** internal/vault/vault.go:617-623 [resolveDeviceID] *)
Definition resolveDeviceID : M string :=
  r ← try DeviceID; mret (match r with Ok id => id | Err _ => "" end).
End device.

Section readers.
Context `{Platform} `{Env} `{JI : JSON readerInventory} `{JL : JSON LegacyID}.

(** internal/vault/readers.go:52-58 [readerStorePath] *)
Definition readerStorePath (vaultID : string) : result fpath :=
  base ← DataDir; mret (os_segs (path_join [base; "vault-readers"; vaultID +:+ ".json"])).

(** internal/vault/readers.go:64-81 [loadReaderInventory]; the inventory beside an
    error is empty. *)
Definition loadReaderInventory (p : fpath) : M readerInventory :=
  r ← try (os_ReadFile p);
  match r with
  | Err e => if not_exist e then mret (mkInventory ∅) else fail e
  | Ok data => mret (match unmarshal data with Some inv => inv | None => mkInventory ∅ end)
  end.

(** internal/vault/readers.go:89-109 [recordReaderSignal] *)
Definition recordReaderSignal (v : Vault) : M unit :=
  if String.eqb (v_deviceID v) "" then mret tt
  else
    match readerStorePath (ID v) with
    | Err _ => mret tt
    | Ok path =>
        r ← try (loadReaderInventory path);
        let inv := match r with Ok inv => inv | Err _ => mkInventory ∅ end in
        t ← now;
        let rec := mkReaderRecord (v_deviceID v) SupportedFormat (Version (v_Config v)) (format_rfc3339nano t) in
        _ ← try (atomicWriteFile path (marshal (mkInventory (<[v_deviceID v := rec]> (inv_Readers inv)))));
        mret tt
    end.

(** internal/vault/readers.go:116-131 [ReaderInventory] *)
Definition ReaderInventory (v : Vault) : M (list ReaderRecord) :=
  match readerStorePath (ID v) with
  | Err _ => mret []
  | Ok path =>
      r ← try (loadReaderInventory path);
      match r with
      | Err _ => mret []
      | Ok inv =>
          l ← range (inv_Readers inv);
          mret (go_sort (fun a b => str_gtb (rr_DeviceID b) (rr_DeviceID a)) (map snd l))
      end
  end.
End readers.
