(* ===== verification/OpenVault.v ===== *)
(** Creating and opening a vault (the first half of internal/vault/vault.go): the
    composition of key derivation, the configuration gate, the device stores and
    the content layout. *)
From S2P Require Export MetaDir Device VaultOps.
Local Open Scope Z_scope.

Definition ErrConfigTooLarge : err := ESentinel "ErrConfigTooLarge".
Definition ErrExists (p : string) : err := ENew ("vault already exists at " +:+ p).
(** internal/vault/crypto.go:534-534 [maxConfigBytes] *)
Definition maxConfigBytes : Z := 1048576.
(** internal/vault/crypto.go:535-535 [maxWrapEntries] *)
Definition maxWrapEntries : Z := 64.
(** internal/vault/vault.go:26-26 [MetadataDirName] *)
Definition MetadataDirName : string := ".seavault".

(** internal/vault/vault.go:177-180 [CreateOptions] *)
Record CreateOptions : Type := mkCreateOptions { co_Chunk : ChunkParams; co_KDF : KDFConfig }.

(** internal/vault/crypto.go:71-73 [DefaultKDFConfig] *)
Definition DefaultKDFConfig : KDFConfig :=
  mkKDF "ARGON2ID" 0 "" 0 0 0 DefaultArgon2Memory DefaultArgon2Time DefaultArgon2Threads.

(** What an open hands back: the vault, its anchor note and its preflight note. *)
Record Opened : Type := mkOpened { op_handle : Handle; op_openNote : string }.

(** internal/vault/vault.go:589-589 [PreflightNote] *)
Definition PreflightNote (o : Opened) : string := op_openNote o.
(** internal/vault/vault.go:596-596 [FreshnessAnchorNote] *)
Definition FreshnessAnchorNote (o : Opened) : string := h_anchorNote (op_handle o).
(** internal/vault/vault.go:610-610 [DeviceID] *)
Definition Vault_DeviceID (v : Vault) : string := v_deviceID v.

Section openvault.
Context `{GoUnicode} `{AEAD} `{Argon2} `{Platform} `{Host} `{Env}.
Context `{JM : JSON ManifestRecord} `{JX : JSON Index} `{JL : JSON LegacyID}.
Context `{JA : JSON freshnessAnchor} `{JV : JSON VaultConfig} `{!CompactJSON VaultConfig}.
Context `{JD : JSON deviceIDStore} `{JI : JSON readerInventory}.

(** internal/vault/crypto.go:539-553 [readCapped] *)
Definition readCapped (p : fpath) (max : Z) : M bytes :=
  b ← os_ReadFile p;
  if max <? Z.of_nat (length b) then fail (EWrap "" ErrConfigTooLarge) else mret b.

(** internal/vault/vault.go:356-383 [ReadConfig] *)
Definition ReadConfig (root : string) : M VaultConfig :=
  root ← lift (Abs root);
  '(name, _) ← ResolveMetaDir root;
  cfgBytes ← readCapped (os_segs (path_join [root; name; ConfigFileName])) maxConfigBytes;
  match unmarshal cfgBytes with
  | None => fail (ENew "invalid character in vault.json")
  | Some cfg =>
      if maxWrapEntries <? Z.of_nat (length (WrapEntries cfg)) then fail (EWrap "" ErrConfigTooLarge)
      else if String.eqb (VaultID cfg) "" then mret (set_VaultID cfg (legacyVaultID root cfg))
      else mret cfg
  end.

(** A vault starts with an empty cache. *)
Definition fresh_cache : M unit := modify (fun s => mkSt (st_files s) (st_tick s) None 0 None).

(** internal/vault/vault.go:297-325 [CreateWithOptions]: the configuration of a new
    vault *)
Definition new_config (params : ChunkParams) (kdf : KDFConfig) (id createdAt wrapped nonce : string) : VaultConfig :=
  mkConfig 2 0 0 id createdAt kdf
    (mkCrypto "AES-256-GCM" "AES-256-GCM" "AES-256-GCM" "HMAC-SHA256(indexKey, plaintextChunk)"
       "gear-hash content-defined chunking"
       "cloud-folder content-addressed chunks plus encrypted sharded manifests"
       "encrypted-sharded-manifests-v2" 256 0)
    params wrapped nonce [] "".

(** internal/vault/vault.go:243-354 [CreateWithOptions]: from the checked root and
    parameters on *)
Definition create_at (root : string) (password : string) (params : ChunkParams) (kdfCfg : KDFConfig) : M unit :=
  r ← try (ResolveMetaDir root);
  '(name, exists_) ← match r with
    | Err e => if errors_is "ErrAmbiguousMetadataDir" e then fail (ErrExists root) else fail e
    | Ok ne => mret ne
    end;
  if exists_ : bool then fail (ErrExists (path_join [root; name]))
  else
    let meta := path_join [root; name] in
    _ ← os_MkdirAll (os_segs (path_join [meta; "objects"; "chunks"]));
    _ ← os_MkdirAll (os_segs (path_join [meta; ManifestDirName]));
    let configPath := os_segs (path_join [meta; ConfigFileName]) in
    st ← try (os_Stat configPath);
    _ ← match st with
        | Ok _ => fail (ErrExists meta)
        | Err e => if not_exist e then mret tt else fail e
        end;
    salt ← randomBytes 32;
    master ← randomBytes 32;
    indexKey ← randomBytes 32;
    vaultID ← randomHex 16;
    let kdfCfg := set_Salt kdfCfg (b64_encode salt) in
    let keys := mkKeys master indexKey in
    '(nonce, wrapped) ← wrap password kdfCfg keys;
    t ← now;
    let cfg := new_config params kdfCfg vaultID (format_rfc3339nano t) wrapped nonce in
    _ ← atomicWriteFile configPath (marshal cfg);
    chunkAEAD ← lift (newAESGCM (deriveSubkey master "chunk-aead"));
    indexAEAD ← lift (newAESGCM (deriveSubkey master "index-aead"));
    _ ← fresh_cache;
    EnsureContentLayout (mkVault root (os_segs meta) cfg keys chunkAEAD indexAEAD "").

(** internal/vault/vault.go:243-354 [CreateWithOptions] *)
Definition CreateWithOptions (root password : string) (opts : CreateOptions) : M unit :=
  root ← lift (Abs root);
  _ ← lift (ValidateCreatableVaultPath root);
  if String.eqb password "" then fail (ENew "password must not be empty")
  else
    let params := if bool_decide (co_Chunk opts = mkChunkParams 0 0 0) then DefaultChunkParams else co_Chunk opts in
    _ ← match Validate params with Some e => fail e | None => mret tt end;
    kdfCfg ← lift (NormalizeKDFConfig (co_KDF opts) true);
    create_at root password params kdfCfg.

(** internal/vault/vault.go:239-241 [Create] *)
Definition Create (root password : string) (params : ChunkParams) : M unit :=
  CreateWithOptions root password (mkCreateOptions params DefaultKDFConfig).

(** internal/vault/vault.go:515-547 [prepareOpen] *)
Definition prepareOpen (root secret : string) : M (string * VaultConfig * string * bool) :=
  abs ← lift (Abs root);
  if String.eqb secret "" then fail (ENew "password must not be empty")
  else
    cfg ← ReadConfig abs;
    if negb (Version cfg =? 1) && negb (Version cfg =? 2) && negb (Version cfg =? 3)
    then fail (ENew ("unsupported vault version " +:+ itoa (Version cfg)))
    else
      match formatTooNew (MinReader cfg) SupportedFormat with
      | Some e => fail e
      | None => '(metaName, metaExists) ← ResolveMetaDir abs; mret (abs, cfg, metaName, metaExists)
      end.

(** internal/vault/vault.go:555-584 [finishOpen] *)
Definition finishOpen (root metaName : string) (metaExists : bool) (cfg : VaultConfig) (keys : Keys) (opts : OpenOptions)
    : M Opened :=
  chunkAEAD ← lift (newAESGCM (deriveSubkey (MasterKey keys) "chunk-aead"));
  indexAEAD ← lift (newAESGCM (deriveSubkey (MasterKey keys) "index-aead"));
  _ ← fresh_cache;
  deviceID ← resolveDeviceID;
  let v := mkVault root (os_segs (path_join [root; metaName])) cfg keys chunkAEAD indexAEAD deviceID in
  note ← checkConfigIntegrity (mkHandle v "") opts;
  _ ← recordReaderSignal v;
  let openNote := if metaExists && String.eqb metaName MetadataDirName then LegacyOpenPreflightNote root else "" in
  _ ← EnsureContentLayout v;
  mret (mkOpened (mkHandle v note) openNote).

(** internal/vault/vault.go:463-478 [OpenWithOptions] *)
Definition OpenWithOptions (root password : string) (opts : OpenOptions) : M Opened :=
  '(root, cfg, metaName, metaExists) ← prepareOpen root password;
  keys ← lift (unlockWith cfg password WrapTypePassword);
  finishOpen root metaName metaExists cfg keys opts.

(** internal/vault/vault.go:455-457 [Open] *)
Definition Open_ (root password : string) : M Opened := OpenWithOptions root password (mkOpenOptions false).

(** internal/vault/vault.go:485-508 [OpenWithRecovery] *)
Definition OpenWithRecovery (root phrase : string) (opts : OpenOptions) : M (Opened * string) :=
  '(root, cfg, metaName, metaExists) ← prepareOpen root phrase;
  canon ← lift (canonicalRecoverySecret phrase);
  '(keys, entryID) ← lift (recoveryEntryFor cfg canon);
  v ← finishOpen root metaName metaExists cfg keys opts;
  mret (v, entryID).
End openvault.
