(* ===== verification/UserPathFacts.v ===== *)
(** The walk to the nearest existing parent terminates, and every folder the
    detector of sync clients reports is one the create-time note knows. *)
From S2P Require Import MetaDir.
Local Open Scope nat_scope.

(** ** Lengths of cleaned paths *)

(** The bytes of the segments, one more each for its separator. *)
Fixpoint weight (l : list string) : nat :=
  match l with [] => 0 | x :: l => S (String.length x) + weight l end.

Lemma join_slash_weight l : l ≠ [] → S (String.length (join_slash l)) = weight l.
Proof.
  induction l as [|a l IH]; [done|]. intros _. destruct l as [|b l]; [cbn; lia|].
  rewrite join_slash_cons, str_length_app. cbn [String.length].
  specialize (IH ltac:(done)). change (weight (a :: b :: l)) with (S (String.length a) + weight (b :: l)). lia.
Qed.

Lemma split_slash_weight s : weight (split_slash s) = S (String.length s).
Proof.
  induction s as [|c s IH]; [done|]. cbn [split_slash]. destruct (ascii_dec c slash).
  - change (weight ("" :: split_slash s)) with (1 + weight (split_slash s)). cbn [String.length]. lia.
  - destruct (split_slash s) as [|h t] eqn:E; [by destruct (split_slash_nonnil s)|].
    change (weight (String c h :: t)) with (S (S (String.length h)) + weight t).
    change (weight (h :: t)) with (S (String.length h) + weight t) in IH. cbn [String.length]. lia.
Qed.

Lemma clean_seg_weight rooted out seg : weight (clean_seg rooted out seg) ≤ weight out + S (String.length seg).
Proof.
  unfold clean_seg. destruct (_ || _); [lia|]. destruct (String.eqb_spec seg "..") as [->|]; [|cbn; lia].
  destruct out as [|t out]; [destruct rooted; cbn; lia|]. destruct (String.eqb t ".."); cbn; lia.
Qed.

Lemma weight_rev l : weight (rev l) = weight l.
Proof.
  assert (weight_app : ∀ a b, weight (a ++ b) = weight a + weight b).
  { induction a as [|x a IH]; intros b; [done|]. cbn. rewrite IH. lia. }
  induction l as [|x l IH]; [done|]. cbn [rev]. rewrite weight_app. cbn. lia.
Qed.

Lemma clean_segs_weight rooted l : weight (clean_segs rooted l) ≤ weight l.
Proof.
  unfold clean_segs. rewrite weight_rev.
  enough (∀ out, weight (fold_left (clean_seg rooted) l out) ≤ weight out + weight l) as E by (apply (E [])).
  induction l as [|x l IH]; intros out; cbn [fold_left]; [cbn; lia|].
  pose proof (IH (clean_seg rooted out x)). pose proof (clean_seg_weight rooted out x).
  change (weight (x :: l)) with (S (String.length x) + weight l). lia.
Qed.

(** Cleaning never lengthens a path, except that the empty one becomes ["."]. *)
Lemma path_clean_length s : s ≠ "" → String.length (path_clean s) ≤ String.length s.
Proof.
  intros Hs. unfold path_clean. destruct (path_is_abs s) eqn:Ha.
  - apply has_prefix_inv in Ha as [t ->]. change ("/" +:+ t) with (String slash t).
    change (split_slash (String slash t)) with ("" :: split_slash t).
    change (clean_segs true ("" :: split_slash t)) with (clean_segs true (split_slash t)).
    pose proof (clean_segs_weight true (split_slash t)). pose proof (split_slash_weight t).
    destruct (clean_segs true (split_slash t)) as [|x l] eqn:E; cbn [String.length]; [cbn; lia|].
    pose proof (join_slash_weight (x :: l) ltac:(done)). lia.
  - pose proof (clean_segs_weight false (split_slash s)). pose proof (split_slash_weight s).
    destruct (clean_segs false (split_slash s)) as [|x l] eqn:E; [by destruct s; cbn in *; [|lia]|].
    pose proof (join_slash_weight (x :: l) ltac:(done)). lia.
Qed.

Lemma path_clean_nonempty s : path_clean s ≠ "".
Proof.
  unfold path_clean. destruct (path_is_abs s); [done|].
  assert (Hne : Forall (fun x => x ≠ "") (clean_segs false (split_slash s))).
  { unfold clean_segs. apply Forall_rev. generalize (Forall_nil_2 (fun x : string => x ≠ "")).
    generalize (@nil string). induction (split_slash s) as [|x l IH]; intros out Ho; [done|].
    cbn [fold_left]. apply IH. unfold clean_seg. destruct (String.eqb_spec x ""); [done|].
    destruct (String.eqb x "."); [done|]. destruct (String.eqb x ".."); [|by constructor].
    destruct out as [|t out]; [by repeat constructor|]. inversion Ho; subst.
    destruct (String.eqb t ".."); [by constructor|done]. }
  destruct (clean_segs false (split_slash s)) as [|x l]; [done|]. inversion Hne; subst.
  destruct l as [|y l]; [done|]. rewrite join_slash_cons. by destruct x.
Qed.

(** ** [path.Dir] climbs *)

Lemma path_split_app s : fst (path_split s) +:+ snd (path_split s) = s.
Proof.
  induction s as [|c s IH]; [done|]. cbn [path_split]. destruct (path_split s) as [d f]. cbn in IH |- *.
  destruct (String.eqb_spec d "") as [->|]; [destruct (ascii_dec c slash)|]; cbn; by f_equal.
Qed.

(** The parent of a cleaned path is itself, the current directory or shorter. *)
Lemma path_dir_climbs p : path_clean p = p → p ≠ "" →
  path_dir p = p ∨ path_dir p = "." ∨ String.length (path_dir p) < String.length p.
Proof.
  intros Hc Hp. unfold path_dir. pose proof (path_split_app p) as Hs.
  destruct (path_split p) as [d f]; cbn [fst snd] in *. destruct (decide (d = "")) as [->|Hd]; [by right; left|].
  destruct (decide (f = "")) as [->|Hf]; [rewrite str_app_nil in Hs; subst d; by left|].
  right; right. pose proof (path_clean_length d Hd). rewrite <- Hs, str_length_app. destruct f; [done|cbn; lia].
Qed.

Lemma path_dir_clean p : path_clean (path_dir p) = path_dir p.
Proof. apply path_clean_idem. Qed.

Section climb.
Context `{Host}.

Lemma nearest_fuel_enough n p : path_clean p = p → String.length p < n → nearest_fuel n p ≠ None.
Proof.
  revert p. induction n as [|n IH]; intros p Hc Hn; [lia|].
  assert (Hp : p ≠ "") by (intros ->; done). cbn [nearest_fuel].
  destruct (String.eqb_spec (path_dir p) p) as [|Hd]; [by destruct (host_stat _)|].
  destruct (host_stat (path_dir p)); try done.
  destruct (path_dir_climbs p Hc Hp) as [?|[E|?]]; [done| |].
  2: { apply IH. apply path_dir_clean. lia. }
  rewrite E in *. destruct n as [|n]; [destruct p; [done|cbn in Hn; lia]|].
  cbn [nearest_fuel]. change (path_dir ".") with ".". rewrite String.eqb_refl. by destruct (host_stat ".").
Qed.

(** The [k]-th folder above [p]. *)
Definition above (k : nat) (p : string) : string := Nat.iter k path_dir p.

Lemma above_dir k p : above k (path_dir p) = above (S k) p.
Proof. unfold above. by rewrite Nat.iter_succ_r. Qed.

(** What the walk answers at the [k]-th folder above [p], the ones below it missing. *)
Definition answer (k : nat) (p : string) : result string :=
  let a := above (S k) p in
  match host_stat a with
  | IsDir => Ok a
  | IsFile => if String.eqb a (above k p) then Ok a
              else Err (ENew ("nearest existing parent " +:+ a +:+ " is not a directory"))
  | Missing => Err (ESentinel "os.ErrNotExist")
  | StatErr e => Err e
  end.
Definition nearest_at (k : nat) (p : string) : Prop :=
  (∀ j, j < k → host_stat (above (S j) p) = Missing ∧ above (S j) p ≠ above j p) ∧
  (host_stat (above (S k) p) = Missing → above (S k) p = above k p).

Lemma nearest_fuel_spec n p r : nearest_fuel n p = Some r → ∃ k, k < n ∧ nearest_at k p ∧ r = answer k p.
Proof.
  revert p. induction n as [|n IH]; intros p; [done|]. cbn [nearest_fuel].
  change (path_dir p) with (above 1 p). destruct (String.eqb_spec (above 1 p) p) as [Hd|Hd].
  - intros [= <-]. exists 0. split; [lia|]. split; [split; [intros j Hj; lia|done]|].
    unfold answer. change (above 0 p) with p. rewrite (proj2 (String.eqb_eq _ _) Hd). by destruct (host_stat _).
  - assert (Hne : String.eqb (above 1 p) p = false) by (by apply String.eqb_neq).
    assert (Hstop : host_stat (above 1 p) ≠ Missing → nearest_at 0 p) by (intros E; split; [intros j Hj; lia|done]).
    destruct (host_stat (above 1 p)) eqn:E.
    4: rename e into e0.
    1,2,4: intros [= <-]; exists 0; split; [lia|]; split; [by apply Hstop|]; unfold answer;
      change (above 0 p) with p; by rewrite E, ?Hne.
    change (above 1 p) with (path_dir p). intros (k & Hk & [Hm Hl] & ->)%IH. exists (S k). split; [lia|].
    unfold nearest_at, answer in *. rewrite !above_dir in *. split; [split; [|done]|done].
    intros [|j] Hj; [done|]. destruct (Hm j) as [H1 H2]; [lia|]. by rewrite <- (above_dir (S j) p), <- (above_dir j p).
Qed.

Lemma nearest_spec path : let p := path_clean path in
  ∃ k, k ≤ String.length p ∧ nearest_at k p ∧ nearestExistingParent path = answer k p.
Proof.
  intros p. unfold nearestExistingParent. fold p.
  destruct (nearest_fuel (S (String.length p)) p) as [r|] eqn:E.
  - apply nearest_fuel_spec in E as (k & Hk & Ha & ->). exists k. split; [lia|done].
  - apply nearest_fuel_enough in E; [done|apply path_clean_idem|lia].
Qed.

(** C40. The walk up from the path of a new vault always ends, within as many rounds
    as the path has bytes: it answers for the first folder above the path that
    exists, every folder between it and the path being missing, and says "does not
    exist" only when the walk has reached the top. *)
Theorem nearestExistingParent_total path : let p := path_clean path in
  ∃ k, k ≤ String.length p ∧
    (∀ j, j < k → host_stat (above (S j) p) = Missing ∧ above (S j) p ≠ above j p) ∧
    (host_stat (above (S k) p) = Missing → above (S k) p = above k p) ∧
    nearestExistingParent path = answer k p.
Proof. destruct (nearest_spec path) as (k & Hk & [Hm Hl] & E). by exists k. Qed.

Lemma above_clean k p : path_clean p = p → path_clean (above k p) = above k p.
Proof. intros Hp. destruct k; [done|apply path_dir_clean]. Qed.
Lemma above_root k p : path_clean p = p → isVolumeRoot (above k p) = String.eqb (above (S k) p) (above k p).
Proof. intros Hp. unfold isVolumeRoot. by rewrite above_clean. Qed.

Context `{Platform}.

(** A path that passes the check of a new vault's location is an existing folder,
    or nothing is there and the first thing that exists above it is a folder other
    than the root: creating the vault never puts a tree of new folders directly under
    the root. *)
Theorem creatable_path_grounded p : ValidateCreatableVaultPath p = Ok tt →
  ∃ abs, filepath_abs p = Ok abs ∧ let a := path_clean abs in
    host_stat a = IsDir ∨
    ∃ k, (∀ j, j ≤ k → host_stat (above j a) = Missing) ∧
      host_stat (above (S k) a) = IsDir ∧ above (S (S k)) a ≠ above (S k) a.
Proof.
  unfold ValidateCreatableVaultPath. destruct (String.eqb _ ""); [done|].
  destruct (filepath_abs p) as [abs|e]; [|done]. cbn [mbind result_bind]. intros Hv. exists abs. split; [done|].
  set (a := path_clean abs) in *. cbv zeta. destruct (host_stat a) eqn:Ea; [by left|done| |done]. right.
  destruct (_ && _); [done|]. destruct (nearest_spec a) as (k & _ & [Hm _] & E). rewrite E in Hv.
  assert (Hc : path_clean a = a) by apply path_clean_idem. rewrite Hc in *.
  exists k. split; [intros [|j] Hj; [done|]; by apply Hm|]. unfold answer in Hv.
  destruct (host_stat (above (S k) a)) eqn:Ek; cbn [mbind result_bind] in Hv; try done.
  - split; [done|]. rewrite (above_root (S k) a Hc) in Hv. destruct (String.eqb_spec (above (S (S k)) a) (above (S k) a)); done.
  - destruct (String.eqb (above (S k) a) (above k a)); [|done]. cbn [mbind result_bind] in Hv. rewrite Ek in Hv. by destruct (isVolumeRoot _).
Qed.
End climb.

Definition demo_host : Host :=
  {| host_stat p := if String.eqb p "/home/u" then IsDir else if String.eqb p "/" then IsDir
                    else if String.eqb p "/home/u/Library/CloudStorage/OneDrive-Acme" then IsDir else Missing;
     host_glob p := if has_suffix p "OneDrive-*" then ["/home/u/Library/CloudStorage/OneDrive-Acme"] else [];
     host_lookupenv _ := None |}.
Definition demo_mac : Platform :=
  {| GOOS := "darwin"; getenv _ := ""; getwd := Ok "/"; UserHomeDir := Ok "/home/u" |}.

Lemma creatable_path_grounded_witness :
  @ValidateCreatableVaultPath demo_mac demo_host "/home/u/a/b" = Ok tt ∧
  ∃ abs, @filepath_abs demo_mac "/home/u/a/b" = Ok abs ∧ let a := path_clean abs in
    @host_stat demo_host a = IsDir ∨
    ∃ k, (∀ j, j ≤ k → @host_stat demo_host (above j a) = Missing) ∧
      @host_stat demo_host (above (S k) a) = IsDir ∧ above (S (S k)) a ≠ above (S k) a.
Proof.
  split; [by vm_compute|].
  apply (@creatable_path_grounded demo_host demo_mac). by vm_compute.
Defined.

(** ** The detector and the note *)


(** ** The detector and the note *)

Lemma split_replace c p :
  split_slash (replace_byte c slash p) = split_slash p ≫= (fun x => split_slash (replace_byte c slash x)).
Proof.
  induction p as [|d p IH]; [done|]. unfold replace_byte in *. cbn [str_flat_map split_slash].
  destruct (ascii_dec d c) as [->|Hd].
  - change (String slash "" +:+ ?t) with (String slash t).
    change (split_slash (String slash ?t)) with ("" :: split_slash t).
    destruct (ascii_dec c slash) as [Hs|Hs]; [cbn [mbind list_bind]; rewrite IH; done|].
    rewrite IH. pose proof (split_slash_nonnil p). destruct (split_slash p) as [|h t]; [done|].
    cbn [mbind list_bind str_flat_map]. by destruct (ascii_dec c c).
  - change (String d "" +:+ ?t) with (String d t). cbn [split_slash].
    destruct (ascii_dec d slash) as [Hs|Hs]; [cbn [mbind list_bind]; by rewrite IH|].
    pose proof (split_slash_nonnil p) as Hp. rewrite IH.
    destruct (split_slash p) as [|h t]; [done|]. cbn [mbind list_bind str_flat_map].
    destruct (ascii_dec d c); [done|]. change (String d "" +:+ ?t) with (String d t). cbn [split_slash].
    destruct (ascii_dec d slash); [done|].
    pose proof (split_slash_nonnil (str_flat_map (fun c0 => if ascii_dec c0 c then String slash "" else String c0 "") h)).
    by destruct (split_slash (str_flat_map _ h)).
Qed.

(** A name with neither separator stays a segment when the path is converted. *)
Definition slash_free (x : string) : bool := no_slash x && String.eqb (replace_byte backslash slash x) x.

Section noted.
Context `{Platform} `{Host}.

Lemma segment_noted p x : slash_free x = true → List.last (split_slash p) "" = x → sync_segment x = true →
  hasSyncClientSegment p = true.
Proof.
  intros [Hs Hb]%andb_true_iff (l & Hl)%last_split Hx. apply existsb_exists. exists x. split; [|done].
  apply String.eqb_eq in Hb. unfold ToSlash. destruct (String.eqb GOOS "windows").
  - rewrite split_replace, Hl, bind_app. apply in_or_app. right. cbn [mbind list_bind].
    rewrite Hb, split_slash_single by done. by left.
  - rewrite Hl. apply in_or_app. right. by left.
Qed.

(** What the note must know of a detected folder. *)
Definition noted (r : SyncRoot) : Prop :=
  hasSyncClientSegment (sr_Path r) = true ∨ List.last (split_slash (sr_Path r)) "" = "OneDrive-".

Lemma addDir_noted out provider path : Forall noted out → noted (mkSyncRoot provider (path_clean path)) →
  Forall noted (addDir out provider path).
Proof.
  intros Ho Hp. unfold addDir. destruct (bool_decide _); [done|]. destruct (host_stat _); try done.
  apply Forall_app. split; [done|]. by constructor.
Qed.

Lemma known_noted provider path x : plain_seg x → slash_free x = true → sync_segment x = true →
  List.last (split_slash path) "" = x → noted (mkSyncRoot provider (path_clean path)).
Proof. intros Hp Hf Hx Hl. left. apply (segment_noted _ x); [done|by apply clean_last|done]. Qed.

Lemma joined_noted provider l x : Forall (fun s => s ≠ "") l → l ≠ [] → plain_seg x → slash_free x = true →
  sync_segment x = true → noted (mkSyncRoot provider (path_clean (path_join (l ++ [x])))).
Proof. intros Hn Hl Hp Hf Hx. apply (known_noted provider _ x); try done. by apply path_join_last. Qed.

Lemma addGlob_noted out provider pattern : Forall noted out →
  (∀ m, m ∈ host_glob pattern → noted (mkSyncRoot provider (path_clean m))) →
  Forall noted (addGlob out provider pattern).
Proof.
  intros Ho Hm. unfold addGlob.
  assert (Hs : ∀ m, m ∈ sort_strings (host_glob pattern) → noted (mkSyncRoot provider (path_clean m))).
  { intros m Hin. apply Hm. by apply go_sort_in in Hin. }
  revert Hs out Ho. induction (sort_strings _) as [|m l IH]; intros Hs out Ho; [done|]. cbn [fold_left].
  apply IH; [intros m' Hm'; apply Hs; by right|]. apply addDir_noted; [done|]. apply Hs. by left.
Qed.

Lemma onedrive_noted m x : List.last (split_slash m) "" = "OneDrive-" +:+ x → GOOS ≠ "windows" →
  noted (mkSyncRoot "onedrive" (path_clean m)).
Proof.
  intros Hl Hg. assert (Hx : no_slash ("OneDrive-" +:+ x) = true).
  { pose proof (split_slash_no_slash m) as Hn. destruct (last_split _ _ Hl) as (l & E). rewrite E in Hn.
    apply Forall_app in Hn as [_ Hn]. by inversion Hn. }
  assert (Hc : List.last (split_slash (path_clean m)) "" = "OneDrive-" +:+ x) by (apply clean_last; by repeat split).
  destruct (decide (x = "")) as [->|Hne]; [by right|]. left. apply existsb_exists.
  exists ("OneDrive-" +:+ x). apply last_split in Hc as (l & Hc). cbn [sr_Path]. unfold ToSlash.
  apply String.eqb_neq in Hg. rewrite Hg, Hc. split; [apply in_or_app; right; by left|].
  destruct x as [|c x]; [done|]. unfold sync_segment. apply andb_true_iff. split; [done|]. apply orb_true_iff. right.
  by apply existsb_exists; exists "OneDrive-"; split; [left|].
Qed.

(** Every folder the detector of sync clients reports for this system is one for
    which the create-time note fires, whatever the file system holds: the two lists
    agree.  The one exception is a folder named exactly ["OneDrive-"], which the glob
    accepts and the note's prefix rule does not.  ([filepath.Glob] returns only
    names its pattern matches.) *)
Theorem detector_noted home
  (glob_onedrive : ∀ m, m ∈ host_glob (path_join [trim_space home; "Library"; "CloudStorage"; "OneDrive-*"]) →
    ∃ x, List.last (split_slash m) "" = "OneDrive-" +:+ x)
  (glob_google : ∀ m, m ∈ host_glob (path_join [trim_space home; "Library"; "CloudStorage"; "GoogleDrive-*"; "My Drive"]) →
    List.last (split_slash m) "" = "My Drive") :
  Forall (fun r => hasSyncClientSegment (sr_Path r) = true ∨ List.last (split_slash (sr_Path r)) "" = "OneDrive-")
    (DetectSyncRoots home GOOS).
Proof.
  change (Forall noted (DetectSyncRoots home GOOS)). unfold DetectSyncRoots.
  destruct (String.eqb_spec (trim_space home) "") as [|Hh]; [done|].
  assert (J : ∀ out provider l x, Forall noted out → Forall (fun s => s ≠ "") l → plain_seg x → slash_free x = true →
    sync_segment x = true → Forall noted (addDir out provider (path_join (trim_space home :: l ++ [x])))).
  { intros out provider l x Ho Hl Hp Hf Hx. apply addDir_noted; [done|].
    by apply (joined_noted provider (trim_space home :: l)); [constructor|..]. }
  assert (P : ∀ x, x ∈ ["Dropbox"; "Nextcloud"; "Sync"; "OneDrive"; "iCloudDrive"; "Google Drive"; "com~apple~CloudDocs"] →
    plain_seg x ∧ slash_free x = true ∧ sync_segment x = true).
  { apply Forall_forall. repeat constructor; done. }
  assert (J' : ∀ out provider l x, Forall noted out → Forall (fun s => s ≠ "") l →
    x ∈ ["Dropbox"; "Nextcloud"; "Sync"; "OneDrive"; "iCloudDrive"; "Google Drive"; "com~apple~CloudDocs"] →
    Forall noted (addDir out provider (path_join (trim_space home :: l ++ [x])))).
  { intros out provider l x Ho Hl Hx. destruct (P x Hx) as (?&?&?). by apply J. }
  set (out := if hasSyncthingMarker _ then _ else _).
  assert (Ho : Forall noted out).
  { unfold out. destruct (hasSyncthingMarker _); repeat (apply (J' _ _ []); [|done|by repeat constructor]); done. }
  clearbody out. rewrite Forall_forall. intros r Hr%go_sort_in. revert r Hr. rewrite <- Forall_forall.
  pose proof (J' _ "onedrive" [] "OneDrive" Ho ltac:(done) ltac:(by repeat constructor)) as Ho'. cbn [app] in Ho'.
  destruct (String.eqb_spec GOOS "darwin") as [Hd|_]; [|destruct (String.eqb_spec GOOS "windows") as [Hw|]; [|done]].
  - apply addGlob_noted; [apply (J' _ _ ["Library"; "Mobile Documents"]); [|by repeat constructor|by repeat constructor]|].
    + apply addGlob_noted; [done|]. intros m (x & Hx)%glob_onedrive. eapply onedrive_noted; [done|]. by rewrite Hd.
    + intros m Hm%glob_google. by apply (known_noted _ _ "My Drive").
  - apply addDir_noted; [repeat (apply (J' _ _ []); [|done|by repeat constructor]); done|].
    left. apply existsb_exists. exists "My Drive". cbn [sr_Path]. unfold ToSlash. rewrite Hw. by split; [right; left|].
Qed.
End noted.

Lemma detector_noted_witness :
  Forall (fun r => @hasSyncClientSegment demo_mac (sr_Path r) = true ∨ List.last (split_slash (sr_Path r)) "" = "OneDrive-")
    (@DetectSyncRoots demo_host "/home/u" "darwin") ∧
  map sr_Path (@DetectSyncRoots demo_host "/home/u" "darwin") = ["/home/u/Library/CloudStorage/OneDrive-Acme"].
Proof.
  split; [|by vm_compute]. apply (@detector_noted demo_mac demo_host "/home/u").
  - intros m Hm. vm_compute in Hm. apply list_elem_of_singleton in Hm as ->. by exists "Acme".
  - intros m Hm. vm_compute in Hm. by apply not_elem_of_nil in Hm.
Defined.

(** The exception, on a concrete folder. *)
Example detected_without_note :
  let host := {| host_stat p := if has_suffix p "OneDrive-" then IsDir else Missing;
                 host_glob p := if has_suffix p "OneDrive-*" then ["/home/u/Library/CloudStorage/OneDrive-"] else [];
                 host_lookupenv _ := None |} in
  map sr_Path (@DetectSyncRoots host "/home/u" "darwin") = ["/home/u/Library/CloudStorage/OneDrive-"] ∧
  @hasSyncClientSegment demo_mac "/home/u/Library/CloudStorage/OneDrive-" = false.
Proof. by vm_compute. Qed.
