(* ===== verification/DeviceFacts.v ===== *)
(** The installation's identity is stable: what a first use returned is what the
    file holds, and every later use reads it back. *)
From S2P Require Export GoPathFacts Device StoreFacts Fields.
Local Open Scope Z_scope.

Lemma hex_encode_chars (P : ascii → bool) l :
  forallb (fun n => P (hex_digit (N.of_nat n))) (seq 0 16) = true → forallb P (list_ascii_of_string (hex_encode l)) = true.
Proof.
  intros HP. assert (Hd : ∀ n, (n < 16)%N → P (hex_digit n) = true).
  { intros n Hn. rewrite forallb_forall in HP. specialize (HP (N.to_nat n)). rewrite N2Nat.id in HP. apply HP.
    apply in_seq. lia. }
  unfold hex_encode. rewrite list_ascii_of_string_of_list_ascii.
  induction l as [|b l IH]; [done|]. cbn [flat_map app forallb]. rewrite IH, andb_true_r. apply andb_true_iff.
  pose proof (Byte.to_N_bounded b) as Hb. split; apply Hd.
  - rewrite N.shiftr_div_pow2. apply N.Div0.div_lt_upper_bound. cbn. lia.
  - rewrite (N.land_ones _ 4). apply N.mod_lt. done.
Qed.

Lemma hex_valid l : length l = 16%nat → validDeviceID (hex_encode l) = true ∧ trim_space (hex_encode l) = hex_encode l.
Proof.
  intros Hl. split; [unfold validDeviceID; apply andb_true_iff; split|].
  - by rewrite hex_encode_length, Hl.
  - by apply hex_encode_chars.
  - by apply trim_space_visible, hex_encode_chars.
Qed.

Section stable.
Context `{Platform} `{Env} `{JSON deviceIDStore}.
(** encoding/json accepts white space after a value. *)
Hypothesis newline_ok : ∀ st, unmarshal (marshal st ++ [Byte.x0a]) = Some st.

(** What [readDeviceID] makes of a file's contents. *)
Definition parse_id (data : bytes) : option string :=
  match unmarshal data with
  | None => None
  | Some st => let id := trim_space (ds_DeviceID st) in if validDeviceID id then Some id else None
  end.
(** The file [p] holds the identifier [id]. *)
Definition identifies (p : fpath) (id : string) (fs : files) : Prop :=
  ∃ f, fs !! p = Some f ∧ parse_id (f_data f) = Some id.

Lemma parse_written id : validDeviceID id = true → trim_space id = id →
  parse_id (marshal (mkDeviceIDStore id) ++ [Byte.x0a]) = Some id.
Proof. intros Hv Ht. unfold parse_id. rewrite newline_ok. cbn [ds_DeviceID]. by rewrite Ht, Hv. Qed.

Lemma readDeviceID_run p s : readDeviceID p s = (tick1 s,
  Ok (match env_fault (st_tick s) with
      | Some _ => None
      | None => f ← st_files s !! p; parse_id (f_data f)
      end)).
Proof.
  unfold readDeviceID. rewrite bind_run. unfold try, os_ReadFile, query, syscall.
  destruct (env_fault (st_tick s)); [done|]. destruct s as [fs k c g l]. cbn [st_files st_tick set_files tick1].
  by destruct (fs !! p).
Qed.

(** ** The write *)

Definition written (p : fpath) (id : string) (fs : files) : Prop :=
  ∃ t, fs !! p = Some (mkFile (marshal (mkDeviceIDStore id) ++ [Byte.x0a]) t).

Lemma triple_quiet (P : files → Prop) (E : files → Prop) : (∀ fs, P fs → E fs) → triple P os_Quiet (fun _ => P) E.
Proof. intros HE. apply (triple_conseq _ P _ _ (fun _ => P) _ P); [apply triple_preserves, preserves_query|auto..]. Qed.

(** [if err := m; err != nil { _ = tmp.Close(); return err }] *)
Lemma triple_checked (P Q : files → Prop) (m : M unit) :
  triple P m (fun _ => Q) (fun _ => True) →
  triple P (r ← try m; match r with Ok _ => mret tt | Err e => _ ← try os_Quiet; fail e end) (fun _ => Q) (fun _ => True).
Proof.
  intros Hm. apply (triple_bind _ _ _ _ _ _ (triple_try _ _ _ _ (fun _ => True) Hm)).
  intros [u|e]; [by apply triple_ret|]. apply (triple_bind _ _ (fun _ _ => True)); [|intros _; by apply triple_fail].
  intros s _. unfold try. by destruct (os_Quiet s) as [? [?|?]].
Qed.

Lemma triple_bind_assoc {A B C : Type} P (m : M A) (f : A → M B) (g : B → M C) Q E :
  triple P ((m ≫= f) ≫= g) Q E → triple P (m ≫= fun a => f a ≫= g) Q E.
Proof.
  intros Hm s Hs. specialize (Hm s Hs). rewrite !bind_run in Hm. rewrite bind_run. by destruct (m s) as [s' [a|e]].
Qed.

Lemma triple_device_body p tmp id : tmp ≠ p →
  triple (fun fs => ∃ t, fs !! tmp = Some (mkFile [] t))
    (w ← try (os_Write tmp (marshal (mkDeviceIDStore id) ++ [Byte.x0a]));
     _ ← match w with Ok _ => mret tt | Err e => _ ← try os_Quiet; fail e end;
     c ← try os_Quiet;
     _ ← match c with Ok _ => mret tt | Err e => _ ← try os_Quiet; fail e end;
     _ ← os_Quiet;
     r ← try (os_Rename tmp p);
     match r with Ok _ => mret tt | Err e => fail (EWrap "persist device id: " e) end)
    (fun _ => written p id) (fun _ => True).
Proof.
  intros Hne. set (full := fun fs : files => ∃ t, fs !! tmp = Some (mkFile (marshal (mkDeviceIDStore id) ++ [Byte.x0a]) t)).
  apply triple_bind_assoc, (triple_bind _ _ (fun _ => full)).
  { apply triple_checked. intros s [t Ht]. unfold os_Write, append_file. rewrite Ht. destruct (env_fault _); [done|].
    exists (env_clock (st_tick s)). cbn. by rewrite lookup_insert_eq. }
  intros _. apply triple_bind_assoc, (triple_bind _ _ (fun _ => full)); [by apply triple_checked, triple_quiet|intros _].
  apply (triple_bind _ _ (fun _ => full)); [by apply triple_quiet|intros _].
  apply (triple_bind _ _ (fun r fs => match r with Ok _ => written p id fs | Err _ => True end));
    [|intros [u|e]; [by apply triple_ret|by apply triple_fail]].
  apply (triple_try _ _ (fun _ => written p id)), triple_syscall; [done|]. intros fs t [t' Ht]. rewrite Ht.
  exists t'. by rewrite lookup_insert_eq.
Qed.

Lemma triple_removing (P Q : files → Prop) tmp (m : M unit) :
  triple P m (fun _ => Q) (fun _ => True) → (∀ fs, Q fs → Q (delete tmp fs)) →
  triple P (removing tmp m) (fun _ => Q) (fun _ => True).
Proof.
  intros Hm Hd. apply (triple_bind _ _ _ _ _ _ (triple_try _ _ _ _ (fun _ => True) Hm)). intros r.
  set (R := fun fs => match r with Ok _ => Q fs | Err _ => True end).
  assert (HR : ∀ fs, R fs → R (delete tmp fs)) by (intros fs; unfold R; destruct r; auto).
  apply (triple_bind _ _ (fun _ => R)).
  - eapply triple_conseq; [apply (triple_try R _ (fun _ => R) R (fun _ => True))| done|by intros [?|?]|done].
    apply triple_syscall; [done|]. intros fs t Hf. destruct (fs !! tmp); auto.
  - intros _. unfold R. intros s Hs. by destruct r.
Qed.

Lemma triple_writeDeviceID p id : p ≠ [] → has_prefix (base_of p) ".tmp-device-" = false →
  triple (fun _ => True) (writeDeviceID p id) (fun _ => written p id) (fun _ => True).
Proof.
  intros Hp Hb. apply (triple_bind _ _ (fun tmp fs => tmp ≠ p ∧ ∃ t, fs !! tmp = Some (mkFile [] t))).
  - apply triple_syscall; [done|]. intros fs t _. split.
    + intros E. apply (f_equal base_of) in E. unfold base_of in E at 1. rewrite last_last in E.
      pose proof (fresh_of_set_prefix ".tmp-device-" (names_in fs (dir_of p))) as Hf. by rewrite E, Hb in Hf.
    + exists t. by rewrite lookup_insert_eq.
  - intros tmp s [Hne Ht]. refine (triple_removing _ _ tmp _ (triple_device_body p tmp id Hne) _ s Ht).
    intros fs [t Hw]. exists t. by rewrite lookup_delete_ne.
Qed.

(** ** The identity *)

Lemma deviceIDPath_base p : deviceIDPath = Ok p → p ≠ [] ∧ has_prefix (base_of p) ".tmp-device-" = false.
Proof.
  unfold deviceIDPath. destruct DataDir as [base|]; [|done]. cbn [mbind result_bind]. intros [= <-].
  assert (Hb : base_of (os_segs (path_join [base; deviceIDFileName])) = deviceIDFileName).
  { destruct (decide (base = "")) as [->|Hne]; [done|]. change [base; ?x] with ([base] ++ [x]).
    apply path_join_last; [done|by constructor|done]. }
  rewrite Hb. split; [apply split_slash_nonnil|done].
Qed.

Lemma triple_mint p : p ≠ [] → has_prefix (base_of p) ".tmp-device-" = false →
  triple (fun _ => True) (mint_device p) (fun id fs => validDeviceID id = true ∧ identifies p id fs) (fun _ => True).
Proof.
  intros Hp Hb. apply (triple_bind _ _ (fun buf _ => length buf = 16%nat)).
  { intros s _. unfold randomBytes. destruct (env_fault _); [done|]. apply env_rand_length. }
  intros buf. apply (triple_bind _ _ (fun _ _ => length buf = 16%nat)).
  { intros s Hl. unfold os_MkdirAll, query, syscall. by destruct (env_fault _). }
  intros _. apply (triple_bind _ _ (fun _ fs => length buf = 16%nat ∧ written p (hex_encode buf) fs)).
  { intros s Hl. pose proof (triple_writeDeviceID p (hex_encode buf) Hp Hb s I) as Hw.
    by destruct (writeDeviceID p (hex_encode buf) s) as [s' [a|e]]. }
  intros _ s [Hl [t Hw]]. destruct (hex_valid buf Hl) as [Hv Ht].
  rewrite bind_run, readDeviceID_run, Hw. cbn [mbind option_bind f_data]. rewrite parse_written by done.
  assert (Hi : identifies p (hex_encode buf) (st_files (tick1 s))).
  { exists (mkFile (marshal (mkDeviceIDStore (hex_encode buf)) ++ [Byte.x0a]) t). split; [done|]. by apply parse_written. }
  by destruct (env_fault (st_tick s)).
Qed.

Lemma parse_valid data id : parse_id data = Some id → validDeviceID id = true.
Proof.
  unfold parse_id. destruct (unmarshal data) as [st|]; [|done]. cbv zeta.
  destruct (validDeviceID (trim_space (ds_DeviceID st))) eqn:E; [|done]. by intros [= <-].
Qed.

Lemma DeviceID_holds p s s' id : deviceIDPath = Ok p → DeviceID s = (s', Ok id) →
  validDeviceID id = true ∧ identifies p id (st_files s').
Proof.
  intros Hp. destruct (deviceIDPath_base p Hp) as [Hne Hb]. unfold DeviceID. rewrite bind_run, Hp. cbn [lift].
  rewrite bind_run, readDeviceID_run.
  destruct (match env_fault (st_tick s) with Some _ => None | None => _ end) as [id'|] eqn:E.
  - intros [= <- <-]. destruct (env_fault (st_tick s)); [done|].
    destruct (st_files s !! p) as [f|] eqn:Hf; [|done]. cbn in E. split; [by eapply parse_valid|]. by exists f.
  - intros Hrun. pose proof (triple_mint p Hne Hb (tick1 s) I) as Hm. by rewrite Hrun in Hm.
Qed.

(** The installation's identity, the writer key of every vector clock, is stable:
    whatever calls fail in the run that first returns it, it is a well-formed
    identifier that is by then on disk, and any later call whose read succeeds
    returns the same one and writes nothing, as long as the file is left alone.
    (The hypothesis: encoding/json accepts a newline after a value.) *)
Theorem DeviceID_stable p s s' id : deviceIDPath = Ok p → DeviceID s = (s', Ok id) →
  validDeviceID id = true ∧
  ∀ s2, st_files s2 !! p = st_files s' !! p → env_fault (st_tick s2) = None →
    DeviceID s2 = (tick1 s2, Ok id).
Proof.
  intros Hp Hrun. destruct (DeviceID_holds p s s' id Hp Hrun) as [Hv (f & Hf & Hi)]. split; [done|].
  intros s2 Hs Hq. unfold DeviceID. rewrite bind_run, Hp. cbn [lift].
  rewrite bind_run, readDeviceID_run, Hq, Hs, Hf. cbn [mbind option_bind]. by rewrite Hi.
Qed.
End stable.

(** ** On concrete runs *)

(** A serialisation that ignores a final newline. *)
Definition device_marshal (st : deviceIDStore) : bytes := bytes_of (ds_DeviceID st) ++ [Byte.x00].
Definition device_unmarshal (l : bytes) : option deviceIDStore :=
  match rev l with
  | Byte.x00 :: r => Some (mkDeviceIDStore (str_of (rev r)))
  | Byte.x0a :: Byte.x00 :: r => Some (mkDeviceIDStore (str_of (rev r)))
  | _ => None
  end.
Lemma device_newline st : device_unmarshal (device_marshal st ++ [Byte.x0a]) = Some st.
Proof.
  unfold device_unmarshal, device_marshal. rewrite !rev_app_distr. cbn [rev app]. rewrite rev_involutive, str_of_bytes_of.
  by destruct st.
Qed.
Lemma device_roundtrip st : True → device_unmarshal (device_marshal st) = Some st.
Proof.
  intros _. unfold device_unmarshal, device_marshal. rewrite rev_app_distr. cbn [rev app].
  rewrite rev_involutive, str_of_bytes_of. by destruct st.
Qed.
Definition json_device : JSON deviceIDStore :=
  {| marshal := device_marshal; unmarshal := device_unmarshal; json_ok _ := True; unmarshal_marshal := device_roundtrip |}.
#[local] Existing Instances demo_platform demo_env json_device.

Definition first_use : St * result string := DeviceID empty_st.
Definition demo_device_path : fpath := match deviceIDPath with Ok p => p | Err _ => [] end.

Lemma DeviceID_stable_witness :
  (∃ id, first_use.2 = Ok id) ∧ DeviceID first_use.1 = (tick1 first_use.1, first_use.2).
Proof.
  assert (E : ∃ id, first_use.2 = Ok id) by (vm_compute; by eexists). split; [exact E|].
  destruct E as [id E]. rewrite E.
  exact (proj2 (DeviceID_stable device_newline demo_device_path empty_st first_use.1 id eq_refl
    (eq_trans (surjective_pairing first_use) (f_equal (pair first_use.1) E))) first_use.1 eq_refl eq_refl).
Defined.

(** Two processes on first use, one after the other past the first read: each returns
    the identifier it wrote, and they differ. *)
Definition race : M (string * string) :=
  p ← lift deviceIDPath;
  _ ← readDeviceID p; _ ← readDeviceID p;
  a ← mint_device p;
  b ← mint_device p;
  mret (a, b).
Example race_diverges : match (race empty_st).2 with Ok (a, b) => negb (String.eqb a b) | Err _ => false end = true.
Proof. vm_compute. reflexivity. Qed.
