(* ===== verification/ChunkCache.v ===== *)
(** The bounded cache of decrypted chunks (the second half of
    internal/vault/reader.go): a byte-bounded LRU list with an index by chunk id. *)
From S2P Require Export GoStr.
From stdpp Require Export gmap strings.
Local Open Scope Z_scope.

(** internal/vault/reader.go:287-290 [chunkCacheEntry] *)
Record chunkCacheEntry : Type := mkEntry { ce_id : string; ce_data : bytes }.

(** internal/vault/reader.go:279-285 [ChunkCache]; [cc_ll] is the list, front (most
    recently used) first, [cc_items] the map to its elements. *)
Record ChunkCache : Type := mkCache {
  cc_maxBytes : Z;
  cc_curBytes : Z;
  cc_ll : list chunkCacheEntry;
  cc_items : gmap string chunkCacheEntry
}.

(** internal/vault/reader.go:293-299 [NewChunkCache] *)
Definition NewChunkCache (maxBytes : Z) : ChunkCache := mkCache maxBytes 0 [] ∅.

(** [list.MoveToFront] of the element of [e]. *)
Definition without (id : string) (l : list chunkCacheEntry) : list chunkCacheEntry :=
  List.filter (fun e => negb (String.eqb (ce_id e) id)) l.
Definition move_to_front (c : ChunkCache) (e : chunkCacheEntry) : ChunkCache :=
  mkCache (cc_maxBytes c) (cc_curBytes c) (e :: without (ce_id e) (cc_ll c)) (cc_items c).

(** internal/vault/reader.go:302-314 [Get]; [None] is the nil cache. *)
Definition cache_Get (c : option ChunkCache) (id : string) : option bytes * option ChunkCache :=
  match c with
  | None => (None, None)
  | Some c =>
      match cc_items c !! id with
      | None => (None, Some c)
      | Some e => (Some (ce_data e), Some (move_to_front c e))
      end
  end.

(** internal/vault/reader.go:338-347 [Put]: the eviction loop, over the list last
    entry first. *)
Fixpoint evict (max cur : Z) (rev_ll : list chunkCacheEntry) (items : gmap string chunkCacheEntry)
    : Z * list chunkCacheEntry * gmap string chunkCacheEntry :=
  if cur <=? max then (cur, rev_ll, items)
  else match rev_ll with
       | [] => (cur, [], items)
       | e :: rest => evict max (wrap64 (cur - Z.of_nat (length (ce_data e)))) rest (delete (ce_id e) items)
       end.

(** internal/vault/reader.go:319-348 [Put] *)
Definition cache_Put (c : option ChunkCache) (id : string) (data : bytes) : option ChunkCache :=
  match c with
  | None => None
  | Some c =>
      match cc_items c !! id with
      | Some e => Some (move_to_front c e)
      | None =>
          let sz := Z.of_nat (length data) in
          if cc_maxBytes c <? sz then Some c
          else
            let e := mkEntry id data in
            let '(cur, rev_ll, items) :=
              evict (cc_maxBytes c) (wrap64 (cc_curBytes c + sz)) (rev (e :: cc_ll c)) (<[id := e]> (cc_items c)) in
            Some (mkCache (cc_maxBytes c) cur (rev rev_ll) items)
      end
  end.

(** ** The bound *)

Fixpoint entries_size (l : list chunkCacheEntry) : Z :=
  match l with [] => 0 | e :: l => Z.of_nat (length (ce_data e)) + entries_size l end.

(** The state of a cache: the index and the list hold the same entries, each id once,
    the count is their size and within the bound. *)
Record cache_ok (c : ChunkCache) : Prop := {
  co_nodup : NoDup (map ce_id (cc_ll c));
  co_items : ∀ id e, cc_items c !! id = Some e ↔ e ∈ cc_ll c ∧ ce_id e = id;
  co_cur : cc_curBytes c = entries_size (cc_ll c);
  co_bound : 0 ≤ cc_curBytes c ≤ cc_maxBytes c
}.

Lemma entries_size_nonneg l : 0 ≤ entries_size l.
Proof. induction l as [|e l IH]; cbn; lia. Qed.
Lemma entries_size_app a b : entries_size (a ++ b) = entries_size a + entries_size b.
Proof. induction a as [|e a IH]; cbn; [done|]. rewrite IH. lia. Qed.
Lemma entries_size_rev l : entries_size (rev l) = entries_size l.
Proof. induction l as [|e l IH]; cbn; [done|]. rewrite entries_size_app, IH. cbn. lia. Qed.

Lemma without_in e id l : e ∈ without id l ↔ e ∈ l ∧ ce_id e ≠ id.
Proof.
  unfold without. rewrite !list_elem_of_In, filter_In, negb_true_iff, String.eqb_neq. done.
Qed.
Lemma without_notin id l : id ∉ map ce_id l → without id l = l.
Proof.
  induction l as [|e l IH]; intros Hn; [done|]. cbn in *. rewrite not_elem_of_cons in Hn. destruct Hn as [H1 H2].
  assert (String.eqb (ce_id e) id = false) as -> by (apply String.eqb_neq; congruence). cbn. f_equal. by apply IH.
Qed.
Lemma without_perm e l : NoDup (map ce_id l) → e ∈ l → e :: without (ce_id e) l ≡ₚ l.
Proof.
  intros Hd He. induction He as [e l|e x l He IH].
  - cbn [map] in Hd. apply NoDup_cons in Hd as [Hn _]. cbn [without List.filter]. rewrite String.eqb_refl. cbn [negb].
    fold (without (ce_id e) l). by rewrite without_notin.
  - cbn [map] in Hd. apply NoDup_cons in Hd as [Hn Hd]. cbn [without List.filter].
    assert (ce_id x ≠ ce_id e) as Hne.
    { intros E. apply Hn. rewrite E. apply list_elem_of_In, in_map, list_elem_of_In, He. }
    apply String.eqb_neq in Hne. rewrite Hne. cbn [negb]. fold (without (ce_id e) l).
    rewrite perm_swap. constructor. by apply IH.
Qed.

#[global] Instance entries_size_perm : Proper ((≡ₚ) ==> (=)) entries_size.
Proof. induction 1; cbn; lia. Qed.

Lemma move_to_front_ok c e id : cache_ok c → cc_items c !! id = Some e → cache_ok (move_to_front c e).
Proof.
  intros [Hd Hi Hc Hb] He. apply Hi in He as [He _]. pose proof (without_perm e _ Hd He) as Hp.
  split; cbn [cc_ll cc_items cc_curBytes cc_maxBytes move_to_front]; [by rewrite Hp| |by rewrite Hp|done].
  intros i x. rewrite Hi. by rewrite Hp.
Qed.

(** The eviction loop, on the list last entry first: it drops a suffix of the list,
    the least recently used entries, until the rest fits. *)
Lemma evict_ok max rl items : 0 ≤ max → entries_size rl ≤ int64_max → NoDup (map ce_id rl) →
  (∀ id e, items !! id = Some e ↔ e ∈ rl ∧ ce_id e = id) →
  ∃ dropped kept items', evict max (entries_size rl) rl items = (entries_size kept, kept, items') ∧ rl = dropped ++ kept ∧
    entries_size kept ≤ max ∧ (∀ id e, items' !! id = Some e ↔ e ∈ kept ∧ ce_id e = id).
Proof.
  intros Hm. revert items. induction rl as [|e rl IH]; intros items Hs Hd Hi.
  - exists [], [], items. cbn [evict entries_size app]. destruct (Z.leb_spec 0 max); [done|lia].
  - cbn [evict]. destruct (Z.leb_spec (entries_size (e :: rl)) max) as [Hle|Hgt].
    { by exists [], (e :: rl), items. }
    cbn [entries_size map] in *. pose proof (entries_size_nonneg rl). apply NoDup_cons in Hd as [Hn Hd].
    rewrite wrap64_id by (unfold in_int64, int64_min; lia).
    replace (Z.of_nat (length (ce_data e)) + entries_size rl - Z.of_nat (length (ce_data e))) with (entries_size rl) by lia.
    destruct (IH (delete (ce_id e) items)) as (dr & k & it & E & -> & Hk & Hit); [lia|done| |].
    + intros id x. destruct (decide (ce_id e = id)) as [<-|Hne].
      * rewrite lookup_delete_eq. split; [done|]. intros [Hx E]. destruct Hn. rewrite <- E.
        by apply list_elem_of_In, in_map, list_elem_of_In.
      * rewrite lookup_delete_ne by done. rewrite Hi, elem_of_cons.
        split; [intros [[->|?] ?]; [by destruct Hne|done]|intros [? ?]; by split; [right|]].
    + rewrite E. by exists (e :: dr), k, it.
Qed.

Lemma cache_Put_ok c id data : cache_ok c → cc_maxBytes c + Z.of_nat (length data) ≤ int64_max →
  ∃ c', cache_Put (Some c) id data = Some c' ∧ cache_ok c' ∧ cc_maxBytes c' = cc_maxBytes c ∧
    ∀ e, e ∈ cc_ll c' → e ∈ cc_ll c ∨ e = mkEntry id data.
Proof.
  intros Hc Hs. pose proof Hc as [Hd Hi Hcur Hb]. unfold cache_Put. destruct (cc_items c !! id) as [e|] eqn:E.
  - exists (move_to_front c e). split; [done|]. split; [by eapply move_to_front_ok|]. split; [done|].
    intros x. cbn [cc_ll move_to_front]. rewrite elem_of_cons, without_in. apply Hi in E as [E _].
    intros [->|[? _]]; by left.
  - destruct (Z.ltb_spec (cc_maxBytes c) (Z.of_nat (length data))) as [|Hle].
    { exists c. split; [done|]. split; [done|]. split; [done|]. intros x Hx. by left. }
    cbv zeta.
    set (e := mkEntry id data).
    assert (Hn : id ∉ map ce_id (cc_ll c)).
    { intros Hin. apply list_elem_of_In, in_map_iff in Hin as (x & Hx & Hin%list_elem_of_In).
      assert (cc_items c !! id = Some x) by (by apply Hi). congruence. }
    assert (Hsz : wrap64 (cc_curBytes c + Z.of_nat (length data)) = entries_size (rev (e :: cc_ll c))).
    { rewrite entries_size_rev. cbn [entries_size ce_data e]. rewrite wrap64_id by (unfold in_int64, int64_min; lia). lia. }
    rewrite Hsz.
    destruct (evict_ok (cc_maxBytes c) (rev (e :: cc_ll c)) (<[id := e]> (cc_items c))) as (dr & k & it & Ev & Hr & Hk & Hit).
    + lia.
    + rewrite <- Hsz. rewrite wrap64_id by (unfold in_int64, int64_min; lia). lia.
    + rewrite map_rev, <- Permutation_rev. by constructor.
    + intros i x. rewrite <- Permutation_rev, elem_of_cons. destruct (decide (i = id)) as [->|Hne].
      * rewrite lookup_insert_eq. split; [intros [= <-]; by split; [left|]|]. intros [[->|Hx] Hxi]; [done|].
        destruct Hn. rewrite <- Hxi. by apply list_elem_of_In, in_map, list_elem_of_In.
      * rewrite lookup_insert_ne by done. rewrite Hi.
        split; [intros [? ?]; by split; [right|]|intros [[->|?] ?]; [by destruct Hne|done]].
    + rewrite Ev. eexists. split; [reflexivity|].
      assert (Hdk : NoDup (map ce_id k)).
      { assert (Ha : NoDup (map ce_id (rev (e :: cc_ll c)))) by (rewrite map_rev, <- Permutation_rev; by constructor).
        rewrite Hr, map_app in Ha. by apply NoDup_app in Ha as (_ & _ & ?). }
      split; [split; cbn [cc_ll cc_items cc_curBytes cc_maxBytes]|].
      * by rewrite map_rev, <- Permutation_rev.
      * intros i x. rewrite Hit. by rewrite <- Permutation_rev.
      * by rewrite entries_size_rev.
      * split; [apply entries_size_nonneg|done].
      * split; [done|]. intros x. cbn [cc_ll]. rewrite <- Permutation_rev. intros Hx.
        assert (Hin : x ∈ rev (e :: cc_ll c)) by (rewrite Hr; apply elem_of_app; by right).
        rewrite <- Permutation_rev, elem_of_cons in Hin. destruct Hin as [->|?]; [by right|by left].
Qed.

Lemma evict_items max cur rl items id e : (evict max cur rl items).2 !! id = Some e → items !! id = Some e.
Proof.
  revert cur items. induction rl as [|x rl IH]; intros cur items; cbn [evict]; destruct (cur <=? max); try done.
  intros He%IH. by apply lookup_delete_Some in He as [_ He].
Qed.
Lemma cache_Put_items c id data c' i e : cache_Put (Some c) id data = Some c' → cc_items c' !! i = Some e →
  cc_items c !! i = Some e ∨ (i = id ∧ e = mkEntry id data).
Proof.
  cbn [cache_Put]. destruct (cc_items c !! id); [intros [= <-]; by left|].
  destruct (cc_maxBytes c <? _); [intros [= <-]; by left|]. cbv zeta.
  destruct (evict _ _ _ _) as [[cur rl] items] eqn:Ev. intros [= <-]. cbn [cc_items]. intros He.
  pose proof (evict_items (cc_maxBytes c) _ _ _ i e ltac:(by rewrite Ev)) as Hi.
  apply lookup_insert_Some in Hi as [[<- <-]|[_ ?]]; [by right|by left].
Qed.

(** ** Reachable caches *)

Inductive cache_op : Type := OpGet (id : string) | OpPut (id : string) (data : bytes).
Definition cache_step (c : option ChunkCache) (op : cache_op) : option ChunkCache :=
  match op with OpGet id => (cache_Get c id).2 | OpPut id data => cache_Put c id data end.
Definition cache_run (max : Z) (ops : list cache_op) : option ChunkCache :=
  fold_left cache_step ops (Some (NewChunkCache max)).

Lemma cache_Get_run c id : cache_ok c → ∃ c', (cache_Get (Some c) id).2 = Some c' ∧ cache_ok c' ∧
  cc_maxBytes c' = cc_maxBytes c ∧ cc_items c' = cc_items c ∧ (∀ e, e ∈ cc_ll c' → e ∈ cc_ll c).
Proof.
  intros Hc. cbn [cache_Get]. destruct (cc_items c !! id) as [e|] eqn:E; cbn [snd].
  - exists (move_to_front c e). split; [done|]. split; [by eapply move_to_front_ok|]. split; [done|]. split; [done|].
    intros x. cbn [cc_ll move_to_front]. rewrite elem_of_cons, without_in. apply (co_items c Hc) in E as [E _].
    by intros [->|[? _]].
  - by exists c.
Qed.

Lemma NewChunkCache_ok max : 0 ≤ max → cache_ok (NewChunkCache max).
Proof.
  intros Hm. split; cbn; [constructor| |done|lia]. intros id e. rewrite lookup_empty. split; [done|].
  intros [He _]. by apply not_elem_of_nil in He.
Qed.

Lemma cache_run_from c ops : cache_ok c → Forall (fun op => match op with
    OpPut _ d => cc_maxBytes c + Z.of_nat (length d) ≤ int64_max | OpGet _ => True end) ops →
  ∃ c', fold_left cache_step ops (Some c) = Some c' ∧ cache_ok c' ∧ cc_maxBytes c' = cc_maxBytes c ∧
    ∀ e, e ∈ cc_ll c' → e ∈ cc_ll c ∨ OpPut (ce_id e) (ce_data e) ∈ ops.
Proof.
  intros Hc Hops. revert c Hc Hops. induction ops as [|op ops IH]; intros c Hc Hops.
  - exists c. split; [done|]. split; [done|]. split; [done|]. intros e He. by left.
  - apply Forall_cons in Hops as [Hop Hops]. cbn [fold_left].
    assert (∃ c1, cache_step (Some c) op = Some c1 ∧ cache_ok c1 ∧ cc_maxBytes c1 = cc_maxBytes c ∧
      ∀ e, e ∈ cc_ll c1 → e ∈ cc_ll c ∨ OpPut (ce_id e) (ce_data e) = op) as (c1 & E1 & H1 & M1 & I1).
    { destruct op as [id|id d]; cbn [cache_step].
      - destruct (cache_Get_run c id Hc) as (c1 & E & H1 & M1 & _ & I1). exists c1. split; [done|]. split; [done|]. split; [done|].
        intros e He. left. by apply I1.
      - destruct (cache_Put_ok c id d Hc Hop) as (c1 & E & H1 & M1 & I1). exists c1. split; [done|]. split; [done|]. split; [done|].
        intros e He. destruct (I1 e He) as [?| ->]; [by left|by right]. }
    rewrite E1. destruct (IH c1 H1) as (c2 & E2 & H2 & M2 & I2); [by rewrite M1|].
    exists c2. split; [done|]. split; [done|]. split; [congruence|]. intros e He.
    destruct (I2 e He) as [He1|He1]; [|right; by right]. destruct (I1 e He1) as [?|<-]; [by left|right; by left].
Qed.

(** Whatever is looked up and stored, a cache never holds more than its bound of
    plaintext: its count is exactly the size of what it holds, the list and the map
    hold the same entries once each, and a lookup returns nothing but bytes that
    were stored under that id. *)
Theorem cache_bounded max ops : 0 ≤ max →
  Forall (fun op => match op with OpPut _ d => max + Z.of_nat (length d) ≤ int64_max | OpGet _ => True end) ops →
  ∃ c, cache_run max ops = Some c ∧ cc_maxBytes c = max ∧
    cc_curBytes c = entries_size (cc_ll c) ∧ cc_curBytes c ≤ max ∧ NoDup (map ce_id (cc_ll c)) ∧
    ∀ id d, (cache_Get (Some c) id).1 = Some d → OpPut id d ∈ ops.
Proof.
  intros Hm Hops. destruct (cache_run_from (NewChunkCache max) ops (NewChunkCache_ok max Hm) Hops) as (c & E & Hc & M & I).
  cbn [cc_maxBytes NewChunkCache] in M. exists c. split; [done|]. split; [done|].
  destruct Hc as [Hd Hi Hcur Hb]. split; [done|]. split; [lia|]. split; [done|].
  intros id d. cbn [cache_Get]. destruct (cc_items c !! id) as [e|] eqn:Ee; [|done]. cbn [fst]. intros [= <-].
  apply Hi in Ee as [He <-]. apply I in He as [He|He]; [|done]. by apply not_elem_of_nil in He.
Qed.

Definition demo_ops : list cache_op :=
  [OpPut "a" [Byte.x00; Byte.x01]; OpPut "b" [Byte.x02]; OpGet "a"; OpPut "c" [Byte.x03]; OpGet "b"; OpPut "d" (repeat Byte.x00 9)].
(** "b" is the least recently used entry when "c" comes; "d" is larger than the bound. *)
Lemma cache_bounded_witness :
  (map ce_id ∘ cc_ll) <$> cache_run 3 demo_ops = Some ["c"; "a"] ∧
  ∃ c, cache_run 3 demo_ops = Some c ∧ cc_curBytes c ≤ 3.
Proof.
  split; [vm_compute; reflexivity|].
  destruct (cache_bounded 3 demo_ops) as (c & E & _ & _ & Hb & _); [lia| |by exists c].
  repeat constructor; vm_compute; discriminate.
Defined.
