(* ===== verification/Reader.v ===== *)
(** The random-access reader of a vault file (internal/vault/reader.go).

    A reader's one-chunk cache and the shared [ChunkCache] are state of their own,
    threaded through each operation; [ReadAt] reports the bytes it filled in and an
    error, or [None] when its loop does not end within the fuel. *)
From S2P Require Export ChunkCache VaultOps.
Local Open Scope Z_scope.

Definition ErrEOF : err := ESentinel "io.EOF".
(** internal/vault/reader.go:22-22 [ErrChunksPending] *)
Definition ErrChunksPending : err := EWrap "one or more chunks are not present yet: " ErrNotExist.

(** internal/vault/reader.go:31-39 [OpenReaderAtOptions] *)
Record OpenReaderAtOptions : Type := mkReaderOptions { SkipPresenceCheck : bool }.

(** internal/vault/reader.go:49-67 [FileReader]; the vault and the cache pointer are
    arguments of the operations. *)
Record FileReader : Type := mkReader {
  rd_rec : FileRecord;
  rd_offsets : list Z;
  rd_size : Z;
  rd_modTime : option Z;
  rd_cachedIdx : Z;
  rd_cachedChunk : option bytes;
  rd_closed : bool
}.
Definition set_cachedChunk (f : FileReader) (ci : Z) (chunk : option bytes) : FileReader :=
  mkReader (rd_rec f) (rd_offsets f) (rd_size f) (rd_modTime f) ci chunk (rd_closed f).

(** internal/vault/reader.go:192-192 [Size] *)
Definition Reader_Size (f : FileReader) : Z := rd_size f.
(** internal/vault/reader.go:195-195 [ModTime] *)
Definition Reader_ModTime (f : FileReader) : option Z := rd_modTime f.
(** internal/vault/reader.go:203-203 [Generation] *)
Definition Reader_Generation (f : FileReader) : Z := fr_Generation (rd_rec f).
(** internal/vault/reader.go:206-213 [Close] *)
Definition Reader_Close (f : FileReader) : FileReader :=
  mkReader (rd_rec f) (rd_offsets f) (rd_size f) (rd_modTime f) (-1) None true.

(** internal/vault/reader.go:100-103 [OpenReaderAtWithOptions]: the prefix sums *)
Fixpoint prefix_sums (at_ : Z) (refs : list ChunkRef) : list Z :=
  at_ :: match refs with [] => [] | r :: refs => prefix_sums (wrap64 (at_ + ref_Size r)) refs end.

(** [sort.Search(n, p)]: binary search for the first index where [p] holds. *)
Fixpoint search_loop (fuel i j : nat) (p : nat → bool) : nat :=
  match fuel with
  | O => i
  | S f => if (i <? j)%nat then
             let h := ((i + j) / 2)%nat in
             if p h then search_loop f i h p else search_loop f (S h) j p
           else i
  end.
Definition sort_Search (n : nat) (p : nat → bool) : nat := search_loop n 0 n p.

(** internal/vault/reader.go:158-163 [chunkIndexFor] *)
Definition chunkIndexFor (f : FileReader) (pos : Z) : nat :=
  sort_Search (length (rd_offsets f) - 1) (fun i => pos <? default 0 (rd_offsets f !! S i)).

(** A reader with the shared cache it may have. *)
Abbreviation rstate := (FileReader * option ChunkCache)%type.

Section reader.
Context `{GoUnicode} `{AEAD} `{Env} `{JM : JSON ManifestRecord} `{JX : JSON Index} (v : Vault).

(** internal/vault/reader.go:76-120 [OpenReaderAtWithOptions] *)
Definition OpenReaderAtWithOptions (virtualPath : string) (opts : OpenReaderAtOptions) : M FileReader :=
  '(rec, ok) ← FileInfo v virtualPath;
  if negb ok then fail (EWrap "virtual path %q not found: " ErrNotExist)
  else
    _ ← (if SkipPresenceCheck opts then mret tt
         else mfold (fun _ ref =>
           r ← try (os_Stat (chunkPath v (ref_ID ref)));
           match r with
           | Ok _ => mret tt
           | Err e => if not_exist e then fail ErrChunksPending else fail e
           end) tt (fr_Chunks rec));
    let offsets := prefix_sums 0 (fr_Chunks rec) in
    let mt := if String.eqb (fr_ModTime rec) "" then None else parse_rfc3339 (fr_ModTime rec) in
    mret (mkReader rec offsets (List.last offsets 0) mt (-1) None false).

(** internal/vault/reader.go:72-74 [OpenReaderAt] *)
Definition OpenReaderAt (virtualPath : string) : M FileReader :=
  OpenReaderAtWithOptions virtualPath (mkReaderOptions false).

(** internal/vault/reader.go:167-189 [chunkAtLocked]; the state it leaves and the
    chunk or the error.  [None] for an index past the chunks, which is a panic. *)
Definition chunkAtLocked (st : rstate) (ci : nat) : M (rstate * result bytes) :=
  let '(f, c) := st in
  match (if rd_cachedIdx f =? Z.of_nat ci then rd_cachedChunk f else None) with
  | Some chunk => mret (st, Ok chunk)
  | None =>
      match fr_Chunks (rd_rec f) !! ci with
      | None => fail go_panic
      | Some ref =>
          match cache_Get c (ref_ID ref) with
          | (Some pt, c) => mret ((set_cachedChunk f (Z.of_nat ci) (Some pt), c), Ok pt)
          | (None, c) =>
              r ← try (loadChunk v ref);
              match r with
              | Err e => mret ((f, c), Err e)
              | Ok pt => mret ((set_cachedChunk f (Z.of_nat ci) (Some pt), cache_Put c (ref_ID ref) pt), Ok pt)
              end
          end
      end
  end.

(** internal/vault/reader.go:137-153 [ReadAt]: the loop; [want] bytes are still to be
    filled in, [out] are the ones that are. *)
Fixpoint readAt_loop (fuel : nat) (st : rstate) (out : bytes) (want : nat) (pos : Z)
    : M (option (rstate * bytes * option err)) :=
  match fuel with
  | O => mret None
  | S fu =>
      if (0 <? want)%nat && (pos <? rd_size st.1) then
        let ci := chunkIndexFor st.1 pos in
        '(st, r) ← chunkAtLocked st ci;
        match r with
        | Err e => mret (Some (st, out, Some e))
        | Ok chunk =>
            match rd_offsets st.1 !! ci with
            | None => fail go_panic
            | Some o =>
                let within := wrap64 (pos - o) in
                if (within <? 0) || (Z.of_nat (length chunk) <? within) then fail go_panic
                else
                  let got := take want (drop (Z.to_nat within) chunk) in
                  readAt_loop fu st (out ++ got) (want - length got) (wrap64 (pos + Z.of_nat (length got)))
            end
        end
      else mret (Some (st, out, if (0 <? want)%nat then Some ErrEOF else None))
  end.

(** internal/vault/reader.go:125-154 [ReadAt]; [len] is [len(p)]. *)
Definition ReadAt_fuel (fuel : nat) (st : rstate) (len : nat) (off : Z) : M (option (rstate * bytes * option err)) :=
  if rd_closed st.1 then mret (Some (st, [], Some (ENew "vault: ReadAt on closed FileReader")))
  else if off <? 0 then mret (Some (st, [], Some (ENew "vault: ReadAt: negative offset")))
  else if rd_size st.1 <=? off then mret (Some (st, [], Some ErrEOF))
  else readAt_loop fuel st [] len off.
(** internal/vault/reader.go:125-154 [ReadAt]: one round per byte is enough
    ([ReadAt_slice]). *)
Definition ReadAt (st : rstate) (len : nat) (off : Z) : M (option (rstate * bytes * option err)) :=
  ReadAt_fuel (S len) st len off.

(** internal/vault/reader.go:239-252 [VerifyChunkPresence]: the loop from [ci], [n]
    chunks to go *)
Fixpoint verify_from (n ci : nat) (st : rstate) : M (rstate * option err) :=
  match n with
  | O => mret (st, None)
  | S n =>
      match fr_Chunks (rd_rec st.1) !! ci with
      | None => fail go_panic
      | Some ref =>
          match cache_Get st.2 (ref_ID ref) with
          | (Some _, c) => verify_from n (S ci) (st.1, c)
          | (None, c) =>
              r ← try (os_Stat (chunkPath v (ref_ID ref)));
              match r with
              | Ok _ => verify_from n (S ci) (st.1, c)
              | Err e => mret ((st.1, c), Some (if not_exist e then ErrChunksPending else e))
              end
          end
      end
  end.

(** internal/vault/reader.go:226-254 [VerifyChunkPresence] *)
Definition VerifyChunkPresence (st : rstate) (off length_ : Z) : M (rstate * option err) :=
  let off := if off <? 0 then 0 else off in
  if (length_ <=? 0) || (rd_size st.1 <=? off) then mret (st, None)
  else
    let end_ := wrap64 (off + length_) in
    let end_ := if rd_size st.1 <? end_ then rd_size st.1 else end_ in
    let lo := chunkIndexFor st.1 off in
    let hi := chunkIndexFor st.1 (wrap64 (end_ - 1)) in
    verify_from (S hi - lo) lo st.

(** [io.Copy(w, io.NewSectionReader(fr, off, length))]: reads of up to 32 KiB until
    the section or the file ends; [None] when the fuel is used up. *)
Definition copy_buffer : Z := 32768.
Definition section_limit (off n : Z) : Z := if off <=? int64_max - n then wrap64 (off + n) else int64_max.
Fixpoint copy_section (fuel : nat) (st : rstate) (w : bytes) (off limit : Z) : M (option (bytes * option err)) :=
  match fuel with
  | O => mret None
  | S f =>
      if limit <=? off then mret (Some (w, None))
      else
        r ← ReadAt st (Z.to_nat (Z.min copy_buffer (limit - off))) off;
        match r with
        | None => mret None
        | Some (st, got, e) =>
            let w := w ++ got in
            match e with
            | None => copy_section f st w (wrap64 (off + Z.of_nat (length got))) limit
            | Some e => mret (Some (w, if bool_decide (e = ErrEOF) then None else Some e))
            end
        end
  end.

(** internal/vault/reader.go:256-273 [ReadRange]; what reached the writer, and the
    error.  Each round but the last copies a full buffer. *)
Definition ReadRange (virtualPath : string) (off length_ : Z) : M (option (bytes * option err)) :=
  fr ← OpenReaderAt virtualPath;
  let len := if length_ <? 0 then let n := wrap64 (Reader_Size fr - off) in if n <? 0 then 0 else n else length_ in
  copy_section (S (S (Z.to_nat (Reader_Size fr / copy_buffer)))) (fr, None) [] off (section_limit off len).
End reader.
