(* ===== verification/LocalDav.v ===== *)
(** The local WebDAV server over an open vault (internal/localdav/server.go).

    A request is a record of what the handlers read of [http.Request]; the answer to
    it its status, the headers that depend on the request, and its body.  XML and
    HTML bodies are the entries they render ([writeResponse], [writeDirectoryHTML]
    give the text); a file body is the open reader that [http.ServeContent] is handed.
    The verbs that hold the server's mutex, and every call into the vault, are one
    computation each.  [os_Quiet] stands for waiting on a channel that may be given
    up.  The server's own state ([DavSt]) is the limiter, the presence cache and the
    chunk cache; a request whose handler never returns yields [None]. *)
From S2P Require Export Reader GoHttp AuthLimit GoNet.
Local Open Scope Z_scope.

(** ** The host check

    The Host allowlist of the local listeners (internal/loopback/loopback.go).

    [strings.EqualFold] of two arbitrary strings is the class [Fold]: the Unicode
    simple folding, which against an ASCII string is [equal_fold] of GoStr.v. *)

Class Fold := {
  EqualFold : string → string → bool;
  EqualFold_ascii s t : is_ascii t = true → EqualFold s t = equal_fold s t
}.

(** [ip.IsLoopback()] of a 16-byte address. *)
Definition ipv6_loopback : list Z := repeat 0 15 ++ [1].
Definition IsLoopback (ip : list Z) : bool :=
  match To4 ip with
  | Some v4 => match v4 with 127 :: _ => true | _ => false end
  | None => bool_decide (ip = ipv6_loopback)
  end.

(** internal/loopback/loopback.go:64-80 [hostOnly] *)
Definition hostOnly (rawHost : string) : string :=
  let h := trim_space rawHost in
  if String.eqb h "" then ""
  else match SplitHostPort h with
       | Some host => host
       | None => if has_prefix h "[" && has_suffix h "]" then str_drop 1 (str_take (String.length h - 1) h) else h
       end.

Section hosts.
Context `{Fold}.

(** internal/loopback/loopback.go:41-49 [HostAllowed]: one extra entry against an
    address *)
Definition extra_ip (host : string) (ip : list Z) (e : string) : bool :=
  match ParseIP (trim_space e) with
  | Some eip => bool_decide (ip = eip)
  | None => EqualFold host e
  end.

(** internal/loopback/loopback.go:32-61 [HostAllowed] *)
Definition HostAllowed (rawHost : string) (extra : list string) : bool :=
  let host := hostOnly rawHost in
  if String.eqb host "" then false
  else match ParseIP host with
       | Some ip => IsLoopback ip || existsb (extra_ip host ip) extra
       | None => EqualFold host "localhost" || existsb (EqualFold host) extra
       end.

(** With no extra names only this machine's own names pass, whatever the port and
    the brackets: a name other than localhost, or an address that is not a loopback
    address, is refused. *)
Lemma HostAllowed_bare rawHost : HostAllowed rawHost [] = true ↔
  match ParseIP (hostOnly rawHost) with
  | Some ip => IsLoopback ip = true
  | None => equal_fold (hostOnly rawHost) "localhost" = true
  end.
Proof.
  unfold HostAllowed. destruct (String.eqb_spec (hostOnly rawHost) "") as [->|Hne]; [done|].
  destruct (ParseIP (hostOnly rawHost)) as [ip|]; cbn [existsb]; rewrite orb_false_r; [done|].
  by rewrite EqualFold_ascii.
Qed.
Lemma ParseIP_empty : ParseIP "" = None.
Proof. done. Qed.
End hosts.

Definition demo_fold : Fold :=
  {| EqualFold s t := equal_fold s t; EqualFold_ascii s t _ := eq_refl |}.
Section demo.
#[local] Existing Instance demo_fold.
Example rebinding_refused : HostAllowed "evil.example:8080" [] = false.
Proof. vm_compute. reflexivity. Qed.
Example loopback_port : HostAllowed "[::1]:8080" [] = true ∧ HostAllowed "127.8.0.1" [] = true ∧ HostAllowed "LOCALHOST:1" [] = true.
Proof. vm_compute. repeat split. Qed.
Example mapped_loopback : HostAllowed "[::ffff:127.0.0.1]" [] = true ∧ HostAllowed "127.0.0.1.evil.example" [] = false.
Proof. vm_compute. repeat split. Qed.
Example lan_listed : HostAllowed "192.168.1.5:80" [] = false ∧ HostAllowed "192.168.1.5:80" [" 192.168.1.5"] = true.
Proof. vm_compute. repeat split. Qed.
End demo.


(** ** Data *)

(** internal/localdav/server.go:152-155 [BasicCredentials] *)
Record BasicCredentials : Type := mkCreds { bc_User : string; bc_Password : string }.

(** internal/localdav/server.go:49-112 [Server]: the fields that do not change *)
Record Server : Type := mkServer {
  sv_ReadOnly : bool; sv_Prefix : string; sv_AllowedHosts : list string; sv_Credentials : option BasicCredentials;
  sv_DropOSJunk : bool; sv_MaxStreams : Z; sv_ChunkCacheBytes : Z }.

(** [presenceKey]: a path and a generation. *)
Abbreviation presenceKey := (string * Z)%type.
(** internal/localdav/server.go:162-165 [presenceEntry] *)
Record presenceEntry : Type := mkPresence { pe_expires : Z; pe_pending : bool }.

(** What the server keeps between requests. *)
Record DavSt : Type := mkDavSt {
  dv_limiter : option Limiter; dv_presence : gmap presenceKey presenceEntry; dv_cache : option ChunkCache }.
Definition set_limiter (d : DavSt) (l : option Limiter) : DavSt := mkDavSt l (dv_presence d) (dv_cache d).
Definition set_presence (d : DavSt) (p : gmap presenceKey presenceEntry) : DavSt := mkDavSt (dv_limiter d) p (dv_cache d).
Definition set_chunkCache (d : DavSt) (c : option ChunkCache) : DavSt := mkDavSt (dv_limiter d) (dv_presence d) c.

Record Request : Type := mkRequest {
  rq_Method : string; rq_Host : string; rq_Path : string; rq_RemoteAddr : string;
  rq_Header : string → string; rq_ContentLength : Z; rq_Body : list read }.

(** internal/localdav/server.go:1109-1115 [responseInfo] *)
Record responseInfo : Type := mkInfo { ri_Href : string; ri_IsDir : bool; ri_Size : Z; ri_ModTime : string; ri_ETag : string }.

Inductive Body : Type :=
  | NoBody
  | Text (s : string)
  | Multistatus (l : list responseInfo)
  | Listing (l : list responseInfo)
  | Content (name : string) (fr : FileReader).
Record Response : Type := mkResponse { rs_Code : Z; rs_Headers : list (string * string); rs_Body : Body }.
Definition status (c : Z) : Response := mkResponse c [] NoBody.
(** [http.Error] and [http.NotFound]. *)
Definition http_error (c : Z) (msg : string) : Response := mkResponse c [] (Text msg).
Definition not_found : Response := http_error 404 "404 page not found".
Definition with_header (k v : string) (r : Response) : Response := mkResponse (rs_Code r) ((k, v) :: rs_Headers r) (rs_Body r).

(** internal/localdav/server.go:39-39 [presenceTTL] *)
Definition presenceTTL : Z := 10 * time_Second.
(** internal/localdav/server.go:43-43 [defaultChunkCacheBytes] *)
Definition defaultChunkCacheBytes : Z := 64 * 1024 * 1024.
(** internal/localdav/server.go:47-47 [defaultMaxStreams] *)
Definition defaultMaxStreams : Z := 8.

(** internal/localdav/server.go:178-183 [maxStreams] *)
Definition maxStreams (sv : Server) : Z := if 0 <? sv_MaxStreams sv then sv_MaxStreams sv else defaultMaxStreams.

(** ** Caches *)

(** internal/localdav/server.go:133-138 [get] *)
Definition presence_get (c : gmap presenceKey presenceEntry) (key : presenceKey) (now_ : Z) : option presenceEntry :=
  match c !! key with
  | Some e => if now_ <? pe_expires e then Some e else None
  | None => None
  end.
(** internal/localdav/server.go:141-148 [store] *)
Definition presence_store (c : gmap presenceKey presenceEntry) (key : presenceKey) (now_ : Z) (pending : bool)
    : gmap presenceKey presenceEntry := <[key := mkPresence (now_ + presenceTTL) pending]> c.

(** internal/localdav/server.go:207-219 [chunkCache] *)
Definition chunkCache (sv : Server) (d : DavSt) : DavSt :=
  match dv_cache d with
  | Some _ => d
  | None => set_chunkCache d (Some (NewChunkCache (if sv_ChunkCacheBytes sv <=? 0 then defaultChunkCacheBytes else sv_ChunkCacheBytes sv)))
  end.

(** ** Paths *)

(** internal/localdav/server.go:1249-1261 [basePrefix] *)
Definition basePrefix (sv : Server) : string :=
  let p := trim_space (sv_Prefix sv) in
  if String.eqb p "" || String.eqb p "/" then ""
  else
    let p := if has_prefix p "/" then p else "/" +:+ p in
    if has_suffix p "/" then p else p +:+ "/".

(** internal/localdav/server.go:1263-1280 [href] *)
Definition href (base vp : string) (dir : bool) : string :=
  let base := trim_suffix base "/" in
  if String.eqb vp "" then if String.eqb base "" then "/" else base +:+ "/"
  else
    let h := "/" +:+ PathEscape vp in
    let h := ReplaceAll h "%2F" "/" in
    base +:+ (if dir && negb (has_suffix h "/") then h +:+ "/" else h).

(** internal/localdav/server.go:1097-1107 [isMountJunk] *)
Definition isMountJunk (base : string) : bool :=
  has_prefix base "._" ||
  existsb (String.eqb base) [".DS_Store"; ".Spotlight-V100"; ".Trashes"; ".fseventsd";
    ".TemporaryItems"; ".localized"; "desktop.ini"; "Thumbs.db"; "__MACOSX"].

(** internal/localdav/server.go:1080-1093 [etagMatches] *)
Definition etagMatches (inm etag : string) : bool :=
  let inm := trim_space inm in
  String.eqb inm "*" ||
  existsb (fun part => String.eqb (trim_prefix (trim_space (string_of_list_ascii part)) "W/") etag)
    (split_byte "," (list_ascii_of_string inm)).

Definition quote_mark : string := String (ascii_of_N 34) "".
Definition etag_of (vp : string) (generation size : Z) : string :=
  str_concat [quote_mark; show_hex (Z.of_nat (String.length vp)); "-"; show_hex generation; "-"; itoa size; quote_mark].
(** internal/localdav/server.go:1331-1333 [etagForRecord] *)
Definition etagForRecord (vp : string) (rec : FileRecord) : string := etag_of vp (fr_Generation rec) (fr_Size rec).
(** internal/localdav/server.go:1340-1342 [etagForReader] *)
Definition etagForReader (vp : string) (fr : FileReader) : string := etag_of vp (Reader_Generation fr) (Reader_Size fr).

Section paths.
Context `{GoUnicode}.

(** internal/localdav/server.go:1235-1247 [cleanDAVVirtualPath] *)
Definition cleanDAVVirtualPath (input : string) : result string :=
  if forallb (fun c => Ascii.eqb c slash || Ascii.eqb c " ") (list_ascii_of_string (replace_byte backslash slash input)) then Ok ""
  else
    vp ← NormalizeContentPath input;
    if IsInternalVirtualPath vp then Err (ENew "reserved vault internals are not exposed through WebDAV") else Ok vp.

(** internal/localdav/server.go:1202-1212 [requestVirtualPath] *)
Definition requestVirtualPath (sv : Server) (r : Request) : result string :=
  let p := rq_Path r in
  let base := basePrefix sv in
  let p := if negb (String.eqb base "") && has_prefix p base then trim_prefix p base else p in
  cleanDAVVirtualPath (trim_prefix p "/").

(** internal/localdav/server.go:1214-1233 [virtualPathFromDestination] *)
Definition virtualPathFromDestination (sv : Server) (destination : string) : result string :=
  p ← match Parse_Path destination with
      | Some p => if String.eqb p "" then PathUnescape destination else Ok p
      | None => PathUnescape destination
      end;
  let base := basePrefix sv in
  let p := if negb (String.eqb base "") && has_prefix p base then trim_prefix p base else p in
  cleanDAVVirtualPath (trim_prefix p "/").

(** ** Directory listings *)

(** internal/localdav/server.go:1186-1200 [directoryExists] *)
Definition directoryExists (files : gmap string FileRecord) (vp : string) : bool :=
  String.eqb vp "" || bool_decide (is_Some (files !! path_join [vp; DirectoryMarkerName])) ||
  existsb (fun p => has_prefix p (trim_suffix vp "/" +:+ "/")) (fst <$> map_to_list files).

(** What one entry of the map adds to the children of [vp]: nothing, a directory,
    or a file. *)
Inductive child : Type := NoChild | ChildDir (d : string) | ChildFile (i : responseInfo).
(** internal/localdav/server.go:1139-1172 [propfindResponses]: one entry *)
Definition child_of (base vp prefix : string) (kv : string * FileRecord) : child :=
  let '(p, rec) := kv in
  if negb (String.eqb prefix "") && negb (has_prefix p prefix) then NoChild
  else
    let rest := if negb (String.eqb prefix "") then trim_prefix p prefix else p in
    if String.eqb rest "" then NoChild
    else if IsDirectoryMarkerPath p then
      let dirRest := trim_suffix rest ("/" +:+ DirectoryMarkerName) in
      if String.eqb dirRest DirectoryMarkerName || String.eqb dirRest "" then NoChild
      else ChildDir (path_join [vp; before_byte slash dirRest])
    else if IsInternalVirtualPath p then NoChild
    else if str_contains rest "/" then ChildDir (path_join [vp; before_byte slash rest])
    else ChildFile (mkInfo (href base (path_join [vp; rest]) false) false (fr_Size rec) (fr_ModTime rec)
                      (etagForRecord (path_join [vp; rest]) rec)).
Definition child_dir (c : child) : option string := match c with ChildDir d => Some d | _ => None end.
Definition child_file (c : child) : option responseInfo := match c with ChildFile i => Some i | _ => None end.

(** internal/localdav/server.go:1117-1184 [propfindResponses] *)
Definition propfindResponses (files : gmap string FileRecord) (vp depth base : string) : option (list responseInfo) :=
  let vp := trim_slash vp in
  match (if IsInternalVirtualPath vp then None else files !! vp) with
  | Some rec => Some [mkInfo (href base vp false) false (fr_Size rec) (fr_ModTime rec) (etagForRecord vp rec)]
  | None =>
      if negb (directoryExists files vp) then None
      else
        let self := mkInfo (href base vp true) true 0 "" "" in
        if String.eqb depth "0" then Some [self]
        else
          let prefix := if String.eqb vp "" then "" else vp +:+ "/" in
          let children := child_of base vp prefix <$> map_to_list files in
          let dirs := sort_strings (remove_dups (omap child_dir children)) in
          Some (self :: ((fun d => mkInfo (href base d true) true 0 "" "") <$> dirs) ++
                go_sort (fun a b => str_gtb (ri_Href b) (ri_Href a)) (omap child_file children))
  end.

(** internal/localdav/server.go:1282-1309 [writeResponse] *)
Definition writeResponse (ri : responseInfo) : string :=
  str_concat [
    "<D:response><D:href>"; xml_EscapeText (ri_Href ri); "</D:href><D:propstat><D:prop>";
    if ri_IsDir ri then "<D:resourcetype><D:collection/></D:resourcetype>"
    else str_concat ["<D:resourcetype/>"; "<D:getcontentlength>"; itoa (ri_Size ri); "</D:getcontentlength>";
           if String.eqb (ri_ETag ri) "" then "" else str_concat ["<D:getetag>"; xml_EscapeText (ri_ETag ri); "</D:getetag>"]];
    if String.eqb (ri_ModTime ri) "" then ""
    else match parse_rfc3339 (ri_ModTime ri) with
         | Some t => str_concat ["<D:getlastmodified>"; format_http t; "</D:getlastmodified>"]
         | None => ""
         end;
    "</D:prop><D:status>HTTP/1.1 200 OK</D:status></D:propstat></D:response>"].

(** internal/localdav/server.go:1344-1348 [htmlEscape] *)
Definition htmlEscape (s : string) : string := xml_EscapeText s.

(** internal/localdav/server.go:1311-1329 [writeDirectoryHTML] *)
Definition writeDirectoryHTML (sv : Server) (files : gmap string FileRecord) (vp : string) : result string :=
  match propfindResponses files vp "1" (basePrefix sv) with
  | None => Err (ENew "directory not found")
  | Some items => Ok (str_concat (
      ["<!doctype html><meta charset="; quote_mark; "utf-8"; quote_mark; "><title>open-seavault-rclone WebDAV</title><h1>open-seavault-rclone WebDAV</h1><ul>"] ++
      flat_map (fun item =>
        if String.eqb (ri_Href item) (href (basePrefix sv) vp true) then []
        else
          let label := path_base (trim_suffix (ri_Href item) "/") in
          let label := if ri_IsDir item then label +:+ "/" else label in
          ["<li><a href="; quote_mark; htmlEscape (ri_Href item); quote_mark; ">"; htmlEscape label; "</a></li>"]) items ++
      ["</ul>"]))
  end.
End paths.

(** internal/localdav/server.go:621-650 [servedByteRange] *)
Definition servedByteRange (r : Request) (size : Z) : Z * Z :=
  if String.eqb (rq_Method r) "HEAD" then (0, 0)
  else
    let spec := trim_space (rq_Header r "Range") in
    if String.eqb spec "" || negb (String.eqb (rq_Header r "If-Range") "") then (0, size)
    else if negb (has_prefix spec "bytes=") then (0, size)
    else
      let spec := list_ascii_of_string (str_drop 6 spec) in
      if existsb (Ascii.eqb ",") spec then (0, size)
      else
        let '(first, last, found) := cut_byte "-" spec in
        if negb found || bool_decide (first = []) || bool_decide (last = []) then (0, size)
        else
          match ParseInt (trim_space (string_of_list_ascii first)), ParseInt (trim_space (string_of_list_ascii last)) with
          | Some a, Some b =>
              if (a <? 0) || (b <? a) || (size <=? a) then (0, size)
              else let b := if size <=? b then size - 1 else b in (a, b - a + 1)
          | _, _ => (0, size)
          end.

(** internal/localdav/server.go:812-814 [isWorkspaceRoot] *)
Definition isWorkspaceRoot (parent : string) : bool :=
  String.eqb parent "" || String.eqb parent "." || String.eqb parent ContentRootName.

(** [io.ReadFull(r.Body, one[:])] got its byte. *)
Fixpoint first_byte (l : list read) : bool :=
  match l with
  | [] => false
  | (_ :: _, _) :: _ => true
  | ([], Some _) :: _ => false
  | ([], None) :: l => first_byte l
  end.
(** internal/localdav/server.go:818-828 [requestHasBody] *)
Definition requestHasBody (r : Request) : bool := (0 <? rq_ContentLength r) || first_byte (rq_Body r).

(** internal/localdav/server.go:946-952 [writeCopyMoveStatus] *)
Definition writeCopyMoveStatus (existed : bool) : Response := if existed then status 204 else status 201.

(** internal/localdav/server.go:292-298 [hostForbiddenBody] *)
Definition hostForbiddenBody (quote : string → string) (rawHost : string) (extra : list string) : string :=
  let allowed := "loopback addresses, localhost" +:+ (match extra with [] => "" | _ => ", " +:+ String.concat ", " extra end) in
  str_concat ["forbidden: unexpected Host header "; quote rawHost; "; allowed: "; allowed; "; start with --allow-host NAME to add one"].

(** internal/localdav/server.go:441-450 [retryAfterSeconds] *)
Definition retryAfterSeconds (d : Z) : Z :=
  if d <=? 0 then 1
  else let secs := Z.quot (wrap64 (wrap64 (d + time_Second) - 1)) time_Second in if secs <? 1 then 1 else secs.

(** internal/localdav/server.go:469-475 [rejectReadOnly] *)
Definition rejectReadOnly (sv : Server) : option Response :=
  if sv_ReadOnly sv then Some (http_error 403 "this WebDAV view is read-only") else None.

Definition quoted (s : string) : string := quote_mark +:+ s +:+ quote_mark.
Definition xml_type : string := "application/xml; charset=" +:+ quoted "utf-8".
(** internal/localdav/server.go:1030-1034 [handleLock] *)
Definition handleLock : Response :=
  with_header "Content-Type" xml_type
    (mkResponse 200 [] (Text (str_concat ["<?xml version="; quoted "1.0"; " encoding="; quoted "utf-8"; "?><D:prop xmlns:D="; quoted "DAV:";
       "><D:lockdiscovery/></D:prop>"]))).

(** ** Authentication *)

(** internal/localdav/server.go:455-467 [credentialsMatch] *)
Definition credentialsMatch (c : BasicCredentials) (r : Request) : bool :=
  match parseBasicAuth (rq_Header r "Authorization") with
  | None => false
  | Some (user, pass) =>
      bool_decide (sha256 (bytes_of (bc_User c)) = sha256 (bytes_of user)) &&
      bool_decide (sha256 (bytes_of (bc_Password c)) = sha256 (bytes_of pass))
  end.

Definition challenge : Response :=
  with_header "WWW-Authenticate" (str_concat ["Basic realm="; quoted "open-seavault-rclone"; ", charset="; quoted "UTF-8"])
    (http_error 401 "authentication required").

(** internal/localdav/server.go:364-367 [authLimitClearRequest] *)
Record authLimitClearRequest : Type := mkClear { cl_Peer : string; cl_Account : string }.

Section limiter.
Context (clock_ : nat → Z) (range_ : nat → gmap Key state → list (Key * state)) (quote : string → string).
(** [json.Decoder.Decode] of a body of at most 64 KiB. *)
Context (decode_clear : bytes → option authLimitClearRequest).

(** internal/localdav/server.go:311-359 [authorizeBasic]; [None] lets the request proceed.
    The operator's log lines and the pause after a failure are not kept. *)
Definition authorizeBasic (c : BasicCredentials) (r : Request) (lim : option Limiter) : option Response * option Limiter :=
  match parseBasicAuth (rq_Header r "Authorization") with
  | None => (Some challenge, lim)
  | Some (user, _) =>
      match lim with
      | None => (if credentialsMatch c r then None else Some challenge, None)
      | Some l =>
          let '(att, allowed, retryAfter, l) := Limiter_Attempt clock_ range_ l SurfaceBasic (rq_RemoteAddr r) user in
          if negb allowed then
            (Some (with_header "Retry-After" (itoa (retryAfterSeconds retryAfter))
               (http_error 429 ("too many failed authentication attempts; try again in " +:+ DurationPhrase retryAfter))), Some l)
          else if credentialsMatch c r then
            let '(att, l) := Attempt_Success clock_ att l in
            (None, Some (Attempt_Release clock_ att l).2)
          else
            let '(_, _, att, l) := Attempt_Fail clock_ range_ att l in
            (Some challenge, Some (Attempt_Release clock_ att l).2)
      end
  end.

(** internal/localdav/server.go:422-435 [clearedKeyStrings] *)
Definition clearedKeyStrings (ks : list Key) : list string :=
  (fun k =>
    let who :=
      if String.eqb (k_peer k) "" && negb (String.eqb (k_account k) "")
      then str_concat ["account "; quote (k_account k); " (from any source)"]
      else if negb (String.eqb (k_account k) "") then str_concat [k_peer k; " (user "; quote (k_account k); ")"]
      else k_peer k in
    str_concat [SurfaceWords (k_surface k); " for "; who]) <$> ks.

(** internal/localdav/server.go:378-418 [handleAuthLimitClear]; the body is the list under
    [cleared]. *)
Definition handleAuthLimitClear (sv : Server) (r : Request) (lim : option Limiter) : Response * list string * option Limiter :=
  match sv_Credentials sv with
  | None => (http_error 404 "not found", [], lim)
  | Some _ =>
      if negb (String.eqb (rq_Method r) "POST") then (with_header "Allow" "POST" (http_error 405 "method not allowed"), [], lim)
      else
        match lim with
        | None => (http_error 400 "auth limits are disabled; there is nothing to clear", [], lim)
        | Some l =>
            match decode_clear (take 65536 (concat (rq_Body r).*1)) with
            | None => (http_error 400 "invalid JSON body", [], lim)
            | Some req =>
                let peer := trim_space (cl_Peer req) in
                let account := trim_space (cl_Account req) in
                if Bool.eqb (String.eqb peer "") (String.eqb account "")
                then (http_error 400 "clear exactly one of peer or account", [], lim)
                else
                  let '(ks, l) := if negb (String.eqb peer "") then ClearPeer range_ l peer else ClearAccount range_ l account in
                  (with_header "Content-Type" "application/json; charset=utf-8" (status 200), clearedKeyStrings ks, Some l)
            end
        end
  end.
End limiter.

(** ** The verbs *)

(** A call that never returns; nothing after it in its handler runs. *)
Definition go_hang : err := ESentinel "call never returns".
(** [x, err := m] where the handler goes on with the error. *)
Definition attempt {A} (m : M A) : M (result A) := fun s =>
  match m s with
  | (s, Err e) => if bool_decide (e = go_hang) then (s, Err e) else (s, Ok (Err e))
  | (s, Ok a) => (s, Ok (Ok a))
  end.
(** The result of [m] made an answer. *)
Definition answer {A} (code : Z) (m : M A) (f : A → M Response) : M Response :=
  r ← attempt m; match r with Ok a => f a | Err e => mret (http_error code (err_text e)) end.

Definition pending_error (e : err) : bool := bool_decide (e = ErrChunksPending).

Section verbs.
Context `{GoUnicode} `{AEAD} `{Env} `{Platform} `{JSON ManifestRecord} `{JSON Index} (v : Vault) (sv : Server).

(** [s.DropOSJunk && vp != "" && isMountJunk(path.Base(vp))]. *)
Definition junk (vp : string) : bool := sv_DropOSJunk sv && negb (String.eqb vp "") && isMountJunk (path_base vp).

(** internal/localdav/server.go:577-613 [openFileReader] *)
Definition openFileReader (d : DavSt) (vp : string) (rec : FileRecord) (off length_ : Z) : M (DavSt * result FileReader) :=
  let key := (vp, fr_Generation rec) in
  t ← now;
  match presence_get (dv_presence d) key t with
  | Some ent =>
      if pe_pending ent then mret (d, Err ErrChunksPending)
      else
        r ← try (OpenReaderAtWithOptions v vp (mkReaderOptions true));
        match r with
        | Err e => mret (d, Err e)
        | Ok fr =>
            let d := chunkCache sv d in
            '((fr, c), verr) ← VerifyChunkPresence v (fr, dv_cache d) off length_;
            let d := set_chunkCache d c in
            match verr with
            | None => mret (d, Ok fr)
            | Some e =>
                mret (if pending_error e then set_presence d (presence_store (dv_presence d) key t true) else d, Err e)
            end
        end
  | None =>
      r ← try (OpenReaderAt v vp);
      match r with
      | Ok fr => mret (chunkCache sv (set_presence d (presence_store (dv_presence d) key t false)), Ok fr)
      | Err e => mret (if pending_error e then set_presence d (presence_store (dv_presence d) key t true) else d, Err e)
      end
  end.

(** internal/localdav/server.go:477-567 [handleGet] *)
Definition handleGet (d : DavSt) (r : Request) : M (DavSt * Response) :=
  match requestVirtualPath sv r with
  | Err e => mret (d, http_error 400 (err_text e))
  | Ok vp =>
      if junk vp then mret (d, not_found)
      else
        files ← try (AllEntries v);
        match files with
        | Err e => mret (d, http_error 500 (err_text e))
        | Ok files =>
            let head := String.eqb (rq_Method r) "HEAD" in
            match (if IsInternalVirtualPath vp then None else files !! vp) with
            | None =>
                if String.eqb vp "" || directoryExists files vp then
                  let html := with_header "Content-Type" "text/html; charset=utf-8" in
                  mret (d, html (if head then status 200
                                 else mkResponse 200 [] (Listing (default [] (propfindResponses files vp "1" (basePrefix sv))))))
                else mret (d, not_found)
            | Some rec =>
                let etag := etagForRecord vp rec in
                let inm := rq_Header r "If-None-Match" in
                if negb (String.eqb inm "") && etagMatches inm etag then mret (d, with_header "ETag" etag (status 304))
                else if head then
                  mret (d, mkResponse 200
                    ([("Content-Type", "application/octet-stream"); ("ETag", etag); ("Accept-Ranges", "bytes"); ("Content-Length", itoa (fr_Size rec))] ++
                     match parse_rfc3339 (fr_ModTime rec) with Some t => [("Last-Modified", format_http t)] | None => [] end) NoBody)
                else
                  let '(off, length_) := servedByteRange r (fr_Size rec) in
                  '(d, o) ← openFileReader d vp rec off length_;
                  match o with
                  | Err e => mret (d, if pending_error e then http_error 409 "file is not fully synced yet" else http_error 500 (err_text e))
                  | Ok fr =>
                      slot ← try os_Quiet;
                      mret (d, mkResponse 200 [("Content-Type", "application/octet-stream"); ("ETag", etagForReader vp fr)]
                        (if is_ok slot then Content (path_base vp) fr else NoBody))
                  end
            end
        end
  end.

(** internal/localdav/server.go:694-733 [handlePut] *)
Definition handlePut (r : Request) : M Response :=
  match requestVirtualPath sv r with
  | Err e => mret (http_error 400 (err_text e))
  | Ok vp =>
      if String.eqb vp "" then mret (http_error 400 "cannot PUT to vault root")
      else if junk vp then mret (status 201)
      else
        info ← try (FileInfo v vp);
        let existed := match info with Ok (_, b) => b | Err _ => false end in
        if negb existed && ReservedContentSegment vp
        then mret (http_error 400 "reserved virtual path %q is not allowed")
        else
          let size := if rq_ContentLength r <? 0 then -1 else rq_ContentLength r in
          t ← now;
          answer 500 (PutReader v (rq_Body r) vp size 384 (Some t)) (fun _ => mret (if existed then status 204 else status 201))
  end.

(** internal/localdav/server.go:735-753 [handleDelete] *)
Definition handleDelete (r : Request) : M Response :=
  match requestVirtualPath sv r with
  | Err e => mret (http_error 400 (err_text e))
  | Ok vp =>
      if junk vp then mret (status 204)
      else answer 404 (RemovePath v vp) (fun _ => mret (status 204))
  end.

(** internal/localdav/server.go:755-807 [handleMkcol] *)
Definition handleMkcol (r : Request) : M Response :=
  match requestVirtualPath sv r with
  | Err e => mret (http_error 400 (err_text e))
  | Ok vp =>
      if String.eqb vp "" then mret (http_error 405 "root collection already exists; use content/ as the writable workspace")
      else if junk vp then mret (status 201)
      else if requestHasBody r then mret (http_error 415 "MKCOL does not accept a request body")
      else
        answer 400 (DirectoryExists v vp) (fun exists_ =>
        if exists_ : bool then mret (http_error 405 "collection already exists")
        else if ReservedContentSegment vp then mret (http_error 400 "reserved virtual path %q is not allowed")
        else
          let parent := path_dir vp in
          let create := answer 500 (EnsureDirectory v vp) (fun _ => mret (status 201)) in
          if isWorkspaceRoot parent then create
          else answer 400 (DirectoryExists v parent) (fun parentExists =>
            if negb parentExists then mret (http_error 409 "parent collection does not exist") else create))
  end.

(** ** Copies *)

(** The start of [PutReader], before the stream is read. *)
Definition put_front (virtualPath : string) : M (Index * string) :=
  idx ← LoadIndex v;
  vp ← lift (normalizeContentFilePath virtualPath);
  _ ← (match ix_Files idx !! vp with
       | Some _ => mret tt
       | None =>
           match reservedNewPathError vp with
           | Some e => fail e
           | None => match ValidatePortableName (path_base vp) with Some e => fail e | None => mret tt end
           end
       end);
  mret (idx, vp).
(** ... and what follows the stream. *)
Definition put_back (idx : Index) (vp : string) (size mode : Z) (modTime : option Z) (p : Putting) : M PutResult :=
  modTime ← (match modTime with Some t => mret t | None => now end);
  let mode := if mode =? 0 then 384 else mode in
  let size := if size <? 0 then pg_total p else size in
  t ← now;
  let nows := format_rfc3339nano t in
  let wallNano := unixNanoOrNow t nows in
  generation ← nextGeneration wallNano;
  let '(clk, clockAge) := nextRecordClock (v_deviceID v) idx vp wallNano in
  let rec := MkFileRecord size mode (format_rfc3339nano modTime) nows generation (pg_refs p) "" clk clockAge in
  let res := mkPutResult vp size (Z.of_nat (length (pg_refs p))) (pg_new p) in
  _ ← commit_written v (with_Files idx (<[vp := rec]> (ix_Files idx))) [vp];
  mret res.

(** What [WriteFileTo] writes into the pipe, one element per write, and the error it
    closes the pipe with. *)
Fixpoint write_chunks (refs : list ChunkRef) : M (list bytes * option err) :=
  match refs with
  | [] => mret ([], None)
  | ref :: refs =>
      r ← try (loadChunk v ref);
      match r with
      | Err e => mret ([], Some e)
      | Ok c => '(cs, e) ← write_chunks refs; mret (c :: cs, e)
      end
  end.
Definition pipe_writes (src : string) : M (list bytes * option err) :=
  r ← try (idx ← LoadIndex v; vp ← lift (normalizeContentFilePath src);
           match ix_Files idx !! vp with Some rec => mret rec | None => fail (ENew "virtual path %q not found") end);
  match r with Err e => mret ([], Some e) | Ok rec => write_chunks (fr_Chunks rec) end.

(** Whether a put that fails after it began to read leaves some of the pipe unread:
    a matter of the sizes of the buffers between them. *)
Context (pipe_left : St → bool).

(** internal/localdav/server.go:1010-1028 [copyFile].  The writer runs beside the put, over a
    pipe nobody closes at the reading end: if the put gives up with writes left, the
    writer waits forever, and so does the last receive.  The chunks are loaded before
    they are put here. *)
Definition copyFile (src dst : string) (rec : FileRecord) : M unit :=
  t ← now;
  let modTime := default t (parse_rfc3339 (fr_ModTime rec)) in
  '(cs, e) ← pipe_writes src;
  let reads := map (fun c => (c, None)) cs ++ [([], Some (match e with None => io_EOF | Some e => read_failed e end))] in
  front ← try (put_front dst);
  match front with
  | Err pe => if bool_decide (cs = []) then fail pe else fail go_hang
  | Ok (idx, vp) =>
      left_ ← gets pipe_left;
      p ← try (put_chunks v reads);
      match p with
      | Err pe => if negb (bool_decide (cs = [])) && left_ then fail go_hang else fail pe
      | Ok p => _ ← put_back idx vp (fr_Size rec) (fr_Mode rec) (Some modTime) p; mret tt
      end
  end.

(** internal/localdav/server.go:984-1005 [copyPath]: one entry below a directory *)
Definition copy_entry (files : gmap string FileRecord) (prefix dst : string) (count : Z) (p : string) : M Z :=
  let rel := if negb (String.eqb prefix "") then trim_prefix p prefix else p in
  if String.eqb rel "" then mret count
  else if IsDirectoryMarkerPath p then
    let dirRel := trim_suffix rel ("/" +:+ DirectoryMarkerName) in
    let dirRel := if String.eqb dirRel DirectoryMarkerName then "" else dirRel in
    _ ← EnsureDirectory v (path_join [dst; dirRel]); mret count
  else
    _ ← copyFile p (path_join [dst; rel]) (default zero_FileRecord (files !! p)); mret (count + 1).

(** internal/localdav/server.go:954-1008 [copyPath] *)
Definition copyPath (src dst : string) : M Z :=
  files ← AllEntries v;
  if IsInternalVirtualPath src || IsInternalVirtualPath dst then fail (ENew "reserved paths cannot be copied")
  else match files !! src with
  | Some rec => _ ← copyFile src dst rec; mret 1
  | None =>
      if negb (directoryExists files src) then fail (ENew "source path %q not found")
      else
        _ ← EnsureDirectory v dst;
        let prefix := if String.eqb src "" then "" else src +:+ "/" in
        let keys := sort_strings (List.filter (fun p => String.eqb prefix "" || has_prefix p prefix) (fst <$> map_to_list files)) in
        mfold (copy_entry files prefix dst) 0 keys
  end.

(** The checks of a copy or a move before it takes the lock: source, destination,
    whether to overwrite, and the depth. *)
Definition copymove_request (r : Request) (move : bool) : Response + (string * string * bool * string) :=
  match requestVirtualPath sv r with
  | Err e => inl (http_error 400 (err_text e))
  | Ok src =>
      let destination := trim_space (rq_Header r "Destination") in
      if String.eqb destination "" then inl (http_error 400 "Destination header is required")
      else match virtualPathFromDestination sv destination with
      | Err e => inl (http_error 400 (err_text e))
      | Ok dst =>
          if String.eqb dst "" || String.eqb src "" then inl (http_error 400 "invalid source or destination")
          else if ReservedContentSegment dst then inl (http_error 400 "reserved virtual path %q is not allowed")
          else if move && (String.eqb dst src || has_prefix (dst +:+ "/") (src +:+ "/"))
          then inl (http_error 400 "cannot move a path into itself")
          else
            let overwrite := trim_space (rq_Header r "Overwrite") in
            let overwrite := if String.eqb overwrite "" then "T" else overwrite in
            if negb (String.eqb overwrite "T") && negb (String.eqb overwrite "F")
            then inl (http_error 400 "Overwrite must be T or F")
            else
              let depth := trim_space (rq_Header r "Depth") in
              if move && String.eqb depth "0" then inl (http_error 400 "MOVE with Depth 0 is not allowed")
              else inr (src, dst, String.eqb overwrite "T", depth)
      end
  end.

(** internal/localdav/server.go:830-944 [handleCopyMove] *)
Definition handleCopyMove (r : Request) (move : bool) : M Response :=
  match copymove_request r move with
  | inl resp => mret resp
  | inr (src, dst, overwrite, depth) =>
      answer 500 (AllEntries v) (fun files =>
      let is_file p := bool_decide (is_Some (files !! p)) && negb (IsInternalVirtualPath p) in
      let srcIsFile := is_file src in
      let srcIsDir := negb srcIsFile && directoryExists files src in
      if negb srcIsFile && negb srcIsDir then mret (http_error 404 "source path not found")
      else
        let dstIsFile := is_file dst in
        let dstIsDir := directoryExists files dst in
        let dstExists := dstIsFile || dstIsDir in
        let remove_dst (b : bool) (k : M Response) := if b then answer 500 (RemovePath v dst) (fun _ => k) else k in
        if negb overwrite && dstExists then mret (http_error 412 "destination exists and Overwrite is F")
        else if negb move && srcIsDir && String.eqb depth "0" then
          remove_dst dstIsFile (answer 500 (EnsureDirectory v dst) (fun _ => mret (writeCopyMoveStatus dstExists)))
        else
          let typeChange := (srcIsFile && dstIsDir) || (srcIsDir && dstIsFile) in
          let collToColl := srcIsDir && dstIsDir in
          remove_dst (dstExists && (typeChange || collToColl))
            (answer 404 (copyPath src dst) (fun _ =>
             if move then answer 500 (RemovePath v src) (fun _ => mret (writeCopyMoveStatus dstExists))
             else mret (writeCopyMoveStatus dstExists))))
  end.

(** internal/localdav/server.go:1036-1076 [handlePropfind] *)
Definition handlePropfind (r : Request) : M Response :=
  match requestVirtualPath sv r with
  | Err e => mret (http_error 400 (err_text e))
  | Ok vp =>
      if junk vp then mret not_found
      else
        let depth := trim_space (rq_Header r "Depth") in
        if equal_fold depth "infinity" then
          mret (with_header "Content-Type" xml_type
            (mkResponse 403 [] (Text (str_concat ["<D:error xmlns:D="; quoted "DAV:"; "><D:propfind-finite-depth/></D:error>"]))))
        else
          let depth := if String.eqb depth "" then "1" else depth in
          answer 500 (AllEntries v) (fun files =>
            match propfindResponses files vp depth (basePrefix sv) with
            | None => mret not_found
            | Some l => mret (with_header "Content-Type" xml_type (mkResponse 207 [] (Multistatus l)))
            end)
  end.
End verbs.

(** ** The server *)

Section serve.
Context `{GoUnicode} `{AEAD} `{Env} `{Platform} `{JSON ManifestRecord} `{JSON Index} `{Fold} (v : Vault) (sv : Server).
Context (clock_ : nat → Z) (range_ : nat → gmap Key state → list (Key * state)) (quote : string → string).
Context (decode_clear : bytes → option authLimitClearRequest) (pipe_left : St → bool).

(** A verb that writes, refused on a read-only server. *)
Definition writing (d : DavSt) (m : M Response) : M (DavSt * Response) :=
  match rejectReadOnly sv with Some resp => mret (d, resp) | None => resp ← m; mret (d, resp) end.

(** internal/localdav/server.go:244-289 [ServeHTTP]: the request past its gates *)
Definition dispatch (d : DavSt) (r : Request) : M (DavSt * Response) :=
  if String.eqb (rq_Path r) "/api/auth-limits/clear" then
    let '(resp, _, lim) := handleAuthLimitClear range_ quote decode_clear sv r (dv_limiter d) in mret (set_limiter d lim, resp)
  else
    let m := rq_Method r in
    if String.eqb m "OPTIONS" then
      mret (d, with_header "Allow" "OPTIONS, PROPFIND, GET, HEAD, PUT, DELETE, MKCOL, MOVE, COPY, LOCK, UNLOCK" (status 204))
    else if String.eqb m "PROPFIND" then resp ← handlePropfind v sv r; mret (d, resp)
    else if String.eqb m "GET" || String.eqb m "HEAD" then handleGet v sv d r
    else if String.eqb m "PUT" then writing d (handlePut v sv r)
    else if String.eqb m "DELETE" then writing d (handleDelete v sv r)
    else if String.eqb m "MKCOL" then writing d (handleMkcol v sv r)
    else if String.eqb m "MOVE" then writing d (handleCopyMove v sv pipe_left r true)
    else if String.eqb m "COPY" then writing d (handleCopyMove v sv pipe_left r false)
    else if String.eqb m "LOCK" then mret (d, handleLock)
    else if String.eqb m "UNLOCK" then mret (d, status 204)
    else mret (d, http_error 501 "method not implemented").

(** internal/localdav/server.go:221-289 [ServeHTTP]; the headers every answer carries are
    left out. *)
Definition ServeHTTP (d : DavSt) (r : Request) : M (DavSt * Response) :=
  if negb (HostAllowed (rq_Host r) (sv_AllowedHosts sv)) then
    mret (d, http_error 403 (hostForbiddenBody quote (rq_Host r) (sv_AllowedHosts sv)))
  else
    match sv_Credentials sv with
    | None => dispatch d r
    | Some c =>
        let '(refusal, lim) := authorizeBasic clock_ range_ c r (dv_limiter d) in
        let d := set_limiter d lim in
        match refusal with Some resp => mret (d, resp) | None => dispatch d r end
    end.
End serve.
