(* ===== verification/ReaderFacts.v ===== *)
(** A read returns exactly the requested slice of the file, whatever the caches hold. *)
From S2P Require Export Reader VaultFacts.
Local Open Scope Z_scope.

(** ** Binary search *)

Lemma search_loop_spec fuel i j p : (i ≤ j)%nat → (j - i ≤ fuel)%nat → (∀ a b, (a ≤ b)%nat → p a = true → p b = true) →
  let k := search_loop fuel i j p in
  (i ≤ k ≤ j)%nat ∧ (∀ m, (i ≤ m < k)%nat → p m = false) ∧ ((k < j)%nat → p k = true).
Proof.
  intros Hij Hf Hp. revert i j Hij Hf. induction fuel as [|f IH]; intros i j Hij Hf; cbn [search_loop].
  { split; [lia|]. split; [lia|]. lia. }
  destruct (Nat.ltb_spec i j) as [Hlt|]; [|split; [lia|]; split; lia].
  set (h := ((i + j) / 2)%nat). assert (Hh : (i ≤ h < j)%nat).
  { unfold h. pose proof (Nat.div_mod_eq (i + j) 2). pose proof (Nat.mod_upper_bound (i + j) 2 ltac:(lia)). lia. }
  destruct (p h) eqn:Eh.
  - destruct (IH i h ltac:(lia) ltac:(lia)) as (H1 & H2 & H3). split; [lia|]. split; [done|].
    intros Hk. destruct (decide (search_loop f i h p < h)%nat) as [?|Hge]; [auto|].
    by replace (search_loop f i h p) with h by lia.
  - destruct (IH (S h) j ltac:(lia) ltac:(lia)) as (H1 & H2 & H3). split; [lia|]. split; [|done].
    intros m Hm. destruct (decide (m ≤ h)%nat); [|apply H2; lia]. apply not_true_is_false. intros Ht.
    by rewrite (Hp m h) in Eh.
Qed.

(** ** Slices of a concatenation *)

Lemma slice_step {A} (pre chunk post : list A) (p want : nat) :
  (length pre ≤ p)%nat → (p - length pre ≤ length chunk)%nat →
  let got := take want (drop (p - length pre) chunk) in
  let all := pre ++ chunk ++ post in
  take want (drop p all) = got ++ take (want - length got) (drop (p + length got) all).
Proof.
  intros Hp Hc got all. unfold all, got.
  rewrite !drop_app_ge by (rewrite ?length_take, ?length_drop; lia).
  rewrite drop_app_le by lia. rewrite take_app. f_equal.
  rewrite length_take, length_drop. destruct (decide (want ≤ length chunk - (p - length pre))%nat) as [Hw|Hw].
  - replace (want - (length chunk - (p - length pre)))%nat with 0%nat by lia.
    by replace (want - Nat.min want (length chunk - (p - length pre)))%nat with 0%nat by lia.
  - rewrite Nat.min_r by lia. f_equal. rewrite !drop_app_ge by lia.
    by replace (p + (length chunk - (p - length pre)) - length pre - length chunk)%nat with 0%nat by lia.
Qed.

Section slices.
Context `{GoUnicode} `{AEAD} `{Env} `{Platform} `{JSON ManifestRecord} `{JSON Index} (v : Vault).
Context (cs : list bytes).
Hypothesis small : Z.of_nat (length (concat cs)) ≤ int64_max.

Definition upto (i : nat) : nat := length (concat (take i cs)).

Lemma upto_S i c : cs !! i = Some c → upto (S i) = (upto i + length c)%nat.
Proof. intros Hc. unfold upto. rewrite (take_S_r _ _ _ Hc), concat_app, length_app. cbn. by rewrite app_nil_r. Qed.
Lemma upto_le i j : (i ≤ j)%nat → (upto i ≤ upto j)%nat.
Proof.
  intros Hij. unfold upto. assert (E : take i cs = take i (take j cs)) by (rewrite take_take; f_equal; lia).
  rewrite E. rewrite <- (take_drop i (take j cs)) at 2. rewrite concat_app, length_app. lia.
Qed.
Lemma upto_total i : (upto i ≤ length (concat cs))%nat.
Proof. unfold upto. rewrite <- (take_drop i cs) at 2. rewrite concat_app, length_app. lia. Qed.

Lemma prefix_sums_length at_ refs : length (prefix_sums at_ refs) = S (length refs).
Proof. revert at_. induction refs as [|r refs IH]; intros a; [done|]. cbn. by rewrite IH. Qed.
Lemma prefix_sums_from at_ l i : 0 ≤ at_ → at_ + Z.of_nat (length (concat l)) ≤ int64_max → (i ≤ length l)%nat →
  prefix_sums at_ (map (chunk_ref v) l) !! i = Some (at_ + Z.of_nat (length (concat (take i l)))).
Proof.
  revert at_ i. induction l as [|c l IH]; intros a i Ha Hs Hi.
  - destruct i as [|i]; [|cbn in Hi; lia]. cbn. f_equal. lia.
  - destruct i as [|i]; [cbn; f_equal; lia|]. cbn [map prefix_sums]. cbn [concat] in Hs. rewrite length_app in Hs.
    change (prefix_sums (wrap64 (a + Z.of_nat (length c))) (map (chunk_ref v) l) !! i =
            Some (a + Z.of_nat (length (concat (take (S i) (c :: l)))))).
    rewrite wrap64_id by (unfold in_int64, int64_min; lia). rewrite IH; [|lia..|cbn in Hi; lia].
    cbn [take concat]. rewrite length_app. f_equal. lia.
Qed.
Lemma offset_at i : (i ≤ length cs)%nat → prefix_sums 0 (map (chunk_ref v) cs) !! i = Some (Z.of_nat (upto i)).
Proof. intros Hi. by rewrite prefix_sums_from. Qed.
Lemma offsets_last : List.last (prefix_sums 0 (map (chunk_ref v) cs)) 0 = Z.of_nat (length (concat cs)).
Proof.
  assert (Hl : ∀ (l : list Z) x i, length l = S i → l !! i = Some x → List.last l 0 = x).
  { intros l x i Hi Hx. assert (E : l = take i l ++ [x]) by (rewrite <- (take_S_r _ _ _ Hx), firstn_all2; [done|lia]).
    rewrite E. apply last_last. }
  apply (Hl _ _ (length cs)); [by rewrite prefix_sums_length, length_map|]. rewrite offset_at by done.
  unfold upto. by rewrite firstn_all.
Qed.

(** A reader of a file made of [cs], and caches that hold nothing but its chunks under
    their ids. *)
Record reads (st : rstate) : Prop := {
  rs_refs : fr_Chunks (rd_rec st.1) = map (chunk_ref v) cs;
  rs_offsets : rd_offsets st.1 = prefix_sums 0 (map (chunk_ref v) cs);
  rs_size : rd_size st.1 = Z.of_nat (length (concat cs));
  rs_open : rd_closed st.1 = false;
  rs_cached : ∀ i d, rd_cachedIdx st.1 = Z.of_nat i → rd_cachedChunk st.1 = Some d → cs !! i = Some d;
  rs_shared : ∀ c e d, st.2 = Some c → cc_items c !! chunk_id v d = Some e → d ∈ cs → ce_data e = d
}.

Lemma chunkIndexFor_spec st p : reads st → (p < length (concat cs))%nat →
  let k := chunkIndexFor st.1 (Z.of_nat p) in (k < length cs)%nat ∧ (upto k ≤ p < upto (S k))%nat.
Proof.
  intros Hr Hp. unfold chunkIndexFor, sort_Search. rewrite (rs_offsets _ Hr), prefix_sums_length, length_map. cbn [Nat.sub].
  rewrite Nat.sub_0_r. set (q := fun i => _).
  assert (Hq : ∀ i, (i < length cs)%nat → q i = (p <? upto (S i))%nat).
  { intros i Hi. unfold q. rewrite offset_at by lia. unfold default, from_option.
    destruct (Nat.ltb_spec p (upto (S i))); [apply Z.ltb_lt|apply Z.ltb_ge]; unfold id; lia. }
  set (q' := fun i => (p <? upto (S i))%nat).
  assert (Hs : ∀ f i j, (j ≤ length cs)%nat → search_loop f i j q = search_loop f i j q').
  { induction f as [|f IH]; intros i j Hj; [done|]. cbn [search_loop]. destruct (Nat.ltb_spec i j) as [Hij|]; [|done].
    assert (((i + j) / 2 < j)%nat) by (apply Nat.Div0.div_lt_upper_bound; lia).
    rewrite Hq by lia. fold (q' ((i + j) / 2)%nat). rewrite !IH by lia. done. }
  rewrite Hs by done.
  destruct (search_loop_spec (length cs) 0 (length cs) q') as (K1 & K2 & K3); [lia|lia| |].
  { intros a b Hab. unfold q'. rewrite !Nat.ltb_lt. pose proof (upto_le (S a) (S b) ltac:(lia)). lia. }
  set (k := search_loop _ _ _ _) in *. assert (Hk : (k < length cs)%nat).
  { destruct (decide (k < length cs)%nat); [done|]. exfalso.
    assert (Hne : (length cs ≠ 0)%nat) by (intros E%nil_length_inv; rewrite E in Hp; cbn in Hp; lia).
    assert (Hlast : q' (length cs - 1)%nat = false) by (apply K2; lia).
    unfold q' in Hlast. apply Nat.ltb_ge in Hlast. replace (S (length cs - 1)) with (length cs) in Hlast by lia.
    unfold upto in Hlast. rewrite firstn_all in Hlast. lia. }
  split; [done|]. specialize (K3 Hk). unfold q' in K3. apply Nat.ltb_lt in K3. split; [|done].
  destruct k as [|k']; [change (upto 0) with 0%nat; lia|]. specialize (K2 k' ltac:(lia)). unfold q' in K2. by apply Nat.ltb_ge in K2.
Qed.

Hypothesis ids : no_clash v cs.

Lemma stored_loads c s : stored v (st_files s) c → env_fault (st_tick s) = None →
  loadChunk v (chunk_ref v c) s = (tick1 s, Ok c).
Proof.
  intros (f & Hf & Hd) Hq. unfold loadChunk. rewrite bind_run. unfold try.
  change (chunkPath v (ref_ID (chunk_ref v c))) with (object_of v c).
  unfold os_ReadFile. rewrite query_quiet by done. by rewrite Hf, Hd.
Qed.

Lemma reads_set st k c cc : reads st → cs !! k = Some c →
  (∀ c0 e d, cc = Some c0 → cc_items c0 !! chunk_id v d = Some e → d ∈ cs → ce_data e = d) →
  reads (set_cachedChunk st.1 (Z.of_nat k) (Some c), cc).
Proof.
  intros [R O S C _ _] Hk Hcc. split; try done. cbn [fst set_cachedChunk rd_cachedIdx rd_cachedChunk].
  intros i d Hi [= <-]. apply Nat2Z.inj in Hi. by subst.
Qed.

Lemma chunkAt_spec st k c s : reads st → cs !! k = Some c → stored v (st_files s) c → env_fault (st_tick s) = None →
  ∃ s' st', chunkAtLocked v st k s = (s', Ok (st', Ok c)) ∧ reads st' ∧ st_files s' = st_files s ∧ (st_tick s ≤ st_tick s')%nat.
Proof.
  intros Hr Hk Hst Hq. assert (Hin : c ∈ cs) by by eapply list_elem_of_lookup_2. destruct st as [f cc].
  unfold chunkAtLocked.
  destruct (if rd_cachedIdx f =? Z.of_nat k then rd_cachedChunk f else None) as [d|] eqn:E.
  { destruct (Z.eqb_spec (rd_cachedIdx f) (Z.of_nat k)) as [Ei|]; [|done].
    rewrite (rs_cached _ Hr k d Ei E) in Hk. injection Hk as ->. by exists s, (f, cc). }
  pose proof (rs_refs _ Hr) as Hrefs. cbn [fst] in Hrefs. rewrite Hrefs, list_lookup_fmap, Hk. cbn [fmap option_fmap option_map].
  pose proof (rs_shared _ Hr) as Hsh. cbn [snd] in Hsh. change (ref_ID (chunk_ref v c)) with (chunk_id v c).
  assert (Hload : ∀ cc', (∀ c0 e d, cc' = Some c0 → cc_items c0 !! chunk_id v d = Some e → d ∈ cs → ce_data e = d) → cc = cc' →
    ∃ s' st', (r ← try (loadChunk v (chunk_ref v c));
      match r with
      | Err e => mret ((f, cc'), Err e)
      | Ok pt => mret ((set_cachedChunk f (Z.of_nat k) (Some pt), cache_Put cc' (chunk_id v c) pt), Ok pt)
      end) s = (s', Ok (st', Ok c)) ∧ reads st' ∧ st_files s' = st_files s ∧ (st_tick s ≤ st_tick s')%nat).
  { intros cc' Hcc' Heq. exists (tick1 s), (set_cachedChunk f (Z.of_nat k) (Some c), cache_Put cc' (chunk_id v c) c).
    rewrite bind_run. unfold try. rewrite stored_loads by done. split; [done|].
    split; [|split; [done|cbn; lia]]. apply (reads_set (f, cc)); [done|done|].
    intros c0 e d Hp He Hd. destruct cc' as [c1|]; [|done].
    destruct (cache_Put_items _ _ _ _ _ _ Hp He) as [Ho|[Hid ->]]; [by eapply Hcc'|]. cbn [ce_data].
    by apply ids. }
  destruct cc as [c0|]; cbn [cache_Get]; [|by apply Hload].
  destruct (cc_items c0 !! chunk_id v c) as [e|] eqn:Ee; [|by apply Hload].
  rewrite (Hsh c0 e c eq_refl Ee Hin). exists s, (set_cachedChunk f (Z.of_nat k) (Some c), Some (move_to_front c0 e)).
  split; [done|]. split; [|split; [done|lia]]. apply (reads_set (f, Some c0)); [done|done|].
  intros c1 e1 d [= <-] He1 Hd. by apply (Hsh c0 e1 d).
Qed.

(** ** The read loop *)

Definition slice (p want : nat) : bytes := take want (drop p (concat cs)).

Lemma slice_at k c p want : cs !! k = Some c → (upto k ≤ p < upto (S k))%nat →
  let got := take want (drop (p - upto k) c) in
  slice p want = got ++ slice (p + length got) (want - length got) ∧ (p + length got ≤ length (concat cs))%nat ∧
  ((0 < want)%nat → (0 < length got)%nat).
Proof.
  intros Hk Hp got. rewrite (upto_S k c Hk) in Hp.
  assert (Hall : concat cs = concat (take k cs) ++ c ++ concat (drop (S k) cs)).
  { rewrite <- (take_drop_middle cs k c Hk) at 1. by rewrite concat_app. }
  unfold slice. split; [|split].
  - rewrite Hall. apply slice_step; unfold upto in *; lia.
  - rewrite Hall, !length_app. unfold got. rewrite length_take, length_drop. unfold upto in *. lia.
  - unfold got. rewrite length_take, length_drop. lia.
Qed.

Lemma readAt_loop_spec fuel st out want p s : reads st → (want < fuel)%nat → (p ≤ length (concat cs))%nat →
  (∀ c, c ∈ cs → stored v (st_files s) c) → (∀ i, (st_tick s ≤ i)%nat → env_fault i = None) →
  ∃ s' st', readAt_loop v fuel st out want (Z.of_nat p) s =
      (s', Ok (Some (st', out ++ slice p want, if (length (concat cs) - p <? want)%nat then Some ErrEOF else None))) ∧
    reads st' ∧ st_files s' = st_files s ∧ (st_tick s ≤ st_tick s')%nat.
Proof.
  revert st out want p s. induction fuel as [|fuel IH]; intros st out want p s Hr Hf Hp Hst Hq; [lia|].
  cbn [readAt_loop]. rewrite (rs_size _ Hr).
  destruct (Nat.ltb_spec 0 want) as [Hw|Hw].
  2: { cbn [andb]. replace want with 0%nat by lia. exists s, st. unfold slice. rewrite take_0, app_nil_r. split; [|done].
       destruct (Nat.ltb_spec (length (concat cs) - p) 0); [lia|done]. }
  destruct (Z.ltb_spec (Z.of_nat p) (Z.of_nat (length (concat cs)))) as [Hlt|Hge].
  2: { cbn [andb]. exists s, st. unfold slice. rewrite drop_ge, take_nil, app_nil_r by lia. split; [|done].
       destruct (Nat.ltb_spec (length (concat cs) - p) want); [done|lia]. }
  cbn [andb]. destruct (chunkIndexFor_spec st p Hr ltac:(lia)) as [Hk Hu]. set (k := chunkIndexFor st.1 (Z.of_nat p)) in *.
  destruct (lookup_lt_is_Some_2 cs k Hk) as [c Hc].
  destruct (chunkAt_spec st k c s Hr Hc) as (s1 & st1 & E1 & Hr1 & Hf1 & Ht1);
    [apply Hst; by eapply list_elem_of_lookup_2|apply Hq; lia|].
  rewrite bind_run, E1. cbv beta iota. rewrite (rs_offsets _ Hr1), offset_at by lia.
  pose proof (upto_S k c Hc) as HS. pose proof (upto_total (S k)) as Htot.
  rewrite wrap64_id by (unfold in_int64, int64_min; lia).
  destruct (Z.ltb_spec (Z.of_nat p - Z.of_nat (upto k)) 0) as [|_]; [lia|].
  destruct (Z.ltb_spec (Z.of_nat (length c)) (Z.of_nat p - Z.of_nat (upto k))) as [|_]; [lia|]. cbn [orb].
  replace (Z.to_nat (Z.of_nat p - Z.of_nat (upto k))) with (p - upto k)%nat by lia.
  destruct (slice_at k c p want Hc Hu) as (Hs & Hle & Hpos). specialize (Hpos Hw). cbv zeta in Hs, Hle.
  set (got := take want (drop (p - upto k) c)) in *. cbv zeta.
  assert (Hgw : (length got ≤ want)%nat) by (unfold got; rewrite length_take; lia).
  rewrite wrap64_id by (unfold in_int64, int64_min; lia).
  replace (Z.of_nat p + Z.of_nat (length got)) with (Z.of_nat (p + length got)) by lia.
  destruct (IH st1 (out ++ got) (want - length got)%nat (p + length got)%nat s1) as (s2 & st2 & E2 & Hr2 & Hf2 & Ht2).
  - done.
  - lia.
  - lia.
  - by rewrite Hf1.
  - intros i Hi. apply Hq. lia.
  - exists s2, st2. rewrite E2, Hs, <- app_assoc. split; [|split; [done|split; [congruence|lia]]].
    f_equal. f_equal. f_equal. f_equal.
    destruct (Nat.ltb_spec (length (concat cs) - (p + length got)) (want - length got)),
      (Nat.ltb_spec (length (concat cs) - p) want); try done; lia.
Qed.

(** A read at an offset fills its buffer with exactly the bytes of the file there,
    short only at the end of the file, which it reports as io.EOF; it always returns,
    and what the one-chunk cache and the shared cache hold, or drop on the way, makes
    no difference. *)
Theorem ReadAt_slice st len p s : reads st →
  (∀ c, c ∈ cs → stored v (st_files s) c) → (∀ i, (st_tick s ≤ i)%nat → env_fault i = None) →
  ∃ s' st', ReadAt v st len (Z.of_nat p) s =
      (s', Ok (Some (st', slice p len,
        if (length (concat cs) <=? p)%nat || (length (concat cs) - p <? len)%nat then Some ErrEOF else None))) ∧
    reads st' ∧ st_files s' = st_files s.
Proof.
  intros Hr Hst Hq. unfold ReadAt, ReadAt_fuel. rewrite (rs_open _ Hr), (rs_size _ Hr).
  destruct (Z.ltb_spec (Z.of_nat p) 0) as [|_]; [lia|].
  destruct (Z.leb_spec (Z.of_nat (length (concat cs))) (Z.of_nat p)), (Nat.leb_spec (length (concat cs)) p); try lia; cbn [orb].
  - exists s, st. split; [|done]. unfold slice. by rewrite drop_ge, take_nil by lia.
  - destruct (readAt_loop_spec (S len) st [] len p s Hr) as (s1 & st1 & E & Hr1 & Hf1 & _); [lia|lia|done|done|].
    by exists s1, st1.
Qed.

(** ** Ranges *)

Lemma slice_split p b r : slice p (b + r) = slice p b ++ slice (p + b) r.
Proof.
  unfold slice. rewrite <- (drop_drop (concat cs) b p), <- (take_drop b (take (b + r) (drop p (concat cs)))).
  rewrite take_take, Nat.min_l by lia. rewrite skipn_firstn_comm. by replace (b + r - b)%nat with r by lia.
Qed.
Lemma slice_over p b c : (length (concat cs) - p ≤ b)%nat → (length (concat cs) - p ≤ c)%nat → slice p b = slice p c.
Proof. intros Hb Hc. unfold slice. by rewrite !firstn_all2 by (rewrite length_drop; lia). Qed.

Lemma copy_section_spec fuel st w p limit s : reads st → (1 ≤ fuel)%nat →
  Z.of_nat (length (concat cs)) - Z.of_nat p < 32768 * (Z.of_nat fuel - 1) → 
  (∀ c, c ∈ cs → stored v (st_files s) c) → (∀ i, (st_tick s ≤ i)%nat → env_fault i = None) →
  ∃ s', copy_section v fuel st w (Z.of_nat p) limit s =
    (s', Ok (Some (w ++ slice p (Z.to_nat (limit - Z.of_nat p)), None))).
Proof.
  revert st w p s. induction fuel as [|fuel IH]; intros st w p s Hr Hf Hm Hst Hq; [lia|]. cbn [copy_section].
  destruct (Z.leb_spec limit (Z.of_nat p)) as [Hl|Hl].
  { exists s. replace (Z.to_nat (limit - Z.of_nat p)) with 0%nat by lia. unfold slice. by rewrite take_0, app_nil_r. }
  set (b := Z.to_nat (Z.min copy_buffer (limit - Z.of_nat p))).
  assert (Hb : Z.of_nat b = Z.min 32768 (limit - Z.of_nat p)) by (unfold b, copy_buffer in *; lia).
  destruct (ReadAt_slice st b p s Hr Hst Hq) as (s1 & st1 & E & Hr1 & Hf1). rewrite bind_run, E.
  destruct (_ || _) eqn:Eo.
  - exists s1. apply orb_true_iff in Eo.
    assert (Hs : slice p b = slice p (Z.to_nat (limit - Z.of_nat p))).
    { apply slice_over; destruct Eo as [Eo%Nat.leb_le|Eo%Nat.ltb_lt]; lia. }
    cbv beta iota zeta. rewrite bool_decide_true by done. by rewrite <- Hs.
  - apply orb_false_iff in Eo as [E1%Nat.leb_gt E2%Nat.ltb_ge]. cbv beta iota zeta.
    assert (Hlen : length (slice p b) = b) by (unfold slice; rewrite length_take, length_drop; lia).
    rewrite Hlen, wrap64_id by (unfold in_int64, int64_min; lia).
    replace (Z.of_nat p + Z.of_nat b) with (Z.of_nat (p + b)) by lia.
    destruct (Z.leb_spec limit (Z.of_nat (p + b))) as [Hend|Hmore].
    { destruct fuel as [|fuel]; [lia|]. exists s1. cbn [copy_section].
      destruct (Z.leb_spec limit (Z.of_nat (p + b))) as [_|]; [|lia].
      by replace (Z.to_nat (limit - Z.of_nat p)) with b by lia. }
    destruct (IH st1 (w ++ slice p b) (p + b)%nat s1) as [s2 E3]; try done.
    + lia.
    + lia.
    + by rewrite Hf1.
    + intros i Hi. apply Hq. assert (st_tick s ≤ st_tick s1)%nat; [|lia].
      destruct (readAt_loop_spec (S b) st [] b p s Hr) as (s1' & st1' & E' & _ & _ & Ht); [lia|lia|done|done|].
      unfold ReadAt, ReadAt_fuel in E. rewrite (rs_open _ Hr), (rs_size _ Hr) in E.
      destruct (Z.ltb_spec (Z.of_nat p) 0); [lia|]. destruct (Z.leb_spec (Z.of_nat (length (concat cs))) (Z.of_nat p)); [lia|].
      rewrite E' in E. by injection E as -> _.
    + exists s2. replace (Z.to_nat (limit - Z.of_nat p)) with (b + Z.to_nat (limit - Z.of_nat (p + b)))%nat by lia.
      by rewrite slice_split, app_assoc, E3.
Qed.

(** What [OpenReaderAt] hands out, with or without the check for missing chunks. *)
Lemma OpenReaderAtWithOptions_reads opts path vp idx rec s : normalizeContentFilePath path = Ok vp → st_cached s = Some idx →
  ix_Files idx !! vp = Some rec → fr_Chunks rec = map (chunk_ref v) cs →
  (∀ c, c ∈ cs → stored v (st_files s) c) → (∀ i, (st_tick s ≤ i)%nat → env_fault i = None) →
  ∃ s' f, OpenReaderAtWithOptions v path opts s = (s', Ok f) ∧ rd_rec f = rec ∧ (∀ cc, (∀ c e d, cc = Some c → cc_items c !! chunk_id v d = Some e → d ∈ cs → ce_data e = d) → reads (f, cc)) ∧
    st_files s' = st_files s ∧ (st_tick s ≤ st_tick s')%nat.
Proof.
  intros Hn Hc Hrec Hrefs Hst Hq. unfold OpenReaderAtWithOptions. rewrite bind_run.
  unfold FileInfo, LoadIndex, cachedIndexLocked. rewrite !bind_run. unfold gets. rewrite Hc. cbn [mret M_ret].
  rewrite bind_run, Hn. cbn [lift]. rewrite Hrec. cbv beta iota. cbn [negb mret M_ret].
  assert (Hpre : ∀ l s0, (∀ c, c ∈ l → c ∈ cs) → st_files s0 = st_files s → (st_tick s ≤ st_tick s0)%nat →
    ∃ s', mfold (fun _ ref => r ← try (os_Stat (chunkPath v (ref_ID ref)));
      match r with Ok _ => mret tt | Err e => if not_exist e then fail ErrChunksPending else fail e end) tt
      (map (chunk_ref v) l) s0 = (s', Ok tt) ∧ st_files s' = st_files s ∧ (st_tick s ≤ st_tick s')%nat).
  { induction l as [|c l IHl]; intros s0 Hl Hf Ht; [by exists s0|]. cbn [map mfold]. rewrite bind_run. rewrite bind_run.
    unfold try, os_Stat at 1. rewrite query_quiet by (apply Hq; lia).
    destruct (Hst c) as (f & Hfc & _); [apply Hl; by left|].
    change (chunkPath v (ref_ID (chunk_ref v c))) with (object_of v c). rewrite Hf, Hfc, bool_decide_true by done. cbn [orb].
    unfold mret at 1, M_ret at 1. cbv beta iota. apply IHl; [intros d Hd; apply Hl; by right|done|cbn; lia]. }
  assert (Hcheck : ∃ s1, (if SkipPresenceCheck opts then mret tt else mfold (fun _ ref => r ← try (os_Stat (chunkPath v (ref_ID ref)));
      match r with Ok _ => mret tt | Err e => if not_exist e then fail ErrChunksPending else fail e end) tt
      (map (chunk_ref v) cs)) s = (s1, Ok tt) ∧ st_files s1 = st_files s ∧ (st_tick s ≤ st_tick s1)%nat).
  { destruct (SkipPresenceCheck opts); [by exists s|]. by apply Hpre. }
  destruct Hcheck as (s1 & E & Hf1 & Ht1).
  rewrite bind_run, Hrefs, E. cbv beta iota zeta. eexists s1, _. split; [reflexivity|]. split; [done|]. split; [|done].
  intros cc Hcc. split; cbn [fst snd rd_rec rd_offsets rd_size rd_closed rd_cachedIdx rd_cachedChunk]; try done.
  by apply offsets_last.
Qed.
Lemma OpenReaderAt_reads path vp idx rec s : normalizeContentFilePath path = Ok vp → st_cached s = Some idx →
  ix_Files idx !! vp = Some rec → fr_Chunks rec = map (chunk_ref v) cs →
  (∀ c, c ∈ cs → stored v (st_files s) c) → (∀ i, (st_tick s ≤ i)%nat → env_fault i = None) →
  ∃ s' f, OpenReaderAt v path s = (s', Ok f) ∧ (∀ cc, (∀ c e d, cc = Some c → cc_items c !! chunk_id v d = Some e → d ∈ cs → ce_data e = d) → reads (f, cc)) ∧
    st_files s' = st_files s ∧ (st_tick s ≤ st_tick s')%nat.
Proof.
  intros. edestruct (OpenReaderAtWithOptions_reads (mkReaderOptions false)) as (s' & f & E & _ & Hr); [done..|]. by exists s', f.
Qed.

Lemma ReadRange_spec path vp idx rec s off len : normalizeContentFilePath path = Ok vp → st_cached s = Some idx →
  ix_Files idx !! vp = Some rec → fr_Chunks rec = map (chunk_ref v) cs →
  (∀ c, c ∈ cs → stored v (st_files s) c) → (∀ i, (st_tick s ≤ i)%nat → env_fault i = None) →
  Z.of_nat off ≤ int64_max → len ≤ int64_max →
  ∃ s', ReadRange v path (Z.of_nat off) len s = (s', Ok (Some
    (slice off (if len <? 0 then length (concat cs) - off else Z.to_nat len), None))).
Proof.
  intros Hn Hc Hrec Hrefs Hst Hq Ho Hl.
  destruct (OpenReaderAt_reads path vp idx rec s Hn Hc Hrec Hrefs Hst Hq) as (s1 & f & E & Hr & Hf1 & Ht1).
  assert (Hrs : reads (f, None)) by by apply Hr. pose proof (rs_size _ Hrs) as Hsz. cbn [fst] in Hsz.
  unfold ReadRange. rewrite bind_run, E. unfold Reader_Size. rewrite Hsz.
  set (l := if len <? 0 then _ else _).
  assert (Hlv : 0 ≤ l ≤ int64_max ∧ l = if len <? 0 then Z.of_nat (length (concat cs) - off) else len).
  { unfold l. destruct (Z.ltb_spec len 0); [|lia]. rewrite wrap64_id by (unfold in_int64, int64_min, int64_max in *; lia).
    destruct (Z.ltb_spec (Z.of_nat (length (concat cs)) - Z.of_nat off) 0); lia. }
  destruct Hlv as [Hl0 Hlv]. destruct (copy_section_spec (S (S (Z.to_nat (Z.of_nat (length (concat cs)) / copy_buffer)))) (f, None) []
    off (section_limit (Z.of_nat off) l) s1 Hrs) as [s2 E2].
  - lia.
  - unfold copy_buffer. pose proof (Z.div_pos (Z.of_nat (length (concat cs))) 32768 ltac:(lia) ltac:(lia)).
    pose proof (Z.mul_succ_div_gt (Z.of_nat (length (concat cs))) 32768 ltac:(lia)). lia.
  - by rewrite Hf1.
  - intros i Hi. apply Hq. lia.
  - exists s2. rewrite E2. do 4 f_equal. clearbody l. unfold section_limit. revert Hlv.
    destruct (Z.leb_spec (Z.of_nat off) (int64_max - l)) as [Hs|Hs].
    + rewrite wrap64_id by (unfold in_int64, int64_min; lia).
      replace (Z.of_nat off + l - Z.of_nat off) with l by lia. destruct (len <? 0); intros ->; [by rewrite Nat2Z.id|done].
    + destruct (len <? 0); intros Hlv; apply slice_over; lia.
Qed.
End slices.

(** ** Put, then read a range *)

Section put_range.
Context `{GoUnicode} `{AEAD} `{Env} `{Platform} `{JSON ManifestRecord} `{JSON Index} (v : Vault).

(** C12. Any range of a file that was put reads back as that range of the stream: after
    a put that reported success, a ranged read (with no failing calls) hands its
    writer exactly the bytes from the offset on, as many as asked for, or to the end
    of the file for a negative length, and reports no error; it returns however the
    range lies across the chunks.  The conditions on the put: its stream ends without a
    read error, the normalised path is one that cleaning leaves as it is (not so for
    a name that ends in a blank, [put_unstable]), the chunks' ids do not clash and objects already stored
    under them are sound.  On the range: the offset is not negative, and the offset, the
    length asked for and the size of the file fit an [int64]. *)
Theorem put_read_range (stream : list read) (path vp : string) (size mode : Z) (mt : option Z) (s s' : St) (res : PutResult)
    (off : nat) (len : Z) :
  clean_reads stream → normalizeContentFilePath path = Ok vp → CleanVirtualPath vp = Ok vp →
  no_clash v (cut_up v stream) → (∀ c, c ∈ cut_up v stream → fine v (st_files s) c) →
  PutReader v stream path size mode mt s = (s', Ok res) →
  (∀ i, (st_tick s' ≤ i)%nat → env_fault i = None) →
  Z.of_nat (length (concat stream.*1)) ≤ int64_max → Z.of_nat off ≤ int64_max → len ≤ int64_max →
  ∃ s2, ReadRange v path (Z.of_nat off) len s' = (s2, Ok (Some
    (take (if len <? 0 then length (concat stream.*1) else Z.to_nat len) (drop off (concat stream.*1)), None))).
Proof.
  intros Hcl Hn Hvp Hnc Hf Hput Hq Hsz Ho Hl.
  destruct (put_leaves _ _ _ _ _ _ _ _ _ _ Hcl Hn Hvp Hnc Hf Hput) as (_ & _ & (idx & rec & Hc & Hrec & Hrefs & _) & Hst & _).
  assert (Hcat : concat (cut_up v stream) = concat stream.*1) by (unfold cut_up, chunks; by rewrite cut_concat).
  destruct (ReadRange_spec v (cut_up v stream) ltac:(by rewrite Hcat) Hnc path vp idx rec s' off len Hn Hc Hrec Hrefs Hst Hq Ho Hl)
    as [s2 E].
  exists s2. rewrite E. unfold slice. rewrite Hcat. do 4 f_equal. destruct (len <? 0); [|done].
  rewrite !firstn_all2; [done|rewrite length_drop; lia..].
Qed.

(** A reader whose shared cache holds fewer bytes under a chunk's id than the record
    says: at the end of what is cached the loop makes no progress. *)
Lemma readAt_stuck fuel st out want pos d o s : (0 < want)%nat → pos < rd_size st.1 → in_int64 pos →
  rd_cachedIdx st.1 = Z.of_nat (chunkIndexFor st.1 pos) → rd_cachedChunk st.1 = Some d →
  rd_offsets st.1 !! chunkIndexFor st.1 pos = Some o → wrap64 (pos - o) = Z.of_nat (length d) →
  (readAt_loop v fuel st out want pos s).2 = Ok None.
Proof.
  intros Hw Hp Hi Hci Hd Ho Hlen. revert out s. induction fuel as [|fuel IH]; intros out s; [done|]. cbn [readAt_loop].
  destruct (Nat.ltb_spec 0 want); [|lia]. destruct (Z.ltb_spec pos (rd_size st.1)); [|lia]. cbn [andb].
  rewrite bind_run. unfold chunkAtLocked. destruct st as [f c]. cbn [fst snd] in *. rewrite Hci, Z.eqb_refl, Hd.
  unfold mret at 1, M_ret at 1. cbv beta iota. cbn [fst]. rewrite Ho, Hlen.
  destruct (Z.ltb_spec (Z.of_nat (length d)) 0); [lia|]. rewrite Z.ltb_irrefl. cbn [orb]. rewrite Nat2Z.id, drop_all, take_nil.
  cbn [length]. rewrite Nat.sub_0_r, Z.add_0_r, wrap64_id by done. apply IH.
Qed.
End put_range.

Section demo.
#[local] Existing Instances demo_unicode demo_aead demo_env demo_platform json_manifest json_index json_legacy json_seen.

Lemma put_read_range_witness :
  ∃ s2, ReadRange demo_vault "notes/fox.txt" 4 5 put_run.1 = (s2, Ok (Some (bytes_of "quick", None))).
Proof.
  refine (put_read_range demo_vault put_reads "notes/fox.txt" "content/notes/fox.txt" (-1) 0 None empty_st put_run.1 put_res 4 5
    _ _ _ _ _ put_ran _ _ _ _).
  - by repeat constructor.
  - vm_compute. reflexivity.
  - vm_compute. reflexivity.
  - apply ids_differ_no_clash. vm_compute. reflexivity.
  - intros c _. split; [intros q [f Hq]; discriminate Hq|intros f Hq; discriminate Hq].
  - intros i _. reflexivity.
  - vm_compute. discriminate.
  - vm_compute. discriminate.
  - vm_compute. discriminate.
Defined.

(** Two records that list one chunk id with different sizes: a read of the second
    fails on the size while nothing is cached, and never returns once the chunk was
    cached for the first. *)
Definition abc : bytes := bytes_of "abc".
Definition abc_id : string := Eval vm_compute in chunk_id demo_vault abc.
Definition torn_record : FileRecord := MkFileRecord 5 384 "" "" 7 [MkChunkRef abc_id 5] "" ∅ ∅.
Definition torn_reader : FileReader := mkReader torn_record [0; 5] 5 None (-1) None false.
Definition torn_warm : FileReader := set_cachedChunk torn_reader 0 (Some abc).
Definition warm_cache : option ChunkCache := cache_Put (Some (NewChunkCache 100)) abc_id abc.
Example uncached_short_chunk_fails :
  snd <$> (match (ReadAt demo_vault (torn_reader, None) 5 0 (storeChunk demo_vault abc empty_st).1).2 with
           | Ok r => r | Err _ => None end) = Some (Some (ENew "chunk %s size mismatch")).
Proof. vm_compute. reflexivity. Qed.
Example cached_short_chunk_hangs fuel s :
  (ReadAt_fuel demo_vault fuel (torn_reader, warm_cache) 5 0 s).2 = Ok None.
Proof.
  destruct fuel as [|fuel]; [done|].
  assert (E : ∃ c, ReadAt_fuel demo_vault (S fuel) (torn_reader, warm_cache) 5 0 s =
    readAt_loop demo_vault fuel (torn_warm, Some c) abc 2 3 s).
  { eexists. unfold ReadAt_fuel. cbn [rd_closed torn_reader fst rd_size Z.ltb Z.leb Z.compare readAt_loop]. reflexivity. }
  destruct E as [c ->]. apply (readAt_stuck _ _ _ _ _ _ abc 0);
    first [done | lia | by vm_compute | split; vm_compute; discriminate].
Qed.
End demo.
