(* ===== verification/OpenVaultFacts.v ===== *)
(** A vault just created opens with the password it was created with. *)
From S2P Require Export RootPaths OpenVault RotationFacts VaultFacts DeviceFacts GCFacts UserPathFacts.
Local Open Scope Z_scope.

Section layout.
Context `{GoUnicode} `{AEAD} `{Platform} `{Env} `{JM : JSON ManifestRecord} `{JX : JSON Index} (v : Vault).

Lemma config_not_manifest id : manifestPath v id ≠ config_path v.
Proof.
  rewrite manifestPath_snoc. intros E. apply (f_equal (@length string)) in E. unfold manifestRoot, config_path in E.
  rewrite !length_app in E. cbn in E. lia.
Qed.
Lemma config_not_tmp q : q = config_path v → has_prefix (base_of q) ".tmp-" = false.
Proof. intros ->. unfold config_path. by rewrite base_snoc. Qed.

(** The content layout leaves the configuration alone. *)
Lemma EnsureContentLayout_config fs0 : usesManifestStore v = true →
  preserves (agrees (fun q => q = config_path v) fs0) (EnsureContentLayout v).
Proof.
  intros Hm. set (I := agrees _ fs0).
  assert (Hf : ∀ p rec, preserves I (saveFileManifest v p rec)).
  { intros p rec. apply saveFileManifest_agrees; [apply config_not_tmp|]. intros c1 c2 _ _. apply config_not_manifest. }
  assert (Ht : ∀ p g d c, preserves I (saveTombstoneWithClock v p g d c)).
  { intros p g d c. apply saveTombstone_agrees; [apply config_not_tmp|]. intros c1 c2 _ _. apply config_not_manifest. }
  assert (Hcf : ∀ p rec, preserves I (commitFileManifest v p rec)).
  { intros p rec. unfold commitFileManifest. keep. }
  assert (Hct : ∀ p g d c, preserves I (commitTombstone v p g d c)).
  { intros p g d c. unfold commitTombstone. keep. }
  assert (Hw : ∀ idx, preserves I (markerWouldMaskWipe v idx)).
  { intros idx. unfold markerWouldMaskWipe. pose proof (walkChunkFiles_preserves v I).
    pose proof (manifestFilesPresent_preserves v I). keep. }
  unfold EnsureContentLayout. rewrite Hm. apply preserves_bind; [keep|]. intros idx.
  apply preserves_bind; [keep|]. intros [fs changed]. cbv zeta.
  destruct (fold_left migrate_one (sorted_paths fs) (fs, ∅)) as [fs' moved].
  destruct (negb _); [keep|]. apply preserves_bind; [keep|]. intros l.
  apply preserves_bind; [apply preserves_mfold; intros _ [p rec]; apply Hcf|]. intros _.
  apply preserves_mfold. intros _ p. destruct (negb _); [keep|]. apply preserves_bind; [keep|]. intros t.
  destruct (default _ _). apply Hct.
Qed.
End layout.

Section create.
Context `{GoUnicode} `{AEAD} `{Argon2} `{Platform} `{Host} `{Env}.
Context `{JM : JSON ManifestRecord} `{JX : JSON Index} `{JL : JSON LegacyID}.
Context `{JA : JSON freshnessAnchor} `{JV : JSON VaultConfig} `{!CompactJSON VaultConfig}.
Context `{JD : JSON deviceIDStore} `{JI : JSON readerInventory}.

Lemma ResolveMetaDir_absent root s s' name : ResolveMetaDir root s = (s', Ok (name, false)) → name = "SeaVaultData".
Proof.
  unfold ResolveMetaDir. intros (s1 & found & _ & E)%M_bind_ok.
  destruct found as [|n [|m l]]; by injection E.
Qed.

(** A configuration whose top-level fields open to [keys] under [pw]. *)
Definition opens_with (pw : string) (cfg : VaultConfig) (keys : Keys) : Prop :=
  Version cfg = 2 ∧ MinReader cfg = 0 ∧ WrapEntries cfg = [] ∧ ConfigTag cfg = "" ∧ VaultID cfg ≠ "" ∧
  unwrapKeys pw (KDF cfg) (WrapNonce cfg) (WrappedKeys cfg) = Ok keys ∧
  length (MasterKey keys) = 32%nat ∧ length (IndexKey keys) = 32%nat.

Lemma randomBytes_run n s s' b : randomBytes n s = (s', Ok b) → length b = n.
Proof. unfold randomBytes. destruct (env_fault _); [done|]. intros [= _ <-]. apply env_rand_length. Qed.

Context (segs : list string).
Hypothesis segs_plain : Forall plain_seg segs.
Hypothesis segs_some : segs ≠ [].

Definition config_file : fpath := "" :: segs ++ ["SeaVaultData"; ConfigFileName].

Lemma config_file_segs names : names = ["SeaVaultData"; ConfigFileName] →
  os_segs (at_root segs names) = config_file.
Proof. intros ->. apply segs_at; [done|done|by repeat constructor]. Qed.

Lemma create_at_run pw params kdf s s' : create_at (at_root segs []) pw params kdf s = (s', Ok tt) →
  ∃ cfg keys f, opens_with pw cfg keys ∧ st_files s' !! config_file = Some f ∧ f_data f = marshal cfg ∧
    Chunk cfg = params.
Proof.
  unfold create_at. rewrite bind_run, try_run. destruct (ResolveMetaDir (at_root segs []) s) as [s1 r] eqn:Er. cbn [fst snd].
  intros (s2 & [name ex] & Hr & E)%M_bind_ok.
  destruct ex; [done|]. assert (Hname : name = "SeaVaultData").
  { destruct r as [ne|e]; [|by destruct (errors_is _ e)]. injection Hr as _ ->. by eapply ResolveMetaDir_absent. }
  subst name. cbv zeta in E. revert E.
  rewrite (join_at segs segs_plain segs_some ["SeaVaultData"]) by (by repeat constructor). cbn [app].
  rewrite (join_at segs segs_plain segs_some [ConfigFileName] ltac:(by repeat constructor) ltac:(done) ["SeaVaultData"])
    by (by repeat constructor). cbn [app]. rewrite (config_file_segs _ eq_refl).
  intros (s3 & [] & _ & E)%M_bind_ok. apply M_bind_ok in E as (s4 & [] & _ & E). apply M_bind_ok in E as (s5 & st & _ & E).
  apply M_bind_ok in E as (s6 & [] & _ & E). apply M_bind_ok in E as (s7 & salt & _ & E).
  apply M_bind_ok in E as (s8 & master & Hm & E). apply M_bind_ok in E as (s9 & ikey & Hi & E).
  apply M_bind_ok in E as (s10 & id & Hid & E). apply M_bind_ok in E as (s11 & [nonce wrapped] & Hw & E).
  apply wrap_run in Hw as [Hw _]. apply M_bind_ok in E as (s12 & t & _ & E). cbv zeta in E.
  apply M_bind_ok in E as (s13 & [] & Ha & E). apply M_bind_ok in E as (s14 & ca & Hca & E).
  apply M_bind_ok in E as (s15 & ia & Hia & E). apply M_bind_ok in E as (s16 & [] & Hf & E).
  injection Hca as Hs14 _. injection Hia as Hs15 _. injection Hf as Hs16.
  apply randomBytes_run in Hm, Hi.
  apply atomicWriteFile_run in Ha as (nm & _ & _ & _ & _ & Ha); [|done|].
  2: { unfold config_file. change ("" :: segs ++ ?l) with (("" :: segs) ++ l). rewrite (app_assoc _ ["SeaVaultData"] [ConfigFileName]).
       by rewrite base_snoc. }
  destruct (Ha eq_refl) as [[t0 Hc] _].
  set (cfg := new_config _ _ _ _ _ _) in *.
  exists cfg, (mkKeys master ikey), (mkFile (marshal cfg) t0).
  split; [|split; [|done]].
  - repeat split; try done. apply M_bind_ok in Hid as (sb & b & Hb & [= _ <-]). apply randomBytes_run in Hb.
    intros Hn. apply (f_equal String.length) in Hn. cbn [VaultID cfg new_config] in Hn. by rewrite hex_encode_length, Hb in Hn.
  - assert (Hl := EnsureContentLayout_config (mkVault (at_root segs []) (os_segs (at_root segs ["SeaVaultData"])) cfg
      (mkKeys master ikey) ca ia "") (st_files s13) eq_refl s16).
    rewrite E in Hl. cbn [fst] in Hl. rewrite <- Hs16, <- Hs15, <- Hs14 in Hl.
    rewrite (Hl (agrees_refl _ _) config_file); [exact Hc|].
    unfold config_path. cbn [v_MetaRoot]. rewrite segs_at by (done || by repeat constructor). unfold config_file.
    cbn [app]. by rewrite <- app_assoc.
Qed.

(** ** Opening in a world whose calls do not fail *)

Definition quiet (s : St) : Prop := ∀ i, (st_tick s ≤ i)%nat → env_fault i = None.
Lemma quiet_now s : quiet s → env_fault (st_tick s) = None.
Proof. intros Hq. by apply Hq. Qed.
Lemma quiet_tick s : quiet s → quiet (tick1 s).
Proof. intros Hq i Hi. apply Hq. cbn in Hi. lia. Qed.

Definition legacy_file : fpath := "" :: segs ++ [".seavault"; ConfigFileName].
(** The disk holds the vault of [cfg] and no legacy one at the same root. *)
Definition holds_vault (cfg : VaultConfig) (fs : files) : Prop :=
  (∃ f, fs !! config_file = Some f ∧ f_data f = marshal cfg) ∧
  fs !! legacy_file = None ∧ is_dir fs legacy_file = false.

Lemma holds_tick cfg s : holds_vault cfg (st_files s) → holds_vault cfg (st_files (tick1 s)).
Proof. done. Qed.

Lemma ResolveMetaDir_quiet cfg s : quiet s → holds_vault cfg (st_files s) →
  ResolveMetaDir (at_root segs []) s = (tick1 (tick1 s), Ok ("SeaVaultData", true)).
Proof.
  intros Hq ((f & Hf & _) & Hl & Hd). unfold ResolveMetaDir, MetadataDirNames. cbn [mfold]. rewrite !bind_run.
  unfold probe_name at 1. rewrite bind_run, try_run. unfold os_Stat at 1 2. rewrite query_quiet by by apply quiet_now.
  rewrite (join_at segs segs_plain segs_some) by (done || by repeat constructor). cbn [app]. rewrite (config_file_segs _ eq_refl), Hf.
  rewrite bool_decide_true by done. cbn [fst snd orb]. unfold mret at 1, M_ret at 1. cbv beta iota.
  rewrite bind_run. unfold probe_name. rewrite bind_run, try_run. unfold os_Stat. rewrite query_quiet by by apply quiet_now, quiet_tick.
  rewrite (join_at segs segs_plain segs_some) by (done || by repeat constructor). cbn [app].
  rewrite segs_at by (done || by repeat constructor). fold legacy_file. cbn [st_files tick1]. rewrite Hl, Hd.
  rewrite bool_decide_false by by intros [? ?]. done.
Qed.

Lemma ReadConfig_quiet cfg s : quiet s → holds_vault cfg (st_files s) → Abs (at_root segs []) = Ok (at_root segs []) →
  json_ok cfg → Z.of_nat (length (marshal cfg)) ≤ maxConfigBytes → WrapEntries cfg = [] → VaultID cfg ≠ "" →
  ReadConfig (at_root segs []) s = (tick1 (tick1 (tick1 s)), Ok cfg).
Proof.
  intros Hq Hh Ha Hj Hs Hw Hi. unfold ReadConfig. rewrite bind_run, Ha. cbn [lift].
  rewrite bind_run, (ResolveMetaDir_quiet cfg) by done. rewrite bind_run. unfold readCapped.
  rewrite bind_run. unfold os_ReadFile. rewrite query_quiet by by apply quiet_now; do 2 apply quiet_tick.
  rewrite (join_at segs segs_plain segs_some) by (done || by repeat constructor). cbn [app]. rewrite (config_file_segs _ eq_refl).
  destruct Hh as ((f & Hf & Hd) & _). cbn [st_files tick1]. rewrite Hf, Hd.
  destruct (Z.ltb_spec maxConfigBytes (Z.of_nat (length (marshal cfg)))); [lia|]. unfold mret, M_ret. cbv beta iota.
  rewrite unmarshal_marshal by done. rewrite Hw. cbn [length]. change (maxWrapEntries <? Z.of_nat 0) with false. cbv iota.
  apply String.eqb_neq in Hi. by rewrite Hi.
Qed.

Lemma OpenWithOptions_quiet pw cfg keys opts s : quiet s → holds_vault cfg (st_files s) →
  Abs (at_root segs []) = Ok (at_root segs []) → pw ≠ "" → opens_with pw cfg keys → json_ok cfg →
  Z.of_nat (length (marshal cfg)) ≤ maxConfigBytes →
  ∃ s1, st_files s1 = st_files s ∧ quiet s1 ∧
    OpenWithOptions (at_root segs []) pw opts s = finishOpen (at_root segs []) "SeaVaultData" true cfg keys opts s1.
Proof.
  intros Hq Hh Ha Hp (Hv & Hmr & Hw & _ & Hi & Hu & _) Hj Hs. exists (tick1 (tick1 (tick1 (tick1 (tick1 s))))).
  split; [done|]. split; [by do 5 apply quiet_tick|]. unfold OpenWithOptions. rewrite bind_run. unfold prepareOpen.
  rewrite bind_run, Ha. cbn [lift]. apply String.eqb_neq in Hp. rewrite Hp.
  rewrite bind_run, (ReadConfig_quiet cfg) by done. rewrite Hv, Hmr. change (negb (2 =? 1) && negb (2 =? 2) && negb (2 =? 3)) with false.
  change (formatTooNew 0 SupportedFormat) with (@None err). cbv iota.
  rewrite bind_run, (ResolveMetaDir_quiet cfg) by (done || by do 3 apply quiet_tick).
  unfold mret at 1, M_ret at 1. cbv beta iota. rewrite bind_run. unfold unlockWith. rewrite Hw. cbn [String.eqb negb]. by rewrite Hu.
Qed.

Lemma finishOpen_vault root name ex cfg keys opts s s' o : finishOpen root name ex cfg keys opts s = (s', Ok o) →
  v_keys (h_vault (op_handle o)) = keys ∧ v_Config (h_vault (op_handle o)) = cfg ∧ v_Root (h_vault (op_handle o)) = root.
Proof.
  unfold finishOpen. intros (s1 & ca & _ & E)%M_bind_ok. apply M_bind_ok in E as (s2 & ia & _ & E).
  apply M_bind_ok in E as (s3 & [] & _ & E). apply M_bind_ok in E as (s4 & d & _ & E). cbv zeta in E.
  apply M_bind_ok in E as (s5 & note & _ & E). apply M_bind_ok in E as (s6 & [] & _ & E).
  apply M_bind_ok in E as (s7 & [] & _ & E). by injection E as _ <-.
Qed.

(** C3. A vault that was created opens.  After a creation that reports success (with a
    password that is not empty, at a clean absolute root other than [/]) the configuration on disk is the one
    made for the password and the chosen parameters.  In any later state where that file
    is as it was written, opening the root with the password gets through every check up
    to the unlock, and gets the same two keys; what is left of the open runs on that
    configuration and those keys.  The conditions on the open: no call fails while it
    runs; the root has no legacy [.seavault/vault.json], neither a file nor a directory
    (beside one the open is refused as ambiguous); the configuration takes at most the
    1 MiB that is read of it; and it is one that JSON reads back as it was written
    ([json_ok]). *)
Theorem create_then_open pw params kdf s s1 : pw ≠ "" → Abs (at_root segs []) = Ok (at_root segs []) →
  create_at (at_root segs []) pw params kdf s = (s1, Ok tt) →
  ∃ cfg keys, opens_with pw cfg keys ∧ Chunk cfg = params ∧
    (∃ f, st_files s1 !! config_file = Some f ∧ f_data f = marshal cfg) ∧
    (json_ok cfg → Z.of_nat (length (marshal cfg)) ≤ maxConfigBytes →
     ∀ s2 opts, quiet s2 → st_files s2 !! config_file = st_files s1 !! config_file →
       st_files s2 !! legacy_file = None → is_dir (st_files s2) legacy_file = false →
       (∃ s3, st_files s3 = st_files s2 ∧ OpenWithOptions (at_root segs []) pw opts s2 =
          finishOpen (at_root segs []) "SeaVaultData" true cfg keys opts s3) ∧
       ∀ o, (OpenWithOptions (at_root segs []) pw opts s2).2 = Ok o →
         v_keys (h_vault (op_handle o)) = keys ∧ v_Config (h_vault (op_handle o)) = cfg).
Proof.
  intros Hp Ha (cfg & keys & f & Ho & Hf & Hd & Hc)%create_at_run. exists cfg, keys. split; [done|]. split; [done|].
  split; [eauto|]. intros Hj Hs s2 opts Hq Hsame Hl Hld.
  assert (Hh : holds_vault cfg (st_files s2)) by (split; [exists f; by rewrite Hsame|done]).
  destruct (OpenWithOptions_quiet pw cfg keys opts s2 Hq Hh Ha Hp Ho Hj Hs) as (s3 & Hfs & _ & E).
  split; [eauto|]. intros o Hr. rewrite E in Hr.
  destruct (finishOpen _ _ _ _ _ _ s3) as [s4 r] eqn:Er. cbn [snd] in Hr. subst r. by apply finishOpen_vault in Er as (?&?&_).
Qed.
End create.

(** ** On a concrete run *)

Section demo.
#[global] Instance ReaderRecord_Fields : Fields ReaderRecord.
Proof.
  by apply (Fields_via (fun r => (rr_DeviceID r, rr_SupportedFormat r, rr_Version r, rr_LastSeen r))
    (fun '(a, b, c, d) => mkReaderRecord a b c d)); intros [].
Defined.
#[global] Instance readerInventory_Fields : Fields readerInventory.
Proof. by apply (Fields_via inv_Readers mkInventory); intros []. Defined.
Definition json_inventory : JSON readerInventory := fields_json.

#[local] Existing Instances demo_unicode demo_aead demo_argon2 demo_platform demo_host demo_env json_manifest json_index
  json_legacy json_config json_anchor compact_config json_device json_inventory.

Definition demo_segs : list string := ["home"; "u"; "v"].
Definition demo_root : string := at_root demo_segs [].
Definition created : St * result unit := create_at demo_root "pw" DefaultChunkParams argon_kdf empty_st.
Definition opened : St * result Opened := OpenWithOptions demo_root "pw" (mkOpenOptions false) created.1.
#[local] Strategy -100 [created opened].
(** One evaluation of the run gives everything the witness needs of it. *)
Definition within_limit (o : option File) : bool :=
  match o with Some f => Z.of_nat (length (f_data f)) <=? maxConfigBytes | None => true end.
Definition absent (o : option File) : bool := match o with Some _ => false | None => true end.
Definition run_checks : bool :=
  let fs := st_files created.1 in
  is_ok created.2 && within_limit (fs !! config_file demo_segs) && absent (fs !! legacy_file demo_segs) &&
  negb (is_dir fs (legacy_file demo_segs)) && is_ok opened.2.
Lemma run_checked : run_checks = true.
Proof. vm_compute. reflexivity. Qed.
Lemma absent_None o : absent o = true → o = None.
Proof. by destruct o. Qed.
Lemma within_limit_le o f : within_limit o = true → o = Some f → Z.of_nat (length (f_data f)) ≤ maxConfigBytes.
Proof. intros Hl ->. by apply Z.leb_le. Qed.
Lemma run_facts :
  created.2 = Ok tt ∧ within_limit (st_files created.1 !! config_file demo_segs) = true ∧
  st_files created.1 !! legacy_file demo_segs = None ∧ is_dir (st_files created.1) (legacy_file demo_segs) = false ∧
  is_ok opened.2 = true.
Proof.
  pose proof run_checked as E. unfold run_checks in E.
  apply andb_true_iff in E as [E Ho]. apply andb_true_iff in E as [E Hd]. apply andb_true_iff in E as [E Hl].
  apply andb_true_iff in E as [Hc Hs]. split_and!.
  - exact (is_ok_tt _ Hc).
  - exact Hs.
  - exact (absent_None _ Hl).
  - exact (proj1 (negb_true_iff _) Hd).
  - exact Ho.
Qed.

Lemma create_then_open_witness :
  is_ok opened.2 = true ∧ ∃ cfg keys, opens_with "pw" cfg keys ∧ Chunk cfg = DefaultChunkParams ∧
    ∀ o, opened.2 = Ok o → v_keys (h_vault (op_handle o)) = keys ∧ v_Config (h_vault (op_handle o)) = cfg.
Proof.
  destruct run_facts as (Hrun & Hsize & Hnone & Hdir & Hopened). split; [exact Hopened|].
  destruct (create_then_open demo_segs ltac:(by repeat constructor) ltac:(done) "pw" DefaultChunkParams argon_kdf empty_st created.1)
    as (cfg & keys & Ho & Hc & (f & Hf & Hd) & Hopen).
  - done.
  - reflexivity.
  - exact (eq_trans (surjective_pairing created) (f_equal (pair created.1) Hrun)).
  - exists cfg, keys. split; [exact Ho|]. split; [exact Hc|].
    refine (proj2 (Hopen I _ created.1 (mkOpenOptions false) _ eq_refl Hnone Hdir)).
    + rewrite <- Hd. exact (within_limit_le _ _ Hsize Hf).
    + intros i _. reflexivity.
Defined.
End demo.
