(* ===== verification/LocalDavFacts.v ===== *)
(** Facts of the WebDAV server: what its gates keep out, that a listed name leads
    back to its entry, that what is put is what a read is handed, and which copies
    go wrong. *)
From S2P Require Export LocalDav ReaderFacts PathsFacts.
Local Open Scope Z_scope.

(** ** The gates *)

Section gates.
Context `{GoUnicode} `{AEAD} `{Env} `{Platform} `{JSON ManifestRecord} `{JSON Index} `{Fold} (v : Vault) (sv : Server).
Context (clock_ : nat → Z) (range_ : nat → gmap Key state → list (Key * state)) (quote : string → string).
Context (decode_clear : bytes → option authLimitClearRequest) (pipe_left : St → bool).

Lemma authorizeBasic_refuses c r lim : credentialsMatch c r = false →
  ∃ resp lim', authorizeBasic clock_ range_ c r lim = (Some resp, lim') ∧ (rs_Code resp = 401 ∨ rs_Code resp = 429).
Proof.
  intros Hc. unfold authorizeBasic. destruct (parseBasicAuth _) as [[user pass]|]; [|by eexists _, _; split; [|left]].
  destruct lim as [l|]; [|rewrite Hc; by eexists _, _; split; [|left]].
  destruct (Limiter_Attempt _ _ _ _ _ _) as [[[att allowed] ra] l']. destruct allowed; cbn [negb].
  - rewrite Hc. destruct (Attempt_Fail _ _ _ _) as [[[? ?] att'] l'']. by eexists _, _; split; [|left].
  - by eexists _, _; split; [|right].
Qed.

Lemma attempt_preserves {A} (I : files → Prop) (m : M A) : preserves I m → preserves I (attempt m).
Proof.
  intros Hm s Hs. specialize (Hm s Hs). unfold attempt. destruct (m s) as [s' [a|e]]; [done|]. by case_bool_decide.
Qed.
Lemma answer_preserves {A} (I : files → Prop) code (m : M A) f : preserves I m → (∀ a, preserves I (f a)) →
  preserves I (answer code m f).
Proof.
  intros Hm Hf. apply preserves_bind; [by apply attempt_preserves|]. intros [a|e]; [apply Hf|apply preserves_ret].
Qed.
Lemma AllEntries_preserves (I : files → Prop) : preserves I (AllEntries v).
Proof. unfold AllEntries. apply preserves_bind; [apply LoadIndex_preserves|intros; apply preserves_ret]. Qed.
Lemma FileInfo_preserves (I : files → Prop) p : preserves I (FileInfo v p).
Proof. unfold FileInfo. apply preserves_bind; [apply LoadIndex_preserves|]. intros idx. apply preserves_bind; [apply preserves_lift|intros; apply preserves_ret]. Qed.
Lemma Open_preserves (I : files → Prop) p o : preserves I (OpenReaderAtWithOptions v p o).
Proof.
  unfold OpenReaderAtWithOptions. apply preserves_bind; [apply FileInfo_preserves|]. intros [rec ok].
  destruct (negb ok); [apply preserves_fail|]. apply preserves_bind; [|intros; apply preserves_ret].
  destruct (SkipPresenceCheck o); [apply preserves_ret|]. apply preserves_mfold. intros _ ref. unfold os_Stat. keep.
Qed.
Lemma verify_preserves (I : files → Prop) n : ∀ ci st, preserves I (verify_from v n ci st).
Proof.
  induction n as [|n IH]; intros ci st; cbn [verify_from]; [apply preserves_ret|].
  destruct (fr_Chunks _ !! ci); [|apply preserves_fail]. destruct (cache_Get _ _) as [[?|] ?]; [apply IH|].
  apply preserves_bind; [unfold os_Stat; keep|]. intros [?|?]; [apply IH|apply preserves_ret].
Qed.
Lemma openFileReader_preserves (I : files → Prop) d vp rec off len : preserves I (openFileReader v sv d vp rec off len).
Proof.
  unfold openFileReader. apply preserves_bind; [apply preserves_now|]. intros t.
  destruct (presence_get _ _ _) as [ent|].
  - destruct (pe_pending ent); [apply preserves_ret|].
    apply preserves_bind; [apply preserves_try, Open_preserves|]. intros [fr|e]; [|apply preserves_ret].
    apply preserves_bind; [|intros [[? ?] [?|]]; apply preserves_ret].
    unfold VerifyChunkPresence. destruct (_ || _); [apply preserves_ret|apply verify_preserves].
  - apply preserves_bind; [apply preserves_try, Open_preserves|]. intros [fr|e]; apply preserves_ret.
Qed.
Lemma handleGet_preserves (I : files → Prop) d r : preserves I (handleGet v sv d r).
Proof.
  unfold handleGet. destruct (requestVirtualPath sv r) as [vp|e]; [|apply preserves_ret]. destruct (junk sv vp); [apply preserves_ret|].
  apply preserves_bind; [apply preserves_try, AllEntries_preserves|]. intros [fs|e]; [|apply preserves_ret].
  destruct (if IsInternalVirtualPath vp then None else fs !! vp) as [rec|].
  - destruct (_ && _); [apply preserves_ret|]. destruct (String.eqb _ "HEAD"); [apply preserves_ret|].
    destruct (servedByteRange r (fr_Size rec)) as [off len].
    apply preserves_bind; [apply openFileReader_preserves|]. intros [d' [fr|e]]; [|apply preserves_ret].
    apply preserves_bind; [apply preserves_try, preserves_query|intros; apply preserves_ret].
  - destruct (_ || _); apply preserves_ret.
Qed.
Lemma handlePropfind_preserves (I : files → Prop) r : preserves I (handlePropfind v sv r).
Proof.
  unfold handlePropfind. destruct (requestVirtualPath sv r) as [vp|e]; [|apply preserves_ret]. destruct (junk sv vp); [apply preserves_ret|].
  destruct (equal_fold _ _); [apply preserves_ret|]. apply answer_preserves; [apply AllEntries_preserves|]. intros fs.
  destruct (propfindResponses _ _ _ _); apply preserves_ret.
Qed.
Lemma dispatch_read_only (I : files → Prop) d r : sv_ReadOnly sv = true →
  preserves I (dispatch v sv range_ quote decode_clear pipe_left d r).
Proof.
  intros Hro. unfold dispatch. destruct (String.eqb (rq_Path r) _).
  { destruct (handleAuthLimitClear _ _ _ _ _ _) as [[? ?] ?]. apply preserves_ret. }
  unfold writing, rejectReadOnly. rewrite Hro.
  repeat (destruct (String.eqb (rq_Method r) _); [first [apply preserves_ret|apply handleGet_preserves
    |apply preserves_bind; [apply handlePropfind_preserves|intros; apply preserves_ret]]|]).
  destruct (_ || _); [apply handleGet_preserves|].
  repeat (destruct (String.eqb (rq_Method r) _); [apply preserves_ret|]). apply preserves_ret.
Qed.

(** C14. The gates of the server come before everything else, whatever the request
    asks for: under a Host name that is not allowed, or with credentials configured
    and not matched, the vault, the disk and the server's caches are as they were
    and the answer is 403, or 401 or 429 (the limiter alone may change); and a
    server in read-only mode never changes a file. *)
Theorem dav_gates (d d' : DavSt) (r : Request) (s s' : St) (resp : Response) :
  ServeHTTP v sv clock_ range_ quote decode_clear pipe_left d r s = (s', Ok (d', resp)) →
  (HostAllowed (rq_Host r) (sv_AllowedHosts sv) = false → s' = s ∧ d' = d ∧ rs_Code resp = 403) ∧
  (∀ c, sv_Credentials sv = Some c → credentialsMatch c r = false →
     s' = s ∧ dv_presence d' = dv_presence d ∧ dv_cache d' = dv_cache d ∧
     (rs_Code resp = 403 ∨ rs_Code resp = 401 ∨ rs_Code resp = 429)) ∧
  (sv_ReadOnly sv = true → st_files s' = st_files s).
Proof.
  intros Hrun. unfold ServeHTTP in Hrun.
  destruct (HostAllowed (rq_Host r) (sv_AllowedHosts sv)) eqn:Eh; cbn [negb] in Hrun.
  2:{ injection Hrun as <- <- <-. split; [done|]. split; [|done]. intros c _ _. by repeat split; left. }
  split; [done|]. destruct (sv_Credentials sv) as [c|] eqn:Ec.
  - split.
    + intros c' [= <-] Hm. destruct (authorizeBasic_refuses c r (dv_limiter d) Hm) as (resp' & lim & E & Hcode).
      rewrite E in Hrun. injection Hrun as <- <- <-. by repeat split; right.
    + intros Hro. destruct (authorizeBasic _ _ _ _ _) as [[resp'|] lim]; [by injection Hrun as <- _ _|].
      pose proof (dispatch_read_only (eq (st_files s)) (set_limiter d lim) r Hro s eq_refl) as Hk. by rewrite Hrun in Hk.
  - split; [done|]. intros Hro. pose proof (dispatch_read_only (eq (st_files s)) d r Hro s eq_refl) as Hk. by rewrite Hrun in Hk.
Qed.
End gates.

(** ** Names that begin and end visibly *)

Lemma last_app_ne {A} (l k : list A) d : k ≠ [] → List.last (l ++ k) d = List.last k d.
Proof. intros Hk. destruct k as [|x k] using rev_ind; [done|]. by rewrite app_assoc, !last_last. Qed.
Lemma find_prefix_none c t : visible c = true → List.find (has_prefix (String c t)) space_runes = None.
Proof.
  intros Hc. destruct (List.find _ space_runes) as [r|] eqn:E; [|done]. exfalso.
  apply List.find_some in E as [Hin [u Hr]%has_prefix_inv].
  assert (Hall : forallb (fun r => match r with String c _ => negb (visible c) | "" => false end) space_runes = true) by (by vm_compute).
  rewrite forallb_forall in Hall. specialize (Hall r Hin). destruct r as [|d r]; [done|]. injection Hr as -> _.
  by rewrite Hc in Hall.
Qed.
Lemma find_suffix_none s : visible (List.last (list_ascii_of_string s) " "%char) = true → List.find (has_suffix s) space_runes = None.
Proof.
  intros Hc. destruct (List.find _ space_runes) as [r|] eqn:E; [|done]. exfalso.
  apply List.find_some in E as [Hin Hr]. unfold has_suffix in Hr. apply andb_true_iff in Hr as [_ Hr%String.eqb_eq].
  assert (Hall : forallb (fun r => negb (String.eqb r "") && negb (visible (List.last (list_ascii_of_string r) " "%char))) space_runes = true)
    by (by vm_compute).
  rewrite forallb_forall in Hall. specialize (Hall r Hin). apply andb_true_iff in Hall as [Hne Hall].
  rewrite <- (str_take_drop (String.length s - String.length r) s), Hr, chars_app, last_app_ne in Hc; [by rewrite Hc in Hall|].
  by destruct r.
Qed.
Lemma trim_space_edges c t : visible c = true → visible (List.last (c :: list_ascii_of_string t) " "%char) = true →
  trim_space (String c t) = String c t.
Proof.
  intros Hc Hl. unfold trim_space. cbn [String.length trim_left_fuel]. rewrite find_prefix_none by done.
  cbn [String.length trim_right_fuel]. by rewrite find_suffix_none.
Qed.

(** A clean path with a slash at its end is cleaned to itself. *)
Lemma clean_trailing segs : segs ≠ [] → Forall plain_seg segs → tight (join_slash segs) → 
  visible (hd " "%char (list_ascii_of_string (join_slash segs))) = true →
  CleanVirtualPath (join_slash segs +:+ "/") = Ok (join_slash segs).
Proof.
  intros Hne Hp [Hb _] Hv. set (p := join_slash segs) in *.
  assert (Hp0 : p ≠ "") by (by apply join_plain_nonempty).
  assert (Hrep : replace_byte backslash slash (p +:+ "/") = p +:+ "/").
  { rewrite <- Hb at 2. clear. induction p as [|c p IH]; [done|]. unfold replace_byte in *. cbn. rewrite IH. by rewrite str_app_assoc. }
  unfold CleanVirtualPath. rewrite Hrep.
  assert (Ht : trim_space (p +:+ "/") = p +:+ "/").
  { destruct p as [|c t]; [done|]. change (String c t +:+ "/") with (String c (t +:+ "/")). apply trim_space_edges; [done|].
    rewrite chars_app, app_comm_cons. change (list_ascii_of_string "/") with ["/"%char]. by rewrite last_last. }
  rewrite Ht.
  assert (Htp : trim_prefix (p +:+ "/") "/" = p +:+ "/").
  { destruct p as [|c t] eqn:E; [done|]. unfold trim_prefix. pose proof (join_plain_rel segs Hne Hp) as Ha. fold p in Ha. rewrite E in Ha.
    rewrite path_is_abs_cons in Ha. apply bool_decide_eq_false in Ha.
    change (String c t +:+ "/") with (String c (t +:+ "/")). pose proof (path_is_abs_cons c (t +:+ "/")) as Hx. unfold path_is_abs in Hx.
    rewrite Hx, bool_decide_eq_false_2 by done. done. }
  rewrite Htp.
  assert (Hclean : path_clean (p +:+ "/") = p).
  { assert (Hrel : path_is_abs (p +:+ "/") = false).
    { pose proof (join_plain_rel segs Hne Hp) as Ha. fold p in Ha. destruct p as [|c t]; [done|].
      change (String c t +:+ "/") with (String c (t +:+ "/")). by rewrite path_is_abs_cons in *. }
    rewrite path_clean_rel by done.
    assert (Hs : split_slash (p +:+ "/") = segs ++ [""]).
    { unfold p. change "/" with (String slash ""). rewrite <- (join_slash_snoc segs "" Hne). apply split_join; [by destruct segs|].
      apply Forall_app. split; [by apply plain_no_slash|by repeat constructor]. }
    rewrite Hs. unfold clean_segs. rewrite fold_left_app. cbn [fold_left]. change (clean_seg false ?o "") with o.
    pose proof (clean_segs_plain segs Hp) as Hc. unfold clean_segs in Hc. rewrite Hc. by destruct segs. }
  rewrite Hclean.
  rewrite (proj2 (String.eqb_neq (p +:+ "/") "")) by (by destruct p).
  assert (Hd : p +:+ "/" ≠ ".") by (destruct p as [|c [|c' t]]; done).
  rewrite (proj2 (String.eqb_neq _ _) Hd). cbn [orb].
  rewrite (proj2 (String.eqb_neq p ".")) by (by apply join_plain_not_dot).
  unfold p. by rewrite join_plain_not_parent, join_plain_rel.
Qed.

(** ** Listed names *)

Definition href_char (c : ascii) : string :=
  if Ascii.eqb c slash then "/" else if path_segment_char c then String c "" else percent_byte c.
Lemma replace_step c t fuel : (3 < fuel)%nat →
  replace_from fuel "%2F" "/" ((if path_segment_char c then String c "" else percent_byte c) +:+ t) =
  href_char c +:+ replace_from (if path_segment_char c then pred fuel else if Ascii.eqb c slash then pred fuel else (fuel - 3)%nat) "%2F" "/" t.
Proof.
  intros Hf. do 4 (destruct fuel as [|fuel]; [lia|]).
  destruct (ascii_dec c slash) as [->|Hc].
  { change (if path_segment_char slash then String slash "" else percent_byte slash) with "%2F".
    cbn [replace_from append]. change (String "%" (String "2" (String "F" t))) with ("%2F" +:+ t). by rewrite has_prefix_app. }
  assert (Hs : Ascii.eqb c slash = false) by (by apply Ascii.eqb_neq). clear Hc. revert Hs.
  destruct c as [[] [] [] [] [] [] [] []]; intros Hs; first [reflexivity|discriminate Hs].
Qed.
Lemma replace_escaped s : ∀ fuel, (String.length (PathEscape s) + 4 ≤ fuel)%nat →
  replace_from fuel "%2F" "/" (PathEscape s) = str_flat_map href_char s.
Proof.
  induction s as [|c s IH]; intros fuel Hf; [by destruct fuel as [|fuel]|].
  change (PathEscape (String c s)) with ((if path_segment_char c then String c "" else percent_byte c) +:+ PathEscape s) in *.
  rewrite str_length_app in Hf.
  assert (Hl : (1 ≤ String.length (if path_segment_char c then String c "" else percent_byte c))%nat) by (by destruct (path_segment_char c); cbn; lia).
  rewrite replace_step by lia. cbn [str_flat_map]. f_equal. apply IH.
  destruct (path_segment_char c); cbn in Hf, Hl; [lia|]. destruct (Ascii.eqb c slash); lia.
Qed.
Abbreviation unescape_all := (unescape_list (fun _ => true) (fun _ => true)).
Lemma unescape_char c l : unescape_all (list_ascii_of_string (href_char c) ++ l) = (r ← unescape_all l; Some (c :: r)).
Proof. destruct c as [[] [] [] [] [] [] [] []]; reflexivity. Qed.
Lemma unescape_hrefs s t : unescape_all (list_ascii_of_string (str_flat_map href_char s) ++ t) =
  (r ← unescape_all t; Some (list_ascii_of_string s ++ r)).
Proof.
  induction s as [|c s IH]; [cbn; by destruct (unescape_all t)|].
  cbn [str_flat_map list_ascii_of_string]. rewrite chars_app, <- app_assoc, unescape_char, IH.
  by destruct (unescape_all t).
Qed.
Lemma unescape_plain l t : forallb (fun c => negb (Ascii.eqb c percent)) l = true →
  unescape_all (l ++ t) = (r ← unescape_all t; Some (l ++ r)).
Proof.
  induction l as [|c l IH]; [cbn; by destruct (unescape_all t)|]. cbn [forallb app unescape_list]. intros [Hc%negb_true_iff Hl]%andb_true_iff.
  rewrite Hc, IH by done. by destruct (unescape_all t).
Qed.

(** The path a listed name denotes once a client has decoded it. *)
Lemma href_decoded base vp dir : vp ≠ "" →
  forallb (fun c => negb (Ascii.eqb c percent)) (list_ascii_of_string (trim_suffix base "/")) = true →
  ∃ t, (t = "" ∨ t = "/") ∧ unescape_path (href base vp dir) = Some (trim_suffix base "/" +:+ "/" +:+ vp +:+ t).
Proof.
  intros Hne Hb. unfold href. apply String.eqb_neq in Hne. rewrite Hne.
  assert (Hr : ReplaceAll ("/" +:+ PathEscape vp) "%2F" "/" = String slash (str_flat_map href_char vp)).
  { unfold ReplaceAll. change (4 + String.length ("/" +:+ PathEscape vp))%nat with (S (4 + String.length (PathEscape vp))).
    change ("/" +:+ PathEscape vp) with (String slash (PathEscape vp)). cbn [replace_from].
    change (has_prefix (String slash (PathEscape vp)) "%2F") with false. f_equal. apply replace_escaped. lia. }
  cbv zeta. rewrite Hr. set (h := String slash (str_flat_map href_char vp)).
  assert (Hh : ∀ t, t = "" ∨ t = "/" → unescape_path (trim_suffix base "/" +:+ h +:+ t) = Some (trim_suffix base "/" +:+ "/" +:+ vp +:+ t)).
  { intros t Ht. unfold unescape_path, h. rewrite chars_app, unescape_plain by done.
    change (String slash ?x +:+ t) with (String slash (x +:+ t)). cbn [list_ascii_of_string]. rewrite chars_app.
    change (unescape_all (slash :: ?l)) with (r ← unescape_all l; Some (slash :: r)). rewrite unescape_hrefs.
    assert (E : unescape_all (list_ascii_of_string t) = Some (list_ascii_of_string t)) by (by destruct Ht as [-> | ->]).
    rewrite E. cbn [mbind option_bind fmap option_fmap option_map]. f_equal.
    rewrite <- (string_of_list_ascii_of_string (trim_suffix base "/" +:+ "/" +:+ vp +:+ t)). f_equal.
    by rewrite !chars_app. }
  destruct (dir && negb (has_suffix h "/")).
  - exists "/". split; [by right|]. by apply Hh; right.
  - exists "". split; [by left|]. rewrite <- (Hh "") by (by left). by rewrite str_app_nil.
Qed.

Lemma basePrefix_shape sv : basePrefix sv = "" ∨ ∃ b, basePrefix sv = b +:+ "/".
Proof.
  unfold basePrefix. destruct (_ || _); [by left|right]. set (p := if has_prefix _ _ then _ else _).
  destruct (has_suffix p "/") eqn:E; [|by exists p].
  unfold has_suffix in E. apply andb_true_iff in E as [_ E%String.eqb_eq].
  exists (str_take (String.length p - String.length "/") p). rewrite <- E at 2. by rewrite str_take_drop.
Qed.
Lemma trim_suffix_app a x : trim_suffix (a +:+ x) x = a.
Proof.
  unfold trim_suffix. assert (E : has_suffix (a +:+ x) x = true).
  { unfold has_suffix. rewrite str_length_app. replace (_ + _ - _)%nat with (String.length a) by lia.
    rewrite str_drop_app, String.eqb_refl, andb_true_r. apply Nat.leb_le. lia. }
  rewrite E, str_length_app. replace (_ + _ - _)%nat with (String.length a) by lia. clear.
  induction a as [|c a IH]; [by destruct x|]. cbn. by rewrite IH.
Qed.

Section hrefs.
Context `{GoUnicode}.

(** Every name the server lists leads back to the entry it stands for: for any
    path under the content root (plain segments, no backslash, no outer white
    space, not a vault internal), whatever bytes its names are made of, the href
    PROPFIND and the directory page print for it, decoded once as a client's
    request line is, is the request path of that same entry, as a file and as a
    collection. *)
Theorem href_roundtrip (sv : Server) (segs : list string) (dir : bool) :
  let vp := join_slash (ContentRootName :: segs) in
  Forall plain_seg segs → tight vp → IsInternalVirtualPath vp = false →
  forallb (fun c => negb (Ascii.eqb c percent)) (list_ascii_of_string (basePrefix sv)) = true →
  ∃ p, unescape_path (href (basePrefix sv) vp dir) = Some p ∧
    ∀ r, rq_Path r = p → requestVirtualPath sv r = Ok vp.
Proof.
  intros vp Hp Ht Hi Hb.
  assert (Hall : Forall plain_seg (ContentRootName :: segs)) by (constructor; [by repeat split|done]).
  assert (Hcons : ∃ t, vp = String "c" t) by (destruct segs; by eexists).
  assert (Hbase : forallb (fun c => negb (Ascii.eqb c percent)) (list_ascii_of_string (trim_suffix (basePrefix sv) "/")) = true).
  { destruct (basePrefix_shape sv) as [E|[b E]]; rewrite E in *; [done|]. rewrite trim_suffix_app.
    rewrite chars_app, forallb_app in Hb. by apply andb_true_iff in Hb as [? _]. }
  destruct (href_decoded (basePrefix sv) vp dir) as (t & Hts & E); [by destruct Hcons as [? ->]|done|].
  exists (trim_suffix (basePrefix sv) "/" +:+ "/" +:+ vp +:+ t). split; [exact E|]. intros r Hr.
  assert (Hclean : cleanDAVVirtualPath (vp +:+ t) = Ok vp).
  { unfold cleanDAVVirtualPath. destruct Hcons as [u Hu]. rewrite Hu at 1 2. cbn [append].
    change (replace_byte backslash slash (String "c" (u +:+ t))) with (String "c" (replace_byte backslash slash (u +:+ t))).
    cbn [list_ascii_of_string forallb]. change (Ascii.eqb "c" slash || Ascii.eqb "c" " ") with false. cbn [andb].
    assert (Hn : NormalizeContentPath (vp +:+ t) = Ok vp).
    { unfold NormalizeContentPath. assert (Hc : CleanVirtualPath (vp +:+ t) = Ok vp).
      { destruct Hts as [-> | ->].
        - rewrite str_app_nil. apply clean_stable; [right; by exists (ContentRootName :: segs)|done].
        - apply clean_trailing; [done|done|done|]. fold vp. by rewrite Hu. }
      rewrite Hc. cbn [mbind result_bind]. rewrite Hu at 1 2. change (String.eqb (String "c" u) "" || String.eqb (String "c" u) ".") with false.
      assert (Hroot : String.eqb vp ContentRootName || has_prefix vp (ContentRootName +:+ "/") = true).
      { destruct segs as [|x segs]; [done|]. unfold vp. rewrite join_slash_cons.
        change (ContentRootName +:+ String slash (join_slash (x :: segs))) with ((ContentRootName +:+ "/") +:+ join_slash (x :: segs)).
        by rewrite has_prefix_app, orb_true_r. }
      by rewrite Hroot. }
    change (String "c" (u +:+ t)) with (String "c" u +:+ t). rewrite <- Hu, Hn. cbn [mbind result_bind]. by rewrite Hi. }
  unfold requestVirtualPath. rewrite Hr.
  assert (Hslash : ∀ b, trim_prefix (vp +:+ b) "/" = vp +:+ b).
  { intros b. destruct Hcons as [u ->]. unfold trim_prefix. by change (has_prefix (String "c" u +:+ b) "/") with false. }
  destruct (basePrefix_shape sv) as [Eb|[b Eb]]; rewrite Eb.
  - cbn [negb andb String.eqb]. change (trim_suffix "" "/") with "". change ("" +:+ "/" +:+ ?x) with ("/" +:+ x).
    rewrite trim_prefix_app. exact Hclean.
  - rewrite trim_suffix_app. assert (Hne : String.eqb (b +:+ "/") "" = false) by (by destruct b).
    rewrite Hne, <- !str_app_assoc, (str_app_assoc (b +:+ "/")), has_prefix_app, trim_prefix_app. cbn [negb andb].
    rewrite Hslash. exact Hclean.
Qed.
End hrefs.

Section demo.
#[local] Existing Instances demo_unicode demo_aead demo_env demo_platform json_manifest json_index json_legacy json_seen demo_fold.

Definition dav_server : Server := mkServer true "/dav" [] (Some (mkCreds "ann" "secret")) false 0 0.
Definition dav_start : DavSt := mkDavSt None ∅ None.
Definition dav_request (method host path : string) : Request :=
  mkRequest method host path "127.0.0.1:5000" (fun _ => "") 0 [].
Definition dav_serve (r : Request) : St * result (DavSt * Response) :=
  ServeHTTP demo_vault dav_server (fun _ => 0) (fun _ => map_to_list) quoted (fun _ => None) (fun _ => true) dav_start r put_run.1.

Lemma dav_gates_witness :
  let r := dav_request "DELETE" "localhost:8080" "/dav/content/notes/fox.txt" in
  (dav_serve r).2 = Ok (dav_start, challenge) ∧ (dav_serve r).1 = put_run.1 ∧ st_files (dav_serve r).1 = st_files put_run.1.
Proof.
  intros r. pose proof (dav_gates demo_vault dav_server (fun _ => 0) (fun _ => map_to_list) quoted (fun _ => None) (fun _ => true)
    dav_start dav_start r put_run.1 put_run.1 challenge) as Hg.
  assert (E : dav_serve r = (put_run.1, Ok (dav_start, challenge))) by reflexivity.
  destruct (Hg E) as (_ & Hcred & Hro). destruct (Hcred (mkCreds "ann" "secret") eq_refl eq_refl) as (Hs & _).
  rewrite E. cbn [fst snd]. split; [reflexivity|]. split; [exact Hs|exact (Hro eq_refl)].
Defined.

Lemma href_roundtrip_witness :
  let vp := "content/a b%/x#1" in
  href (basePrefix dav_server) vp true = "/dav/content/a%20b%25/x%231/" ∧
  ∃ p, unescape_path (href (basePrefix dav_server) vp true) = Some p ∧
    ∀ r, rq_Path r = p → requestVirtualPath dav_server r = Ok vp.
Proof.
  intros vp. split; [vm_compute; reflexivity|].
  apply (href_roundtrip dav_server ["a b%"; "x#1"] true).
  - by repeat constructor.
  - split; vm_compute; reflexivity.
  - vm_compute. reflexivity.
  - vm_compute. reflexivity.
Defined.
End demo.

(** ** The range served

    The chunks the WebDAV server asks about before it answers a ranged GET cover what
    net/http then sends. *)

(** ** What trimming and parsing see of a string *)

Abbreviation seen := (List.filter visible).
Abbreviation seen_of s := (seen (list_ascii_of_string s)).

Lemma space_rune_unseen r : r ∈ space_runes → seen_of r = [].
Proof.
  intros Hr. assert (Hall : forallb (fun r => bool_decide (seen_of r = [])) space_runes = true) by (by vm_compute).
  rewrite forallb_forall in Hall. apply list_elem_of_In in Hr. by apply Hall, bool_decide_eq_true in Hr.
Qed.
Lemma trim_left_seen fuel s : seen_of (trim_left_fuel fuel s) = seen_of s.
Proof.
  revert s. induction fuel as [|f IH]; intros s; [done|]. cbn [trim_left_fuel].
  destruct (List.find _ space_runes) as [r|] eqn:E; [|done]. apply List.find_some in E as [Hin [t ->]%has_prefix_inv].
  rewrite str_drop_app, IH, chars_app, List.filter_app, (space_rune_unseen r); [done|by apply list_elem_of_In].
Qed.
Lemma trim_right_seen fuel s : ∃ w, s = trim_right_fuel fuel s +:+ w ∧ seen_of w = [].
Proof.
  revert s. induction fuel as [|f IH]; intros s; [by exists ""; rewrite str_app_nil|]. cbn [trim_right_fuel].
  destruct (List.find _ space_runes) as [r|] eqn:E; [|by exists ""; rewrite str_app_nil].
  apply List.find_some in E as [Hin Hr]. unfold has_suffix in Hr. apply andb_true_iff in Hr as [_ Hr%String.eqb_eq].
  destruct (IH (str_take (String.length s - String.length r) s)) as (w & Hw & Hs). exists (w +:+ r). split.
  - rewrite <- str_app_assoc, <- Hw. etransitivity; [symmetry; apply (str_take_drop (String.length s - String.length r))|]. by rewrite Hr.
  - rewrite chars_app, List.filter_app, Hs, (space_rune_unseen r); [done|by apply list_elem_of_In].
Qed.
Lemma trim_space_seen s : seen_of (trim_space s) = seen_of s.
Proof.
  unfold trim_space. set (t := trim_left_fuel _ s). destruct (trim_right_seen (String.length t) t) as (w & Hw & Hs).
  apply (f_equal (fun x => seen_of x)) in Hw. cbv beta in Hw. rewrite chars_app, List.filter_app, Hs, app_nil_r in Hw.
  rewrite <- Hw. apply trim_left_seen.
Qed.
(** A string that begins visibly loses at most an invisible end. *)
Lemma trim_space_end c t : visible c = true → ∃ w, String c t = trim_space (String c t) +:+ w ∧ seen_of w = [].
Proof.
  intros Hc. unfold trim_space. cbn [String.length trim_left_fuel]. rewrite find_prefix_none by done. apply trim_right_seen.
Qed.

Lemma filter_rev' {A} (p : A → bool) l : List.filter p (rev l) = rev (List.filter p l).
Proof. induction l as [|a l IH]; [done|]. cbn. rewrite List.filter_app, IH. cbn. destruct (p a); [done|by rewrite app_nil_r]. Qed.
Lemma drop_space_seen l : seen (drop_while ascii_space l) = seen l.
Proof.
  induction l as [|c l IH]; [done|]. cbn [drop_while List.filter]. destruct (ascii_space c) eqn:E; [|done]. rewrite IH.
  destruct (visible c) eqn:Ev; [|done]. exfalso. revert E Ev. unfold ascii_space, visible. cbv zeta. lia.
Qed.
Lemma TrimString_seen l : seen (TrimString l) = seen l.
Proof. unfold TrimString. by rewrite filter_rev', drop_space_seen, filter_rev', rev_involutive, drop_space_seen. Qed.

Lemma seen_all l : forallb visible l = true → seen l = l.
Proof. induction l as [|c l IH]; [done|]. cbn. intros [-> Hl]%andb_true_iff. by rewrite IH. Qed.
Lemma ParseInt_seen s i : ParseInt s = Some i → s ≠ "" ∧ seen_of s = list_ascii_of_string s.
Proof.
  intros Hp. assert (Hv : ∀ l : list ascii, forallb is_digit (map ascii_code l) = true → forallb visible l = true).
  { induction l as [|c l IH]; [done|]. cbn. intros [Hc Hl]%andb_true_iff. rewrite IH by done. rewrite andb_true_r.
    unfold is_digit in Hc. unfold visible. lia. }
  destruct s as [|c s]; [done|]. split; [done|]. apply seen_all. cbn [list_ascii_of_string forallb]. revert Hp. unfold ParseInt, codes.
  cbn [list_ascii_of_string map]. intros Hp. apply andb_true_iff.
  assert (Hcase : (ascii_code c = 45 ∨ ascii_code c = 43) ∧ forallb is_digit (map ascii_code (list_ascii_of_string s)) = true ∨
                  forallb is_digit (map ascii_code (list_ascii_of_string (String c s))) = true).
  { cbn [list_ascii_of_string map]. destruct (decide (ascii_code c = 45)) as [E|E1].
    { rewrite E in Hp. cbv beta iota in Hp. left. split; [by left|]. destruct (bool_decide _); [done|]. by destruct (forallb _ _). }
    destruct (decide (ascii_code c = 43)) as [E|E2].
    { rewrite E in Hp. cbv beta iota in Hp. left. split; [by right|]. destruct (bool_decide _); [done|]. by destruct (forallb _ _). }
    right. set (k := ascii_code c) in *. set (l := map _ _) in *.
    assert (Ek : match k :: l with 45 :: l => (true, l) | 43 :: l => (false, l) | l => (false, l) end = (false, k :: l)).
    { clear -E1 E2. destruct k as [|p|p]; [done| |done]. do 6 (destruct p as [p|p|]; try done). }
    rewrite Ek in Hp. destruct (bool_decide _); [done|]. by destruct (forallb is_digit (k :: l)). }
  destruct Hcase as [[Hc Hs]|[Hc Hs]%andb_true_iff].
  - split; [unfold visible; lia|by apply Hv].
  - split; [unfold is_digit in Hc; unfold visible; lia|by apply Hv].
Qed.
(** Two ways of trimming agree on any number both can read. *)
Lemma parse_agree s l i j : seen_of s = seen l → ParseInt s = Some i → ParseInt (string_of_list_ascii l) = Some j → i = j.
Proof.
  intros He Hi Hj. destruct (ParseInt_seen _ _ Hi) as [_ Hs]. destruct (ParseInt_seen _ _ Hj) as [_ Hl].
  rewrite list_ascii_of_string_of_list_ascii in Hl. rewrite <- (string_of_list_ascii_of_string s), <- Hs, He, Hl in Hi. congruence.
Qed.

(** ** Ranges *)

Lemma cut_seen l : cut_byte "-" (seen l) = let '(b, r, f) := cut_byte "-" l in (seen b, seen r, f).
Proof.
  induction l as [|c l IH]; [done|]. cbn [List.filter cut_byte]. destruct (Ascii.eqb_spec c "-") as [->|Hc]; [done|].
  destruct (cut_byte "-" l) as [[b r] f]. destruct (visible c) eqn:E; cbn [List.filter]; rewrite E; [|done].
  cbn [cut_byte]. apply Ascii.eqb_neq in Hc. by rewrite Hc, IH.
Qed.
Lemma cut_byte_app l w b r : cut_byte "-" l = (b, r, true) → cut_byte "-" (l ++ w) = (b, r ++ w, true).
Proof.
  revert b. induction l as [|c l IH]; intros b; [done|]. cbn [app cut_byte]. destruct (Ascii.eqb c "-"); [by intros [= <- <-]|].
  destruct (cut_byte "-" l) as [[b' r'] f]. intros [= <- <- ->]. by rewrite (IH b').
Qed.
Lemma split_single c l : existsb (Ascii.eqb c) l = false → split_byte c l = [l].
Proof.
  induction l as [|a l IH]; [done|]. cbn [existsb split_byte]. intros [Ha Hl]%orb_false_iff. by rewrite Ascii.eqb_sym, Ha, IH.
Qed.

Definition within (size : Z) (r : Z * Z) : Prop := 0 ≤ r.1 ∧ 0 ≤ r.2 ∧ r.1 + r.2 ≤ size.
Lemma item_within size l a n : 0 ≤ size → parse_range_item size l = Range a n → within size (a, n).
Proof.
  intros Hs. unfold parse_range_item, within. cbn [fst snd]. destruct (bool_decide _); [done|].
  destruct (cut_byte "-" _) as [[b r] []]; cbn [negb]; [|done]. destruct (bool_decide _).
  - destruct (TrimString r) as [|c t]; [done|]. destruct (Ascii.eqb c "-"); [done|].
    destruct (ParseInt _) as [i|]; [|done]. destruct (Z.ltb_spec i 0); [done|]. cbv zeta. intros [= <- <-]. lia.
  - destruct (ParseInt _) as [i|]; [|done]. destruct (Z.ltb_spec i 0); [done|]. destruct (Z.leb_spec size i); [done|].
    destruct (TrimString r) as [|c t]; [intros [= <- <-]; lia|].
    destruct (ParseInt _) as [j|]; [|done]. destruct (Z.ltb_spec j i); [done|]. cbv zeta.
    intros [= <- <-]. destruct (Z.leb_spec size j); lia.
Qed.
Lemma collect_within size l rs o : 0 ≤ size → collect_ranges size l = Some (rs, o) → Forall (within size) rs.
Proof.
  intros Hs. revert rs o. induction l as [|ra l IH]; intros rs o; cbn [collect_ranges]; [by intros [= <- _]|].
  destruct (parse_range_item size ra) as [| | |a n] eqn:E; [done| |apply IH|];
    destruct (collect_ranges size l) as [[rs' o']|]; try done; cbn [mbind option_bind].
  - intros [= <- _]. by eapply IH.
  - intros [= <- _]. constructor; [by eapply item_within|by eapply IH].
Qed.
Lemma served_within size h : 0 ≤ size → Forall (within size) (served_parts size h).
Proof.
  intros Hs. assert (Hall : Forall (within size) [(0, size)]) by (repeat constructor; cbn; lia).
  unfold served_parts. destruct (String.eqb h ""); [done|]. destruct (negb _); [done|].
  destruct (collect_ranges _ _) as [[[|r rs] []]|] eqn:E; [by destruct (size =? 0)|done| | |done];
    (destruct (size <? _); [done|by eapply collect_within]).
Qed.

(** [http]'s reading of an element that the server, too, could read as a range. *)
Lemma item_agrees size rest w b r i j : seen w = [] → cut_byte "-" rest = (b, r, true) →
  ParseInt (trim_space (string_of_list_ascii b)) = Some i → ParseInt (trim_space (string_of_list_ascii r)) = Some j →
  match parse_range_item size (rest ++ w) with
  | Bad => True
  | Blank => False
  | NoOverlap => size ≤ i
  | Range a n => a = i ∧ n = (if size <=? j then size - 1 else j) - i + 1
  end.
Proof.
  intros Hw Hc Hi Hj. set (t := TrimString (rest ++ w)).
  assert (Ht : seen t = seen rest) by (unfold t; by rewrite TrimString_seen, List.filter_app, Hw, app_nil_r).
  pose proof (cut_seen rest) as Hcs. rewrite Hc in Hcs. pose proof (cut_seen t) as Hct. rewrite Ht, Hcs in Hct.
  assert (Hseen : ∀ x k, ParseInt (trim_space (string_of_list_ascii x)) = Some k → seen_of (trim_space (string_of_list_ascii x)) = seen x ∧ seen x ≠ []).
  { intros x k Hk. destruct (ParseInt_seen _ _ Hk) as [Hne He]. rewrite trim_space_seen, list_ascii_of_string_of_list_ascii in *.
    split; [done|]. rewrite He. revert Hne. by destruct (trim_space (string_of_list_ascii x)). }
  destruct (Hseen b i Hi) as [Hbs Hb]. destruct (Hseen r j Hj) as [Hrs Hr].
  unfold parse_range_item. fold t. destruct (cut_byte "-" t) as [[b' r'] f] eqn:Ect. injection Hct as Eb Er Ef. subst f.
  assert (Htrim : ∀ x, seen x ≠ [] → TrimString x ≠ []) by (intros x Hx E; rewrite <- TrimString_seen, E in Hx; done).
  rewrite bool_decide_false by (intros E; rewrite E in Ect; done).
  cbn [negb]. rewrite bool_decide_false by (apply Htrim; congruence).
  destruct (ParseInt (string_of_list_ascii (TrimString b'))) as [a|] eqn:Ea; [|done].
  assert (a = i) as -> by (symmetry; eapply (parse_agree _ (TrimString b')); [|exact Hi|exact Ea]; rewrite TrimString_seen; congruence).
  destruct (i <? 0); [done|]. destruct (Z.leb_spec size i); [done|].
  destruct (TrimString r') as [|c l] eqn:El; [by destruct (Htrim r' ltac:(congruence))|].
  destruct (ParseInt (string_of_list_ascii (c :: l))) as [k|] eqn:Ek; [|done].
  assert (k = j) as -> by (symmetry; eapply (parse_agree _ (TrimString r')); [|exact Hj|rewrite El; exact Ek]; rewrite TrimString_seen; congruence).
  by destruct (j <? i).
Qed.

(** C36. The server checks at least what it is about to send.  Whatever the Range
    header of a GET asks for (any number of ranges, suffixes, spaces, junk), every
    part of the content that net/http answers it with lies inside the range of bytes
    whose chunks the handler made sure of, and inside the file; so no answer begins
    that a missing chunk would cut short. *)
Theorem served_range_covered (r : Request) (size : Z) :
  rq_Method r = "GET" → rq_Header r "If-Range" = "" → 0 ≤ size →
  let '(off, len) := servedByteRange r size in
  ∀ a n, (a, n) ∈ served_parts size (rq_Header r "Range") → off ≤ a ∧ a + n ≤ off + len ∧ 0 ≤ off ∧ off + len ≤ size.
Proof.
  intros Hm Hif Hs. set (h := rq_Header r "Range").
  assert (Hin : ∀ a n, (a, n) ∈ served_parts size h → within size (a, n)).
  { intros a n. pose proof (served_within size h Hs) as Hw. rewrite Forall_forall in Hw. apply Hw. }
  assert (Hwhole : ∀ a n, (a, n) ∈ served_parts size h → 0 ≤ a ∧ a + n ≤ 0 + size ∧ 0 ≤ 0 ∧ 0 + size ≤ size).
  { intros a n Ha. destruct (Hin a n Ha) as (?&?&?). cbn in *. lia. }
  unfold servedByteRange. rewrite Hm, Hif. change (String.eqb "GET" "HEAD") with false. change (String.eqb "" "") with true.
  cbv beta iota zeta. fold h. rewrite orb_false_r.
  destruct (String.eqb_spec (trim_space h) "") as [_|_]; [exact Hwhole|].
  destruct (has_prefix (trim_space h) "bytes=") eqn:Ep; cbn [negb]; [|exact Hwhole].
  destruct (has_prefix h "bytes=") eqn:Eh; cycle 1.
  { assert (Hnone : served_parts size h = [] ∨ h = "").
    { unfold served_parts. destruct (String.eqb_spec h ""); [by right|]. rewrite Eh. by left. }
    destruct Hnone as [E|E]; [|rewrite E in Ep; discriminate Ep]. rewrite E in *.
    assert (Hnil : ∀ (o l a n : Z), (a, n) ∈ ([] : list (Z * Z)) → o ≤ a ∧ a + n ≤ o + l ∧ 0 ≤ o ∧ o + l ≤ size)
      by (intros ?? a n Ha; by apply elem_of_nil in Ha).
    destruct (existsb _ _); [apply Hnil|]. destruct (cut_byte "-" _) as [[b q] f].
    destruct (_ || _); [apply Hnil|]. destruct (ParseInt _); [|apply Hnil]. destruct (ParseInt _); [|apply Hnil].
    destruct (_ || _); apply Hnil. }
  apply has_prefix_inv in Eh as [rest Eh]. apply has_prefix_inv in Ep as [rest' Ep].
  destruct (trim_space_end "b" ("ytes=" +:+ rest) eq_refl) as (w & Hw & Hws).
  change (String "b" ("ytes=" +:+ rest)) with ("bytes=" +:+ rest) in Hw. rewrite <- Eh, Ep, Eh, str_app_assoc in Hw.
  assert (Hrest : rest = rest' +:+ w) by (by injection Hw). clear Hw.
  rewrite Ep. change 6%nat with (String.length "bytes="). rewrite str_drop_app. set (l := list_ascii_of_string rest').
  destruct (existsb (Ascii.eqb ",") l) eqn:Ec; [exact Hwhole|].
  destruct (cut_byte "-" l) as [[b q] []] eqn:Ecut; cbn [negb orb]; [|exact Hwhole].
  destruct (_ || _); [exact Hwhole|].
  destruct (ParseInt (trim_space (string_of_list_ascii b))) as [i|] eqn:Ei; [|exact Hwhole].
  destruct (ParseInt (trim_space (string_of_list_ascii q))) as [j|] eqn:Ej; [|exact Hwhole].
  destruct (_ || _) eqn:Eb; [exact Hwhole|]. apply orb_false_iff in Eb as [[Ei0 Eij]%orb_false_iff Eis].
  apply Z.ltb_ge in Ei0, Eij. apply Z.leb_gt in Eis.
  pose proof (item_agrees size l (list_ascii_of_string w) b q i j Hws Ecut Ei Ej) as Hitem.
  intros a n. unfold served_parts. assert (Ene : String.eqb h "" = false) by (by rewrite Eh). rewrite Ene, Eh, has_prefix_app.
  change 6%nat with (String.length "bytes="). rewrite str_drop_app, Hrest, chars_app. fold l. cbn [negb].
  assert (Hcomma : existsb (Ascii.eqb ",") (l ++ list_ascii_of_string w) = false).
  { rewrite existsb_app, Ec. cbn [orb]. apply not_true_is_false. intros (c & Hc & Hcc)%existsb_exists. apply Ascii.eqb_eq in Hcc as <-.
    assert (Hin' : In ","%char (seen_of w)) by (by apply List.filter_In). by rewrite Hws in Hin'. }
  rewrite split_single by done. cbn [collect_ranges].
  destruct (parse_range_item size (l ++ list_ascii_of_string w)) as [| | |a' n'].
  - intros Ha. by apply elem_of_nil in Ha.
  - lia.
  - done.
  - destruct Hitem as [-> ->]. cbn [mbind option_bind foldr snd]. intros Ha.
    assert (Hn : (size <? (if size <=? j then size - 1 else j) - i + 1 + 0) = false) by (destruct (Z.leb_spec size j); lia).
    rewrite Hn in Ha. apply list_elem_of_singleton in Ha as [= -> ->]. destruct (Z.leb_spec size j); lia.
Qed.

Lemma served_range_covered_witness :
  let r := mkRequest "GET" "localhost" "/content/a" "127.0.0.1:1" (fun k => if String.eqb k "Range" then "bytes= 2-3 " else "") 0 [] in
  servedByteRange r 5 = (2, 2) ∧ served_parts 5 (rq_Header r "Range") = [(2, 2)] ∧
  let '(off, len) := servedByteRange r 5 in
  ∀ a n, (a, n) ∈ served_parts 5 (rq_Header r "Range") → off ≤ a ∧ a + n ≤ off + len ∧ 0 ≤ off ∧ off + len ≤ 5.
Proof.
  intros r. split; [vm_compute; reflexivity|]. split; [vm_compute; reflexivity|].
  apply (served_range_covered r 5); [reflexivity|reflexivity|lia].
Defined.
