(* ===== verification/DavFileFacts.v ===== *)
(** What the WebDAV server does to files: a PUT is what a GET hands out, and which
    copies go wrong. *)
From S2P Require Export LocalDavFacts.
Local Open Scope Z_scope.

Section files.
Context `{GoUnicode} `{AEAD} `{Env} `{Platform} `{JSON ManifestRecord} `{JSON Index} (v : Vault) (sv : Server).

(** ** A read through the presence cache *)

(** The shared cache holds nothing but the chunks [cs] under their ids. *)
Definition sound_cache (cs : list bytes) (cc : option ChunkCache) : Prop :=
  ∀ c e d, cc = Some c → cc_items c !! chunk_id v d = Some e → d ∈ cs → ce_data e = d.

Lemma NewChunkCache_sound cs max : sound_cache cs (Some (NewChunkCache max)).
Proof. intros c e x E. injection E as <-. unfold NewChunkCache. cbn [cc_items]. by rewrite lookup_empty. Qed.
Lemma chunkCache_sound cs d : sound_cache cs (dv_cache d) → sound_cache cs (dv_cache (chunkCache sv d)).
Proof.
  intros Hs. unfold chunkCache. destruct (dv_cache d) as [c|] eqn:E; [by rewrite E|].
  unfold set_chunkCache. cbn [dv_cache]. apply NewChunkCache_sound.
Qed.
Lemma cache_Get_items c id : ∃ c', (cache_Get (Some c) id).2 = Some c' ∧ cc_items c' = cc_items c.
Proof. cbn [cache_Get]. destruct (cc_items c !! id) as [e|]; [by exists (move_to_front c e)|by exists c]. Qed.
Lemma verify_quiet cs n : ∀ ci st s, reads v cs st → (ci + n ≤ length cs)%nat →
  (∀ c, c ∈ cs → stored v (st_files s) c) → (∀ i, (st_tick s ≤ i)%nat → env_fault i = None) →
  ∃ s' cc, verify_from v n ci st s = (s', Ok ((st.1, cc), None)) ∧ reads v cs (st.1, cc) ∧
    st_files s' = st_files s ∧ (st_tick s ≤ st_tick s')%nat.
Proof.
  induction n as [|n IH]; intros ci st s Hr Hn Hst Hq; cbn [verify_from].
  { exists s, st.2. destruct st. repeat (split; [done|]). done. }
  destruct (lookup_lt_is_Some_2 cs ci ltac:(lia)) as [c Hc].
  assert (Hin : c ∈ cs) by by eapply list_elem_of_lookup_2.
  rewrite (rs_refs _ _ _ Hr), list_lookup_fmap, Hc. cbn [fmap option_fmap option_map].
  change (ref_ID (chunk_ref v c)) with (chunk_id v c). destruct st as [f cc]. cbn [fst snd].
  destruct (cache_Get cc (chunk_id v c)) as [hit cc'] eqn:Eg.
  assert (Hr' : reads v cs (f, cc')).
  { destruct Hr as [R O S C K Hsh]. split; try done. intros c0 e d E0 He Hd. cbn [snd] in *. destruct cc as [c1|]; [|by injection Eg as <- <-].
    apply (Hsh c1 e d); [done| |done]. destruct (cache_Get_items c1 (chunk_id v c)) as [c2 [E2 Hi]]. rewrite Eg in E2. cbn in E2. congruence. }
  destruct hit as [d|]; [apply (IH (S ci) (f, cc')); [done|lia|done|done]|].
  rewrite bind_run. unfold try at 1, os_Stat at 1. rewrite query_quiet by (apply Hq; lia).
  destruct (Hst c Hin) as (fl & Hfl & _). change (chunkPath v (chunk_id v c)) with (object_of v c).
  rewrite Hfl, bool_decide_true by done. cbn [orb]. cbv beta iota.
  destruct (IH (S ci) (f, cc') (tick1 s)) as (s' & cc2 & E & ? & ? & Ht); [done|lia|done|intros i Hi; apply Hq; cbn in Hi; lia|].
  exists s', cc2. cbn [fst] in E. cbn in Ht. repeat (split; [done|]). lia.
Qed.

Lemma verify_range_quiet cs st off len s : reads v cs st → Z.of_nat (length (concat cs)) ≤ int64_max →
  0 ≤ off → 0 ≤ len → off + len ≤ int64_max →
  (∀ c, c ∈ cs → stored v (st_files s) c) → (∀ i, (st_tick s ≤ i)%nat → env_fault i = None) →
  ∃ s' cc, VerifyChunkPresence v st off len s = (s', Ok ((st.1, cc), None)) ∧ reads v cs (st.1, cc) ∧
    st_files s' = st_files s ∧ (st_tick s ≤ st_tick s')%nat.
Proof.
  intros Hr Hsz Ho Hl Hend Hst Hq. unfold VerifyChunkPresence.
  destruct (Z.ltb_spec off 0); [lia|]. cbv zeta. rewrite (rs_size _ _ _ Hr).
  destruct (Z.leb_spec len 0), (Z.leb_spec (Z.of_nat (length (concat cs))) off); cbn [orb];
    try (exists s, st.2; destruct st; repeat (split; [done|]); done).
  rewrite (wrap64_id (off + len)) by (unfold in_int64, int64_min; lia). set (e := if _ <? _ then _ else _).
  assert (He : off < e ≤ Z.of_nat (length (concat cs))) by (unfold e; destruct (Z.ltb_spec (Z.of_nat (length (concat cs))) (off + len)); lia).
  rewrite wrap64_id by (unfold in_int64, int64_min; lia).
  destruct (chunkIndexFor_spec v cs Hsz st (Z.to_nat off) Hr ltac:(lia)) as [Hlo _].
  destruct (chunkIndexFor_spec v cs Hsz st (Z.to_nat (e - 1)) Hr ltac:(lia)) as [Hhi _].
  rewrite Z2Nat.id in Hlo, Hhi by lia. apply (verify_quiet cs); [done|lia|done|done].
Qed.

(** An intact file, with no pending verdict on record, opens, whichever way the
    presence cache sends the request. *)
Lemma openFileReader_quiet cs d vp idx rec off len s :
  Z.of_nat (length (concat cs)) ≤ int64_max → normalizeContentFilePath vp = Ok vp →
  st_cached s = Some idx → ix_Files idx !! vp = Some rec → fr_Chunks rec = map (chunk_ref v) cs →
  (∀ c, c ∈ cs → stored v (st_files s) c) → (∀ i, (st_tick s ≤ i)%nat → env_fault i = None) →
  sound_cache cs (dv_cache d) → (∀ e, dv_presence d !! (vp, fr_Generation rec) = Some e → pe_pending e = false) →
  0 ≤ off → 0 ≤ len → off + len ≤ int64_max →
  ∃ s' d' f, openFileReader v sv d vp rec off len s = (s', Ok (d', Ok f)) ∧ rd_rec f = rec ∧ reads v cs (f, dv_cache d') ∧
    st_files s' = st_files s ∧ (st_tick s ≤ st_tick s')%nat.
Proof.
  intros Hsz Hn Hc Hrec Hrefs Hst Hq Hsc Hp Ho Hl Hend. unfold openFileReader. rewrite bind_run, now_run. cbv zeta.
  pose proof (chunkCache_sound cs d Hsc) as Hcc.
  assert (Hq1 : ∀ i, (st_tick (tick1 s) ≤ i)%nat → env_fault i = None) by (intros i Hi; apply Hq; cbn in Hi; lia).
  assert (Hopen : ∀ o, ∃ s' f, OpenReaderAtWithOptions v vp o (tick1 s) = (s', Ok f) ∧ rd_rec f = rec ∧
     (∀ cc, sound_cache cs cc → reads v cs (f, cc)) ∧ st_files s' = st_files s ∧ (st_tick s ≤ st_tick s')%nat).
  { intros o. destruct (OpenReaderAtWithOptions_reads v cs Hsz o vp vp idx rec (tick1 s)) as (s1 & f & E & ? & ? & ? & Ht); [done..|].
    exists s1, f. cbn in Ht. repeat (split; [done|]). lia. }
  unfold presence_get. destruct (dv_presence d !! (vp, fr_Generation rec)) as [ent|] eqn:Ee; [destruct (env_clock _ <? pe_expires ent)|].
  - rewrite (Hp ent eq_refl). destruct (Hopen (mkReaderOptions true)) as (s1 & f & E & Hf & Hr & Hf1 & Ht1).
    rewrite bind_run. unfold try. rewrite E. cbv beta iota zeta.
    destruct (verify_range_quiet cs (f, dv_cache (chunkCache sv d)) off len s1) as (s2 & cc & E2 & Hr2 & Hf2 & Ht2);
      [by apply Hr|done..|by rewrite Hf1|intros i Hi; apply Hq; lia|].
    rewrite bind_run, E2. cbv beta iota zeta. eexists s2, _, f. split; [reflexivity|]. split; [done|]. split; [exact Hr2|].
    split; [congruence|lia].
  - destruct (Hopen (mkReaderOptions false)) as (s1 & f & E & Hf & Hr & Hf1 & Ht1).
    rewrite bind_run. unfold try, OpenReaderAt. rewrite E. cbv beta iota. eexists s1, _, f. split; [reflexivity|]. split; [done|].
    split; [by apply Hr, chunkCache_sound|done].
  - destruct (Hopen (mkReaderOptions false)) as (s1 & f & E & Hf & Hr & Hf1 & Ht1).
    rewrite bind_run. unfold try, OpenReaderAt. rewrite E. cbv beta iota. eexists s1, _, f. split; [reflexivity|]. split; [done|].
    split; [by apply Hr, chunkCache_sound|done].
Qed.

(** ** Put, then get *)

(** The range the handler checks lies in the file. *)
Lemma servedByteRange_within r size : 0 ≤ size →
  let '(off, len) := servedByteRange r size in 0 ≤ off ∧ 0 ≤ len ∧ off + len ≤ size.
Proof.
  intros Hs. unfold servedByteRange. destruct (String.eqb (rq_Method r) "HEAD"); [lia|].
  destruct (_ || _); [lia|]. destruct (negb _); [lia|]. destruct (existsb _ _); [lia|].
  destruct (cut_byte "-" _) as [[b q] f]. destruct (_ || _); [lia|].
  destruct (ParseInt _) as [i|]; [|lia]. destruct (ParseInt _) as [j|]; [|lia].
  destruct (Z.ltb_spec i 0), (Z.ltb_spec j i), (Z.leb_spec size i); cbn [orb]; try lia.
  cbv zeta. destruct (Z.leb_spec size j); lia.
Qed.

Lemma cleanDAV_inv p vp : cleanDAVVirtualPath p = Ok vp → vp = "" ∨ IsInternalVirtualPath vp = false.
Proof.
  unfold cleanDAVVirtualPath. destruct (forallb _ _); [intros [= <-]; by left|]. intros (q & _ & Hq)%bind_ok.
  destruct (IsInternalVirtualPath q) eqn:E; [done|]. injection Hq as <-. by right.
Qed.
Lemma request_inv r vp : requestVirtualPath sv r = Ok vp → vp = "" ∨ IsInternalVirtualPath vp = false.
Proof. unfold requestVirtualPath. apply cleanDAV_inv. Qed.

Lemma answer_ok {A} code (m : M A) f s s' resp : 400 ≤ code → answer code m f s = (s', Ok resp) → rs_Code resp < 400 →
  ∃ s1 a, m s = (s1, Ok a) ∧ f a s1 = (s', Ok resp).
Proof.
  intros Hcode. unfold answer. rewrite bind_run. unfold attempt. destruct (m s) as [s1 [a|e]]; [eauto|].
  case_bool_decide; [done|]. intros [= <- <-]. cbn [rs_Code http_error]. lia.
Qed.

(** A put that answered with success put its body. *)
Lemma handlePut_ok r vp s s' resp : requestVirtualPath sv r = Ok vp → junk sv vp = false →
  handlePut v sv r s = (s', Ok resp) → rs_Code resp < 400 →
  ∃ s0 t res, st_files s0 = st_files s ∧ (rs_Code resp = 201 ∨ rs_Code resp = 204) ∧
    PutReader v (rq_Body r) vp (if rq_ContentLength r <? 0 then -1 else rq_ContentLength r) 384 (Some t) s0 = (s', Ok res).
Proof.
  intros Hr Hj. unfold handlePut. rewrite Hr, Hj. destruct (String.eqb vp ""); [intros [= <- <-]; cbn; lia|].
  rewrite M_bind_ok. intros (s1 & info & Hi & Hrun) Hcode.
  pose proof (preserves_try (eq (st_files s)) (FileInfo v vp) (FileInfo_preserves v _ vp) s eq_refl) as Hf. rewrite Hi in Hf. cbn [fst] in Hf.
  cbv zeta in Hrun. destruct (negb _ && _); [injection Hrun as <- <-; cbn in Hcode; lia|].
  rewrite bind_run, now_run in Hrun. apply answer_ok in Hrun as (s2 & res & Hp & Hrun); [|lia|done].
  exists (tick1 s1), (env_clock (st_tick s1)), res. split; [done|].
  destruct info as [[? []]|]; injection Hrun as <- <-; (split; [cbn; auto|done]).
Qed.

(** ** Copies *)

Lemma PutReader_split reads path size mode mt s :
  PutReader v reads path size mode (Some mt) s =
  ('(idx, vp) ← put_front v path; p ← put_chunks v reads; put_back v idx vp size mode (Some mt) p) s.
Proof.
  unfold PutReader, put_front, put_back, putReader. rewrite !bind_run. destruct (LoadIndex v s) as [s1 [idx|e]]; [|done].
  rewrite !bind_run. destruct (lift _ s1) as [s2 [vp|e]]; [|done]. rewrite !bind_run. fold (put_gate idx vp).
  destruct (put_gate idx vp s2) as [s3 [[]|e]]; [|done]. cbn [mret M_ret]. rewrite !bind_run.
  destruct (put_chunks v reads s3) as [s4 [p|e]]; [|done]. rewrite !bind_run. cbn [mret M_ret]. rewrite !bind_run, now_run.
  rewrite !bind_run. destruct (nextGeneration _ _) as [s5 [g|e]]; [|done]. by destruct (nextRecordClock _ _ _ _).
Qed.
Lemma put_chunks_eof reads s : clean_reads reads → put_chunks v (reads ++ [([], Some io_EOF)]) s = put_chunks v reads s.
Proof. intros Hc. unfold put_chunks, ForEachChunk. destruct (Validate _); [done|]. by rewrite read_loop_eof. Qed.

Lemma pair_fst {A B} (b : B) (l : list A) : (map (fun a => (a, b)) l).*1 = l.
Proof. induction l as [|a l IH]; [done|]. cbn. by f_equal. Qed.
(** Reading back stored chunks into the pipe. *)
Lemma write_chunks_quiet cs : ∀ s, (∀ c, c ∈ cs → stored v (st_files s) c) → (∀ i, (st_tick s ≤ i)%nat → env_fault i = None) →
  ∃ s', write_chunks v (map (chunk_ref v) cs) s = (s', Ok (cs, None)) ∧ st_files s' = st_files s ∧ st_cached s' = st_cached s.
Proof.
  induction cs as [|c cs IH]; intros s Hst Hq; [by exists s|]. cbn [map write_chunks]. rewrite bind_run. unfold try.
  rewrite stored_loads; [|by apply Hst; left|by apply Hq]. cbv beta iota. rewrite bind_run.
  destruct (IH (tick1 s)) as (s' & E & Hf & Ht); [intros d Hd; apply Hst; by right|intros i Hi; apply Hq; cbn in Hi; lia|].
  rewrite E. by exists s'.
Qed.
Lemma pipe_writes_quiet cs src vp idx rec s : normalizeContentFilePath src = Ok vp → st_cached s = Some idx →
  ix_Files idx !! vp = Some rec → fr_Chunks rec = map (chunk_ref v) cs →
  (∀ c, c ∈ cs → stored v (st_files s) c) → (∀ i, (st_tick s ≤ i)%nat → env_fault i = None) →
  ∃ s', pipe_writes v src s = (s', Ok (cs, None)) ∧ st_files s' = st_files s ∧ st_cached s' = Some idx.
Proof.
  intros Hn Hc Hrec Hrefs Hst Hq. unfold pipe_writes. rewrite bind_run. unfold try, LoadIndex, cachedIndexLocked.
  rewrite !bind_run. unfold gets. rewrite Hc. cbn [mret M_ret]. rewrite bind_run, Hn. cbn [lift]. rewrite Hrec. cbv beta iota. cbn [mret M_ret].
  rewrite Hrefs, <- Hc. by apply write_chunks_quiet.
Qed.

(** A copy that returned is a put of what its source reads as. *)
Lemma copyFile_put pipe_left src dst rec cs s0 s s' : pipe_writes v src (tick1 s) = (s0, Ok (cs, None)) →
  copyFile v pipe_left src dst rec s = (s', Ok tt) →
  ∃ t res, PutReader v (map (fun c => (c, None)) cs) dst (fr_Size rec) (fr_Mode rec) (Some t) s0 = (s', Ok res).
Proof.
  intros Hp. unfold copyFile. rewrite bind_run, now_run. cbv zeta. rewrite bind_run, Hp. cbv beta iota zeta.
  set (t := default _ _). rewrite bind_run. unfold try at 1. destruct (put_front v dst s0) as [s1 [[idx vp]|e]] eqn:Ef; cycle 1.
  { cbv beta iota. by destruct (bool_decide _). }
  cbv beta iota. rewrite bind_run. unfold gets. rewrite bind_run. unfold try.
  rewrite put_chunks_eof by (by apply Forall_fmap, Forall_true).
  destruct (put_chunks v _ s1) as [s2 [p|e]] eqn:Ec; cycle 1.
  { cbv beta iota. by destruct (negb _ && _). }
  cbv beta iota. rewrite M_bind_ok. intros (s3 & res & Hb & [= <-]). exists t, res.
  rewrite PutReader_split, bind_run, Ef, bind_run, Ec. exact Hb.
Qed.
(** C37. What a copy leads to, where no call fails, the index is loaded and lists the
    source, and the source's chunks are stored.  If it returns, the destination
    reads back, byte for byte, as what the source held, though the bytes were cut
    into chunks anew; for this the destination's path, once normalised, is one that
    cleaning leaves as it is (not so for ['a/ /'], [put_elsewhere]), the ids of the new
    chunks do not clash, and objects already stored under them are sound.  And if the destination is refused before the body is read (a
    new name that is not portable, or is reserved) while the source is not empty, it
    never returns: the writer of the pipe waits for a reader that is gone, and with
    it the request, which holds the server's lock. *)
Theorem copyFile_outcome (pipe_left : St → bool) (src dst svp : string) (idx : Index) (rec rec0 : FileRecord) (cs : list bytes) (s : St) :
  (∀ i, env_fault i = None) →
  normalizeContentFilePath src = Ok svp → st_cached s = Some idx → ix_Files idx !! svp = Some rec0 →
  fr_Chunks rec0 = map (chunk_ref v) cs → (∀ c, c ∈ cs → stored v (st_files s) c) →
  (∀ dvp s', normalizeContentFilePath dst = Ok dvp → CleanVirtualPath dvp = Ok dvp →
     let new := chunks (Chunk (v_Config v)) (concat cs) in no_clash v new → (∀ c, c ∈ new → fine v (st_files s) c) →
     copyFile v pipe_left src dst rec s = (s', Ok tt) → ∃ s2, WriteFileTo v dst s' = (s2, Ok (concat cs))) ∧
  (∀ dvp, cs ≠ [] → normalizeContentFilePath dst = Ok dvp → ix_Files idx !! dvp = None →
     is_Some (reservedNewPathError dvp) ∨ is_Some (ValidatePortableName (path_base dvp)) → (copyFile v pipe_left src dst rec s).2 = Err go_hang).
Proof.
  intros Hq Hn Hc Hrec Hrefs Hst.
  destruct (pipe_writes_quiet cs src svp idx rec0 (tick1 s)) as (s0 & Hpipe & Hf0 & Hc0);
    [first [done|intros i _; apply Hq]..|].
  split.
  - intros dvp s' Hdn Hdc new Hnc Hfine Hcopy. destruct (copyFile_put _ _ _ _ _ _ _ _ Hpipe Hcopy) as (t & res & Hput).
    assert (Hcat : concat (map (fun c : bytes => (c, @None read_err)) cs).*1 = concat cs).
    { f_equal. apply pair_fst. }
    assert (Hnew : cut_up v (map (fun c => (c, None)) cs) = new) by (unfold cut_up; by rewrite Hcat).
    apply (put_leaves v) with (vp := dvp) in Hput as (_ & _ & (idx' & rec' & Hc' & Hrec' & Hrefs' & _) & Hst' & _);
      [|by apply Forall_fmap, Forall_true|done|done|by rewrite Hnew|rewrite Hnew, Hf0; exact Hfine].
    rewrite Hnew in Hrefs', Hst'. destruct (WriteFileTo_stored v new dst dvp idx' rec' s') as [s2 E];
      [first [done|intros i _; apply Hq]..|].
    exists s2. rewrite E. unfold new, chunks. by rewrite cut_concat.
  - intros dvp Hne Hdn Hnew Hbad. unfold copyFile. rewrite bind_run, now_run. cbv zeta. rewrite bind_run, Hpipe. cbv beta iota zeta.
    rewrite bind_run. unfold try at 1.
    assert (Hfront : ∃ e, put_front v dst s0 = (s0, Err e)).
    { unfold put_front, LoadIndex, cachedIndexLocked. rewrite !bind_run. unfold gets. rewrite Hc0.
      cbn [mret M_ret]. rewrite bind_run, Hdn. cbn [lift]. rewrite bind_run, Hnew.
      destruct (reservedNewPathError dvp) as [e|]; [by exists e|].
      destruct Hbad as [[? [=]]|[e ->]]. by exists e. }
    destruct Hfront as [e ->]. cbv beta iota. by rewrite bool_decide_false.
Qed.
End files.

Section demo.
#[local] Existing Instances demo_unicode demo_aead demo_env demo_platform json_manifest json_index json_legacy json_seen demo_fold.

Definition dav_rw : Server := mkServer false "" [] None true 0 0.
Definition fox_path : string := "content/notes/fox.txt".
Definition put_request : Request :=
  mkRequest "PUT" "localhost" "/content/notes/fox.txt" "127.0.0.1:5000" (fun _ => "") (-1) put_reads.
Definition get_request : Request :=
  mkRequest "GET" "localhost" "/notes/fox.txt" "127.0.0.1:5000" (fun k => if String.eqb k "Range" then "bytes=4-8" else "") 0 [].
Definition dav_put_run : St * result Response := handlePut demo_vault dav_rw put_request empty_st.
#[local] Strategy -100 [dav_put_run].
Definition is_status (c : Z) (r : result Response) : bool :=
  match r with Ok (mkResponse d [] NoBody) => c =? d | _ => false end.
Lemma is_status_ok {S} c (x : S * result Response) : is_status c x.2 = true → x = (x.1, Ok (status c)).
Proof.
  destruct x as [s [[d [|] []]|e]]; cbn; try done. by intros ->%Z.eqb_eq.
Qed.
Lemma dav_put_ran : handlePut demo_vault dav_rw put_request empty_st = (dav_put_run.1, Ok (status 201)).
Proof. apply (is_status_ok 201 dav_put_run). vm_compute. reflexivity. Qed.
#[local] Strategy 100 [dav_put_run].


(** What the verbs do to an index. *)
Definition dav_copy (src dst : string) : Request :=
  mkRequest "COPY" "localhost" src "127.0.0.1:5000" (fun k => if String.eqb k "Destination" then dst else "") 0 [].
Definition dav_rw_serve (r : Request) : St * result (DavSt * Response) :=
  ServeHTTP demo_vault dav_rw (fun _ => 0) (fun _ => map_to_list) quoted (fun _ => None) (fun _ => true) dav_start r dav_put_run.1.
Definition answered (code : Z) (r : result (DavSt * Response)) : bool :=
  match r with Ok (_, resp) => rs_Code resp =? code | Err _ => false end.
Definition listed (p : string) (s : St) : bool :=
  match st_cached s with Some i => bool_decide (is_Some (ix_Files i !! p)) | None => false end.

Definition hung (x : St * result (DavSt * Response)) : bool :=
  match x.2 with Err e => bool_decide (e = go_hang) | Ok _ => false end.
Definition lost (x : St * result (DavSt * Response)) : bool := answered 404 x.2 && negb (listed fox_path x.1).
(** A path that is not stable under cleaning names one entry to the reading verbs and
    another to the writing ones. *)
Example put_elsewhere : requestVirtualPath dav_rw (dav_request "PUT" "localhost" "/content/a/ /") = Ok "content/a/ " ∧
  normalizeContentFilePath "content/a/ " = Ok "content/a".
Proof. vm_compute. split; reflexivity. Qed.

Definition fox_record : FileRecord :=
  default zero_FileRecord (i ← st_cached dav_put_run.1; ix_Files i !! fox_path).
Definition copied : St * result () :=
  copyFile demo_vault (fun _ => true) fox_path "content/b" fox_record dav_put_run.1.
#[local] Strategy -100 [copied].
Lemma copied_ran : is_ok copied.2 = true →
  copyFile demo_vault (fun _ => true) fox_path "content/b" fox_record dav_put_run.1 = (copied.1, Ok tt).
Proof. exact (ran_tt copied). Qed.
#[local] Strategy 100 [copied].

(** Whether an object is there and sound, over a whole store. *)
Definition intact (fs : files) (c : bytes) : bool :=
  let o := object_of demo_vault c in
  forallb (fun q => negb (below o q) || bool_decide (q = o)) (fst <$> map_to_list fs) &&
  match fs !! o with
  | Some f => match decodeChunk demo_vault (f_data f) (chunk_ref demo_vault c) with Ok d => bool_decide (d = c) | Err _ => false end
  | None => false
  end.
Lemma intact_spec fs c : intact fs c = true → stored demo_vault fs c ∧ fine demo_vault fs c.
Proof.
  unfold intact. intros [Hb Ho]%andb_true_iff. destruct (fs !! _) as [f|] eqn:Ef; [|done].
  destruct (decodeChunk _ _ _) as [d|] eqn:Ed; [|done]. apply bool_decide_eq_true in Ho as ->. split; [by exists f|]. split.
  - intros q [g Hq] Hbq. rewrite forallb_forall in Hb. specialize (Hb q). rewrite Hbq in Hb. cbn [negb orb] in Hb.
    refine (bool_decide_eq_true_1 _ (Hb _)). apply list_elem_of_In, list_elem_of_fmap. exists (q, g). split; [done|]. by apply elem_of_map_to_list.
  - intros g Hg. rewrite Ef in Hg. by injection Hg as <-.
Qed.
Definition fox_chunks : list bytes := cut_up demo_vault put_reads.
Definition fox_index : Index := default (MkIndex 2 "" ∅) (st_cached dav_put_run.1).
Definition cached_file (s : St) : bool :=
  match st_cached s with Some i => match ix_Files i !! fox_path with Some _ => true | None => false end | None => false end.
Lemma cached_facts (s : St) : cached_file s = true →
  st_cached s = Some (default (MkIndex 2 "" ∅) (st_cached s)) ∧
  ix_Files (default (MkIndex 2 "" ∅) (st_cached s)) !! fox_path =
    Some (default zero_FileRecord (i ← st_cached s; ix_Files i !! fox_path)).
Proof.
  unfold cached_file. destruct (st_cached s) as [i|]; [|discriminate]. cbn [default from_option id mbind option_bind].
  destruct (ix_Files i !! fox_path); [done|discriminate].
Qed.
Definition no_file (o : option FileRecord) : bool := match o with Some _ => false | None => true end.
Lemma no_file_None o : no_file o = true → o = None.
Proof. by destruct o. Qed.
Lemma all_intact fs l : forallb (intact fs) l = true → ∀ c, c ∈ l → stored demo_vault fs c ∧ fine demo_vault fs c.
Proof. rewrite forallb_forall. intros Hl c Hc. apply intact_spec, Hl. by apply list_elem_of_In. Qed.
(** What the copy's conditions come to, evaluated once. *)
Definition has_fox : bool := cached_file dav_put_run.1.
Definition fox_refs : bool := bool_decide (fr_Chunks fox_record = map (chunk_ref demo_vault) fox_chunks).
Definition fox_stored : bool := forallb (intact (st_files dav_put_run.1)) fox_chunks.
Definition new_name : bool := no_file (ix_Files fox_index !! "content/a:b").
Definition copy_refused := dav_rw_serve (dav_copy "/content/notes/fox.txt" "/content/a:b").
Definition copy_itself := dav_rw_serve (dav_copy "/content/notes" "/content/notes").
Definition copy_to_parent := dav_rw_serve (dav_copy "/content/notes/fox.txt" "/content/notes").
Definition copy_bugs : bool := hung copy_refused && (lost copy_itself && lost copy_to_parent).
Definition copy_checks : bool := has_fox && fox_refs && fox_stored && is_ok copied.2 && new_name && copy_bugs.
Lemma copy_checked : copy_checks = true.
Proof. vm_compute. reflexivity. Qed.

Lemma andb6 a b c d e f : a && b && c && d && e && f = true → a = true ∧ b = true ∧ c = true ∧ d = true ∧ e = true ∧ f = true.
Proof. destruct a, b, c, d, e, f; try discriminate; repeat split. Qed.
Lemma checks_split : has_fox = true ∧ fox_refs = true ∧ fox_stored = true ∧ is_ok copied.2 = true ∧ new_name = true ∧
  copy_bugs = true.
Proof. exact (andb6 has_fox fox_refs fox_stored (is_ok copied.2) new_name copy_bugs copy_checked). Qed.
(** A copy to a name that is not portable hangs the server. *)
Example copy_hangs : hung copy_refused = true.
Proof. destruct checks_split as (_ & _ & _ & _ & _ & Hc). exact (proj1 (andb_prop _ _ Hc)). Qed.
(** A copy of a collection onto itself answers 404 and deletes it; so does a copy of a
    file onto the collection it is in. *)
Example copy_destroys : has_fox = true ∧ lost copy_itself = true ∧ lost copy_to_parent = true.
Proof.
  destruct checks_split as (Hf & _ & _ & _ & _ & Hc). split; [exact Hf|].
  exact (andb_prop _ _ (proj2 (andb_prop _ _ Hc))).
Qed.
Lemma copyFile_outcome_witness :
  (∃ s2, WriteFileTo demo_vault "content/b" copied.1 = (s2, Ok (bytes_of "the quick brown fox"))) ∧
  (copyFile demo_vault (fun _ => true) fox_path "content/a:b" fox_record dav_put_run.1).2 = Err go_hang.
Proof.
  destruct checks_split as (Hi & Hrefs & Hin & Hok & Hnew & _).
  unfold has_fox in Hi. unfold fox_refs in Hrefs. unfold fox_stored in Hin. unfold new_name in Hnew.
  apply bool_decide_eq_true_1 in Hrefs. apply no_file_None in Hnew. apply cached_facts in Hi as [Hcached Hrec].
  pose proof (all_intact (st_files dav_put_run.1) fox_chunks Hin) as Hst.
  pose proof (fun dst => copyFile_outcome demo_vault (fun _ => true) fox_path dst fox_path fox_index fox_record fox_record fox_chunks
    dav_put_run.1 (fun _ => eq_refl) ltac:(vm_compute; reflexivity) Hcached Hrec Hrefs (fun c Hx => proj1 (Hst c Hx))) as Ho.
  split.
  - apply (proj1 (Ho "content/b") "content/b").
    + vm_compute. reflexivity.
    + vm_compute. reflexivity.
    + apply ids_differ_no_clash. vm_compute. reflexivity.
    + intros c Hx. apply Hst. exact Hx.
    + exact (copied_ran Hok).
  - apply (proj2 (Ho "content/a:b") "content/a:b").
    + intros E. vm_compute in E. discriminate E.
    + vm_compute. reflexivity.
    + exact Hnew.
    + right. eexists. vm_compute. reflexivity.
Defined.
End demo.
