(* ===== verification/Profile.v ===== *)
(** Saved vault locations and recovery-key labels of a device (internal/profile):
    two JSON files below the configuration directory. *)
From S2P Require Export AppDir UserPath.
Local Open Scope Z_scope.

(** ** Saved vault locations *)

(** internal/profile/profile.go:19-22 [Entry] *)
Record Entry : Type := mkEntryP { en_Name : string; en_VaultPath : string }.
#[global] Instance Entry_eq_dec : EqDecision Entry.
Proof. solve_decision. Defined.
(** internal/profile/profile.go:24-27 [Store] *)
Record ProfileStore : Type := mkProfileStore { ps_Version : Z; ps_Profiles : list Entry }.
Definition with_Profiles (s : ProfileStore) (l : list Entry) : ProfileStore := mkProfileStore (ps_Version s) l.

(** [sort.Slice] by name. *)
Definition sort_entries (l : list Entry) : list Entry := go_sort (fun a b => str_gtb (en_Name b) (en_Name a)) l.

(** internal/profile/update.go:48-52 [samePath] *)
Definition samePath (a b : string) : bool := String.eqb (path_clean a) (path_clean b).

(** The loop of [Add]: the first entry of the name is replaced; whether there was one. *)
Fixpoint replace_entry (e : Entry) (l : list Entry) : list Entry * bool :=
  match l with
  | [] => ([], false)
  | x :: l => if String.eqb (en_Name x) (en_Name e) then (e :: l, true)
              else let '(l, b) := replace_entry e l in (x :: l, b)
  end.

Section profile.
Context `{Env} `{Platform} `{Host} `{JS : JSON ProfileStore}.

(** internal/profile/profile.go:29-35 [ConfigPath] *)
Definition ConfigPath : result string := base ← ConfigDir; Ok (path_join [base; "profiles.json"]).

(** internal/profile/profile.go:37-57 [Load] *)
Definition Load_ : M ProfileStore :=
  p ← lift ConfigPath;
  o ← read_settings (os_segs p);
  mret (match o with
        | None => mkProfileStore 1 []
        | Some s => if ps_Version s =? 0 then mkProfileStore 1 (ps_Profiles s) else s
        end).

(** internal/profile/labels.go:113-125 [writeDeviceLocalFile] *)
Definition writeDeviceLocalFile (path : string) (data : bytes) : M unit :=
  _ ← os_MkdirAll (os_segs (path_dir path));
  _ ← os_WriteFile (os_segs path) data;
  _ ← os_Quiet;
  os_Quiet.

(** internal/profile/profile.go:59-72 [Save] *)
Definition Save (s : ProfileStore) : M unit :=
  p ← lift ConfigPath;
  writeDeviceLocalFile p (marshal (mkProfileStore 1 (ps_Profiles s))).

(** internal/profile/profile.go:74-104 [Add] *)
Definition Add_ (name vaultPath : string) : M Entry :=
  let name := trim_space name in
  if String.eqb name "" then fail (ENew "profile name must not be empty")
  else if has_separator name then fail (ENew "profile name must not contain path separators")
  else
    abs ← lift (Abs vaultPath);
    s ← Load_;
    let entry := mkEntryP name abs in
    let '(l, updated) := replace_entry entry (ps_Profiles s) in
    let l := if updated then l else l ++ [entry] in
    _ ← Save (with_Profiles s (sort_entries l));
    mret entry.

(** internal/profile/profile.go:106-125 [Remove] *)
Definition Remove_ (name : string) : M unit :=
  s ← Load_;
  let out := List.filter (fun e => negb (String.eqb (en_Name e) name)) (ps_Profiles s) in
  if negb (existsb (fun e => String.eqb (en_Name e) name) (ps_Profiles s)) then fail (ENew "profile %q not found")
  else Save (with_Profiles s out).

(** internal/profile/profile.go:127-138 [Resolve] *)
Definition Resolve (name : string) : M (option Entry) :=
  s ← Load_;
  mret (List.find (fun e => String.eqb (en_Name e) name) (ps_Profiles s)).

(** internal/profile/profile.go:140-148 [Entries] *)
Definition Entries : M (list Entry) := s ← Load_; mret (sort_entries (ps_Profiles s)).

(** internal/profile/update.go:13-15 [UpdatePath] *)
Definition UpdatePath (name vaultPath : string) : M Entry := Add_ name vaultPath.

(** Whether an entry points at [oldAbs]. *)
Definition points_at (oldAbs : string) (e : Entry) : bool :=
  match Abs (en_VaultPath e) with Ok p => samePath p oldAbs | Err _ => false end.

(** internal/profile/update.go:18-46 [UpdatePathsMatching] *)
Definition UpdatePathsMatching (oldPath newPath : string) : M Z :=
  oldAbs ← lift (Abs oldPath);
  newAbs ← lift (Abs newPath);
  s ← Load_;
  let l := map (fun e => if points_at oldAbs e then mkEntryP (en_Name e) newAbs else e) (ps_Profiles s) in
  let count := Z.of_nat (length (List.filter (points_at oldAbs) (ps_Profiles s))) in
  if count =? 0 then mret 0
  else _ ← Save (with_Profiles s l); mret count.
End profile.

(** ** Labels of recovery keys *)

(** internal/profile/labels.go:30-30 [recoveryLabelsFileName] *)
Definition recoveryLabelsFileName : string := "recovery-labels.json".
(** internal/profile/labels.go:34-34 [handleLen] *)
Definition handleLen : nat := 4.
(** internal/profile/labels.go:40-44 [RecoveryKeyLabel] *)
Record RecoveryKeyLabel : Type := mkLabel { rl_Label : string; rl_Created : string; rl_Device : string }.
(** internal/profile/labels.go:48-51 [LabelStore] *)
Record LabelStore : Type := mkLabelStore { ls_Version : Z; ls_Labels : gmap string RecoveryKeyLabel }.
(** internal/profile/labels.go:189-197 [RecoveryKeyView] *)
Record RecoveryKeyView : Type := mkView {
  rv_ID : string; rv_Handle : string; rv_Ordinal : Z; rv_HasRecord : bool;
  rv_Label : string; rv_Created : string; rv_Device : string }.

(** internal/profile/labels.go:203-227 [Display] *)
Definition Display (v : RecoveryKeyView) : string :=
  if negb (rv_HasRecord v) then "Recovery key #" +:+ rv_Handle v
  else
    let detail :=
      if negb (String.eqb (rv_Created v) "") && negb (String.eqb (rv_Device v) "")
      then str_concat ["created "; rv_Created v; " on "; rv_Device v]
      else if negb (String.eqb (rv_Created v) "") then "created " +:+ rv_Created v
      else if negb (String.eqb (rv_Device v) "") then "on " +:+ rv_Device v
      else "" in
    let detail :=
      if negb (String.eqb (rv_Label v) "")
      then if negb (String.eqb detail "") then str_concat [rv_Label v; " — "; detail] else rv_Label v
      else detail in
    if String.eqb detail "" then "Recovery key #" +:+ rv_Handle v
    else str_concat ["Recovery key #"; rv_Handle v; " — "; detail].

Section labels.
Context `{Env} `{Platform} `{GoUnicode} `{JL : JSON LabelStore}.

(** internal/profile/labels.go:54-60 [LabelsPath] *)
Definition LabelsPath : result string := base ← ConfigDir; Ok (path_join [base; recoveryLabelsFileName]).

(** internal/profile/labels.go:64-87 [LoadLabels] *)
Definition LoadLabels : M LabelStore :=
  p ← lift LabelsPath;
  o ← read_settings (os_segs p);
  mret (match o with
        | None => mkLabelStore 1 ∅
        | Some s => if ls_Version s =? 0 then mkLabelStore 1 (ls_Labels s) else s
        end).

(** internal/profile/labels.go:91-105 [SaveLabels] *)
Definition SaveLabels (s : LabelStore) : M unit :=
  p ← lift LabelsPath;
  writeDeviceLocalFile p (marshal (mkLabelStore 1 (ls_Labels s))).

(** internal/profile/labels.go:130-141 [SetRecoveryLabel] *)
Definition SetRecoveryLabel (entryID : string) (label : RecoveryKeyLabel) : M unit :=
  let entryID := trim_space entryID in
  if String.eqb entryID "" then fail (ENew "a recovery entry ID is required to label a key")
  else
    s ← LoadLabels;
    SaveLabels (mkLabelStore (ls_Version s) (<[entryID := label]> (ls_Labels s))).

(** internal/profile/labels.go:148-162 [DeleteRecoveryLabel] *)
Definition DeleteRecoveryLabel (entryID : string) : M unit :=
  let entryID := trim_space entryID in
  if String.eqb entryID "" then mret tt
  else
    s ← LoadLabels;
    match ls_Labels s !! entryID with
    | None => mret tt
    | Some _ => SaveLabels (mkLabelStore (ls_Version s) (delete entryID (ls_Labels s)))
    end.

(** internal/profile/labels.go:166-173 [GetRecoveryLabel] *)
Definition GetRecoveryLabel (entryID : string) : M (option RecoveryKeyLabel) :=
  s ← LoadLabels; mret (ls_Labels s !! trim_space entryID).

(** internal/profile/labels.go:178-184 [Handle] *)
Definition Handle_ (entryID : string) : string :=
  let h := to_lower (trim_space entryID) in
  if (handleLen <? String.length h)%nat then str_take handleLen h else h.

(** One row of the listing. *)
Definition key_view (labels : gmap string RecoveryKeyLabel) (i : nat) (id : string) : RecoveryKeyView :=
  let n := Z.of_nat (S i) in
  match labels !! id with
  | Some rec => mkView id (Handle_ id) n true (rl_Label rec) (rl_Created rec) (rl_Device rec)
  | None => mkView id (Handle_ id) n false "" "" ""
  end.

(** internal/profile/labels.go:234-276 [LabelledRecoveryKeys] *)
Definition LabelledRecoveryKeys (entryIDs : list string) : M (list RecoveryKeyView) :=
  s ← LoadLabels;
  let kept := filter (fun kv => kv.1 ∈ entryIDs) (ls_Labels s) in
  let pruned := existsb (fun id => negb (bool_decide (id ∈ entryIDs))) (fst <$> map_to_list (ls_Labels s)) in
  labels ← (if bool_decide (entryIDs = []) || negb pruned then mret (ls_Labels s)
            else _ ← SaveLabels (mkLabelStore (ls_Version s) kept); mret kept);
  mret (imap (key_view labels) entryIDs).
End labels.
