(* ===== verification/Remotes.v ===== *)
(** The remote profiles of a device (internal/remotes): where a vault is copied to
    and how rclone is run for it, in one JSON file. *)
From S2P Require Export AppDir UserPath GoHttp.
Local Open Scope Z_scope.

(** ** Data *)

(** internal/remotes/remotes.go:36-53 [RemoteConfig] *)
Record RemoteConfig : Type := mkRemoteConfig {
  rc_RemoteName : string; rc_RemotePath : string; rc_Backend : string; rc_ConfigMode : string; rc_RcloneConfigPath : string;
  rc_Transfers : Z; rc_Checkers : Z; rc_FastList : bool; rc_Checksum : string; rc_BandwidthLimit : string;
  rc_DryRunDefault : bool; rc_Host : string; rc_User : string; rc_Port : Z; rc_SSHKey : string; rc_HostFingerprint : string }.
(** internal/remotes/remotes.go:55-60 [RuntimeConfig] *)
Record RuntimeConfig : Type := mkRuntimeConfig {
  rt_Channel : string; rt_PinnedVersion : string; rt_AutoCheckUpdates : bool; rt_AutoInstallSecurityUpdates : bool }.
(** internal/remotes/remotes.go:62-68 [SafetyConfig] *)
Record SafetyConfig : Type := mkSafetyConfig {
  sc_DefaultOperation : string; sc_AllowDestructiveSync : bool; sc_RequireDryRunBeforeSync : bool;
  sc_RetainDeletedObjectsDays : Z; sc_VerifyAfterTransfer : bool }.
(** internal/remotes/remotes.go:25-34 [Profile] *)
Record RemoteProfile : Type := mkRemoteProfile {
  rp_Name : string; rp_Type : string; rp_Vault : string; rp_Remote : RemoteConfig; rp_Runtime : RuntimeConfig;
  rp_Safety : SafetyConfig; rp_CreatedAt : string; rp_UpdatedAt : string }.
(** internal/remotes/remotes.go:20-23 [Store] *)
Record RemoteStore : Type := mkRemoteStore { rs_Version : Z; rs_Profiles : list RemoteProfile }.

Definition with_Vault (p : RemoteProfile) (v : string) : RemoteProfile :=
  mkRemoteProfile (rp_Name p) (rp_Type p) v (rp_Remote p) (rp_Runtime p) (rp_Safety p) (rp_CreatedAt p) (rp_UpdatedAt p).
Definition with_RcloneConfigPath (p : RemoteProfile) (c : string) : RemoteProfile :=
  let r := rp_Remote p in
  mkRemoteProfile (rp_Name p) (rp_Type p) (rp_Vault p)
    (mkRemoteConfig (rc_RemoteName r) (rc_RemotePath r) (rc_Backend r) (rc_ConfigMode r) c (rc_Transfers r) (rc_Checkers r)
       (rc_FastList r) (rc_Checksum r) (rc_BandwidthLimit r) (rc_DryRunDefault r) (rc_Host r) (rc_User r) (rc_Port r)
       (rc_SSHKey r) (rc_HostFingerprint r))
    (rp_Runtime p) (rp_Safety p) (rp_CreatedAt p) (rp_UpdatedAt p).
Definition with_times (p : RemoteProfile) (created updated : string) : RemoteProfile :=
  mkRemoteProfile (rp_Name p) (rp_Type p) (rp_Vault p) (rp_Remote p) (rp_Runtime p) (rp_Safety p) created updated.

Definition or_default (s d : string) : string := if String.eqb s "" then d else s.

(** ** Checks *)

Definition nul_byte : string := String (ascii_of_N 0) "".
(** internal/remotes/remotes.go:295-315 [Validate] *)
Definition Validate_ (p : RemoteProfile) : result unit :=
  if String.eqb (rp_Name p) "" then Err (ENew "remote profile name is required")
  else if has_separator (rp_Name p) || str_contains (rp_Name p) ".."
  then Err (ENew "remote profile name must not contain path separators or ..")
  else if negb (String.eqb (rp_Type p) "rclone") && negb (String.eqb (rp_Type p) "local")
  then Err (ENew "unsupported remote profile type %q")
  else if String.eqb (rp_Vault p) "" then Err (ENew "vault path is required")
  else if String.eqb (rc_RemotePath (rp_Remote p)) "" then Err (ENew "remote path is required")
  else if str_contains (rc_RemotePath (rp_Remote p)) nul_byte then Err (ENew "remote path contains an invalid NUL byte")
  else Ok tt.

(** internal/remotes/remotes.go:351-358 [looksSecret] *)
Definition looksSecret (key : string) : bool :=
  existsb (str_contains key) ["token"; "secret"; "password"; "pass"; "key"; "client_id"; "client_secret"; "access"; "refresh";
    "private"; "credential"; "sas"; "connection_string"; "bearer"].

Definition newline : ascii := ascii_of_N 10.
Definition lines_of (s : string) : list string := map string_of_list_ascii (split_byte newline (list_ascii_of_string s)).
Definition join_lines (l : list string) : string := String.concat (String newline "") l.

(** The profile store sorted by name. *)
Definition sort_profiles (l : list RemoteProfile) : list RemoteProfile := go_sort (fun a b => str_gtb (rp_Name b) (rp_Name a)) l.

Section remotes.
Context `{Env} `{Platform} `{Host} `{GoUnicode} `{JR : JSON RemoteStore}.

(** internal/remotes/remotes.go:332-349 [RedactConfig]: one line *)
Definition redact_line (line : string) : string :=
  let trim := trim_space line in
  if String.eqb trim "" || has_prefix trim "[" || has_prefix trim "#" || has_prefix trim ";" then line
  else
    let '(k, _, found) := cut_byte "=" (list_ascii_of_string line) in
    if negb found then line
    else
      let key := to_lower (trim_space (string_of_list_ascii k)) in
      if looksSecret key then string_of_list_ascii k +:+ "= [REDACTED]" else line.
(** internal/remotes/remotes.go:332-349 [RedactConfig] *)
Definition RedactConfig (text : string) : string := join_lines (map redact_line (lines_of text)).

(** ** The store *)

(** internal/remotes/remotes.go:70-76 [ConfigPath] *)
Definition ConfigPath : M string := dir ← EnsureConfigDir ["remotes"]; mret (path_join [dir; "remote-profiles.json"]).

(** internal/remotes/remotes.go:78-84 [DefaultRcloneConfigPath] *)
Definition DefaultRcloneConfigPath : M string :=
  r ← try (EnsureConfigDir ["rclone"]);
  mret (match r with Err _ => "rclone.conf" | Ok dir => path_join [dir; "rclone.conf"] end).

(** internal/remotes/remotes.go:86-92 [ResolveConfigPath] *)
Definition ResolveConfigPath (p : string) : M string :=
  let p := trim_space p in
  if String.eqb p "" || String.eqb p "managed" then DefaultRcloneConfigPath else lift (Abs p).

(** internal/remotes/remotes.go:254-293 [Normalize] *)
Definition Normalize (p : RemoteProfile) : M RemoteProfile :=
  let r := rp_Remote p in let t := rp_Runtime p in let sf := rp_Safety p in
  cfg ← (if String.eqb (rc_RcloneConfigPath r) "" then DefaultRcloneConfigPath else mret (rc_RcloneConfigPath r));
  mret (mkRemoteProfile (trim_space (rp_Name p)) (or_default (to_lower (trim_space (rp_Type p))) "rclone") (trim_space (rp_Vault p))
    (mkRemoteConfig (trim_space (rc_RemoteName r)) (trim_space (rc_RemotePath r)) (or_default (to_lower (trim_space (rc_Backend r))) "local")
       (or_default (rc_ConfigMode r) "managed") cfg
       (if rc_Transfers r <=? 0 then 8 else rc_Transfers r) (if rc_Checkers r <=? 0 then 16 else rc_Checkers r)
       (rc_FastList r) (or_default (rc_Checksum r) "auto") (rc_BandwidthLimit r) (rc_DryRunDefault r) (rc_Host r) (rc_User r)
       (rc_Port r) (rc_SSHKey r) (rc_HostFingerprint r))
    (mkRuntimeConfig (or_default (to_lower (trim_space (rt_Channel t))) "stable") (rt_PinnedVersion t) (rt_AutoCheckUpdates t)
       (rt_AutoInstallSecurityUpdates t))
    (mkSafetyConfig (or_default (sc_DefaultOperation sf) "copy") (sc_AllowDestructiveSync sf) (sc_RequireDryRunBeforeSync sf)
       (if sc_RetainDeletedObjectsDays sf =? 0 then 30 else sc_RetainDeletedObjectsDays sf) (sc_VerifyAfterTransfer sf))
    (rp_CreatedAt p) (rp_UpdatedAt p)).

(** internal/remotes/remotes.go:94-117 [DefaultProfile] *)
Definition DefaultProfile (name vaultPath remotePath backend : string) : M RemoteProfile :=
  let backend := or_default (to_lower (trim_space backend)) "local" in
  cfg ← DefaultRcloneConfigPath;
  Normalize (mkRemoteProfile name "rclone" vaultPath
    (mkRemoteConfig "" remotePath backend "managed" cfg 8 16 true "auto" "" true "" "" 0 "" "")
    (mkRuntimeConfig "stable" "" true false) (mkSafetyConfig "copy" false true 30 true) "" "").

(** internal/remotes/remotes.go:119-139 [Load] *)
Definition Load_ : M RemoteStore :=
  p ← ConfigPath;
  o ← read_settings (os_segs p);
  mret (match o with
        | None => mkRemoteStore 1 []
        | Some s => if rs_Version s =? 0 then mkRemoteStore 1 (rs_Profiles s) else s
        end).

(** internal/remotes/remotes.go:360-369 [atomicWriteFile] *)
Definition atomicWriteFile (path : string) (data : bytes) : M unit :=
  _ ← os_MkdirAll (os_segs (path_dir path));
  t ← now;
  let tmp := os_segs (str_concat [path; ".tmp."; itoa (unix_nano t)]) in
  _ ← os_WriteFile tmp data;
  os_Rename tmp (os_segs path).

Definition normalize_all (l : list RemoteProfile) : M (list RemoteProfile) :=
  mfold (fun acc p => p ← Normalize p; mret (acc ++ [p])) [] l.

(** internal/remotes/remotes.go:141-159 [SaveStore] *)
Definition SaveStore (s : RemoteStore) : M unit :=
  p ← ConfigPath;
  _ ← os_MkdirAll (os_segs (path_dir p));
  l ← normalize_all (rs_Profiles s);
  atomicWriteFile p (marshal (mkRemoteStore 1 (sort_profiles l))).

(** The loop of [Add]: the first profile of the name is replaced and gives its
    creation time, when it has one. *)
Fixpoint replace_profile (p : RemoteProfile) (l : list RemoteProfile) : option (RemoteProfile * list RemoteProfile) :=
  match l with
  | [] => None
  | x :: l =>
      if String.eqb (rp_Name x) (rp_Name p) then
        let p := if String.eqb (rp_CreatedAt x) "" then p else with_times p (rp_CreatedAt x) (rp_UpdatedAt p) in Some (p, p :: l)
      else '(p, l) ← replace_profile p l; Some (p, x :: l)
  end.

(** internal/remotes/remotes.go:161-202 [Add] *)
Definition Add_ (p : RemoteProfile) : M RemoteProfile :=
  p ← Normalize p;
  _ ← lift (Validate_ p);
  abs ← lift (Abs (rp_Vault p));
  let p := with_Vault p abs in
  p ← (if String.eqb (trim_space (rc_RcloneConfigPath (rp_Remote p))) "" then mret p
       else cfg ← ResolveConfigPath (rc_RcloneConfigPath (rp_Remote p)); mret (with_RcloneConfigPath p cfg));
  t ← now;
  let nows := format_rfc3339nano t in
  let p := with_times p (or_default (rp_CreatedAt p) nows) nows in
  s ← Load_;
  let '(p, l) := match replace_profile p (rs_Profiles s) with
                 | Some (p, l) => (p, l)
                 | None => (p, rs_Profiles s ++ [p])
                 end in
  _ ← SaveStore (mkRemoteStore (rs_Version s) l);
  mret p.

(** internal/remotes/remotes.go:204-224 [Remove] *)
Definition Remove_ (name : string) : M unit :=
  s ← Load_;
  let name := trim_space name in
  let out := List.filter (fun p => negb (String.eqb (rp_Name p) name)) (rs_Profiles s) in
  if negb (existsb (fun p => String.eqb (rp_Name p) name) (rs_Profiles s)) then fail (ENew "remote profile %q not found")
  else SaveStore (mkRemoteStore (rs_Version s) out).

(** internal/remotes/remotes.go:228-239 [List] *)
Definition List_ : M (list RemoteProfile) := s ← Load_; l ← normalize_all (rs_Profiles s); mret (sort_profiles l).
(** internal/remotes/remotes.go:226-226 [Entries] *)
Definition Entries : M (list RemoteProfile) := List_.

(** internal/remotes/remotes.go:241-252 [Get] *)
Definition Get (name : string) : M (option RemoteProfile) :=
  s ← Load_;
  match List.find (fun p => String.eqb (rp_Name p) name) (rs_Profiles s) with
  | Some p => Some <$> Normalize p
  | None => mret None
  end.

(** internal/remotes/remotes.go:317-330 [EnsureManagedConfig] *)
Definition EnsureManagedConfig : M string :=
  p ← DefaultRcloneConfigPath;
  _ ← os_MkdirAll (os_segs (path_dir p));
  r ← try (os_Stat (os_segs p));
  match r with
  | Ok _ => mret p
  | Err e =>
      if not_exist e
      then _ ← os_WriteFile (os_segs p) (bytes_of ("# open-seavault-rclone managed rclone configuration" +:+ String newline "")); mret p
      else fail e
  end.

(** Whether a profile's vault is at [oldAbs]. *)
Definition remote_at (oldAbs : string) (p : RemoteProfile) : bool :=
  match Abs (rp_Vault p) with Ok a => String.eqb (path_clean a) (path_clean oldAbs) | Err _ => false end.

(** internal/remotes/update_vault_path.go:14-44 [UpdateVaultPathMatching] *)
Definition UpdateVaultPathMatching (oldPath newPath : string) : M Z :=
  oldAbs ← lift (Abs oldPath);
  newAbs ← lift (Abs newPath);
  s ← Load_;
  t ← now;
  let nows := format_rfc3339nano t in
  let l := map (fun p => if remote_at oldAbs p then with_times (with_Vault p newAbs) (rp_CreatedAt p) nows else p) (rs_Profiles s) in
  let count := Z.of_nat (length (List.filter (remote_at oldAbs) (rs_Profiles s))) in
  if count =? 0 then mret 0
  else _ ← SaveStore (mkRemoteStore (rs_Version s) l); mret count.
End remotes.
