(* ===== verification/SettingsFacts.v ===== *)
(** What writing the settings of a device touches: the files below its configuration
    directory. *)
From S2P Require Export Profile Remotes WorldFacts RootPaths.
Local Open Scope Z_scope.

(** ** The parent and the name of an absolute path *)

Lemma path_split_snoc a x : no_slash x = true → path_split (a +:+ String slash x) = (a +:+ "/", x).
Proof.
  intros Hx. assert (Hp : path_split x = ("", x)).
  { clear a. induction x as [|c x IH]; [done|]. cbn [no_slash] in Hx. cbn [path_split].
    destruct (ascii_dec c slash); [done|]. by rewrite IH. }
  induction a as [|c a IH].
  - change ("" +:+ ?s) with s. cbn [path_split]. rewrite Hp. cbn [String.eqb]. by destruct (ascii_dec slash slash).
  - change (String c a +:+ ?s) with (String c (a +:+ s)). cbn [path_split]. rewrite IH. by destruct (a +:+ "/") eqn:E; [destruct a|].
Qed.

Section names.
Context (segs : list string) (x : string).
Hypothesis segs_plain : Forall plain_seg segs.
Hypothesis x_plain : plain_seg x.

Lemma at_root_snoc names : segs ++ names ≠ [] → at_root segs (names ++ [x]) = at_root segs names +:+ String slash x.
Proof. intros Hne. unfold at_root. rewrite app_assoc, join_slash_snoc by done. done. Qed.
Lemma path_dir_at : segs ≠ [] → path_dir (at_root segs [x]) = at_root segs [].
Proof.
  intros Hne. unfold path_dir. change [x] with ([] ++ [x]). rewrite at_root_snoc by (by rewrite app_nil_r).
  rewrite path_split_snoc by apply x_plain. cbn [fst]. unfold at_root. rewrite app_nil_r.
  change (String slash ?a +:+ "/") with (String slash (a +:+ "/")).
  unfold path_clean. assert (Ha : path_is_abs (String slash (join_slash segs +:+ "/")) = true) by apply (has_prefix_app "/" _).
  rewrite Ha. f_equal. f_equal. change (split_slash (String slash ?t)) with ("" :: split_slash t).
  destruct (split_slash_snoc (join_slash segs) "" eq_refl) as (l & _ & E & ->). change (String slash "") with "/" in E. rewrite E.
  rewrite split_join by auto using plain_no_slash. unfold clean_segs. cbn [fold_left]. rewrite fold_left_app. cbn [fold_left].
  change (clean_seg true ?o "") with o. change (rev (fold_left (clean_seg true) segs [])) with (clean_segs true segs).
  pose proof segs_plain as Hl. rewrite <- (rev_involutive segs). apply clean_canon. apply Forall_rev in Hl.
  induction Hl as [|y l' Hy _ IH]; [done|]. split; [by left|done].
Qed.

Lemma no_slash_chars s : no_slash s = true → Forall (fun c => c ≠ slash) (list_ascii_of_string s).
Proof. induction s as [|c s IH]; cbn [no_slash list_ascii_of_string]; [constructor|]. destruct (ascii_dec c slash); [done|]. constructor; auto. Qed.
Lemma path_base_at : segs ≠ [] → path_base (at_root segs [x]) = x.
Proof.
  intros Hne. unfold path_base. change [x] with ([] ++ [x]). rewrite at_root_snoc by (by rewrite app_nil_r).
  destruct x_plain as (Hx & _ & _ & Hs). assert (Ht : rtrim_slash (at_root segs [] +:+ String slash x) = at_root segs [] +:+ String slash x).
  { unfold rtrim_slash. apply no_slash_chars, Forall_rev in Hs. rewrite list_ascii_app. cbn [list_ascii_of_string].
    rewrite rev_app_distr. cbn [rev]. destruct (rev (list_ascii_of_string x)) as [|c l] eqn:E.
    - destruct x as [|c y]; [done|]. cbn in E. by destruct (rev (list_ascii_of_string y)).
    - inversion Hs. cbn [app trim_right_slashes]. destruct (ascii_dec c slash); [done|].
      rewrite app_comm_cons, app_comm_cons, <- E, <- app_assoc. cbn [app].
      change (rev ?a ++ slash :: ?b) with (rev a ++ [slash] ++ b). rewrite !rev_app_distr, !rev_involutive. cbn [rev app].
      rewrite <- app_assoc. cbn [app]. change (slash :: list_ascii_of_string x) with (list_ascii_of_string (String slash x)).
      rewrite <- list_ascii_app. apply string_of_list_ascii_of_string. }
  rewrite Ht, path_split_snoc by done. cbn [snd]. destruct (String.eqb_spec (at_root segs [] +:+ String slash x) "") as [E|_]; [|done].
  unfold at_root in E. discriminate E.
Qed.
End names.

(** ** The files of settings *)

Lemma preserves_known {A B} (J : files → Prop) (a : A) (f : A → M B) : preserves J (f a) → preserves J (lift (Ok a) ≫= f).
Proof. done. Qed.

Section settings.
Context `{Env} `{Platform} `{Host} `{GoUnicode} (P : fpath → Prop) (fs0 : files).
Abbreviation I := (agrees P fs0).

Lemma WriteFile_agrees q d : ¬ P q → preserves I (os_WriteFile q d).
Proof.
  intros Hq. unfold os_WriteFile. apply preserves_bind.
  { apply preserves_syscall. intros fs t Hs. destruct (is_dir fs q); [done|by apply agrees_insert]. }
  intros _. unfold os_Quiet. keep.
Qed.

Context (conf : list string).
Hypothesis conf_dir : ConfigDir = Ok (at_root conf []).
Hypothesis conf_plain : Forall plain_seg conf.
Hypothesis conf_some : conf ≠ [].
Hypothesis conf_out : ∀ names, ¬ P ("" :: conf ++ names).

Lemma writeDeviceLocalFile_agrees name d : Forall plain_seg name → preserves I (writeDeviceLocalFile (at_root conf name) d).
Proof.
  intros Hn. unfold writeDeviceLocalFile, os_MkdirAll, os_Quiet. rewrite segs_at by done.
  apply preserves_bind; [keep|intros _]. apply preserves_bind; [by apply WriteFile_agrees|keep].
Qed.

Section profiles.
Context `{JS : JSON ProfileStore}.
Lemma profiles_path : Profile.ConfigPath = Ok (at_root conf ["profiles.json"]).
Proof.
  unfold Profile.ConfigPath. rewrite conf_dir. change (Ok ?a ≫= ?f) with (f a). cbv beta.
  by rewrite (join_at conf conf_plain conf_some) by (done || by repeat constructor).
Qed.
Lemma Load_agrees : preserves I Profile.Load_.
Proof. unfold Profile.Load_, read_settings, os_ReadFile. keep. Qed.
Lemma Save_agrees s : preserves I (Save s).
Proof. unfold Save. rewrite profiles_path. by apply preserves_known, writeDeviceLocalFile_agrees; repeat constructor. Qed.
Lemma UpdatePath_agrees name p : preserves I (UpdatePath name p).
Proof. pose proof Load_agrees. pose proof Save_agrees. unfold UpdatePath, Profile.Add_. keep. Qed.
Lemma UpdatePathsMatching_agrees a b : preserves I (UpdatePathsMatching a b).
Proof. pose proof Load_agrees. pose proof Save_agrees. unfold UpdatePathsMatching. keep. Qed.
End profiles.

Section remotes.
Context `{JR : JSON RemoteStore}.
Lemma EnsureConfigDir_path names s s' p : Forall plain_seg names → names ≠ [] →
  EnsureConfigDir names s = (s', Ok p) → p = at_root conf names.
Proof.
  intros Hn Hne. unfold EnsureConfigDir. rewrite conf_dir. change (lift (Ok ?a) ≫= ?f) with (f a). cbv beta.
  rewrite (join_at conf conf_plain conf_some) by done. by intros (s1 & u & _ & [= _ <-])%M_bind_ok.
Qed.
Lemma remotes_path s s' p : Remotes.ConfigPath s = (s', Ok p) → p = at_root conf ["remotes"; "remote-profiles.json"].
Proof.
  unfold Remotes.ConfigPath. intros (s1 & dir & ->%EnsureConfigDir_path & E)%M_bind_ok; [|by repeat constructor|done].
  injection E as _ <-. by apply (join_at conf conf_plain conf_some ["remote-profiles.json"]); [repeat constructor|done|repeat constructor].
Qed.
Lemma EnsureConfigDir_agrees names : preserves I (EnsureConfigDir names).
Proof. unfold EnsureConfigDir, os_MkdirAll. keep. Qed.
Lemma DefaultRcloneConfigPath_agrees : preserves I DefaultRcloneConfigPath.
Proof. pose proof EnsureConfigDir_agrees. unfold DefaultRcloneConfigPath. keep. Qed.
Lemma Normalize_agrees p : preserves I (Normalize p).
Proof. pose proof DefaultRcloneConfigPath_agrees. unfold Normalize. keep. Qed.
Lemma remotes_load_agrees : preserves I Remotes.Load_.
Proof. pose proof EnsureConfigDir_agrees. unfold Remotes.Load_, Remotes.ConfigPath, read_settings, os_ReadFile. keep. Qed.

(** The temporary file beside a file below the configuration directory. *)
Lemma beside_at names x suffix : Forall plain_seg (names ++ [x]) → no_slash suffix = true →
  os_segs (at_root conf (names ++ [x]) +:+ suffix) = "" :: conf ++ names ++ [x +:+ suffix].
Proof.
  intros Hn Hs. assert (Hne : conf ++ names ≠ []) by (by destruct conf).
  rewrite at_root_snoc by done. rewrite str_app_assoc. change (String slash x +:+ suffix) with (String slash (x +:+ suffix)).
  rewrite <- at_root_snoc by done. unfold os_segs, at_root. change (split_slash (String slash ?t)) with ("" :: split_slash t).
  rewrite split_join; [done|by destruct conf|]. apply Forall_app in Hn as [Hn Hx]. apply Forall_cons in Hx as [(_ & _ & _ & Hx) _].
  rewrite !Forall_app. split; [by apply plain_no_slash|]. split; [by apply plain_no_slash|]. constructor; [|done].
  by rewrite no_slash_app, Hx, Hs.
Qed.
Lemma remotes_write_agrees names x d : Forall plain_seg (names ++ [x]) →
  preserves I (Remotes.atomicWriteFile (at_root conf (names ++ [x])) d).
Proof.
  intros Hn. unfold Remotes.atomicWriteFile, os_MkdirAll. apply preserves_bind; [keep|intros _]. apply preserves_bind; [keep|intros t]. cbv zeta.
  rewrite segs_at by done. change (str_concat [?a; ?b; ?c]) with (a +:+ (b +:+ c)). rewrite beside_at; [|done|].
  - apply preserves_bind; [by apply WriteFile_agrees|intros _]. by apply Rename_agrees.
  - rewrite !no_slash_app, itoa_no_slash. done.
Qed.
Lemma normalize_all_agrees l : preserves I (normalize_all l).
Proof. pose proof Normalize_agrees. unfold normalize_all. keep. Qed.
Lemma preserves_bind_ok {A B} (m : M A) (Q : A → Prop) (f : A → M B) :
  (∀ s s' a, m s = (s', Ok a) → Q a) → preserves I m → (∀ a, Q a → preserves I (f a)) → preserves I (m ≫= f).
Proof.
  intros HQ Hm Hf s Hs. rewrite bind_run. specialize (Hm s Hs). destruct (m s) as [s' [a|e]] eqn:E; [|done].
  apply Hf; [by eapply HQ|done].
Qed.
Lemma SaveStore_agrees s : preserves I (SaveStore s).
Proof.
  unfold SaveStore. apply (preserves_bind_ok _ (fun p => p = at_root conf (["remotes"] ++ ["remote-profiles.json"]))).
  - apply remotes_path.
  - pose proof EnsureConfigDir_agrees. unfold Remotes.ConfigPath. keep.
  - intros ? ->. unfold os_MkdirAll. apply preserves_bind; [keep|intros _]. apply preserves_bind; [apply normalize_all_agrees|intros l].
    apply (remotes_write_agrees ["remotes"]). by repeat constructor.
Qed.
Lemma UpdateVaultPathMatching_agrees a b : preserves I (UpdateVaultPathMatching a b).
Proof. pose proof remotes_load_agrees. pose proof SaveStore_agrees. unfold UpdateVaultPathMatching. keep. Qed.
End remotes.
End settings.
