(* ===== verification/Trees.v ===== *)
(** Whole directories as the program handles them: moved, removed, listed, walked
    ([os.Rename], [os.RemoveAll], [os.ReadDir], [filepath.WalkDir]).

    A directory is the set of files below it; an empty one is not part of the disk,
    nor are links and special files. *)
From S2P Require Export VaultOps.
Local Open Scope Z_scope.

(** ** Moved, removed, listed *)

(** The segments of a cleaned absolute path; the root has none but the first. *)
Definition dir_segs (p : string) : fpath := if String.eqb p "/" then [""] else os_segs p.

(** Every file at or below [old] is moved to the same place at or below [new]. *)
Definition move_tree (old new : fpath) (fs : files) : files :=
  list_to_map ((fun kv => (if below old kv.1 then new ++ drop (length old) kv.1 else kv.1, kv.2)) <$> map_to_list fs).

Section trees.
Context `{Env}.

(** [os.Rename] of a directory: onto nothing, or an empty directory. *)
Definition os_RenameTree (old new : fpath) : M unit := syscall (fun fs _ =>
  if negb (is_dir fs old) && negb (bool_decide (is_Some (fs !! old))) then (fs, Err ErrNotExist)
  else if is_dir fs new then (fs, Err (ESentinel "ENOTEMPTY"))
  else if bool_decide (is_Some (fs !! new)) && is_dir fs old then (fs, Err (ESentinel "ENOTDIR"))
  else (move_tree old new (if bool_decide (is_Some (fs !! new)) then delete new fs else fs), Ok tt)).

(** [os.RemoveAll]: every file at or below the path, each its own call; a file that
    cannot be removed does not stop it, and the first failure is reported. *)
Definition os_RemoveAll (p : fpath) : M unit :=
  l ← query (fun fs => Ok (go_sort path_lt (List.filter (below p) (fst <$> map_to_list fs))));
  e ← mfold (fun e q =>
        r ← try (os_Remove q);
        mret (match r, e with
              | Err x, None => if not_exist x then None else Some x
              | _, e => e
              end)) None l;
  match e with Some e => fail e | None => mret tt end.

(** [os.ReadDir]: the names in a directory, sorted, and whether each is a directory. *)
Definition entries_of (fs : files) (dir : fpath) : list (string * bool) :=
  let names := remove_dups (omap (fun q => if below dir q then drop (length dir) q !! 0%nat else None) (fst <$> map_to_list fs)) in
  (fun n => (n, is_dir fs (dir ++ [n]))) <$> sort_strings names.
Definition os_ReadEntries (dir : fpath) : M (list (string * bool)) := query (fun fs =>
  if is_dir fs dir then Ok (entries_of fs dir) else Err ErrNotExist).

(** [os.OpenFile] with [O_CREATE|O_EXCL]. *)
Definition os_CreateNew (p : fpath) : M unit := syscall (fun fs t =>
  if bool_decide (is_Some (fs !! p)) || is_dir fs p then (fs, Err (ESentinel "EEXIST")) else (<[p := mkFile [] t]> fs, Ok tt)).

(** [os.MkdirAll]: nothing to do, unless a file stands in the way. *)
Definition os_MakeDirs (p : fpath) : M unit := query (fun fs =>
  if existsb (fun n => bool_decide (is_Some (fs !! take n p))) (seq 1 (length p)) then Err (ESentinel "ENOTDIR") else Ok tt).
(** [os.Rename] of a file onto nothing or another file. *)
Definition os_Replace (old new : fpath) : M unit := syscall (fun fs _ =>
  match fs !! old with
  | None => (fs, Err ErrNotExist)
  | Some f => if is_dir fs new then (fs, Err (ESentinel "EEXIST")) else (<[new := f]> (delete old fs), Ok tt)
  end).
End trees.

(** The segments of the longest path. *)
Definition max_depth (fs : files) : nat := foldr (fun q n => Nat.max (length q) n) 0%nat (fst <$> map_to_list fs).

(** ** Walked *)

(** [filepath.SkipDir]: no error, leave this directory. *)
Definition SkipDir : err := ESentinel "fs.SkipDir".
Definition is_SkipDir (e : err) : bool := bool_decide (e = SkipDir).
Definition unless_skipped (e : option err) : option err :=
  match e with Some x => if is_SkipDir x then None else e | None => None end.

Section walk.
Context `{Env} {B : Type}.
(** The function called on each entry: its state, the path, whether it is a directory,
    and the error met there; it answers with an error or none. *)
Context (fn : B → fpath → bool → option err → M (B * option err)).

(** The entries of a directory, up to the first error. *)
Definition walk_entry (walk : B → fpath → bool → M (B * option err)) (path : fpath) (bs : B * option err) (entry : string * bool) :
    M (B * option err) :=
  match bs with
  | (_, Some _) => mret bs
  | (b, None) => walk b (path ++ [entry.1]) entry.2
  end.

(** [walkDir] of path/filepath. *)
Fixpoint walk_fuel (fuel : nat) (b : B) (path : fpath) (isDir : bool) : M (B * option err) :=
  match fuel with
  | O => mret (b, Some (ESentinel "out of fuel"))
  | S f =>
      '(b, e) ← fn b path isDir None;
      match e with
      | Some x => mret (b, if isDir then unless_skipped e else e)
      | None =>
          if negb isDir then mret (b, None)
          else
            r ← try (os_ReadEntries path);
            match r with
            | Err x => '(b, e) ← fn b path isDir (Some x); mret (b, unless_skipped e)
            | Ok entries =>
                '(b, e) ← mfold (walk_entry (walk_fuel f) path) (b, None) entries;
                mret (b, unless_skipped e)
            end
      end
  end.

(** [filepath.WalkDir].  A path is never longer than the longest on the disk, and the
    walk never goes deeper. *)
Definition WalkDir (b : B) (root : fpath) : M (B * option err) :=
  n ← gets (fun s => max_depth (st_files s));
  r ← try (os_IsDir root);
  '(b, e) ← match r with
            | Err x => fn b root false (Some x)
            | Ok isDir => walk_fuel (S (S n)) b root isDir
            end;
  mret (b, unless_skipped e).
End walk.
