(* ===== verification/TreesFacts.v ===== *)
(** Facts about whole directories: what a rename, a removal and a walk do to the disk. *)
From S2P Require Export Trees LoadFacts.
Local Open Scope Z_scope.

(** ** A tree renamed *)

Lemma lookup_rekeyed {A} (g : fpath → fpath) (m : gmap fpath A) k x :
  (∀ a b, is_Some (m !! a) → is_Some (m !! b) → g a = g b → a = b) →
  (list_to_map ((fun kv => (g kv.1, kv.2)) <$> map_to_list m) : gmap fpath A) !! k = Some x ↔ ∃ a, g a = k ∧ m !! a = Some x.
Proof.
  intros Hinj. rewrite <- elem_of_list_to_map.
  - rewrite list_elem_of_fmap. split.
    + intros ([a y] & [= -> ->] & Hin%elem_of_map_to_list). by exists a.
    + intros (a & <- & Ha). exists (a, x). split; [done|]. by apply elem_of_map_to_list.
  - rewrite <- list_fmap_compose. apply NoDup_fmap_2_strong.
    + intros [a y] [b z] Ha%elem_of_map_to_list Hb%elem_of_map_to_list E. cbn in E.
      assert (a = b) as -> by (apply Hinj; eauto). congruence.
    + apply NoDup_map_to_list.
Qed.

Section rename.
Context (old new : fpath) (fs : files).
Hypothesis new_free : ∀ q, below new q = true → fs !! q = None.
Hypothesis apart1 : below old new = false.

Definition moved (q : fpath) : fpath := if below old q then new ++ drop (length old) q else q.
Lemma moved_inj a b : is_Some (fs !! a) → is_Some (fs !! b) → moved a = moved b → a = b.
Proof.
  intros [x Ha] [y Hb]. unfold moved. destruct (below old a) eqn:Ea, (below old b) eqn:Eb.
  - intros E%app_inv_head. apply below_iff in Ea as [r ->], Eb as [r' ->]. rewrite !drop_app_length in E. by rewrite E.
  - intros <-. rewrite new_free in Hb by apply below_app. done.
  - intros ->. rewrite new_free in Ha by apply below_app. done.
  - done.
Qed.
Lemma move_tree_spec k x : move_tree old new fs !! k = Some x ↔ ∃ a, moved a = k ∧ fs !! a = Some x.
Proof. apply (lookup_rekeyed moved). apply moved_inj. Qed.
Lemma move_tree_new r : move_tree old new fs !! (new ++ r) = fs !! (old ++ r).
Proof.
  apply option_eq. intros x. rewrite move_tree_spec. split.
  - intros (a & Ha & Hx). unfold moved in Ha. destruct (below old a) eqn:E.
    + apply below_iff in E as [r' ->]. rewrite drop_app_length in Ha. apply app_inv_head in Ha as ->. done.
    + subst a. by rewrite new_free in Hx by apply below_app.
  - intros Hx. exists (old ++ r). unfold moved. by rewrite below_app, drop_app_length.
Qed.
Lemma move_tree_old q : below old q = true → below new q = false → move_tree old new fs !! q = None.
Proof.
  intros Ho Hn. apply eq_None_not_Some. intros [x (a & Ha & Hx)%move_tree_spec]. unfold moved in Ha.
  destruct (below old a) eqn:E; [|congruence]. subst q. by rewrite below_app in Hn.
Qed.
Lemma move_tree_other q : below old q = false → below new q = false → move_tree old new fs !! q = fs !! q.
Proof.
  intros Ho Hn. apply option_eq. intros x. rewrite move_tree_spec. split.
  - intros (a & Ha & Hx). unfold moved in Ha. destruct (below old a); [|congruence]. subst q. by rewrite below_app in Hn.
  - intros Hx. exists q. unfold moved. by rewrite Ho.
Qed.
End rename.

Lemma is_dir_spec (fs : files) p : is_dir fs p = true ↔ ∃ r, r ≠ [] ∧ is_Some (fs !! (p ++ r)).
Proof.
  unfold is_dir. rewrite existsb_exists. split.
  - intros (q & Hin & [Hb Hq]%andb_true_iff). apply below_iff in Hb as [r ->]. apply negb_true_iff, bool_decide_eq_false in Hq.
    exists r. split; [intros ->; by rewrite app_nil_r in Hq|].
    apply list_elem_of_In, list_elem_of_fmap in Hin as ([k x] & -> & Hx%elem_of_map_to_list). eauto.
  - intros (r & Hr & [x Hx]). exists (p ++ r). split.
    + apply list_elem_of_In, list_elem_of_fmap. exists (p ++ r, x). split; [done|]. by apply elem_of_map_to_list.
    + rewrite below_app. apply negb_true_iff, bool_decide_eq_false. intros E. destruct r; [done|].
      rewrite <- (app_nil_r p) in E at 2. by apply app_inv_head in E.
Qed.

(** All that is below [src] on the disk [fs0] is below [dst], byte for byte. *)
Definition carried (fs0 : files) (src dst : fpath) (fs : files) : Prop :=
  ∀ r f, r ≠ [] → fs0 !! (src ++ r) = Some f → ∃ t, fs !! (dst ++ r) = Some (mkFile (f_data f) t).
(** Outside [dst] the disk is as [fs0]. *)
Definition only_below (dst : fpath) : files → files → Prop := agrees (fun q => below dst q = false).

Lemma carried_self fs0 src dst fs : (∀ r, r ≠ [] → fs !! (dst ++ r) = fs0 !! (src ++ r)) → carried fs0 src dst fs.
Proof. intros Hr r f Hne Hf. exists (f_mtime f). rewrite Hr, Hf by done. by destruct f. Qed.

Section trees.
Context `{Env}.

(** A directory renamed, or not. *)
Lemma triple_RenameTree old new fs0 : old ≠ [] → below old new = false → is_dir fs0 old = true →
  triple (eq fs0) (os_RenameTree old new)
    (fun _ fs => (∀ r, fs !! (new ++ r) = fs0 !! (old ++ r)) ∧ (∀ q, below old q = true → below new q = false → fs !! q = None) ∧
       ∀ q, below old q = false → below new q = false → fs !! q = fs0 !! q)
    (eq fs0).
Proof.
  intros Ho Hon Hd. apply triple_syscall; [done|]. intros fs t <-. rewrite Hd. cbn [negb andb].
  destruct (is_dir fs0 new) eqn:En; [done|]. destruct (bool_decide (is_Some (fs0 !! new))) eqn:Ef; cbn [andb]; [done|].
  apply bool_decide_eq_false in Ef. assert (Hfree : ∀ q, below new q = true → fs0 !! q = None).
  { intros q [r ->]%below_iff. apply eq_None_not_Some. intros Hs. destruct r as [|x r]; [by rewrite app_nil_r in Hs|].
    apply not_true_iff_false in En. apply En, is_dir_spec. by exists (x :: r). }
  split; [|split].
  - intros r. by apply move_tree_new.
  - intros q. by apply move_tree_old.
  - intros q. by apply move_tree_other.
Qed.

(** [os.RemoveAll] touches nothing elsewhere. *)
Lemma RemoveAll_agrees (P : fpath → Prop) fs0 p : (∀ q, P q → below p q = false) → preserves (agrees P fs0) (os_RemoveAll p).
Proof.
  intros HP. unfold os_RemoveAll. intros s Hs. rewrite bind_run. unfold query, syscall. destruct (env_fault _); [done|].
  cbv beta iota. set (l := go_sort path_lt _). set (s1 := tick1 _).
  assert (Hl : ∀ q, q ∈ l → below p q = true).
  { intros q Hq. apply go_sort_in, list_elem_of_In, filter_In in Hq. by destruct Hq. }
  assert (Hs1 : agrees P fs0 (st_files s1)) by done. clearbody l s1. revert s1 Hs1.
  apply preserves_bind; [|intros [e|]; keep]. apply preserves_mfold_in. intros e q Hq.
  apply preserves_bind; [|intros r; apply preserves_ret]. apply preserves_try, Remove_agrees.
  intros Hp%HP. apply Hl in Hq. congruence.
Qed.

(** Where no call fails by pretending the file is not there, what it reports removed
    is gone. *)
Definition honest : Prop := ∀ i e, env_fault i = Some e → not_exist e = false.
Definition remove_each (e : option err) (q : fpath) : M (option err) :=
  r ← try (os_Remove q);
  mret (match r, e with
        | Err x, None => if not_exist x then None else Some x
        | _, e => e
        end).
Lemma remove_each_step e q s : honest → ∃ s1 e1, remove_each e q s = (s1, Ok e1) ∧
  (∀ q', st_files s !! q' = None → st_files s1 !! q' = None) ∧ (e1 = None → e = None ∧ st_files s1 !! q = None).
Proof.
  intros Hh. unfold remove_each. rewrite bind_run. unfold try, os_Remove, syscall.
  destruct (env_fault (st_tick s)) as [x|] eqn:Ef.
  - eexists _, _. split; [reflexivity|]. split; [done|]. destruct e; [done|]. by rewrite (Hh _ _ Ef).
  - destruct (st_files s !! q) as [f|] eqn:Eq; cbv beta iota; (eexists _, _; split; [reflexivity|]); cbn.
    + split; [|intros ->; split; [done|apply lookup_delete_eq]].
      intros q' Hq'. destruct (decide (q' = q)) as [->|]; [apply lookup_delete_eq|by rewrite lookup_delete_ne].
    + split; [done|]. destruct e; done.
Qed.
Lemma remove_each_run l : honest → ∀ e s s', mfold remove_each e l s = (s', Ok None) →
  e = None ∧ (∀ q, st_files s !! q = None → st_files s' !! q = None) ∧ ∀ q, q ∈ l → st_files s' !! q = None.
Proof.
  intros Hh. induction l as [|q l IH]; intros e s s'; cbn [mfold]; [intros [= <- ->]; by repeat split; [|intros q ?%not_elem_of_nil]|].
  destruct (remove_each_step e q s Hh) as (s1 & e1 & E & Hn1 & He1). rewrite bind_run, E. intros (-> & Hn & Hl)%IH.
  destruct (He1 eq_refl) as [-> Hq]. split; [done|]. split; [auto|]. intros q' [->|Hq']%elem_of_cons; auto.
Qed.
Lemma RemoveAll_removes p s s' : honest → os_RemoveAll p s = (s', Ok tt) → ∀ q, below p q = true → st_files s' !! q = None.
Proof.
  intros Hh. unfold os_RemoveAll. rewrite bind_run. unfold query, syscall. destruct (env_fault (st_tick s)); [done|].
  cbv beta iota. set (l := go_sort path_lt _). fold remove_each. rewrite bind_run.
  destruct (mfold _ None l _) as [s1 [[e|]|]] eqn:E; [done| |done]. intros [= <-] q Hq.
  apply remove_each_run in E as (_ & Hn & Hl); [|done]. destruct (st_files s !! q) as [f|] eqn:Ef; [|apply Hn; exact Ef].
  apply Hl, go_sort_in, list_elem_of_In, filter_In. split; [|done].
  apply list_elem_of_In, list_elem_of_fmap. exists (q, f). split; [done|]. by apply elem_of_map_to_list.
Qed.

(** ** Inside and apart *)

Lemma apart_app a b x y : below a b = false → below b a = false → below (a ++ x) (b ++ y) = false.
Proof.
  intros Hab Hba. apply not_true_is_false. intros [r Hr]%below_iff. pose proof (apart a b y Hab Hba) as Hap.
  rewrite Hr, <- app_assoc, below_app in Hap. done.
Qed.
Lemma below_trans a b x : below a b = true → below b x = true → below a x = true.
Proof. intros [r ->]%below_iff [r' ->]%below_iff. rewrite <- app_assoc. apply below_app. Qed.
Lemma below_sibling d m n r : m ≠ n → below (d ++ [n]) (d ++ m :: r) = false.
Proof. intros Hmn. apply not_true_is_false. intros [x Hx]%below_iff. rewrite <- app_assoc in Hx. apply app_inv_head in Hx. by injection Hx. Qed.

Lemma is_dir_agrees p fs0 fs : agrees (fun q => below p q = true) fs0 fs → is_dir fs p = is_dir fs0 p.
Proof.
  intros Ha. apply eq_true_iff_eq. rewrite !is_dir_spec. split; intros (r & Hr & Hs); exists r; (split; [done|]).
  - by rewrite <- (Ha (p ++ r)) by apply below_app.
  - by rewrite (Ha (p ++ r)) by apply below_app.
Qed.

Lemma only_below_weaken a b fs0 fs : below a b = true → only_below b fs0 fs → only_below a fs0 fs.
Proof.
  intros Hab Ha q Hq. apply Ha. apply not_true_is_false. intros Hb. apply (below_trans a b) in Hb; [congruence|done].
Qed.
Lemma only_below_trans d fs0 fs1 fs2 : only_below d fs0 fs1 → only_below d fs1 fs2 → only_below d fs0 fs2.
Proof. intros H1 H2 q Hq. by rewrite H2, H1. Qed.

Lemma entries_spec fs d n b : (n, b) ∈ entries_of fs d ↔ (∃ r, is_Some (fs !! (d ++ n :: r))) ∧ b = is_dir fs (d ++ [n]).
Proof.
  unfold entries_of, sort_strings. rewrite list_elem_of_fmap. split.
  - intros (m & [= <- ->] & Hin). split; [|done]. apply go_sort_in, elem_of_remove_dups, list_elem_of_omap in Hin as (q & Hq & Hm).
    apply list_elem_of_fmap in Hq as ([k x] & -> & Hx%elem_of_map_to_list). cbn in Hm. destruct (below d k) eqn:E; [|done].
    apply below_iff in E as [r ->]. rewrite drop_app_length in Hm. destruct r as [|y r]; [done|]. injection Hm as ->. eauto.
  - intros [(r & x & Hx) ->]. exists n. split; [done|]. apply go_sort_in, elem_of_remove_dups, list_elem_of_omap.
    exists (d ++ n :: r). rewrite below_app, drop_app_length. split; [|done].
    apply list_elem_of_fmap. exists (d ++ n :: r, x). split; [done|]. by apply elem_of_map_to_list.
Qed.

Lemma bind_ext {A B} (m : M A) (f g : A → M B) s : (∀ a s', m s = (s', Ok a) → f a s' = g a s') → (m ≫= f) s = (m ≫= g) s.
Proof. intros He. rewrite !bind_run. destruct (m s) as [s' [a|e]]; [by apply He|done]. Qed.

Lemma mfold_ext {A B} (I : files → Prop) (f g : B → A → M B) l : (∀ b a, a ∈ l → preserves I (f b a)) →
  (∀ b a s, a ∈ l → I (st_files s) → f b a s = g b a s) → ∀ b s, I (st_files s) → mfold f b l s = mfold g b l s.
Proof.
  induction l as [|a l IH]; intros Hp He b s Hs; [done|]. cbn [mfold]. rewrite !bind_run, <- He by (done || by left).
  specialize (Hp b a ltac:(by left) s Hs) as Hk. destruct (f b a s) as [s' [b'|e]]; [|done].
  apply IH; [intros b2 a2 Ha; apply Hp; by right|intros b2 a2 s2 Ha; apply He; by right|done].
Qed.
Lemma max_depth_le (fs : files) q : is_Some (fs !! q) → (length q ≤ max_depth fs)%nat.
Proof.
  intros [x Hx]. unfold max_depth. assert (Hin : q ∈ fst <$> map_to_list fs) by (apply list_elem_of_fmap; exists (q, x); split; [done|by apply elem_of_map_to_list]).
  revert Hin. generalize (fst <$> map_to_list fs). intros l. induction l as [|y l IH]; [by intros ?%not_elem_of_nil|].
  cbn [foldr]. intros [->|Hin]%elem_of_cons; [lia|]. specialize (IH Hin). lia.
Qed.
End trees.

(** ** A walk meets every file *)

Lemma triple_result {A} (C : A → Prop) P (m : M A) Q E : (∀ s a, (m s).2 = Ok a → C a) → triple P m Q E →
  triple P m (fun a fs => C a ∧ Q a fs) E.
Proof. intros HC Hm s Hs. specialize (Hm s Hs). specialize (HC s). destruct (m s) as [s' [a|e]]; [by split; [apply HC|]|done]. Qed.

Lemma triple_try_query `{Env} {A} fs (act : files → result A) E :
  triple (eq fs) (try (query act)) (fun r fs' => fs' = fs ∧ (r = act fs ∨ ∃ i e, env_fault i = Some e ∧ r = Err e)) E.
Proof. intros s ->. rewrite try_run. destruct (query_run act s) as (r & -> & [Hr|(e & He & Hr)]); cbn; (split; [done|]); [by left|right; eauto]. Qed.

Lemma triple_gets {A B} P (g : St → A) (f : A → M B) Q E : (∀ a, triple P (f a) Q E) → triple P (gets g ≫= f) Q E.
Proof. intros Hf s Hs. rewrite bind_run. by apply Hf. Qed.

(** What a function called on the entries of a tree may answer when it goes on after
    every entry, or stops with an error that is not [SkipDir]. *)
Definition answers {B} (F : B → files → Prop) (Q : B → files → Prop) (x : B * option err) (fs : files) : Prop :=
  match x.2 with None => Q x.1 fs | Some e => is_SkipDir e = false ∧ F x.1 fs end.

Section visits.
Context `{Env} {B : Type} (fn : B → fpath → bool → option err → M (B * option err)).
Context (fs0 : files) (S : fpath) (R : list fpath → B → files → Prop) (F : B → files → Prop).
Hypothesis wf : ∀ p, is_Some (fs0 !! p) → is_dir fs0 p = false.
Abbreviation never := (fun _ : files => False).
Hypothesis R_same : ∀ l b fs, R l b fs → agrees (fun q => below S q = true) fs0 fs.
Hypothesis R_F : ∀ l b fs, R l b fs → F b fs.
Hypothesis on_file : ∀ l b p, below S p = true → is_Some (fs0 !! p) →
  triple (R l b) (fn b p false None) (answers F (R (p :: l))) never.
Hypothesis on_dir : ∀ l b p, below S p = true → is_dir fs0 p = true → triple (R l b) (fn b p true None) (answers F (R l)) never.
Hypothesis on_err : ∀ b p d e, is_SkipDir e = false → triple (F b) (fn b p d (Some e)) (answers F (fun _ _ => False)) never.
Hypothesis no_skip : ∀ i e, env_fault i = Some e → is_SkipDir e = false.

(** The files at or below [p] are among those met. *)
Definition met (p : fpath) (seen l : list fpath) : Prop := seen ⊆ l ∧ ∀ r, is_Some (fs0 !! (p ++ r)) → p ++ r ∈ l.
Definition walked (p : fpath) (seen : list fpath) (b : B) (fs : files) : Prop := ∃ l, met p seen l ∧ R l b fs.

Lemma below_in p n : below S p = true → below S (p ++ [n]) = true.
Proof. intros Hp. apply (below_trans S p); [done|apply below_app]. Qed.
Lemma R_is_dir l b fs p : below S p = true → R l b fs → is_dir fs p = is_dir fs0 p.
Proof. intros Hp HR. apply is_dir_agrees. eapply agrees_weaken; [|by eapply R_same]. intros q Hq. by apply (below_trans S p). Qed.

Lemma met_entries p (l : list fpath) fs :
  below S p = true → agrees (fun q => below S q = true) fs0 fs → is_dir fs0 p = true →
  (∀ n, n ∈ (entries_of fs p).*1 → ∀ r, is_Some (fs0 !! (p ++ n :: r)) → p ++ n :: r ∈ l) → ∀ r, is_Some (fs0 !! (p ++ r)) → p ++ r ∈ l.
Proof.
  intros Hp Hs Hd Hn r Hr. destruct r as [|n r].
  - rewrite app_nil_r in Hr. by rewrite wf in Hd.
  - apply (Hn n); [|done]. apply list_elem_of_fmap. exists (n, is_dir fs (p ++ [n])). split; [done|].
    apply entries_spec. split; [|done]. exists r. rewrite (Hs (p ++ n :: r)); [done|]. eapply below_trans; [exact Hp|apply below_app].
Qed.

Definition walks (fuel : nat) : Prop := ∀ p isDir seen b, below S p = true →
  (if isDir : bool then is_dir fs0 p = true else is_Some (fs0 !! p)) →
  triple (R seen b) (walk_fuel fn fuel b p isDir) (answers F (walked p seen)) never.

(** The loop over the entries of a directory. *)
Lemma walks_entries fuel p seen b l : walks fuel → below S p = true →
  (∀ n d, (n, d) ∈ l → (∃ r, is_Some (fs0 !! (p ++ n :: r))) ∧ d = is_dir fs0 (p ++ [n])) →
  triple (R seen b) (mfold (walk_entry (walk_fuel fn fuel) p) (b, None) l)
    (answers F (fun b fs => ∃ l', seen ⊆ l' ∧ (∀ n r, n ∈ l.*1 → is_Some (fs0 !! (p ++ n :: r)) → p ++ n :: r ∈ l') ∧ R l' b fs)) never.
Proof.
  intros IH Hp. revert seen b. induction l as [|[n d] l IHl]; intros seen b Hl; cbn [mfold].
  { apply triple_ret. intros fs HR. exists seen. split; [done|]. split; [by intros n r ?%not_elem_of_nil|done]. }
  destruct (Hl n d ltac:(by left)) as [(r0 & Hr0) ->].
  assert (Hk : if is_dir fs0 (p ++ [n]) then is_dir fs0 (p ++ [n]) = true else is_Some (fs0 !! (p ++ [n]))).
  { destruct (is_dir fs0 (p ++ [n])) eqn:E; [done|]. destruct r0 as [|x r0]; [done|]. apply not_true_iff_false in E. exfalso. apply E.
    apply is_dir_spec. exists (x :: r0). split; [done|]. by rewrite <- app_assoc. }
  apply (triple_bind _ _ (answers F (walked (p ++ [n]) seen))).
  { cbn [walk_entry fst snd]. apply IH; [by apply below_in|]. by destruct (is_dir fs0 (p ++ [n])). }
  intros [b1 [e|]]; cbn [answers snd fst].
  - assert (Hstop : ∀ l, mfold (walk_entry (walk_fuel fn fuel) p) (b1, Some e) l = mret (b1, Some e)).
    { clear. induction l as [|x l IHl]; [done|]. cbn [mfold walk_entry]. exact IHl. }
    rewrite Hstop. by apply triple_ret.
  - apply triple_from. intros fs (l1 & [Hs1 Hm1] & HR). eapply triple_conseq; [apply (IHl l1 b1)| | |done].
    + intros m c Hm. apply Hl. by right.
    + by intros ? <-.
    + intros [b2 [e|]] fs2; [done|]. cbn. intros (l2 & Hs2 & Hm2 & HR2). exists l2. split; [by transitivity l1|]. split; [|done].
      intros m r [->|Hm]%elem_of_cons Hr; [|by apply Hm2]. apply Hs2. rewrite (app_assoc p [n] r : p ++ n :: r = _). apply Hm1. by rewrite <- app_assoc.
Qed.

Lemma walk_visits fuel : walks fuel.
Proof.
  induction fuel as [|fuel IH]; intros p isDir seen b Hp Hk; cbn [walk_fuel]; [apply triple_ret; intros fs HR; split; [done|by eapply R_F]|].
  destruct isDir.
  - apply (triple_bind _ _ (answers F (R seen))); [by apply on_dir|]. intros [b1 [e|]]; cbn [answers snd fst].
    + apply triple_ret. intros fs [He HF]. unfold unless_skipped. by rewrite He.
    + cbn [negb]. apply triple_from. intros fs HR. assert (Hs := R_same _ _ _ HR).
      apply (triple_bind _ _ (fun r fs' => fs' = fs ∧ match r with Ok l => l = entries_of fs p | Err x => is_SkipDir x = false end)).
      { eapply triple_conseq; [apply (triple_try_query fs _ never)|by intros ? <-| |done].
        intros r fs' [-> [->|(i & x & Hx & ->)]]; (split; [done|]); [by destruct (is_dir fs p)|by eapply no_skip]. }
      intros [l|x]; apply triple_from; intros ? [-> Hl].
      * subst l. apply (triple_bind _ _ (answers F (fun b fs' => ∃ l', seen ⊆ l' ∧
          (∀ n r, n ∈ (entries_of fs p).*1 → is_Some (fs0 !! (p ++ n :: r)) → p ++ n :: r ∈ l') ∧ R l' b fs'))).
        -- eapply triple_conseq; [apply (walks_entries fuel p seen b1 _ IH Hp)|by intros ? <-|done|done].
           intros n d [(r & Hr) ->]%entries_spec. split; [|eapply R_is_dir; [by apply below_in|exact HR]].
           exists r. rewrite <- (Hs (p ++ n :: r)); [done|]. eapply below_trans; [exact Hp|apply below_app].
        -- intros [b2 [e|]]; apply triple_ret; intros fs2; cbn; [by intros [He HF]; rewrite He|].
           intros (l' & Hl & Hm & HR2). exists l'. split; [|done]. split; [done|]. apply (met_entries p l' fs Hp Hs Hk). intros n Hn r. by apply Hm.
      * apply (triple_bind _ _ (answers F (fun _ _ => False))).
        -- eapply triple_conseq; [by apply on_err| |done|done]. intros ? <-. eapply R_F; exact HR.
        -- intros [b2 [e|]]; apply triple_ret; intros fs2; cbn; [by intros [He HF]; rewrite He|done].
  - apply (triple_bind _ _ (answers F (R (p :: seen)))); [by apply on_file|]. intros [b1 [e|]]; apply triple_ret; intros fs; cbn; [done|].
    intros HR. exists (p :: seen). split; [|done]. split; [set_solver|]. intros r Hr. destruct r as [|x r]; [rewrite app_nil_r; by left|].
    exfalso. specialize (wf p Hk). apply not_true_iff_false in wf. apply wf, is_dir_spec. by exists (x :: r).
Qed.
(** [filepath.WalkDir] of a tree that exists, and of one that does not. *)
Lemma visits_WalkDir b : triple (R [] b) (WalkDir fn b S) (answers F (walked S [])) never.
Proof.
  unfold WalkDir. apply triple_gets. intros n. apply triple_from. intros fs HR. assert (Hs := R_same _ _ _ HR).
  apply (triple_bind _ _ (fun r fs' => fs' = fs ∧ match r with
     | Ok d => if d : bool then is_dir fs0 S = true else is_Some (fs0 !! S)
     | Err x => is_SkipDir x = false
     end)).
  { eapply triple_conseq; [apply (triple_try_query fs _ never)|by intros ? <-| |done].
    intros r fs' [-> [->|(i & x & Hx & ->)]]; (split; [done|]); [|by eapply no_skip].
    assert (HSS : below S S = true) by (rewrite <- (app_nil_r S) at 2; apply below_app).
    rewrite (R_is_dir _ _ _ _ HSS HR). destruct (is_dir fs0 S) eqn:Ed; [done|]. rewrite (Hs S HSS).
    by destruct (bool_decide_reflect (is_Some (fs0 !! S))). }
  assert (HSS : below S S = true) by (rewrite <- (app_nil_r S) at 2; apply below_app).
  intros r. apply triple_from. intros ? [-> Hr]. apply (triple_bind _ _ (answers F (walked S []))).
  - destruct r as [d|x].
    + eapply triple_conseq; [apply (walk_visits _ S d [] b HSS Hr)|by intros ? <-|done|done].
    + eapply triple_conseq; [by apply on_err| |by intros [b2 [e|]] fs2|done]. intros ? <-. eapply R_F; exact HR.
  - intros [b2 [e|]]; apply triple_ret; intros fs2; cbn; [by intros [He HF]; rewrite He|done].
Qed.
End visits.

(** The walk never stops for want of fuel. *)
Section enough.
Context `{Env} {B : Type} (fn : B → fpath → bool → option err → M (B * option err)) (fs0 : files) (S : fpath).
Abbreviation same := (agrees (fun q => below S q = true) fs0).
Hypothesis keeps : ∀ b p d e, below S p = true → preserves same (fn b p d e).

Lemma walk_preserves fuel : ∀ b p d, below S p = true → preserves same (walk_fuel fn fuel b p d).
Proof.
  induction fuel as [|fuel IH]; intros b p d Hp; cbn [walk_fuel]; [apply preserves_ret|].
  apply preserves_bind; [by apply keeps|]. intros [b1 [e|]]; [apply preserves_ret|]. destruct (negb d); [apply preserves_ret|].
  apply preserves_bind; [apply preserves_try, preserves_query|]. intros [l|x].
  - apply preserves_bind; [|intros [b2 e]; apply preserves_ret]. apply preserves_mfold. intros [b2 [e|]] [n c]; [apply preserves_ret|].
    apply IH. by apply below_in.
  - apply preserves_bind; [by apply keeps|]. intros [b2 e]. apply preserves_ret.
Qed.

Lemma walk_fuel_S fuel b p d : walk_fuel fn (Datatypes.S fuel) b p d =
  ('(b, e) ← fn b p d None;
   match e with
   | Some x => mret (b, if d then unless_skipped e else e)
   | None =>
       if negb d then mret (b, None)
       else
         r ← try (os_ReadEntries p);
         match r with
         | Err x => '(b, e) ← fn b p d (Some x); mret (b, unless_skipped e)
         | Ok entries => '(b, e) ← mfold (walk_entry (walk_fuel fn fuel) p) (b, None) entries; mret (b, unless_skipped e)
         end
   end).
Proof. done. Qed.

Lemma walk_entry_preserves fuel p bs x : below S p = true → preserves same (walk_entry (walk_fuel fn fuel) p bs x).
Proof. destruct bs as [b [e|]]; [intros; apply preserves_ret|]. intros Hp. apply walk_preserves. by apply below_in. Qed.

Lemma walk_more fuel : ∀ b p d s, below S p = true → same (st_files s) → (∀ r, is_Some (fs0 !! (p ++ r)) → (length r < fuel)%nat) →
  (0 < fuel)%nat → walk_fuel fn fuel b p d s = walk_fuel fn (Datatypes.S fuel) b p d s.
Proof.
  induction fuel as [|fuel IH]; intros b p d s Hp Hs Hlen Hpos; [lia|].
  rewrite (walk_fuel_S fuel), (walk_fuel_S (Datatypes.S fuel)). apply bind_ext. intros [b1 [e|]] s1 E1; [done|].
  destruct (negb d); [done|]. pose proof (keeps b p d None Hp s Hs) as H1. rewrite E1 in H1. cbn [fst] in H1.
  rewrite !bind_run, try_run. unfold os_ReadEntries. destruct (query_run (fun fs => if is_dir fs p then Ok (entries_of fs p) else Err ErrNotExist) s1) as (r & -> & Hr).
  cbn [fst snd]. destruct r as [l|x]; [|done]. destruct Hr as [Hr|(? & _ & ?)]; [|done]. destruct (is_dir _ p); [|done]. injection Hr as ->.
  set (l := entries_of _ _). rewrite !bind_run.
  assert (Hl : ∀ n c, (n, c) ∈ l → ∃ r, is_Some (st_files s1 !! (p ++ n :: r))) by (by intros n c [? _]%entries_spec).
  enough (mfold (walk_entry (walk_fuel fn fuel) p) (b1, None) l (tick1 s1) = mfold (walk_entry (walk_fuel fn (Datatypes.S fuel)) p) (b1, None) l (tick1 s1)) as -> by done.
  apply (mfold_ext same); [intros b2 x _; by apply walk_entry_preserves| |done].
  intros [b2 [e|]] [n c] s2 (r & Hr)%Hl Hs2; [done|]. cbn [walk_entry fst snd].
  rewrite (H1 (p ++ n :: r)) in Hr by (eapply below_trans; [exact Hp|apply below_app]). pose proof (Hlen _ Hr) as Hle. cbn in Hle.
  apply IH; [by apply below_in|done| |lia]. intros r' Hr'. rewrite <- app_assoc in Hr'. apply Hlen in Hr'. cbn in Hr'. lia.
Qed.

(** More rounds change nothing. *)
Lemma WalkDir_run b s n : st_files s = fs0 → (max_depth fs0 ≤ n)%nat → WalkDir fn b S s =
  (r ← try (os_IsDir S);
   '(b, e) ← match r with Err x => fn b S false (Some x) | Ok d => walk_fuel fn (Datatypes.S (Datatypes.S n)) b S d end;
   mret (b, unless_skipped e)) s.
Proof.
  intros Hs Hn. unfold WalkDir. rewrite bind_run. unfold gets. rewrite Hs.
  assert (HSS : below S S = true) by (rewrite <- (app_nil_r S) at 2; apply below_app).
  apply bind_ext. intros r s1 E1. assert (H1 : same (st_files s1)).
  { pose proof (preserves_try same (os_IsDir S) (preserves_query _ _) s) as Hp. rewrite E1 in Hp. apply Hp. rewrite Hs. apply agrees_refl. }
  destruct r as [d|x]; [|done]. rewrite !bind_run.
  enough (Hm : ∀ n, (max_depth fs0 ≤ n)%nat → walk_fuel fn (Datatypes.S (Datatypes.S (max_depth fs0))) b S d s1 = walk_fuel fn (Datatypes.S (Datatypes.S n)) b S d s1) by (by rewrite (Hm n)).
  clear n Hn. intros n Hn. induction Hn as [|n Hn IH]; [done|]. rewrite IH. apply walk_more; [done|done| |lia].
  intros r Hr%max_depth_le. rewrite length_app in Hr. lia.
Qed.
End enough.

(** ** A walk that keeps the disk in order *)

Section walk_keeps.
Context `{Env} {B : Type} (fn : B → fpath → bool → option err → M (B * option err)) (I : files → Prop).
Hypothesis keeps : ∀ b p d e, preserves I (fn b p d e).
Lemma WalkDir_preserves b root : preserves I (WalkDir fn b root).
Proof.
  assert (Hw : ∀ fuel b p d, preserves I (walk_fuel fn fuel b p d)).
  { induction fuel as [|fuel IH]; intros b1 p d; cbn [walk_fuel]; [apply preserves_ret|].
    apply preserves_bind; [apply keeps|]. intros [b2 [e|]]; [apply preserves_ret|]. destruct (negb d); [apply preserves_ret|].
    apply preserves_bind; [apply preserves_try, preserves_query|]. intros [l|x].
    - apply preserves_bind; [|intros [b3 e]; apply preserves_ret]. apply preserves_mfold. intros [b3 [e|]] [n c]; [apply preserves_ret|]. apply IH.
    - apply preserves_bind; [apply keeps|]. intros [b3 e]. apply preserves_ret. }
  unfold WalkDir. apply preserves_bind; [apply preserves_gets|intros n]. apply preserves_bind; [apply preserves_try, preserves_query|]. intros r.
  apply preserves_bind; [|intros [b2 e]; apply preserves_ret]. destruct r; [apply Hw|apply keeps].
Qed.
End walk_keeps.
