(* ===== verification/VaultMove.v ===== *)
(** Moving a vault to another directory (internal/vaultmove): one rename where that
    works, a copy and a removal where it does not, then the settings that point at
    the old place.

    A directory is the set of files below it; an empty one is not part of the disk,
    nor are links and special files.  [FileId] is [os.SameFile] on what stands at two
    paths. *)
From S2P Require Export Trees OpenVault Profile Remotes.
Local Open Scope Z_scope.

(** [os.SameFile]: one file system object under two spellings. *)
Class FileId := { same_file : fpath → fpath → bool; same_file_refl p : same_file p p = true }.

(** ** A copy *)

Section trees.
Context `{Env}.

(** internal/vaultmove/vaultmove.go:269-285 [copyFile]; the copy may stop after a part. *)
Definition copyFile (src dst : fpath) : M unit :=
  _ ← os_Stat src;
  _ ← os_CreateNew dst;
  w ← try (data ← os_ReadFile src; os_Write dst data);
  c ← try os_Quiet;
  match w with Err e => fail e | Ok _ => lift c end.

(** internal/vaultmove/vaultmove.go:224-267 [copyDir]; the fuel is the depth of the tree. *)
Fixpoint copyDir_fuel (fuel : nat) (src dst : fpath) : M unit :=
  match fuel with
  | O => fail (ESentinel "out of fuel")
  | S f =>
      _ ← os_Stat src;
      _ ← os_MkdirAll dst;
      entries ← os_ReadEntries src;
      mfold (fun _ '(name, isDir) =>
        _ ← os_Quiet;
        if isDir : bool then copyDir_fuel f (src ++ [name]) (dst ++ [name])
        else copyFile (src ++ [name]) (dst ++ [name])) tt entries
  end.
(** internal/vaultmove/vaultmove.go:224-267 [copyDir]: as many rounds as the longest path
    has segments are enough ([copyDir_run]). *)
Definition copyDir (src dst : fpath) : M unit :=
  n ← gets (fun s => max_depth (st_files s)); copyDir_fuel (S n) src dst.

(** internal/vaultmove/vaultmove.go:201-222 [moveDir] *)
Definition moveDir (source dest : string) : M bool :=
  r ← try (os_RenameTree (os_segs source) (os_segs dest));
  match r with
  | Ok _ => mret true
  | Err _ =>
      let parent := path_dir dest in
      t ← now;
      let tmp := os_segs (path_join [parent; str_concat [".seavault-moving-"; path_base dest; "-"; itoa (unix_nano t)]]) in
      _ ← os_RemoveAll tmp;
      c ← try (copyDir (os_segs source) tmp);
      match c with
      | Err e => _ ← try (os_RemoveAll tmp); fail e
      | Ok _ =>
          m ← try (os_RenameTree tmp (os_segs dest));
          match m with
          | Err e => _ ← try (os_RemoveAll tmp); fail e
          | Ok _ =>
              d ← try (os_RemoveAll (os_segs source));
              match d with
              | Err e => fail (EWrap "copied vault to %s but could not remove original %s: " e)
              | Ok _ => mret false
              end
          end
      end
  end.
End trees.

(** ** Whether one directory may be moved to the other *)

(** The elements of a cleaned absolute path after the root. *)
Definition path_elems (p : string) : list string := if String.eqb p "/" then [] else List.tl (split_slash p).
Fixpoint strip_common (a b : list string) : list string * list string :=
  match a, b with
  | x :: a', y :: b' => if String.eqb x y then strip_common a' b' else (a, b)
  | _, _ => (a, b)
  end.
(** [filepath.Rel] of two absolute paths. *)
Definition filepath_Rel (base targ : string) : string :=
  let base := path_clean base in let targ := path_clean targ in
  if String.eqb base targ then "."
  else let '(b, t) := strip_common (path_elems base) (path_elems targ) in join_slash (map (fun _ => "..") b ++ t).
Definition leads_inside (rel : string) : bool :=
  negb (String.eqb rel ".") && negb (has_prefix rel "../") && negb (String.eqb rel "..").

(** internal/vaultmove/vaultmove.go:125-135 [validateRelationship]; both paths are absolute. *)
Definition validateRelationship (source dest : string) : result unit :=
  if leads_inside (filepath_Rel source dest) then Err (ENew "destination cannot be inside the source vault directory")
  else if leads_inside (filepath_Rel dest source) then Err (ENew "destination cannot be a parent of the source vault directory")
  else Ok tt.

(** ** The move *)

(** internal/vaultmove/vaultmove.go:21-26 [Options] *)
Record MoveOptions : Type := mkMoveOptions {
  mo_ProfileName : string; mo_Replace : bool; mo_UpdateMatchingProfiles : bool; mo_UpdateRemoteProfiles : bool }.
(** internal/vaultmove/vaultmove.go:28-36 [Result] *)
Record MoveResult : Type := mkMoveResult {
  mv_SourcePath : string; mv_DestinationPath : string; mv_Moved : bool; mv_UsedRename : bool;
  mv_UpdatedProfiles : Z; mv_UpdatedRemotes : Z; mv_Warnings : list string }.
Definition zero_MoveResult : MoveResult := mkMoveResult "" "" false false 0 0 [].
Definition add_warning (r : MoveResult) (w : string) : MoveResult :=
  mkMoveResult (mv_SourcePath r) (mv_DestinationPath r) (mv_Moved r) (mv_UsedRename r) (mv_UpdatedProfiles r) (mv_UpdatedRemotes r)
    (mv_Warnings r ++ [w]).
Definition add_profiles (r : MoveResult) (n : Z) : MoveResult :=
  mkMoveResult (mv_SourcePath r) (mv_DestinationPath r) (mv_Moved r) (mv_UsedRename r) (mv_UpdatedProfiles r + n) (mv_UpdatedRemotes r)
    (mv_Warnings r).
Definition set_remotes (r : MoveResult) (n : Z) : MoveResult :=
  mkMoveResult (mv_SourcePath r) (mv_DestinationPath r) (mv_Moved r) (mv_UsedRename r) (mv_UpdatedProfiles r) n (mv_Warnings r).

Section move.
Context `{Env} `{Platform} `{Host} `{GoUnicode} `{FileId} `{JSON VaultConfig} `{JSON LegacyID} `{JSON ProfileStore} `{JSON RemoteStore}.

(** internal/vaultmove/vaultmove.go:160-171 [ancestorIs]: one round per ancestor; a path has
    fewer than bytes. *)
Fixpoint ancestor_fuel (fuel : nat) (p : string) (target : fpath) : M bool :=
  match fuel with
  | O => mret false
  | S f =>
      r ← try (os_Stat (dir_segs p));
      if is_ok r && same_file (dir_segs p) target then mret true
      else let next := path_dir p in if String.eqb next p then mret false else ancestor_fuel f next target
  end.
(** internal/vaultmove/vaultmove.go:160-171 [ancestorIs] *)
Definition ancestorIs (path : string) (target : fpath) : M bool := ancestor_fuel (S (String.length path)) path target.

(** internal/vaultmove/vaultmove.go:111-123 [validateSource] *)
Definition validateSource (source : string) : M unit :=
  d ← try (os_IsDir (dir_segs source));
  match d with
  | Err e => fail (EWrap "source vault path is not accessible: " e)
  | Ok false => fail (ENew "source vault path %s is not a directory")
  | Ok true =>
      r ← try (ReadConfig source);
      match r with Err e => fail (EWrap "source does not look like a open-seavault-rclone vault: " e) | Ok _ => mret tt end
  end.

(** internal/vaultmove/vaultmove.go:144-156 [validateNotSameDirectory] *)
Definition validateNotSameDirectory (source dest : string) : M unit :=
  r ← try (os_Stat (dir_segs source));
  match r with
  | Err e => fail (EWrap "source vault path is not accessible: " e)
  | Ok _ =>
      a ← ancestorIs dest (dir_segs source);
      if a : bool then fail (ENew "destination is the source vault directory (or inside it) under another spelling; choose a different location")
      else
        d ← try (os_Stat (dir_segs dest));
        b ← (if is_ok d then ancestorIs source (dir_segs dest) else mret false);
        if b : bool then fail (ENew "destination is the source vault directory (or a parent of it) under another spelling; choose a different location")
        else mret tt
  end.

(** internal/vaultmove/vaultmove.go:173-199 [prepareDestination] *)
Definition prepareDestination (dest : string) (replace : bool) : M unit :=
  _ ← os_MkdirAll (os_segs (path_dir dest));
  d ← try (os_IsDir (dir_segs dest));
  match d with
  | Err e => if not_exist e then mret tt else fail e
  | Ok false => if negb replace then fail (ENew "destination %s exists and is not a directory") else os_Remove (os_segs dest)
  | Ok true =>
      entries ← os_ReadEntries (dir_segs dest);
      if negb (bool_decide (entries = [])) && negb replace
      then fail (ENew "destination %s already exists and is not empty; choose an empty path or enable replace")
      else os_RemoveAll (os_segs dest)
  end.

(** internal/vaultmove/vaultmove.go:85-107 [Move]: the settings, once the vault is moved *)
Definition update_settings (sourceAbs destAbs : string) (opts : MoveOptions) (res : MoveResult) : M MoveResult :=
  res ← (if String.eqb (mo_ProfileName opts) "" then mret res
         else r ← try (UpdatePath (mo_ProfileName opts) destAbs);
              mret (match r with
                    | Err e => add_warning res (str_concat ["vault moved, but saved vault location "; mo_ProfileName opts; " was not updated: "; err_text e])
                    | Ok _ => add_profiles res 1
                    end));
  res ← (if negb (mo_UpdateMatchingProfiles opts) then mret res
         else r ← try (UpdatePathsMatching sourceAbs destAbs);
              mret (match r with
                    | Err e => add_warning res ("vault moved, but matching saved vault locations were not updated: " +:+ err_text e)
                    | Ok n => add_profiles res n
                    end));
  (if negb (mo_UpdateRemoteProfiles opts) then mret res
   else r ← try (UpdateVaultPathMatching sourceAbs destAbs);
        mret (match r with
              | Err e => add_warning res ("vault moved, but matching remote profiles were not updated: " +:+ err_text e)
              | Ok n => set_remotes res n
              end)).

(** internal/vaultmove/vaultmove.go:51-109 [Move]; the result stands beside an error. *)
Definition Move (source destination : string) (opts : MoveOptions) : M (MoveResult * option err) :=
  p ← try (lift (a ← Abs source; b ← Abs destination; Ok (path_clean a, path_clean b)));
  match p with
  | Err e => mret (zero_MoveResult, Some e)
  | Ok (sourceAbs, destAbs) =>
      let res := mkMoveResult sourceAbs destAbs false false 0 0 [] in
      if String.eqb sourceAbs destAbs then mret (res, Some (ENew "source and destination vault paths are the same"))
      else
        r ← try (_ ← validateSource sourceAbs;
                 _ ← lift (validateRelationship sourceAbs destAbs);
                 _ ← validateNotSameDirectory sourceAbs destAbs;
                 _ ← prepareDestination destAbs (mo_Replace opts);
                 moveDir sourceAbs destAbs);
        match r with
        | Err e => mret (res, Some e)
        | Ok usedRename =>
            res ← update_settings sourceAbs destAbs opts (mkMoveResult sourceAbs destAbs true usedRename 0 0 []);
            mret (res, None)
        end
  end.

(** internal/vaultmove/vaultmove.go:38-49 [MoveProfile] *)
Definition MoveProfile (name destination : string) (opts : MoveOptions) : M (MoveResult * option err) :=
  r ← try (Resolve name);
  match r with
  | Err e => mret (zero_MoveResult, Some e)
  | Ok None => mret (zero_MoveResult, Some (ENew "saved vault %q was not found"))
  | Ok (Some entry) => Move (en_VaultPath entry) destination (mkMoveOptions name (mo_Replace opts) true (mo_UpdateRemoteProfiles opts))
  end.
End move.
