(* ===== verification/VaultMoveFacts.v ===== *)
(** A move never loses the vault: at every point where it may stop, the source or the
    destination holds all of it. *)
From S2P Require Export VaultMove TreesFacts RootPaths.
Local Open Scope Z_scope.

(** ** A tree copied *)

Section trees.
Context `{Env}.

Lemma triple_copyFile src dst fsA f0 : below dst src = false → fsA !! src = Some f0 →
  triple (only_below dst fsA) (copyFile src dst)
    (fun _ fs => only_below dst fsA fs ∧ ∃ t, fs !! dst = Some (mkFile (f_data f0) t)) (only_below dst fsA).
Proof.
  intros Hds Hsrc. assert (Hself : ¬ below dst dst = false) by (rewrite <- (app_nil_r dst) at 2; by rewrite below_app).
  unfold copyFile, os_Stat, os_CreateNew, os_Quiet.
  apply (triple_bind _ _ (fun _ => only_below dst fsA)); [apply triple_preserves, preserves_query|intros _].
  set (made x := fun fs => only_below dst fsA fs ∧ ∃ t, fs !! dst = Some (mkFile x t)).
  assert (Hmk : ∀ fs x t, only_below dst fsA fs → made x (<[dst := mkFile x t]> fs)).
  { intros fs x t Hfs. split; [by apply agrees_insert|]. rewrite lookup_insert_eq. eauto. }
  apply (triple_bind _ _ (fun _ => made [])).
  { apply triple_syscall; [done|]. intros fs t Hfs. destruct (_ || _); [done|by apply Hmk]. }
  intros _. apply (triple_bind _ _ (fun r fs => match r with Ok _ => made (f_data f0) fs | Err _ => only_below dst fsA fs end)).
  { apply triple_try, (triple_bind _ _ (fun d fs => made [] fs ∧ d = f_data f0)).
    - apply triple_from. intros fs [Hfs Ht]. eapply triple_conseq; [apply (triple_query fs _ (fun d fs' => fs' = fs ∧ d = f_data f0))| | |]; cbn.
      + intros d. rewrite (Hfs src Hds), Hsrc. intros [= <-]. done.
      + done.
      + intros d fs' [-> ->]. done.
      + by intros fs' <-.
    - intros d. intros st [[Hfs [t Ht]] ->]. unfold os_Write, append_file. rewrite Ht.
      destruct (env_fault _); cbn; [by apply agrees_insert|by apply Hmk]. }
  intros w. set (J fs := match w with Ok _ => made (f_data f0) fs | Err _ => only_below dst fsA fs end).
  apply (triple_bind _ _ (fun _ => J)).
  { apply (triple_conseq _ J _ _ (fun _ => J) _ J); [apply triple_preserves, preserves_try, preserves_query|done|done|].
    intros fs. unfold J. destruct w; [by intros [? _]|done]. }
  unfold J.
  intros c. destruct w as [u|e]; [|by apply triple_fail]. destruct c as [u'|e]; [by apply triple_ret|].
  apply triple_fail. by intros fs [? _].
Qed.

Section copying.
Context (fs0 : files).
(** No file is a directory. *)
Hypothesis wf : ∀ p, is_Some (fs0 !! p) → is_dir fs0 p = false.
Abbreviation same_below src := (agrees (fun q => below src q = true) fs0).

Lemma same_below_kept src dst fsA fs : below src dst = false → below dst src = false →
  same_below src fsA → only_below dst fsA fs → same_below src fs.
Proof. intros Hsd Hds Ha Hfs q Hq. rewrite Hfs; [by apply Ha|]. apply below_iff in Hq as [r ->]. by apply apart. Qed.
Lemma same_below_in src n fs : same_below src fs → same_below (src ++ [n]) fs.
Proof. apply agrees_weaken. intros q [r ->]%below_iff. rewrite <- app_assoc. apply below_app. Qed.

(** What the loop of [copyDir] has carried over. *)
Definition done_names (src dst : fpath) (fsA : files) (l : list string) (fs : files) : Prop :=
  only_below dst fsA fs ∧ ∀ n r f, n ∈ l → fs0 !! (src ++ n :: r) = Some f → ∃ t, fs !! (dst ++ n :: r) = Some (mkFile (f_data f) t).

Lemma done_more src dst fsA l n fs fs' : done_names src dst fsA l fs → only_below (dst ++ [n]) fs fs' →
  (∀ r f, fs0 !! (src ++ n :: r) = Some f → ∃ t, fs' !! (dst ++ n :: r) = Some (mkFile (f_data f) t)) →
  done_names src dst fsA (n :: l) fs'.
Proof.
  intros [Hfs Hd] Hf Hn. split; [eapply only_below_trans; [exact Hfs|]; eapply only_below_weaken; [apply below_app|done]|].
  intros m r f [->|Hm]%elem_of_cons Hr; [by apply Hn|]. destruct (decide (m = n)) as [->|Hmn]; [by apply Hn|].
  rewrite Hf by (by apply below_sibling). by apply (Hd m).
Qed.

Definition copies (fuel : nat) : Prop := ∀ src dst fsA, below src dst = false → below dst src = false → same_below src fsA →
  triple (only_below dst fsA) (copyDir_fuel fuel src dst) (fun _ fs => only_below dst fsA fs ∧ carried fs0 src dst fs) (only_below dst fsA).

Definition copy_entry (fuel : nat) (src dst : fpath) (e : string * bool) : M unit :=
  let '(name, isDir) := e in
  _ ← os_Quiet;
  if isDir : bool then copyDir_fuel fuel (src ++ [name]) (dst ++ [name]) else copyFile (src ++ [name]) (dst ++ [name]).

Lemma triple_copy_entry fuel src dst fsA l n : copies fuel → below src dst = false → below dst src = false → same_below src fsA →
  (∃ r, is_Some (fs0 !! (src ++ n :: r))) →
  triple (done_names src dst fsA l) (copy_entry fuel src dst (n, is_dir fs0 (src ++ [n])))
    (fun _ => done_names src dst fsA (n :: l)) (only_below dst fsA).
Proof.
  intros IH Hsd Hds Ha (r0 & f0 & Hr0). unfold copy_entry.
  apply (triple_bind _ _ (fun _ => done_names src dst fsA l)).
  { eapply triple_conseq; [apply triple_preserves, (preserves_query (done_names src dst fsA l))|done|done|by intros fs [? _]]. }
  intros _. apply triple_from. intros fs Hfs. assert (Hsame : same_below src fs) by (eapply same_below_kept; [done..|apply Hfs]).
  assert (Hend : ∀ fs', only_below (dst ++ [n]) fs fs' → only_below dst fsA fs').
  { intros fs' Hf. eapply only_below_trans; [apply Hfs|]. eapply only_below_weaken; [apply below_app|done]. }
  destruct (is_dir fs0 (src ++ [n])) eqn:Ed.
  - eapply triple_conseq; [apply (IH (src ++ [n]) (dst ++ [n]) fs)| | |].
    + by apply apart_app.
    + by apply apart_app.
    + by apply same_below_in.
    + intros ? <-. apply agrees_refl.
    + intros _ fs' [Hf Hc]. apply (done_more src dst fsA l n fs); [done|done|]. intros r f Hr.
      destruct r as [|x r]; [by rewrite wf in Ed by eauto|]. specialize (Hc (x :: r) f ltac:(done)). rewrite <- !app_assoc in Hc. by apply Hc.
    + exact Hend.
  - assert (Hnil : ∀ r f, fs0 !! (src ++ n :: r) = Some f → r = []).
    { intros r f Hr. destruct r as [|x r]; [done|]. exfalso. apply not_true_iff_false in Ed. apply Ed, is_dir_spec.
      exists (x :: r). split; [done|]. rewrite <- app_assoc. eauto. }
    assert (r0 = []) as -> by eauto.
    eapply triple_conseq; [apply (triple_copyFile (src ++ [n]) (dst ++ [n]) fs f0)| | |].
    + by apply apart_app.
    + rewrite (Hsame (src ++ [n])) by apply below_app. done.
    + intros ? <-. apply agrees_refl.
    + intros _ fs' [Hf Hc]. apply (done_more src dst fsA l n fs); [done|done|]. intros r f Hr.
      assert (r = []) as -> by eauto. rewrite Hr in Hr0. by injection Hr0 as ->.
    + exact Hend.
Qed.

Lemma triple_copyDir fuel : copies fuel.
Proof.
  induction fuel as [|fuel IH]; intros src dst fsA Hsd Hds Ha; cbn [copyDir_fuel]; [by apply triple_fail|].
  unfold os_Stat, os_MkdirAll, os_ReadEntries.
  do 2 (apply (triple_bind _ _ (fun _ => only_below dst fsA)); [apply triple_preserves, preserves_query|intros _]).
  apply triple_from. intros fs Hfs. assert (Hsame : same_below src fs) by (eapply same_below_kept; done).
  apply (triple_bind _ _ (fun l fs' => fs' = fs ∧ l = entries_of fs src)).
  { eapply triple_conseq; [apply (triple_query fs _ (fun l fs' => fs' = fs ∧ l = entries_of fs src))|done|done|by intros ? <-].
    intros l. by destruct (is_dir fs src); [intros [= <-]|]. }
  intros entries. apply triple_from. intros ? [-> ->].
  assert (Hall : ∀ n b, (n, b) ∈ entries_of fs src → (∃ r, is_Some (fs0 !! (src ++ n :: r))) ∧ b = is_dir fs0 (src ++ [n])).
  { intros n b [(r & Hr) ->]%entries_spec. split; [exists r; by rewrite <- (Hsame (src ++ n :: r)) by apply below_app|].
    apply is_dir_agrees. by apply same_below_in. }
  assert (Hloop : ∀ l seen, (∀ n b, (n, b) ∈ l → (∃ r, is_Some (fs0 !! (src ++ n :: r))) ∧ b = is_dir fs0 (src ++ [n])) →
    triple (done_names src dst fsA seen) (mfold (fun _ => copy_entry fuel src dst) tt l)
      (fun _ => done_names src dst fsA (rev (map fst l) ++ seen)) (only_below dst fsA)).
  { induction l as [|[n b] l IHl]; intros seen Hl; cbn [mfold map rev]; [by apply triple_ret|].
    destruct (Hl n b ltac:(by left)) as [Hn ->].
    apply (triple_bind _ _ (fun _ => done_names src dst fsA (n :: seen))); [by apply triple_copy_entry|]. intros [].
    rewrite <- app_assoc. apply IHl. intros m c Hm. apply Hl. by right. }
  eapply triple_conseq; [apply (Hloop (entries_of fs src) [] Hall)| | |done].
  - intros ? <-. split; [done|]. intros n r f Hn. by apply not_elem_of_nil in Hn.
  - intros _ fs' [Hf Hd]. split; [done|]. intros [|n r] f Hne Hr; [done|]. apply (Hd n r f); [|done].
    rewrite app_nil_r, list_elem_of_In, <- in_rev, <- list_elem_of_In. apply list_elem_of_fmap.
    exists (n, is_dir fs (src ++ [n])). split; [done|]. apply entries_spec. split; [|done].
    exists r. rewrite (Hsame (src ++ n :: r)) by apply below_app. eauto.
Qed.
End copying.

(** ** The fuel of a copy is enough *)

Lemma CreateNew_agrees (P : fpath → Prop) fs0 p : ¬ P p → preserves (agrees P fs0) (os_CreateNew p).
Proof. intros Hp. apply preserves_syscall. intros fs t Hs. destruct (_ || _); [done|by apply agrees_insert]. Qed.
Lemma copyFile_agrees (P : fpath → Prop) fs0 src dst : ¬ P dst → preserves (agrees P fs0) (copyFile src dst).
Proof.
  intros Hd. unfold copyFile, os_Stat, os_ReadFile, os_Quiet. apply preserves_bind; [apply preserves_query|intros _].
  apply preserves_bind; [by apply CreateNew_agrees|intros _].
  apply preserves_bind; [apply preserves_try, preserves_bind; [apply preserves_query|intros d; by apply Write_agrees]|]. intros w.
  apply preserves_bind; [apply preserves_try, preserves_query|]. intros c. destruct w; [apply preserves_lift|apply preserves_fail].
Qed.
Lemma copyDir_agrees (P : fpath → Prop) fs0 fuel : ∀ src dst, (∀ q, P q → below dst q = false) → preserves (agrees P fs0) (copyDir_fuel fuel src dst).
Proof.
  induction fuel as [|fuel IH]; intros src dst HP; cbn [copyDir_fuel]; [apply preserves_fail|]. unfold os_Stat, os_MkdirAll, os_ReadEntries, os_Quiet.
  do 2 (apply preserves_bind; [apply preserves_query|intros _]). apply preserves_bind; [apply preserves_query|]. intros l.
  apply preserves_mfold. intros _ [n b]. apply preserves_bind; [apply preserves_query|intros _]. destruct b.
  - apply IH. intros q Hq. apply not_true_is_false. intros Hb. specialize (HP q Hq). apply (below_trans dst) in Hb; [congruence|apply below_app].
  - apply copyFile_agrees. intros Hq%HP. by rewrite below_app in Hq.
Qed.

Lemma copyDir_fuel_S fuel src dst : copyDir_fuel (S fuel) src dst =
  (_ ← os_Stat src; _ ← os_MkdirAll dst; entries ← os_ReadEntries src; mfold (fun _ => copy_entry fuel src dst) tt entries).
Proof. done. Qed.
Lemma copyDir_more fuel : ∀ src dst s, below src dst = false → below dst src = false →
  (∀ r, is_Some (st_files s !! (src ++ r)) → (length r ≤ fuel)%nat) →
  copyDir_fuel (S fuel) src dst s = copyDir_fuel (S (S fuel)) src dst s.
Proof.
  induction fuel as [|fuel IH]; intros src dst s Hsd Hds Hlen;
    rewrite (copyDir_fuel_S _ src dst), (copyDir_fuel_S (S _) src dst);
    apply bind_ext; intros _ s1 [E1 _]%query_ok; apply bind_ext; intros _ s2 [E2 _]%query_ok; apply bind_ext;
    intros l s3 [E3 El]%query_ok; (destruct (is_dir (st_files s2) src) eqn:Ed; [|done]);
    assert (Hs : st_files s2 = st_files s) by congruence; rewrite Hs in *.
  { apply is_dir_spec in Ed as (r & Hr & Hr'). apply Hlen in Hr'. destruct r; [done|cbn in Hr'; lia]. }
  apply (mfold_ext (agrees (fun q => below src q = true) (st_files s))); [| |by rewrite E3].
  - intros _ [n b] _. unfold copy_entry. apply preserves_bind; [apply preserves_query|intros _].
    assert (Hq : ∀ q, below src q = true → below (dst ++ [n]) q = false).
    { intros q [r ->]%below_iff. by apply apart_app. }
    destruct b; [by apply copyDir_agrees|]. apply copyFile_agrees. intros Hb%Hq. rewrite <- (app_nil_r (dst ++ [n])) in Hb at 2. by rewrite below_app in Hb.
  - intros _ [n b] s4 _ Hs4. unfold copy_entry. apply bind_ext. intros _ s5 [E5 _]%query_ok. destruct b; [|done].
    apply IH; [by apply apart_app..|]. intros r Hr. rewrite E5, <- app_assoc, Hs4 in Hr by apply below_app. apply Hlen in Hr. cbn in Hr. lia.
Qed.

(** More rounds than the depth of the disk change nothing: the bound in [copyDir] is
    never what stops it. *)
Lemma copyDir_run src dst s n : below src dst = false → below dst src = false → (max_depth (st_files s) ≤ n)%nat →
  copyDir_fuel (S n) src dst s = copyDir src dst s.
Proof.
  intros Hsd Hds Hn. unfold copyDir. rewrite bind_run. unfold gets. induction Hn as [|n Hn IH]; [done|].
  rewrite <- IH. symmetry. apply copyDir_more; [done|done|]. intros r Hr%max_depth_le. rewrite length_app in Hr. lia.
Qed.
End trees.

(** ** The directory moved *)

Lemma triple_try_bind {A B} (P : files → Prop) (m : M A) (Q : A → files → Prop) (E : files → Prop) (f : result A → M B) Q' E' :
  triple P m Q E → (∀ r, triple (fun fs => match r with Ok a => Q a fs | Err _ => E fs end) (f r) Q' E') →
  triple P (try m ≫= f) Q' E'.
Proof. intros Hm Hf. eapply triple_bind; [by apply (triple_try P m Q E)|exact Hf]. Qed.

Definition moving_path (dest : string) (t : Z) : fpath :=
  os_segs (path_join [path_dir dest; str_concat [".seavault-moving-"; path_base dest; "-"; itoa (unix_nano t)]]).

Section moved.
Context `{Env} (source dest : string) (fs0 : files).
Abbreviation S := (os_segs source).
Abbreviation D := (os_segs dest).
Abbreviation T := (moving_path dest).
Hypothesis wf : ∀ p, is_Some (fs0 !! p) → is_dir fs0 p = false.
Hypothesis SD : below S D = false.
Hypothesis DS : below D S = false.
Hypothesis TS : ∀ t, below (T t) S = false ∧ below S (T t) = false.
Hypothesis TD : ∀ t, below (T t) D = false ∧ below D (T t) = false.
Hypothesis S_some : S ≠ [].

(** The files a move may touch are those of the two directories and of the
    temporary one. *)
Definition elsewhere (q : fpath) : Prop := below S q = false ∧ below D q = false ∧ ∀ t, below (T t) q = false.
Definition intact_or_carried (fs : files) : Prop := agrees (fun q => below S q = true) fs0 fs ∨ carried fs0 S D fs.
Definition unharmed (fs : files) : Prop := agrees elsewhere fs0 fs.

Lemma elsewhere_not a : (∀ q, below a q = true → ¬ elsewhere q) → ∀ fs fs', unharmed fs → only_below a fs fs' → unharmed fs'.
Proof.
  intros Ha fs fs' Hk Ho q Hq. rewrite Ho; [by apply Hk|]. apply not_true_is_false. intros Hb. by apply (Ha q).
Qed.
Lemma T_not t q : below (T t) q = true → ¬ elsewhere q.
Proof. intros Hb (_ & _ & Ht). specialize (Ht t). congruence. Qed.
Lemma S_not q : below S q = true → ¬ elsewhere q.
Proof. intros Hb (Hs & _). congruence. Qed.
Lemma D_not q : below D q = true → ¬ elsewhere q.
Proof. intros Hb (_ & Hd & _). congruence. Qed.
Lemma same_kept a fs fs' : below a S = false → below S a = false → agrees (fun q => below S q = true) fs0 fs → only_below a fs fs' →
  agrees (fun q => below S q = true) fs0 fs'.
Proof. intros H1 H2 Hs Ho q Hq. rewrite Ho; [by apply Hs|]. apply below_iff in Hq as [r ->]. by apply apart. Qed.

Lemma triple_RemoveAll_in a fs : triple (eq fs) (os_RemoveAll a) (fun _ => only_below a fs) (only_below a fs).
Proof. apply triple_keep; [by apply RemoveAll_agrees|]. intros ? <-. apply agrees_refl. Qed.
Definition gone (fs : files) : Prop := honest → ∀ q, below S q = true → fs !! q = None.
Lemma triple_RemoveAll_gone fs : triple (eq fs) (os_RemoveAll S) (fun _ fs' => only_below S fs fs' ∧ gone fs') (only_below S fs).
Proof.
  intros s Hs. pose proof (triple_RemoveAll_in S fs s Hs) as Ht. destruct (os_RemoveAll S s) as [s' [[]|e]] eqn:E; [|done].
  split; [done|]. intros Hh. by apply (RemoveAll_removes S s s').
Qed.

(** Once the copy in the temporary directory is complete. *)
Lemma triple_publish t fs : is_dir fs0 S = true → unharmed fs → agrees (fun q => below S q = true) fs0 fs → carried fs0 S (T t) fs →
  triple (eq fs)
    (m ← try (os_RenameTree (T t) D);
     match m with
     | Err e => _ ← try (os_RemoveAll (T t)); fail e
     | Ok _ =>
         d ← try (os_RemoveAll S);
         match d with
         | Err e => fail (EWrap "copied vault to %s but could not remove original %s: " e)
         | Ok _ => mret false
         end
     end)
    (fun _ fs' => unharmed fs' ∧ carried fs0 S D fs' ∧ gone fs') (fun fs' => unharmed fs' ∧ intact_or_carried fs').
Proof.
  intros Hd Hk Hs Hc. destruct (TS t) as [TS1 TS2]. destruct (TD t) as [TD1 TD2].
  assert (Htd : is_dir fs (T t) = true).
  { apply is_dir_spec in Hd as (r & Hr & [f Hf]). apply is_dir_spec. exists r. split; [done|].
    destruct (Hc r f Hr Hf) as [tm E]. eauto. }
  assert (Hne : T t ≠ []) by (intros E; rewrite E in TS1; unfold below in TS1; cbn in TS1; done).
  eapply triple_try_bind; [apply (triple_RenameTree (T t) D fs); [done|done|done]|].
  intros [u|e]; apply triple_from; intros fs1; cbv beta iota.
  - intros (HD & HT & Ho). assert (Hk1 : unharmed fs1).
    { intros q Hq. rewrite Ho; [by apply Hk|apply Hq|apply Hq]. }
    assert (Hs1 : agrees (fun q => below S q = true) fs0 fs1).
    { intros q Hq. pose proof Hq as [r ->]%below_iff. rewrite Ho; [by apply Hs|by apply apart..]. }
    assert (Hc1 : carried fs0 S D fs1).
    { intros r f Hr Hf. rewrite HD. by apply Hc. }
    assert (Hgone : ∀ fs2, only_below S fs1 fs2 → unharmed fs2 ∧ carried fs0 S D fs2).
    { intros fs2 H2. split; [by apply (elsewhere_not S S_not fs1)|]. intros r f Hr Hf. rewrite H2 by (by apply apart). by apply Hc1. }
    eapply triple_try_bind; [apply triple_RemoveAll_gone|].
    intros [u'|e]; [apply triple_ret; intros fs2 [[Hk2 Hc2]%Hgone Hg2]; done|]. apply triple_fail. intros fs2 H2%Hgone. split; [apply H2|right; apply H2].
  - intros <-. eapply triple_try_bind; [apply triple_RemoveAll_in|].
    intros r. apply triple_fail. intros fs2 H2. assert (Ho2 : only_below (T t) fs fs2) by (by destruct r).
    split; [by apply (elsewhere_not (T t) (T_not t) fs)|left; by apply (same_kept (T t) fs)].
Qed.

Lemma triple_moveDir : is_dir fs0 S = true →
  triple (fun fs => unharmed fs ∧ agrees (fun q => below S q = true) fs0 fs) (moveDir source dest)
    (fun _ fs => unharmed fs ∧ carried fs0 S D fs ∧ gone fs) (fun fs => unharmed fs ∧ intact_or_carried fs).
Proof.
  intros Hd. apply triple_from. intros fs [Hk Hs]. unfold moveDir.
  assert (Hdir : is_dir fs S = true) by (by rewrite (is_dir_agrees S fs0 fs)).
  eapply triple_try_bind; [apply (triple_RenameTree S D fs); done|].
  intros [u|e]; apply triple_from; intros fs1; cbv beta iota.
  { intros (HD & HS & Ho). apply triple_ret. intros ? <-. split.
    - intros q Hq. rewrite Ho; [by apply Hk|apply Hq|apply Hq].
    - split; [apply carried_self; intros r Hr; rewrite HD; apply Hs, below_app|].
      intros _ q Hq. apply HS; [done|]. apply below_iff in Hq as [r ->]. by apply apart. }
  intros <-. cbv zeta. apply triple_now. intros k. set (t := env_clock k). fold (moving_path dest t).
  destruct (TS t) as [TS1 TS2].
  assert (Hstill : ∀ fs', only_below (T t) fs fs' → unharmed fs' ∧ agrees (fun q => below S q = true) fs0 fs').
  { intros fs' Ho. split; [by apply (elsewhere_not (T t) (T_not t) fs)|by apply (same_kept (T t) fs)]. }
  apply (triple_bind _ _ (fun _ => only_below (T t) fs)).
  { eapply triple_conseq; [apply triple_RemoveAll_in|done|done|]. intros fs' [? ?]%Hstill. split; [done|by left]. }
  intros _. apply triple_from. intros fs1 H1. destruct (Hstill fs1 H1) as [Hk1 Hs1].
  assert (Hcopy : triple (only_below (T t) fs1) (copyDir S (T t))
    (fun _ fs => only_below (T t) fs1 fs ∧ carried fs0 S (T t) fs) (only_below (T t) fs1)).
  { unfold copyDir. intros st Hst. rewrite bind_run. unfold gets. by apply (triple_copyDir fs0 wf _ S (T t) fs1). }
  eapply triple_try_bind; [eapply triple_conseq; [apply Hcopy| |done|done]|].
  { intros ? <-. apply agrees_refl. }
  assert (Hafter : ∀ fs', only_below (T t) fs1 fs' → only_below (T t) fs fs') by (intros fs' H2; by eapply only_below_trans).
  intros [u'|e'].
  - apply triple_from. intros fs2 [H2 Hc2]. destruct (Hstill fs2 (Hafter fs2 H2)) as [Hk2 Hs2]. by apply triple_publish.
  - apply triple_from. intros fs2 H2. eapply triple_try_bind; [apply triple_RemoveAll_in|].
    intros r. apply triple_fail. intros fs3 H3. assert (Ho3 : only_below (T t) fs2 fs3) by (by destruct r).
    destruct (Hstill fs3) as [Hk3 Hs3]; [|split; [done|by left]]. eapply only_below_trans; [by apply Hafter|done].
Qed.
End moved.
