(* ===== verification/VaultMoveProps.v ===== *)
(** What a whole [Move] leaves behind: everything the vault held, at the old place or
    at the new one. *)
From S2P Require Export VaultMoveFacts SettingsFacts Fields UserPathFacts.
Local Open Scope Z_scope.

(** ** Which directories are apart *)

Lemma path_elems_at l : Forall plain_seg l → l ≠ [] → path_elems (at_root l []) = l.
Proof.
  intros Hl Hne. unfold path_elems. destruct (String.eqb_spec (at_root l []) "/") as [E|_].
  - apply (f_equal split_slash) in E. change (split_slash (at_root l [])) with (os_segs (at_root l [])) in E.
    rewrite (segs_at l Hl Hne), app_nil_r in E by done. injection E as E. destruct Hl as [|x l Hx]; [done|]. by destruct Hx as (Hx & _); injection E.
  - change (split_slash ?s) with (os_segs s). rewrite (segs_at l Hl Hne) by done. by rewrite app_nil_r.
Qed.
Lemma dir_segs_at l : Forall plain_seg l → l ≠ [] → dir_segs (at_root l []) = "" :: l.
Proof.
  intros Hl Hne. pose proof (path_elems_at l Hl Hne) as Hp. unfold path_elems in Hp. unfold dir_segs.
  destruct (String.eqb _ "/"); [by subst l|]. by rewrite (segs_at l Hl Hne), app_nil_r.
Qed.
Lemma clean_at l : Forall plain_seg l → l ≠ [] → path_clean (at_root l []) = at_root l [].
Proof. intros. unfold at_root. rewrite app_nil_r. by apply clean_abs. Qed.
Lemma strip_common_app l r : strip_common l (l ++ r) = ([], r).
Proof. induction l as [|x l IH]; [by destruct r|]. cbn. by rewrite String.eqb_refl. Qed.
Lemma at_root_inj l l' : Forall plain_seg l → l ≠ [] → Forall plain_seg l' → l' ≠ [] → at_root l [] = at_root l' [] → l = l'.
Proof. intros ? ? ? ? E. by rewrite <- (path_elems_at l), <- (path_elems_at l'), E. Qed.

(** A plain relative path leads inside. *)
Lemma plain_leads_inside r : Forall plain_seg r → r ≠ [] → leads_inside (join_slash r) = true.
Proof.
  intros Hr Hne. unfold leads_inside. pose proof (split_join r Hne (plain_no_slash r Hr)) as Hs.
  inversion Hr as [|x r' (_ & H1 & H2 & _) _ E]; subst r; [done|]. rewrite !andb_true_iff, !negb_true_iff. repeat split.
  - apply String.eqb_neq. intros E. rewrite E in Hs. by injection Hs as <-.
  - apply not_true_is_false. intros [t E]%has_prefix_inv. rewrite E in Hs. change ("../" +:+ t) with (".." +:+ String slash t) in Hs.
    rewrite split_slash_app in Hs by done. by injection Hs as <-.
  - apply String.eqb_neq. intros E. rewrite E in Hs. by injection Hs as <-.
Qed.

Lemma not_inside Sg r : Forall plain_seg Sg → Sg ≠ [] → Forall plain_seg r → r ≠ [] →
  leads_inside (filepath_Rel (at_root Sg []) (at_root (Sg ++ r) [])) = true.
Proof.
  intros HS HSn Hr Hrn. assert (Ha : Forall plain_seg (Sg ++ r)) by (by rewrite Forall_app).
  assert (Hn : Sg ++ r ≠ []) by (by destruct Sg). unfold filepath_Rel. rewrite !clean_at by done.
  destruct (String.eqb_spec (at_root Sg []) (at_root (Sg ++ r) [])) as [E|_].
  - apply at_root_inj in E; [|done..]. destruct r; [done|]. apply (f_equal length) in E. rewrite length_app in E. cbn in E. lia.
  - rewrite !path_elems_at, strip_common_app by done. by apply plain_leads_inside.
Qed.
Lemma relationship_apart Sg Dg : Forall plain_seg Sg → Sg ≠ [] → Forall plain_seg Dg → Dg ≠ [] → at_root Sg [] ≠ at_root Dg [] →
  validateRelationship (at_root Sg []) (at_root Dg []) = Ok tt → below ("" :: Sg) ("" :: Dg) = false ∧ below ("" :: Dg) ("" :: Sg) = false.
Proof.
  intros HS HSn HD HDn Hne. unfold validateRelationship.
  assert (Hin : ∀ a b, Forall plain_seg a → a ≠ [] → Forall plain_seg b → at_root a [] ≠ at_root b [] →
    below ("" :: a) ("" :: b) = true → leads_inside (filepath_Rel (at_root a []) (at_root b [])) = true).
  { intros a b Ha Han Hb Hab [r E]%below_iff. injection E as ->. apply Forall_app in Hb as [_ Hb]. apply not_inside; [done..|].
    intros ->. by rewrite app_nil_r in Hab. }
  intros Hok. split; apply not_true_is_false; intros Hb.
  - apply Hin in Hb; auto. by rewrite Hb in Hok.
  - apply Hin in Hb; auto. rewrite Hb in Hok. by destruct (leads_inside _).
Qed.

(** ** The whole move *)

Section move.
Context `{Env} `{Platform} `{Host} `{GoUnicode} `{FileId} `{JSON VaultConfig} `{JSON LegacyID} `{JSON ProfileStore} `{JSON RemoteStore}.

Lemma ReadConfig_reads fs0 root : preserves (eq fs0) (ReadConfig root).
Proof. unfold ReadConfig, readCapped, ResolveMetaDir, probe_name, os_Stat, os_ReadFile. keep. Qed.
Lemma ancestorIs_reads fs0 p t : preserves (eq fs0) (ancestorIs p t).
Proof.
  unfold ancestorIs. generalize (Datatypes.S (String.length p)) as n. intros n. revert p.
  induction n as [|n IH]; intros p; cbn [ancestor_fuel]; [keep|]. unfold os_Stat. keep.
Qed.
Lemma validateNotSame_reads fs0 a b : preserves (eq fs0) (validateNotSameDirectory a b).
Proof. pose proof (ancestorIs_reads fs0). unfold validateNotSameDirectory, os_Stat. keep. Qed.

Lemma triple_validateSource fs0 source :
  triple (eq fs0) (validateSource source) (fun _ fs => fs0 = fs ∧ is_dir fs0 (dir_segs source) = true) (eq fs0).
Proof.
  unfold validateSource, os_IsDir. apply (triple_bind _ _ (fun r fs => fs0 = fs ∧ (r = Ok true → is_dir fs0 (dir_segs source) = true))).
  { eapply triple_conseq.
    - apply triple_try, (triple_query fs0 _ (fun b fs => fs0 = fs ∧ (b = true → is_dir fs0 (dir_segs source) = true))).
      intros b Hb. split; [done|]. intros ->. destruct (is_dir fs0 (dir_segs source)); [done|]. by destruct (bool_decide _).
    - done.
    - intros [b|e] fs; [|done]. intros [? Hb]. split; [done|]. intros [= ->]. by apply Hb.
    - done. }
  intros r. apply triple_from. intros fs [<- Hd]. destruct r as [[]|e]; [|by apply triple_fail; intros ? <-..].
  apply (triple_bind _ _ (fun _ => eq fs0)).
  { eapply triple_conseq; [apply triple_preserves, preserves_try, (ReadConfig_reads fs0)|done|done|done]. }
  intros [c|e]; [apply triple_ret; intros ? <-; auto|by apply triple_fail].
Qed.

Lemma prepareDestination_agrees (P : fpath → Prop) fs0 dest replace : dir_segs dest = os_segs dest →
  (∀ q, P q → below (os_segs dest) q = false) → preserves (agrees P fs0) (prepareDestination dest replace).
Proof.
  intros Hd HP. unfold prepareDestination, os_MkdirAll, os_IsDir, os_ReadEntries.
  assert (Hs : ¬ P (os_segs dest)).
  { intros Hp%HP. by rewrite <- (app_nil_r (os_segs dest)) in Hp at 2; rewrite below_app in Hp. }
  pose proof (RemoveAll_agrees P fs0 (os_segs dest) HP). pose proof (Remove_agrees P fs0 (os_segs dest) Hs). keep.
Qed.
Lemma update_settings_agrees (P : fpath → Prop) fs0 conf a b opts res : ConfigDir = Ok (at_root conf []) → Forall plain_seg conf → conf ≠ [] →
  (∀ names, ¬ P ("" :: conf ++ names)) → preserves (agrees P fs0) (update_settings a b opts res).
Proof.
  intros Hc Hp Hn Ho. pose proof (UpdatePath_agrees P fs0 conf Hc Hp Hn Ho). pose proof (UpdatePathsMatching_agrees P fs0 conf Hc Hp Hn Ho).
  pose proof (UpdateVaultPathMatching_agrees P fs0 conf Hc Hp Hn Ho). unfold update_settings. keep.
Qed.

Lemma update_settings_moves a b opts res s : match (update_settings a b opts res s).2 with Ok r => mv_Moved r = mv_Moved res | Err _ => False end.
Proof.
  unfold update_settings. rewrite bind_run. set (m1 := if String.eqb _ _ then _ else _ : M MoveResult). assert (H1' : ∃ s1 r1, m1 s = (s1, Ok r1) ∧ mv_Moved r1 = mv_Moved res).
  { unfold m1. destruct (String.eqb _ _); [by exists s, res|]. rewrite bind_run, try_run. destruct (UpdatePath _ _ s) as [s1 [x|e]]; cbn; eauto. }
  destruct H1' as (s1 & r1 & -> & <-). rewrite bind_run. set (m2 := if negb (mo_UpdateMatchingProfiles opts) then _ else _ : M MoveResult).
  assert (H2' : ∃ s2 r2, m2 s1 = (s2, Ok r2) ∧ mv_Moved r2 = mv_Moved r1).
  { unfold m2. destruct (negb _); [by exists s1, r1|]. rewrite bind_run, try_run. destruct (UpdatePathsMatching _ _ s1) as [s2 [x|e]]; cbn; eauto. }
  destruct H2' as (s2 & r2 & -> & <-). clear m1 m2. destruct (negb (mo_UpdateRemoteProfiles opts)); [reflexivity|]. rewrite bind_run, try_run. by destruct (UpdateVaultPathMatching _ _ s2) as [s3 [x|e]].
Qed.

(** The directory a copy is made in, beside the destination. *)
Definition moving_name (name : string) (t : Z) : string := str_concat [".seavault-moving-"; name; "-"; itoa (unix_nano t)].
Lemma moving_name_plain name t : no_slash name = true → plain_seg (moving_name name t).
Proof.
  intros Hn. unfold moving_name. change (str_concat [?a; ?b; ?c; ?d]) with (a +:+ (b +:+ (c +:+ d))). repeat split; try done.
  rewrite !no_slash_app, Hn, itoa_no_slash. done.
Qed.
Lemma moving_path_at Dg name t : Forall plain_seg Dg → Dg ≠ [] → plain_seg name →
  moving_path (at_root Dg [name]) t = "" :: Dg ++ [moving_name name t].
Proof.
  intros HD HDn Hn. unfold moving_path. rewrite path_dir_at, path_base_at by done. fold (moving_name name t).
  assert (Hm : plain_seg (moving_name name t)) by (apply moving_name_plain, Hn).
  rewrite (join_at Dg HD HDn [moving_name name t]) by (done || by repeat (constructor; [done|])). rewrite segs_at; [done..|]. by constructor.
Qed.

(** ** The theorem *)

Section relocation.
Context (Sg Dg conf : list string) (name : string).
Abbreviation src := (at_root Sg []).
Abbreviation dst := (at_root Dg [name]).
Abbreviation S := ("" :: Sg).
Abbreviation D := ("" :: Dg ++ [name]).
Abbreviation C := ("" :: conf).
Hypothesis S_plain : Forall plain_seg Sg.
Hypothesis S_some : Sg ≠ [].
Hypothesis D_plain : Forall plain_seg Dg.
Hypothesis D_some : Dg ≠ [].
Hypothesis name_plain : plain_seg name.
Hypothesis conf_dir : ConfigDir = Ok (at_root conf []).
Hypothesis conf_plain : Forall plain_seg conf.
Hypothesis conf_some : conf ≠ [].
(** The settings are unharmed away from both directories, and the vault does not lie in
    a directory that a move to [dst] would use for its copy. *)
Definition apart_from_settings : Prop :=
  (below C S = false ∧ below S C = false) ∧ (below C D = false ∧ below D C = false) ∧
  ∀ t, below ("" :: Dg ++ [moving_name name t]) S = false.
Hypothesis settings_apart : apart_from_settings.

(** The files a move has no business with. *)
Definition bystander (q : fpath) : Prop :=
  below S q = false ∧ below D q = false ∧ below C q = false ∧ ∀ t, below ("" :: Dg ++ [moving_name name t]) q = false.

Lemma dst_app : dst = at_root (Dg ++ [name]) [].
Proof. unfold at_root. by rewrite app_nil_r. Qed.
Lemma dst_plain : Forall plain_seg (Dg ++ [name]).
Proof. rewrite Forall_app. split; [done|by constructor]. Qed.
Lemma dst_some : Dg ++ [name] ≠ [].
Proof. by destruct Dg. Qed.
Lemma src_segs : os_segs src = S.
Proof. by rewrite segs_at, app_nil_r. Qed.
Lemma dst_segs : os_segs dst = D.
Proof. apply segs_at; [done..|by constructor]. Qed.
Lemma moving_apart t : below S D = false → below (moving_path dst t) S = false ∧ below S (moving_path dst t) = false.
Proof.
  intros HSD. rewrite moving_path_at by done. destruct settings_apart as (_ & _ & Ht). split; [apply Ht|].
  apply not_true_is_false. intros [r E]%below_iff. injection E as E. destruct (decide (r = [])) as [->|Hr].
  - rewrite app_nil_r in E. specialize (Ht t). rewrite E in Ht. pose proof (below_app S []) as Hself. rewrite app_nil_r in Hself. congruence.
  - destruct (exists_last Hr) as (r' & x & ->). rewrite app_assoc in E. apply app_inj_tail in E as [E _].
    assert (Hb : below S D = true) by (apply below_iff; exists (r' ++ [name]); rewrite E; cbn; by rewrite <- app_assoc). congruence.
Qed.
Lemma sibling_apart t : below (moving_path dst t) D = false ∧ below D (moving_path dst t) = false.
Proof.
  rewrite moving_path_at by done.
  assert (Hne : moving_name name t ≠ name).
  { intros E. apply (f_equal String.length) in E. unfold moving_name in E. change (str_concat [?a; ?b; ?c; ?d]) with (a +:+ (b +:+ (c +:+ d))) in E.
    rewrite !str_length_app in E. cbn in E. lia. }
  split; apply not_true_is_false; intros [r E]%below_iff; injection E as E; rewrite <- app_assoc in E; apply app_inv_head in E; by injection E.
Qed.

Definition whole (fs : files) : Prop := ∀ p, is_Some (fs !! p) → is_dir fs p = false.
Definition at_source (fs0 fs : files) : Prop := agrees (fun q => below S q = true) fs0 fs.
(** What a move may leave: bystanders are untouched; with no error all is at the
    destination and the source is gone; with one, the vault is still whole at one of
    the two. *)
Definition safe_end (fs0 : files) (r : MoveResult * option err) (fs : files) : Prop :=
  agrees bystander fs0 fs ∧
  match r.2 with
  | None => mv_Moved r.1 = true ∧ carried fs0 S D fs ∧ (honest → ∀ q, below S q = true → fs !! q = None)
  | Some _ => at_source fs0 fs ∨ carried fs0 S D fs
  end.

Lemma safe_unchanged fs0 r e : safe_end fs0 (r, Some e) fs0.
Proof. split; [apply agrees_refl|]. left. apply agrees_refl. Qed.

Lemma triple_relocate fs0 opts : whole fs0 → src ≠ dst →
  triple (eq fs0) (_ ← validateSource src; _ ← lift (validateRelationship src dst); _ ← validateNotSameDirectory src dst;
                   _ ← prepareDestination dst (mo_Replace opts); moveDir src dst)
    (fun _ fs => agrees bystander fs0 fs ∧ carried fs0 S D fs ∧ (honest → ∀ q, below S q = true → fs !! q = None))
    (fun fs => agrees bystander fs0 fs ∧ (at_source fs0 fs ∨ carried fs0 S D fs)).
Proof.
  intros wf Hne. assert (Hstay : ∀ fs, fs0 = fs → agrees bystander fs0 fs ∧ (at_source fs0 fs ∨ carried fs0 S D fs)).
  { intros ? <-. split; [apply agrees_refl|left; apply agrees_refl]. }
  apply (triple_bind _ _ (fun _ fs => fs0 = fs ∧ is_dir fs0 (dir_segs src) = true)).
  { eapply triple_conseq; [apply triple_validateSource|done|done|exact Hstay]. }
  intros _. apply triple_from. intros ? [<- Hdir]. rewrite dir_segs_at in Hdir by done.
  destruct (validateRelationship src dst) as [[]|e] eqn:Hrel.
  2: { intros st Hst. exact (Hstay _ Hst). }
  rewrite dst_app in Hrel, Hne. apply relationship_apart in Hrel as [HSD HDS]; [|done|done|apply dst_plain|apply dst_some|done].
  apply (triple_bind _ _ (fun _ => eq fs0)); [by intros st Hst|]. intros _.
  apply (triple_bind _ _ (fun _ => eq fs0)).
  { eapply triple_conseq; [apply triple_preserves, (validateNotSame_reads fs0)|done|done|exact Hstay]. }
  intros _.
  pose proof (triple_moveDir src dst fs0 wf) as Hmove. rewrite src_segs, dst_segs in Hmove.
  specialize (Hmove HSD HDS (fun t => moving_apart t HSD) sibling_apart ltac:(done) Hdir).
  assert (Hby : ∀ fs, unharmed src dst fs0 fs → agrees bystander fs0 fs).
  { intros fs Hk q (H1' & H2' & _ & Ht). apply Hk. unfold elsewhere. rewrite src_segs, dst_segs. split; [done|]. split; [done|].
    intros t. by rewrite moving_path_at. }
  apply (triple_bind _ _ (fun _ fs => unharmed src dst fs0 fs ∧ at_source fs0 fs)).
  { assert (Hp : ∀ P : fpath → Prop, (∀ q, P q → below D q = false) → preserves (agrees P fs0) (prepareDestination dst (mo_Replace opts))).
    { intros P HP. apply prepareDestination_agrees; rewrite dst_segs; [|done]. rewrite dst_app, dir_segs_at; [done|apply dst_plain|apply dst_some]. }
    assert (Hk : preserves (agrees (fun q => below D q = false) fs0) (prepareDestination dst (mo_Replace opts))) by by apply Hp.
    assert (Hend : ∀ fs, agrees (fun q => below D q = false) fs0 fs → unharmed src dst fs0 fs ∧ at_source fs0 fs).
    { intros fs Hfs. split; intros q Hq; apply Hfs; [destruct Hq as (_ & Hq & _); by rewrite dst_segs in Hq|].
      apply below_iff in Hq as [r ->]. by apply apart. }
    eapply triple_conseq; [apply (triple_keep (eq fs0) _ _ Hk); intros ? <-; apply agrees_refl|done| |].
    - intros u fs Hfs. by apply Hend.
    - intros fs [Hk' Hs]%Hend. split; [by apply Hby|by left]. }
  intros _. eapply triple_conseq; [exact Hmove|done| |].
  - intros _ fs (Hk & Hc & Hg). split; [by apply Hby|]. split; [done|]. intros Hh q Hq. apply Hg; [done|]. by rewrite src_segs.
  - intros fs [Hk Hc]. split; [by apply Hby|]. unfold intact_or_carried in Hc. by rewrite src_segs, dst_segs in Hc.
Qed.

(** C4. A move to a directory apart from the settings never loses the vault.  Whatever
    calls fail, and whether the directory is renamed or copied, every file of the vault
    is at the old place or at the new one with the bytes it had, and no file of another
    directory is touched.  A move that reports no error has carried the whole vault and
    left nothing at the old place. *)
Theorem move_keeps_vault source destination opts s :
  Abs source = Ok src → Abs destination = Ok dst → whole (st_files s) →
  ∃ s' r, Move source destination opts s = (s', Ok r) ∧ safe_end (st_files s) r (st_files s').
Proof.
  intros Hs Hd wf. enough (Ht : triple (eq (st_files s)) (Move source destination opts) (safe_end (st_files s)) (fun _ => False)).
  { specialize (Ht s eq_refl). destruct (Move source destination opts s) as [s' [r|e]]; [by exists s', r|done]. }
  set (fs0 := st_files s) in *. clearbody fs0. unfold Move. rewrite Hs, Hd.
  change (Ok ?a ≫= ?f) with (f a). cbv beta. change (Ok ?a ≫= ?f) with (f a). cbv beta.
  change (try (lift (Ok ?a)) ≫= ?f) with (f (Ok a)). cbv beta iota zeta.
  assert (path_clean src = src) as -> by by apply clean_at.
  assert (path_clean dst = dst) as -> by (rewrite dst_app; apply clean_at; [apply dst_plain|apply dst_some]).
  destruct (String.eqb_spec src dst) as [_|Hne]; [apply triple_ret; intros ? <-; apply safe_unchanged|].
  eapply triple_try_bind; [by apply triple_relocate|]. intros [u|e].
  2: { apply triple_ret. intros fs [Hk Hc]. done. }
  apply triple_from. intros fs (Hk & Hc & Hg). set (res := mkMoveResult _ _ _ _ _ _ _).
  destruct settings_apart as ((CS & SC) & (CD & DC) & _).
  assert (Hout : ∀ names, ¬ below C ("" :: conf ++ names) = false) by (intros names Hf; pose proof (below_app C names) as Hb; change (C ++ names) with ("" :: conf ++ names) in Hb; congruence).
  pose proof (update_settings_agrees (fun q => below C q = false) fs conf src dst opts res conf_dir conf_plain conf_some Hout) as Hu.
  apply (triple_bind _ _ (fun r fs' => mv_Moved r = true ∧ agrees (fun q => below C q = false) fs fs')).
  { intros st Hst. pose proof (update_settings_moves src dst opts res st) as Hm. pose proof (Hu st) as Ha.
    rewrite <- Hst in Ha. specialize (Ha (agrees_refl _ _)). destruct (update_settings _ _ _ _ st) as [st' [r|e]]; [|done]. by split; [apply Hm|]. }
  intros r. apply triple_ret. intros fs' [Hm Ha]. split; [|split; [done|split]].
  - intros q Hq. rewrite Ha by apply Hq. by apply Hk.
  - intros r' f Hr Hf. rewrite Ha by by apply apart. by apply Hc.
  - intros Hh q Hq. rewrite Ha; [by apply Hg|]. apply below_iff in Hq as [r' ->]. by apply apart.
Qed.
End relocation.
End move.

(** ** A move across devices *)

#[global] Instance Entry_Fields : Fields Entry.
Proof. by apply (Fields_via (fun e => (en_Name e, en_VaultPath e)) (fun '(n, p) => mkEntryP n p)); intros []. Defined.
#[global] Instance ProfileStore_Fields : Fields ProfileStore.
Proof. by apply (Fields_via (fun s => (ps_Version s, ps_Profiles s)) (fun '(v, l) => mkProfileStore v l)); intros []. Defined.
#[global] Instance RemoteConfig_Fields : Fields RemoteConfig.
Proof.
  by apply (Fields_via
    (fun r => ((rc_RemoteName r, rc_RemotePath r, rc_Backend r, rc_ConfigMode r, rc_RcloneConfigPath r, rc_Transfers r, rc_Checkers r, rc_FastList r),
               (rc_Checksum r, rc_BandwidthLimit r, rc_DryRunDefault r, rc_Host r, rc_User r, rc_Port r, rc_SSHKey r, rc_HostFingerprint r)))
    (fun '((a, b, c, d, e, f, g, h), (i, j, k, l, m, n, o, p)) => mkRemoteConfig a b c d e f g h i j k l m n o p)); intros [].
Defined.
#[global] Instance RemoteProfile_Fields : Fields RemoteProfile.
Proof.
  by apply (Fields_via
    (fun r => (rp_Name r, rp_Type r, rp_Vault r, rp_Remote r,
               (rt_Channel (rp_Runtime r), rt_PinnedVersion (rp_Runtime r), rt_AutoCheckUpdates (rp_Runtime r), rt_AutoInstallSecurityUpdates (rp_Runtime r)),
               (sc_DefaultOperation (rp_Safety r), sc_AllowDestructiveSync (rp_Safety r), sc_RequireDryRunBeforeSync (rp_Safety r),
                sc_RetainDeletedObjectsDays (rp_Safety r), sc_VerifyAfterTransfer (rp_Safety r)), rp_CreatedAt r, rp_UpdatedAt r))
    (fun '(a, b, c, d, (e1, e2, e3, e4), (f1, f2, f3, f4, f5), g, h) =>
       mkRemoteProfile a b c d (mkRuntimeConfig e1 e2 e3 e4) (mkSafetyConfig f1 f2 f3 f4 f5) g h)); intros [? ? ? ? [] [] ? ?].
Defined.
#[global] Instance RemoteStore_Fields : Fields RemoteStore.
Proof. by apply (Fields_via (fun s => (rs_Version s, rs_Profiles s)) (fun '(v, l) => mkRemoteStore v l)); intros []. Defined.
Definition json_profiles : JSON ProfileStore := fields_json.
Definition json_remotes : JSON RemoteStore := fields_json.
Definition demo_fileid : FileId := {| same_file p q := bool_decide (p = q); same_file_refl p := bool_decide_eq_true_2 (p = p) eq_refl |}.
(** The [k]-th call alone fails. *)
Definition fail_at (k : nat) : Env :=
  {| env_clock := @env_clock demo_env; env_fault i := if (i =? k)%nat then Some (ESentinel "EXDEV") else None;
     env_rand := @env_rand demo_env; env_rand_length := @env_rand_length demo_env;
     env_partial _ := 1%nat; env_retryable _ := false;
     env_range := @env_range demo_env; env_range_perm := @env_range_perm demo_env |}.

Section demo.
#[local] Existing Instances demo_unicode demo_platform demo_host json_config json_legacy json_profiles json_remotes demo_fileid.
Definition there : fpath := [""; "home"; "u"; "v"].
Definition before : St := mkSt
  (<[[""; "srv"; "other"] := mkFile (bytes_of "x") 3]>
  (<[there ++ ["SeaVaultData"; "vault.json"] := mkFile (marshal demo_config) 1]>
  (<[there ++ ["SeaVaultData"; "objects"; "ab"; "o"] := mkFile (bytes_of "chunk") 2]> ∅))) 0 None 0 None.
Definition relocated (k : nat) : St * result (MoveResult * option err) :=
  @Move (fail_at k) _ _ _ _ _ _ _ _ "/home/u/v" "/mnt/disk/w" (mkMoveOptions "" false true true) before.
#[local] Strategy -100 [relocated].
Definition whole_check (fs : files) : bool := forallb (fun kv => negb (is_dir fs kv.1)) (map_to_list fs).
Lemma whole_checked fs : whole_check fs = true → whole fs.
Proof.
  intros Hc p [f Hf]. unfold whole_check in Hc. rewrite forallb_forall in Hc. apply negb_true_iff.
  apply (Hc (p, f)), list_elem_of_In, elem_of_map_to_list, Hf.
Qed.
Definition copied (r : result (MoveResult * option err)) : bool :=
  match r with Ok (r, None) => negb (mv_UsedRename r) | _ => false end.
Lemma copied_run : copied (relocated 12).2 = true.
Proof. vm_compute. reflexivity. Qed.

(** The rename fails, so the vault is copied. *)
Lemma move_keeps_vault_witness :
  copied (relocated 12).2 = true ∧
  ∃ s' r, relocated 12 = (s', Ok r) ∧
    @safe_end (fail_at 12) ["home"; "u"; "v"] ["mnt"; "disk"] ["home"; "u"; ".config"; "seavault"] "w" (st_files before) r (st_files s').
Proof.
  split; [exact copied_run|].
  unfold relocated.
  refine (@move_keeps_vault (fail_at 12) demo_platform demo_host demo_unicode demo_fileid json_config json_legacy json_profiles json_remotes
    ["home"; "u"; "v"] ["mnt"; "disk"] ["home"; "u"; ".config"; "seavault"] "w" _ _ _ _ _ _ _ _ _
    "/home/u/v" "/mnt/disk/w" (mkMoveOptions "" false true true) before _ _ _).
  - repeat constructor; discriminate.
  - discriminate.
  - repeat constructor; discriminate.
  - discriminate.
  - repeat constructor; discriminate.
  - vm_compute. reflexivity.
  - repeat constructor; discriminate.
  - discriminate.
  - split; [|split]; [split; vm_compute; reflexivity..|]. intros t. apply bool_decide_eq_false. discriminate.
  - vm_compute. reflexivity.
  - vm_compute. reflexivity.
  - apply whole_checked. vm_compute. reflexivity.
Defined.
End demo.
