(* ===== verification/AppConfig.v ===== *)
(** The configuration of the application (internal/appconfig): one JSON file whose
    values are brought into bounds whenever they are read or written. *)
From S2P Require Export AppDir GoTime GoNet AuthLimit VaultOps.
Local Open Scope Z_scope.

(** ** Data *)

(** internal/appconfig/appconfig.go:52-62 [AuthLimits] *)
Record AuthLimits : Type := mkAuthLimits {
  al_Enabled : option bool; al_FailuresBeforeLock : Z; al_AccountFailuresBeforeLock : Z;
  al_Window : string; al_LockStart : string; al_LockMax : string; al_FailureDelay : string;
  al_MaxKeys : Z; al_DisabledSince : string }.
(** internal/appconfig/appconfig.go:111-115 [TLSSection] *)
Record TLSSection : Type := mkTLSSection { ts_CertFile : string; ts_KeyFile : string; ts_AllowHosts : list string }.
(** internal/appconfig/appconfig.go:117-125 [GUIConfig] *)
Record GUIConfig : Type := mkGUIConfig {
  gc_Protocol : string; gc_CertFile : string; gc_KeyFile : string; gc_SelfSigned : bool; gc_Username : string;
  gc_PasswordConfigured : bool; gc_PasswordHash : string }.
(** internal/appconfig/appconfig.go:127-131 [LogConfig] *)
Record LogConfig : Type := mkLogConfig { lg_MaxEntries : Z; lg_FilePath : string; lg_Persist : bool }.
(** internal/appconfig/appconfig.go:133-138 [RuntimeSources] *)
Record RuntimeSources : Type := mkRuntimeSources {
  rs_RcloneChannel : string; rs_RsyncSourceBaseURL : string; rs_RsyncRuntimeBaseURL : string; rs_WSLInstallSource : string }.
(** internal/appconfig/appconfig.go:27-34 [Config] *)
Record AppConf : Type := mkAppConf {
  ac_Version : Z; ac_GUI : GUIConfig; ac_TLS : TLSSection; ac_Limits : AuthLimits; ac_Log : LogConfig; ac_Sources : RuntimeSources }.

Definition with_Limits (c : AppConf) (a : AuthLimits) : AppConf :=
  mkAppConf (ac_Version c) (ac_GUI c) (ac_TLS c) a (ac_Log c) (ac_Sources c).
Definition with_pair (c : AppConf) (cert key : string) : AppConf :=
  let g := ac_GUI c in
  mkAppConf (ac_Version c)
    (mkGUIConfig (gc_Protocol g) cert key true (gc_Username g) (gc_PasswordConfigured g) (gc_PasswordHash g))
    (ac_TLS c) (ac_Limits c) (ac_Log c) (ac_Sources c).

(** internal/appconfig/appconfig.go:68-80 [DefaultAuthLimits] *)
Definition DefaultAuthLimits : AuthLimits := mkAuthLimits (Some true) 5 20 "15m" "30s" "15m" "250ms" 10000 "".
(** internal/appconfig/appconfig.go:140-142 [Default] *)
Definition Default_ : AppConf :=
  mkAppConf 1 (mkGUIConfig "http" "" "" false "" false "") (mkTLSSection "" "" []) DefaultAuthLimits (mkLogConfig 200 "" false)
    (mkRuntimeSources "stable" "https://download.samba.org/pub/rsync" "" "wsl.exe --install").

(** internal/appconfig/appconfig.go:84-84 [IsEnabled] *)
Definition IsEnabled (a : AuthLimits) : bool := match al_Enabled a with None => true | Some b => b end.

(** internal/appconfig/appconfig.go:94-102 [StatusLine] *)
Definition StatusLine (a : AuthLimits) : string :=
  if IsEnabled a then
    str_concat ["auth limits: on ("; itoa (al_FailuresBeforeLock a); " failures in "; al_Window a; " → "; al_LockStart a; "…"; al_LockMax a; ")"]
  else if negb (String.eqb (trim_space (al_DisabledSince a)) "") then
    str_concat ["auth limits: OFF since "; al_DisabledSince a; " — re-enable with --auth-limit on or auth.limits.enabled=true"]
  else "auth limits: OFF — re-enable with --auth-limit on or auth.limits.enabled=true".

(** ** Bringing values into bounds *)

(** The loop of [normalizeTLS] over the names. *)
Fixpoint clean_hosts (seen : list string) (l : list string) : list string :=
  match l with
  | [] => []
  | h :: l =>
      let h := trim_space h in
      if String.eqb h "" || existsb (String.eqb h) seen then clean_hosts seen l else h :: clean_hosts (h :: seen) l
  end.
(** internal/appconfig/appconfig.go:237-262 [normalizeTLS] *)
Definition normalizeTLS (t : TLSSection) : TLSSection :=
  mkTLSSection (trim_space (ts_CertFile t)) (trim_space (ts_KeyFile t)) (clean_hosts [] (ts_AllowHosts t)).

(** internal/appconfig/appconfig.go:272-272 [minAuthWindow] *)
Definition minAuthWindow : Z := 60 * nano.
(** internal/appconfig/appconfig.go:273-273 [minAuthLockStart] *)
Definition minAuthLockStart : Z := nano.
(** internal/appconfig/appconfig.go:274-274 [maxFailuresBeforeLock] *)
Definition maxFailuresBeforeLock : Z := 1000.
(** internal/appconfig/appconfig.go:275-275 [maxAccountFailuresBeforeLock] *)
Definition maxAccountFailuresBeforeLock : Z := 100000.
(** internal/appconfig/appconfig.go:276-276 [maxAuthMaxKeys] *)
Definition maxAuthMaxKeys : Z := 10000000.

(** internal/appconfig/appconfig.go:320-333 [normalizeDurationString] *)
Definition normalizeDurationString (s def : string) (allowZero : bool) : string :=
  let s := trim_space s in
  if String.eqb s "" then def
  else match ParseDuration s with
       | None => def
       | Some d => if (d <? 0) || ((d =? 0) && negb allowZero) then def else s
       end.
(** internal/appconfig/appconfig.go:339-349 [normalizeDurationFloor] *)
Definition normalizeDurationFloor (s def : string) (min : Z) : string :=
  let s := trim_space s in
  if String.eqb s "" then def
  else match ParseDuration s with None => def | Some d => if d <? min then def else s end.
(** The duration of a string, zero beside an error. *)
Definition duration_or_zero (s : string) : Z := default 0 (ParseDuration s).
(** internal/appconfig/appconfig.go:356-368 [normalizeLockMax] *)
Definition normalizeLockMax (lockStartStr lockMaxStr def : string) : string :=
  let start := duration_or_zero lockStartStr in
  let s := trim_space lockMaxStr in
  let '(s, d) := match ParseDuration s with
                 | Some d => if String.eqb s "" then (def, duration_or_zero def) else (s, d)
                 | None => (def, duration_or_zero def)
                 end in
  if d <? start then lockStartStr else s.

Definition within (x max d : Z) : Z := if (x <=? 0) || (max <? x) then d else x.
(** internal/appconfig/appconfig.go:289-313 [normalizeAuthLimits] *)
Definition normalizeAuthLimits (a : AuthLimits) : AuthLimits :=
  let d := DefaultAuthLimits in
  let enabled := match al_Enabled a with None => true | Some b => b end in
  let lockStart := normalizeDurationFloor (al_LockStart a) (al_LockStart d) minAuthLockStart in
  mkAuthLimits (Some enabled)
    (within (al_FailuresBeforeLock a) maxFailuresBeforeLock (al_FailuresBeforeLock d))
    (within (al_AccountFailuresBeforeLock a) maxAccountFailuresBeforeLock (al_AccountFailuresBeforeLock d))
    (normalizeDurationFloor (al_Window a) (al_Window d) minAuthWindow)
    lockStart
    (normalizeLockMax lockStart (al_LockMax a) (al_LockMax d))
    (normalizeDurationString (al_FailureDelay a) (al_FailureDelay d) true)
    (within (al_MaxKeys a) maxAuthMaxKeys (al_MaxKeys d))
    (if enabled then "" else trim_space (al_DisabledSince a)).

Definition or_else (s d : string) : string := if String.eqb s "" then d else s.

Section appconfig.
Context `{GoUnicode}.

(** internal/appconfig/appconfig.go:187-231 [Normalize] *)
Definition Normalize (c : AppConf) : AppConf :=
  let g := ac_GUI c in let s := ac_Sources c in let d := ac_Sources Default_ in
  let username := trim_space (gc_Username g) in
  let hash := trim_space (gc_PasswordHash g) in
  let configured := if negb (String.eqb hash "") then true else gc_PasswordConfigured g in
  let max := if lg_MaxEntries (ac_Log c) <=? 0 then lg_MaxEntries (ac_Log Default_) else lg_MaxEntries (ac_Log c) in
  mkAppConf 1
    (mkGUIConfig (if String.eqb (to_lower (trim_space (gc_Protocol g))) "https" then "https" else "http")
       (trim_space (gc_CertFile g)) (trim_space (gc_KeyFile g)) (gc_SelfSigned g) username
       (if String.eqb username "" then false else configured) (if String.eqb username "" then "" else hash))
    (normalizeTLS (ac_TLS c))
    (normalizeAuthLimits (ac_Limits c))
    (mkLogConfig (if 5000 <? max then 5000 else max) (trim_space (lg_FilePath (ac_Log c))) (lg_Persist (ac_Log c)))
    (mkRuntimeSources (or_else (trim_space (rs_RcloneChannel s)) (rs_RcloneChannel d))
       (or_else (trim_space (rs_RsyncSourceBaseURL s)) (rs_RsyncSourceBaseURL d))
       (or_else (trim_space (rs_RsyncRuntimeBaseURL s)) (rs_RsyncRuntimeBaseURL d))
       (or_else (trim_space (rs_WSLInstallSource s)) (rs_WSLInstallSource d))).

End appconfig.

(** ** The file *)

(** A value decoded into one that already holds the defaults: a field that is not in
    the text stays as it is.  The fields the encoder leaves out when they are zero are
    those of [whole_over]. *)
Definition whole_over (d c : AppConf) : Prop :=
  let a := ac_Limits c in
  (ts_AllowHosts (ac_TLS c) = [] → ts_AllowHosts (ac_TLS d) = []) ∧
  (gc_PasswordHash (ac_GUI c) = "" → gc_PasswordHash (ac_GUI d) = "") ∧
  al_Enabled a ≠ None ∧ al_FailuresBeforeLock a ≠ 0 ∧ al_AccountFailuresBeforeLock a ≠ 0 ∧ al_MaxKeys a ≠ 0 ∧
  al_Window a ≠ "" ∧ al_LockStart a ≠ "" ∧ al_LockMax a ≠ "" ∧ al_FailureDelay a ≠ "" ∧
  (al_DisabledSince a = "" → al_DisabledSince (ac_Limits d) = "").
Class ConfigJSON `{JSON AppConf} := {
  unmarshal_into : AppConf → bytes → option AppConf;
  into_marshal d c : json_ok c → whole_over d c → unmarshal_into d (marshal c) = Some c }.

(** A self-signed certificate for these names, valid between two instants, and its key,
    as PEM: crypto/rsa, crypto/x509 and encoding/pem.  The number is that of the call,
    which decides the random bytes. *)
Class SelfSigner := { self_signed : nat → list string → list (list Z) → Z → Z → result (bytes * bytes) }.

Section files.
Context `{Env} `{Platform} `{GoUnicode} `{ConfigJSON} `{SelfSigner}.

(** internal/appconfig/appconfig.go:144-150 [Path] *)
Definition Path : M string := dir ← EnsureConfigDir []; mret (path_join [dir; "appconfig.json"]).

(** internal/appconfig/appconfig.go:445-468 [atomicWriteFile]; the deferred removal runs on every way out. *)
Definition atomicWriteFile (path : string) (data : bytes) : M unit :=
  tmp ← os_CreateTemp (os_segs (path_dir path)) ".tmp-";
  r ← try (w ← try (os_Write tmp data);
           match w with
           | Err e => _ ← try os_Quiet; fail e
           | Ok _ =>
               c ← try os_Quiet;
               match c with
               | Err e => _ ← try os_Quiet; fail e
               | Ok _ =>
                   _ ← os_Quiet;
                   n ← try (os_Rename tmp (os_segs path));
                   match n with Err e => fail (EWrap "replace config: " e) | Ok _ => mret tt end
               end
           end);
  _ ← try (os_Remove tmp);
  lift r.

(** internal/appconfig/appconfig.go:152-169 [Load]; the configuration stands beside an error. *)
Definition Load_ : M (AppConf * option err) :=
  p ← try Path;
  match p with
  | Err e => mret (Default_, Some e)
  | Ok p =>
      r ← try (os_ReadFile (os_segs p));
      mret (match r with
            | Err e => if not_exist e then (Default_, None) else (Default_, Some e)
            | Ok data => match unmarshal_into Default_ data with
                         | None => (Default_, Some (ENew "invalid character in appconfig.json"))
                         | Some c => (Normalize c, None)
                         end
            end)
  end.

(** internal/appconfig/appconfig.go:171-185 [Save] *)
Definition Save (c : AppConf) : M unit :=
  let c := Normalize c in
  p ← Path;
  _ ← os_MkdirAll (os_segs (path_dir p));
  atomicWriteFile p (marshal c).

(** The names of the template: those that are no addresses, and the addresses. *)
Definition template_names (host : string) : list string * list (list Z) :=
  let l := [if String.eqb host "" then "127.0.0.1" else host; "localhost"; "127.0.0.1"; "::1"] in
  (List.filter (fun h => negb (bool_decide (is_Some (ParseIP h)))) l, omap ParseIP l).
Definition two_years_after (t : Z) : Z :=
  let '(y, m, d) := civil_from_days (t / (86400 * nano)) in days_from_civil (y + 2) m d * (86400 * nano) + t mod (86400 * nano).

(** internal/appconfig/appconfig.go:398-443 [writeSelfSigned] *)
Definition writeSelfSigned (certPath keyPath host : string) : M unit :=
  k ← gets st_tick;
  t ← now;
  let '(dns, ips) := template_names host in
  '(cert, key) ← lift (self_signed k dns ips (t - time_Hour) (two_years_after t));
  _ ← os_WriteFile (os_segs certPath) cert;
  os_WriteFile (os_segs keyPath) key.

(** internal/appconfig/appconfig.go:370-396 [EnsureSelfSignedCertificate] *)
Definition EnsureSelfSignedCertificate (c : AppConf) (host : string) : M AppConf :=
  let c := Normalize c in
  if negb (String.eqb (trim_space (gc_CertFile (ac_GUI c))) "") && negb (String.eqb (trim_space (gc_KeyFile (ac_GUI c))) "")
  then mret c
  else
    dir ← EnsureConfigDir ["tls"];
    let certPath := path_join [dir; "seavault-local.crt"] in
    let keyPath := path_join [dir; "seavault-local.key"] in
    a ← try (os_Stat (os_segs certPath));
    b ← (if is_ok a then r ← try (os_Stat (os_segs keyPath)); mret (is_ok r) else mret false);
    if b : bool then mret (with_pair c certPath keyPath)
    else _ ← writeSelfSigned certPath keyPath host; mret (with_pair c certPath keyPath).
End files.

(** ** The limiter of a server

    How a server gets its limiter (cmd/seavault/main.go): the flag, then the
    configuration, then [AuthLimit.New]. *)

(** What [startAuthLimit] returns, with the configuration it may have changed and the
    lines it logged; the goroutine that repeats the warning is left out. *)
Record AuthStart : Type := mkAuthStart { as_Limiter : option Limiter; as_Status : string; as_Config : AppConf; as_Log : list string }.

Definition set_enabled (a : AuthLimits) (b : bool) (since : string) : AuthLimits :=
  mkAuthLimits (Some b) (al_FailuresBeforeLock a) (al_AccountFailuresBeforeLock a) (al_Window a) (al_LockStart a) (al_LockMax a)
    (al_FailureDelay a) (al_MaxKeys a) since.

(** cmd/seavault/main.go:1815-1821 [parseAuthDur] *)
Definition parseAuthDur (s : string) : Z := default 0 (ParseDuration (trim_space s)).

(** cmd/seavault/main.go:1827-1837 [authLimitOffWarning] *)
Definition authLimitOffWarning (limits : AuthLimits) (fromFlag persisted : bool) : string :=
  let base := "WARNING: authentication rate limiting is OFF — the GUI login and WebDAV auth are unthrottled and will not lock after repeated failed attempts." in
  if persisted && negb (String.eqb (trim_space (al_DisabledSince limits)) "") then
    base +:+ str_concat [" Disabled since "; al_DisabledSince limits;
      " by auth.limits.enabled=false. Re-enable with --auth-limit on or set auth.limits.enabled=true."]
  else if fromFlag then base +:+ " Disabled by --auth-limit off for this run. Re-enable by dropping --auth-limit off (or pass --auth-limit on)."
  else base +:+ " Re-enable with --auth-limit on or set auth.limits.enabled=true.".

(** cmd/seavault/main.go:1856-1864 [startAuthLimit]: the policy *)
Definition policy_of (a : AuthLimits) : Policy :=
  mkPolicy (al_FailuresBeforeLock a) (al_AccountFailuresBeforeLock a) (parseAuthDur (al_Window a)) (parseAuthDur (al_LockStart a))
    (parseAuthDur (al_LockMax a)) (parseAuthDur (al_FailureDelay a)) (al_MaxKeys a).

Section setup.
Context `{GoUnicode}.

(** cmd/seavault/main.go:1800-1811 [resolveAuthLimitEnabled]: whether the limiter is on, and whether the flag said so *)
Definition resolveAuthLimitEnabled (flagVal : string) (c : AppConf) : result (bool * bool) :=
  let f := to_lower (trim_space flagVal) in
  if String.eqb f "" then Ok (IsEnabled (ac_Limits c), false)
  else if String.eqb f "on" then Ok (true, true)
  else if String.eqb f "off" then Ok (false, true)
  else Err (ENew "--auth-limit must be on or off, got %q").

Context `{Env} `{Platform} `{ConfigJSON}.

(** A change of the limits kept in the file; a failure is logged. *)
Definition persist_limits (c : AppConf) (line : string) : M (list string) :=
  r ← try (Save c); mret (match r with Ok _ => [] | Err e => [line +:+ err_text e] end).

(** cmd/seavault/main.go:1855-1888 [startAuthLimit]: on *)
Definition start_on (c : AppConf) : M AuthStart :=
  let limits := ac_Limits c in
  let changed := negb (IsEnabled limits) || negb (String.eqb (trim_space (al_DisabledSince limits)) "") in
  let c' := if changed then with_Limits c (set_enabled limits true "") else c in
  log ← (if changed then persist_limits c' "auth-limit: could not persist the re-enabled state: " else mret []);
  mret (mkAuthStart (Some (New (policy_of limits))) (StatusLine (set_enabled limits true "")) c' log).

(** cmd/seavault/main.go:1890-1914 [startAuthLimit]: off *)
Definition start_off (c : AppConf) (fromFlag : bool) : M AuthStart :=
  let limits := ac_Limits c in
  let persisted := negb (IsEnabled limits) in
  let undated := String.eqb (trim_space (al_DisabledSince limits)) "" in
  '(since, c', log) ← (if negb persisted then mret ("", c, [])
    else if negb undated then mret (al_DisabledSince limits, c, [])
    else
      t ← now;
      let stamp := format_rfc3339 t in
      let c' := with_Limits c (set_enabled limits false stamp) in
      log ← persist_limits c' "auth-limit: could not persist the disabled-since timestamp: ";
      mret (stamp, c', log));
  let effective := set_enabled limits false since in
  mret (mkAuthStart None (StatusLine effective) c' (log ++ [authLimitOffWarning effective fromFlag persisted])).

(** cmd/seavault/main.go:1848-1923 [startAuthLimit] *)
Definition startAuthLimit (c : AppConf) (flagVal : string) : M AuthStart :=
  '(enabled, fromFlag) ← lift (resolveAuthLimitEnabled flagVal c);
  if enabled : bool then start_on c else start_off c fromFlag.
End setup.
