(* ===== verification/AppConfigFacts.v ===== *)
(** A configuration read or written is within bounds, and the limiter made of it keeps
    them. *)
From S2P Require Export SettingsFacts StoreFacts OpenVaultFacts Fields AuthLimitFacts AuthLimitProps AppConfig.

(** ** White space

    Trimming white space twice is trimming it once. *)

(** A string without a space rune at either end. *)
Definition trimmed (s : string) : Prop :=
  List.find (has_prefix s) space_runes = None ∧ List.find (has_suffix s) space_runes = None.

Lemma space_rune_some r : r ∈ space_runes → (1 ≤ String.length r)%nat.
Proof.
  assert (Hall : forallb (fun r => (1 <=? String.length r)%nat) space_runes = true) by (by vm_compute).
  rewrite forallb_forall in Hall. intros Hr%list_elem_of_In%Hall. by apply Nat.leb_le.
Qed.
Lemma empty_trimmed : trimmed "".
Proof. split; vm_compute; reflexivity. Qed.


Lemma trim_left_done n : ∀ s, (String.length s ≤ n)%nat → List.find (has_prefix (trim_left_fuel n s)) space_runes = None.
Proof.
  induction n as [|n IH]; intros s Hn; cbn [trim_left_fuel]; [destruct s; [apply empty_trimmed|cbn in Hn; lia]|].
  destruct (List.find (has_prefix s) space_runes) as [r|] eqn:E; [|done]. apply IH. rewrite str_drop_length.
  apply List.find_some in E as [Hr%list_elem_of_In%space_rune_some _]. lia.
Qed.
Lemma trim_right_done n : ∀ s, (String.length s ≤ n)%nat → List.find (has_suffix (trim_right_fuel n s)) space_runes = None.
Proof.
  induction n as [|n IH]; intros s Hn; cbn [trim_right_fuel]; [destruct s; [apply empty_trimmed|cbn in Hn; lia]|].
  destruct (List.find (has_suffix s) space_runes) as [r|] eqn:E; [|done]. apply IH.
  apply List.find_some in E as [Hr%list_elem_of_In%space_rune_some Hs]. unfold has_suffix in Hs. apply andb_true_iff in Hs as [Hs%Nat.leb_le _].
  rewrite str_take_length; lia.
Qed.
Lemma trim_right_prefix n : ∀ s, ∃ t, s = trim_right_fuel n s +:+ t.
Proof.
  induction n as [|n IH]; intros s; cbn [trim_right_fuel]; [exists ""; by rewrite str_app_nil|].
  destruct (List.find _ _) as [r|]; [|exists ""; by rewrite str_app_nil].
  destruct (IH (str_take (String.length s - String.length r) s)) as [t Ht].
  exists (t +:+ str_drop (String.length s - String.length r) s). rewrite <- str_app_assoc, <- Ht. by rewrite str_take_drop.
Qed.

Lemma no_prefix_of_prefix s t : List.find (has_prefix (s +:+ t)) space_runes = None → List.find (has_prefix s) space_runes = None.
Proof.
  intros Hn. destruct (List.find (has_prefix s) space_runes) as [r|] eqn:E; [|done].
  apply List.find_some in E as [Hr [u ->]%has_prefix_inv]. eapply List.find_none in Hn; [|exact Hr].
  cbn in Hn. by rewrite str_app_assoc, has_prefix_app in Hn.
Qed.

Lemma trim_space_trimmed s : trimmed (trim_space s).
Proof.
  unfold trim_space. set (s1 := trim_left_fuel _ s). split; [|by apply trim_right_done].
  destruct (trim_right_prefix (String.length s1) s1) as [t Ht]. apply (no_prefix_of_prefix _ t). rewrite <- Ht. by apply trim_left_done.
Qed.
Lemma trimmed_trim_space s : trimmed s → trim_space s = s.
Proof.
  intros [Hl Hr]. unfold trim_space. assert (Hs : trim_left_fuel (String.length s) s = s).
  { destruct (String.length s); [done|]. cbn [trim_left_fuel]. by rewrite Hl. }
  rewrite Hs. destruct (String.length s); [done|]. cbn [trim_right_fuel]. by rewrite Hr.
Qed.
Lemma trim_space_idem s : trim_space (trim_space s) = trim_space s.
Proof. apply trimmed_trim_space, trim_space_trimmed. Qed.
Lemma trim_space_fixed s : trim_space s = s ↔ trimmed s.
Proof. split; [intros <-; apply trim_space_trimmed|apply trimmed_trim_space]. Qed.

Local Open Scope Z_scope.

(** ** Durations are int64 *)

Lemma leadingInt_nonneg l : ∀ x v r, 0 ≤ x → leadingInt x l = Some (v, r) → 0 ≤ v.
Proof.
  induction l as [|c l IH]; intros x v r Hx; cbn [leadingInt]; [by intros [= <- _]|].
  destruct (is_digit c) eqn:Ed; [|by intros [= <- _]]. destruct (_ <? x); [done|]. cbv zeta. destruct (two63 <? _); [done|].
  apply IH. unfold is_digit in Ed. lia.
Qed.
Lemma f64_trunc_nonneg f : 0 ≤ f64_trunc f.
Proof. destruct f as [| | |[] m e]; cbn; try lia. apply Z.shiftl_nonneg. lia. Qed.
Lemma unit_of_pos u n : unit_of u = Some n → 1 ≤ n.
Proof. unfold unit_of, time_Hour, nano. repeat case_match; intros [= <-]; lia. Qed.
Lemma duration_part_nonneg l v r : duration_part l = Some (v, r) → 0 ≤ v.
Proof.
  unfold duration_part. destruct l as [|c l]; [done|]. destruct (negb _); [done|].
  destruct (leadingInt 0 (c :: l)) as [[v0 l1]|] eqn:E; [|done]. cbn [mbind option_bind]. apply leadingInt_nonneg in E; [|lia].
  destruct (match l1 with 46 :: t => _ | _ => _ end) as [[[f scale] l2] post]. destruct (_ && _); [done|].
  destruct (span_unit l2) as [u l3]. destruct (bool_decide _); [done|]. destruct (unit_of _) as [n|] eqn:Eu; [|done].
  cbn [mbind option_bind]. apply unit_of_pos in Eu. destruct (_ <? v0); [done|]. cbv zeta. destruct (f <=? 0); [intros [= <- _]; nia|].
  destruct (two63 <? _); [done|]. pose proof (f64_trunc_nonneg (f64_mul (f64_of_Z f) (f64_div (f64_of_Z n) scale))). intros [= <- _]. nia.
Qed.
Lemma duration_sum_nonneg fuel : ∀ d l r, 0 ≤ d → duration_sum fuel d l = Some r → 0 ≤ r.
Proof.
  induction fuel as [|fuel IH]; intros d [|c l] r Hd; cbn [duration_sum]; try done; [by intros [= <-]..|].
  destruct (duration_part (c :: l)) as [[v l']|] eqn:E; [|done]. cbn [mbind option_bind]. apply duration_part_nonneg in E.
  cbv zeta. destruct (_ <? _); [done|]. apply IH. lia.
Qed.
Lemma ParseDuration_int64 s d : ParseDuration s = Some d → in_int64 d.
Proof.
  unfold ParseDuration. cbv zeta. destruct (match codes s with c :: t => _ | [] => _ end) as [neg l].
  destruct (bool_decide _); [intros [= <-]; done|]. destruct (bool_decide _); [done|].
  destruct (duration_sum _ 0 l) as [r|] eqn:E; [|done]. cbn [mbind option_bind]. apply duration_sum_nonneg in E; [|lia].
  destruct neg; [intros [= <-]; apply wrap64_range|]. destruct (Z.ltb_spec (two63 - 1) r) as [|Hr]; [done|]. intros [= <-].
  unfold in_int64, int64_min, int64_max, two63 in *. lia.
Qed.

(** ** The limits *)

(** A text that is a duration between two bounds, written without white space around. *)
Definition duration_within (lo : Z) (s : string) (d : Z) : Prop := trimmed s ∧ s ≠ "" ∧ ParseDuration s = Some d ∧ lo ≤ d ∧ d ≤ int64_max.
(** Limits that lock: no threshold, window or lock of a size that would undo them. *)
Definition limits_ok (a : AuthLimits) : Prop :=
  al_Enabled a ≠ None ∧
  (1 ≤ al_FailuresBeforeLock a ≤ maxFailuresBeforeLock) ∧ (1 ≤ al_AccountFailuresBeforeLock a ≤ maxAccountFailuresBeforeLock) ∧
  (1 ≤ al_MaxKeys a ≤ maxAuthMaxKeys) ∧
  (∃ w, duration_within minAuthWindow (al_Window a) w) ∧
  (∃ d m, duration_within minAuthLockStart (al_LockStart a) d ∧ duration_within d (al_LockMax a) m) ∧
  (∃ d, duration_within 0 (al_FailureDelay a) d) ∧
  trimmed (al_DisabledSince a) ∧ (IsEnabled a = true → al_DisabledSince a = "").

Lemma duration_within_of lo s d : trimmed s → s ≠ "" → ParseDuration s = Some d → lo ≤ d → duration_within lo s d.
Proof. intros ? ? Hd ?. repeat (split; [done|]). pose proof (ParseDuration_int64 _ _ Hd). unfold in_int64 in *. lia. Qed.
Ltac default_duration := apply duration_within_of; [by apply trim_space_fixed; vm_compute|done|vm_compute; reflexivity|unfold minAuthWindow, minAuthLockStart, nano; lia].
Lemma default_window : duration_within minAuthWindow "15m" 900000000000.
Proof. default_duration. Qed.
Lemma default_start : duration_within minAuthLockStart "30s" 30000000000.
Proof. default_duration. Qed.
Lemma default_max : duration_within minAuthLockStart "15m" 900000000000.
Proof. default_duration. Qed.
Lemma default_delay : duration_within 0 "250ms" 250000000.
Proof. default_duration. Qed.

Lemma floor_ok s def min d0 : duration_within min def d0 → ∃ d, duration_within min (normalizeDurationFloor s def min) d.
Proof.
  intros Hd. unfold normalizeDurationFloor. cbv zeta. destruct (String.eqb_spec (trim_space s) "") as [|Hs]; [eauto|].
  destruct (ParseDuration (trim_space s)) as [d|] eqn:E; [|eauto]. destruct (Z.ltb_spec d min); [eauto|].
  exists d. apply duration_within_of; [apply trim_space_trimmed|done|done|lia].
Qed.
Lemma string_ok s def d0 : duration_within 0 def d0 → ∃ d, duration_within 0 (normalizeDurationString s def true) d.
Proof.
  intros Hd. unfold normalizeDurationString. cbv zeta. destruct (String.eqb_spec (trim_space s) "") as [|Hs]; [eauto|].
  destruct (ParseDuration (trim_space s)) as [d|] eqn:E; [|eauto]. rewrite andb_false_r, orb_false_r. destruct (Z.ltb_spec d 0); [eauto|].
  exists d. apply duration_within_of; [apply trim_space_trimmed|done|done|lia].
Qed.
Lemma lockmax_ok start s def d0 dm : duration_within minAuthLockStart start d0 → duration_within minAuthLockStart def dm →
  ∃ m, duration_within d0 (normalizeLockMax start s def) m.
Proof.
  intros (Ht & Hn & Hp & Hlo & Hhi) (Ht' & Hn' & Hp' & _). unfold normalizeLockMax, duration_or_zero. cbv zeta. rewrite Hp, Hp'. cbn [default from_option]. unfold id.
  assert (Hstart : duration_within d0 start d0) by (by apply duration_within_of).
  assert (Hdef : ∀ x, (if dm <? d0 then start else def) = x → ∃ m, duration_within d0 x m).
  { intros x <-. destruct (Z.ltb_spec dm d0); [eauto|]. exists dm. by apply duration_within_of. }
  destruct (ParseDuration (trim_space s)) as [d|] eqn:E; [|by apply Hdef]. destruct (String.eqb_spec (trim_space s) "") as [|Hs]; [by apply Hdef|].
  destruct (Z.ltb_spec d d0); [eauto|]. exists d. apply duration_within_of; [apply trim_space_trimmed|done|done|lia].
Qed.
Lemma within_ok x max d : 1 ≤ d ≤ max → 1 ≤ within x max d ≤ max.
Proof. intros Hd. unfold within. destruct (Z.leb_spec x 0), (Z.ltb_spec max x); cbn [orb]; lia. Qed.

Lemma normalizeAuthLimits_ok a : limits_ok (normalizeAuthLimits a).
Proof.
  unfold normalizeAuthLimits. cbv zeta. cbn [al_Enabled al_FailuresBeforeLock al_AccountFailuresBeforeLock al_Window al_LockStart al_LockMax al_FailureDelay al_MaxKeys al_DisabledSince DefaultAuthLimits].
  destruct (floor_ok (al_LockStart a) "30s" minAuthLockStart _ default_start) as [d Hd].
  repeat split; cbn [al_Enabled al_FailuresBeforeLock al_AccountFailuresBeforeLock al_Window al_LockStart al_LockMax al_FailureDelay al_MaxKeys al_DisabledSince];
    try (apply within_ok; unfold maxFailuresBeforeLock, maxAccountFailuresBeforeLock, maxAuthMaxKeys; lia).
  - done.
  - exact (floor_ok _ _ _ _ default_window).
  - destruct (lockmax_ok _ (al_LockMax a) _ _ _ Hd default_max) as [m Hm]. by exists d, m.
  - exact (string_ok _ _ _ default_delay).
  - destruct (match al_Enabled a with None => true | Some b => b end); [apply empty_trimmed|apply trim_space_trimmed].
  - destruct (match al_Enabled a with None => true | Some b => b end); [apply empty_trimmed|apply trim_space_trimmed].
  - unfold IsEnabled. cbn [al_Enabled al_DisabledSince]. by intros ->.
Qed.

(** Limits in bounds are left as they are. *)
Lemma floor_fixed s def min d : duration_within min s d → normalizeDurationFloor s def min = s.
Proof.
  intros (Ht & Hn & Hp & Hlo & _). unfold normalizeDurationFloor. rewrite trimmed_trim_space by done. cbv zeta.
  destruct (String.eqb_spec s ""); [done|]. rewrite Hp. destruct (Z.ltb_spec d min); [lia|done].
Qed.
Lemma within_fixed x max d : 1 ≤ x ≤ max → within x max d = x.
Proof. intros Hx. unfold within. destruct (Z.leb_spec x 0), (Z.ltb_spec max x); cbn [orb]; lia. Qed.
Lemma normalizeAuthLimits_fixed a : limits_ok a → normalizeAuthLimits a = a.
Proof.
  intros (He & Hf & Hac & Hk & [w Hw] & (d & m & Hd & Hm) & [fd Hfd] & Hs & Hon).
  destruct a as [e f ac w0 ls lm fd0 mk since]. cbn in *. destruct e as [e|]; [|done]. unfold normalizeAuthLimits.
  cbn [al_Enabled al_FailuresBeforeLock al_AccountFailuresBeforeLock al_Window al_LockStart al_LockMax al_FailureDelay al_MaxKeys al_DisabledSince].
  rewrite (floor_fixed _ _ _ _ Hw), (floor_fixed _ _ _ _ Hd), !within_fixed by done. f_equal.
  - destruct Hm as (Ht & Hn & Hp & Hlo & _), Hd as (_ & _ & Hp' & _). unfold normalizeLockMax, duration_or_zero. rewrite trimmed_trim_space by done.
    rewrite Hp, Hp'. destruct (String.eqb_spec lm ""); [done|]. cbn [default from_option]. unfold id. destruct (Z.ltb_spec m d); [lia|done].
  - destruct Hfd as (Ht & Hn & Hp & Hlo & _). unfold normalizeDurationString. rewrite trimmed_trim_space by done. cbv zeta.
    destruct (String.eqb_spec fd0 ""); [done|]. rewrite Hp, andb_false_r, orb_false_r. destruct (Z.ltb_spec fd 0); [lia|done].
  - unfold IsEnabled in Hon. cbn in Hon. destruct e; [by rewrite Hon|by apply trimmed_trim_space].
Qed.

(** ** The whole configuration *)

Definition hosts_ok (l : list string) : Prop := NoDup l ∧ Forall (fun h => trimmed h ∧ h ≠ "") l.
Lemma existsb_eqb h l : existsb (String.eqb h) l = bool_decide (h ∈ l).
Proof.
  apply eq_true_iff_eq. rewrite existsb_exists, bool_decide_eq_true. split.
  - intros (x & Hx%list_elem_of_In & ->%String.eqb_eq). done.
  - intros Hh. exists h. split; [by apply list_elem_of_In|apply String.eqb_refl].
Qed.
Lemma clean_hosts_ok l : ∀ seen, hosts_ok (clean_hosts seen l) ∧ ∀ h, h ∈ clean_hosts seen l → h ∉ seen.
Proof.
  induction l as [|h l IH]; intros seen; cbn [clean_hosts].
  { split; [split; constructor|intros h ?%not_elem_of_nil; done]. }
  cbv zeta. rewrite existsb_eqb. destruct (String.eqb_spec (trim_space h) "") as [|Hn]; cbn [orb]; [apply IH|].
  destruct (bool_decide _) eqn:Eb; [apply IH|]. apply bool_decide_eq_false in Eb.
  destruct (IH (trim_space h :: seen)) as [[Hd Hf] Hs]. split; [split; constructor|].
  - intros Hin. apply Hs in Hin. by apply Hin; left.
  - done.
  - split; [apply trim_space_trimmed|done].
  - done.
  - intros x [->|Hx]%elem_of_cons; [done|]. intros Hin. apply (Hs x Hx). by right.
Qed.
Lemma clean_hosts_fixed l : ∀ seen, hosts_ok l → (∀ h, h ∈ l → h ∉ seen) → clean_hosts seen l = l.
Proof.
  induction l as [|h l IH]; intros seen [Hd Hf] Hs; [done|]. apply NoDup_cons in Hd as [Hh Hd]. apply Forall_cons in Hf as [[Ht Hn] Hf].
  cbn [clean_hosts]. cbv zeta. rewrite trimmed_trim_space, existsb_eqb by done. apply String.eqb_neq in Hn. rewrite Hn. cbn [orb].
  rewrite bool_decide_false by (apply Hs; by left). f_equal. apply IH; [done|]. intros x Hx [->|Hin]%elem_of_cons; [done|].
  apply (Hs x); [by right|done].
Qed.

(** A configuration in bounds. *)
Definition conf_ok (c : AppConf) : Prop :=
  let g := ac_GUI c in let s := ac_Sources c in
  ac_Version c = 1 ∧
  ((gc_Protocol g = "http" ∨ gc_Protocol g = "https") ∧ trimmed (gc_CertFile g) ∧ trimmed (gc_KeyFile g) ∧
   trimmed (gc_Username g) ∧ trimmed (gc_PasswordHash g) ∧
   (gc_Username g = "" → gc_PasswordConfigured g = false ∧ gc_PasswordHash g = "") ∧
   (gc_PasswordHash g ≠ "" → gc_PasswordConfigured g = true)) ∧
  (trimmed (ts_CertFile (ac_TLS c)) ∧ trimmed (ts_KeyFile (ac_TLS c)) ∧ hosts_ok (ts_AllowHosts (ac_TLS c))) ∧
  limits_ok (ac_Limits c) ∧
  (1 ≤ lg_MaxEntries (ac_Log c) ≤ 5000 ∧ trimmed (lg_FilePath (ac_Log c))) ∧
  ((trimmed (rs_RcloneChannel s) ∧ rs_RcloneChannel s ≠ "") ∧ (trimmed (rs_RsyncSourceBaseURL s) ∧ rs_RsyncSourceBaseURL s ≠ "") ∧
   trimmed (rs_RsyncRuntimeBaseURL s) ∧ (trimmed (rs_WSLInstallSource s) ∧ rs_WSLInstallSource s ≠ "")).

Section conf.
Context `{GoUnicode}.

Lemma or_else_ok s d : trimmed d → d ≠ "" → trimmed (or_else (trim_space s) d) ∧ or_else (trim_space s) d ≠ "".
Proof. intros Hd Hn. unfold or_else. destruct (String.eqb_spec (trim_space s) ""); [done|]. split; [apply trim_space_trimmed|done]. Qed.
Lemma or_else_fixed s d : trimmed s → s ≠ "" → or_else (trim_space s) d = s.
Proof. intros Ht Hn. unfold or_else. rewrite trimmed_trim_space by done. by apply String.eqb_neq in Hn as ->. Qed.
Ltac concrete_trimmed := by apply trim_space_fixed; vm_compute.

Lemma Normalize_ok c : conf_ok (Normalize c).
Proof.
  unfold Normalize, conf_ok, normalizeTLS. cbv zeta.
  cbn [ac_Version ac_GUI ac_TLS ac_Limits ac_Log ac_Sources gc_Protocol gc_CertFile gc_KeyFile gc_Username gc_PasswordConfigured gc_PasswordHash
    ts_CertFile ts_KeyFile ts_AllowHosts lg_MaxEntries lg_FilePath rs_RcloneChannel rs_RsyncSourceBaseURL rs_RsyncRuntimeBaseURL rs_WSLInstallSource].
  pose proof trim_space_trimmed as Ht. pose proof empty_trimmed as He. split; [done|]. split; [|split; [|split; [|split]]].
  - split; [destruct (String.eqb _ "https"); auto|]. do 3 (split; [done|]). destruct (String.eqb_spec (trim_space (gc_Username (ac_GUI c))) ""); [done|].
    split; [done|]. split; [done|]. intros Hn. by apply String.eqb_neq in Hn as ->.
  - split; [done|]. split; [done|]. apply clean_hosts_ok.
  - apply normalizeAuthLimits_ok.
  - split; [|done]. change (lg_MaxEntries (ac_Log Default_)) with 200. destruct (Z.leb_spec (lg_MaxEntries (ac_Log c)) 0); [done|].
    destruct (Z.ltb_spec 5000 (lg_MaxEntries (ac_Log c))); lia.
  - split; [apply or_else_ok; [concrete_trimmed|done]|]. split; [apply or_else_ok; [concrete_trimmed|done]|].
    split; [unfold or_else; destruct (String.eqb _ _); [done|done]|]. apply or_else_ok; [concrete_trimmed|done].
Qed.

Lemma Normalize_fixed c : conf_ok c → Normalize c = c.
Proof.
  destruct c as [v g t a l s], g as [p cf kf ss un pc ph], t as [tc tk th], l as [me fp pe], s as [ch su ru ws].
  unfold conf_ok, Normalize, normalizeTLS. cbv zeta.
  cbn [ac_Version ac_GUI ac_TLS ac_Limits ac_Log ac_Sources gc_Protocol gc_CertFile gc_KeyFile gc_SelfSigned gc_Username gc_PasswordConfigured gc_PasswordHash
    ts_CertFile ts_KeyFile ts_AllowHosts lg_MaxEntries lg_FilePath lg_Persist rs_RcloneChannel rs_RsyncSourceBaseURL rs_RsyncRuntimeBaseURL rs_WSLInstallSource].
  intros (-> & (Hp & Hcf & Hkf & Hun & Hph & Hno & Hpc) & (Htc & Htk & Hth) & Ha & ((Hme1 & Hme2) & Hfp) & ((Hch & Hch') & (Hsu & Hsu') & Hru & Hws & Hws')).
  assert (Htp : trimmed p) by (destruct Hp as [-> | ->]; concrete_trimmed).
  rewrite normalizeAuthLimits_fixed, clean_hosts_fixed, !or_else_fixed, !trimmed_trim_space by (done || by intros ? _ ?%not_elem_of_nil). f_equal.
  - f_equal.
    + destruct Hp as [-> | ->]; rewrite to_lower_ascii by done; done.
    + destruct (String.eqb_spec un "") as [->|]; [by destruct (Hno eq_refl) as [-> _]|]. destruct (String.eqb_spec ph "") as [->|Hn]; [done|]. by rewrite Hpc.
    + destruct (String.eqb_spec un "") as [->|]; [by destruct (Hno eq_refl) as [_ ->]|done].
  - f_equal. destruct (Z.leb_spec me 0); [lia|]. destruct (Z.ltb_spec 5000 me); lia.
  - f_equal; unfold or_else; [by destruct (String.eqb_spec ru "") as [->|]|by apply String.eqb_neq in Hws' as ->].
Qed.

(** C26. Whatever the file of settings holds, the configuration the program works with is
    in bounds: every threshold, window, lock and map size of the limiter is one under
    which it locks, a stored password belongs to a user name, allowed hosts are distinct
    and clean.  The configurations in bounds are exactly those that normalising leaves
    alone, so it is idempotent. *)
Theorem Normalize_well_formed c : conf_ok (Normalize c) ∧ (conf_ok c ↔ Normalize c = c).
Proof.
  split; [apply Normalize_ok|]. split; [apply Normalize_fixed|]. intros <-. apply Normalize_ok.
Qed.
End conf.

(** ** The limiter of a server *)

(** A policy under which repeated failures are locked out. *)
Definition policy_locks (p : Policy) : Prop :=
  1 ≤ FailuresBeforeLock p ≤ 1000 ∧ 1 ≤ AccountFailuresBeforeLock p ≤ 100000 ∧
  60 * nano ≤ Window p ≤ int64_max ∧ nano ≤ LockStart p ∧ LockStart p ≤ LockMax p ≤ int64_max ∧
  0 ≤ p_FailureDelay p ≤ int64_max ∧ 1 ≤ MaxKeys p ≤ 10000000.

Lemma parse_of lo s d : duration_within lo s d → parseAuthDur s = d.
Proof. intros (Ht & _ & Hp & _). unfold parseAuthDur. by rewrite trimmed_trim_space, Hp by done. Qed.
Lemma policy_of_locks a : limits_ok a → policy_locks (policy_of a).
Proof.
  intros (_ & Hf & Hac & Hk & [w Hw] & (d & m & Hd & Hm) & [fd Hfd] & _). unfold policy_locks, policy_of.
  cbn [FailuresBeforeLock AccountFailuresBeforeLock Window LockStart LockMax p_FailureDelay MaxKeys].
  rewrite (parse_of _ _ _ Hw), (parse_of _ _ _ Hd), (parse_of _ _ _ Hm), (parse_of _ _ _ Hfd).
  destruct Hw as (_ & _ & _ & ?), Hd as (_ & _ & _ & ?), Hm as (_ & _ & _ & ?), Hfd as (_ & _ & _ & ?).
  unfold minAuthWindow, minAuthLockStart, maxFailuresBeforeLock, maxAccountFailuresBeforeLock, maxAuthMaxKeys in *. lia.
Qed.
(** The limiter takes such a policy as it is. *)
Lemma policy_locks_kept p : policy_locks p → normalize p = p.
Proof.
  destruct p as [f a w ls lm fd mk]. unfold policy_locks, normalize, nano.
  cbn [FailuresBeforeLock AccountFailuresBeforeLock Window LockStart LockMax p_FailureDelay MaxKeys DefaultPolicy]. intros.
  repeat (match goal with |- context [?x <=? 0] => destruct (Z.leb_spec x 0); [lia|] end).
  destruct (Z.ltb_spec lm ls); [lia|]. destruct (Z.ltb_spec fd 0); [lia|]. done.
Qed.

Section start.
Context `{GoUnicode} `{Env} `{Platform} `{ConfigJSON}.

Lemma persist_limits_runs c line s : ∃ s' log, persist_limits c line s = (s', Ok log).
Proof. unfold persist_limits. rewrite bind_run, try_run. by destruct (Save c s) as [s' [u|e]]; cbn; eauto. Qed.

(** A status line that says what the limiter does: how many failures in which window, and
    the shortest and the longest lock, as durations that read as the policy's. *)
Definition shows (p : Policy) (line : string) : Prop := ∃ w ls lm,
  ParseDuration w = Some (Window p) ∧ ParseDuration ls = Some (LockStart p) ∧ ParseDuration lm = Some (LockMax p) ∧
  line = str_concat ["auth limits: on ("; itoa (FailuresBeforeLock p); " failures in "; w; " → "; ls; "…"; lm; ")"].
Lemma StatusLine_shows a since : limits_ok a → shows (policy_of a) (StatusLine (set_enabled a true since)).
Proof.
  intros (_ & _ & _ & _ & [w Hw] & (d & m & Hd & Hm) & _). exists (al_Window a), (al_LockStart a), (al_LockMax a).
  unfold policy_of. cbn [FailuresBeforeLock Window LockStart LockMax]. rewrite (parse_of _ _ _ Hw), (parse_of _ _ _ Hd), (parse_of _ _ _ Hm).
  destruct Hw as (_ & _ & -> & _), Hd as (_ & _ & -> & _), Hm as (_ & _ & -> & _). done.
Qed.

(** What is started for a flag: a fresh limiter with exactly the limits configured, which
    the status line shows, or none and a warning. *)
Definition started (c : AppConf) (r : AuthStart) : Prop :=
  match as_Limiter r with
  | Some l => l = mkLimiter ∅ (policy_of (ac_Limits c)) 0 ∧ policy_locks (policy l) ∧ shows (policy l) (as_Status r)
  | None => has_prefix (as_Status r) "auth limits: OFF" = true ∧ ∃ w, w ∈ as_Log r ∧ has_prefix w "WARNING: authentication rate limiting is OFF" = true
  end.

Lemma off_line a : IsEnabled a = false → has_prefix (StatusLine a) "auth limits: OFF" = true.
Proof. intros He. unfold StatusLine. rewrite He. by destruct (negb _). Qed.
Lemma off_warning a b1 b2 : has_prefix (authLimitOffWarning a b1 b2) "WARNING: authentication rate limiting is OFF" = true.
Proof. unfold authLimitOffWarning. by destruct (_ && _), b1. Qed.

Lemma start_on_runs c s : limits_ok (ac_Limits c) → ∃ s' r, start_on c s = (s', Ok r) ∧ started c r ∧ as_Limiter r ≠ None.
Proof.
  intros Hok. unfold start_on. cbv zeta. rewrite bind_run. set (c' := if _ || _ then _ else c).
  assert (Hon : ∀ log, started c (mkAuthStart (Some (New (policy_of (ac_Limits c)))) (StatusLine (set_enabled (ac_Limits c) true "")) c' log)).
  { intros log. pose proof (policy_of_locks _ Hok) as Hl. unfold started. cbn [as_Limiter as_Status]. unfold New. rewrite policy_locks_kept by done. cbn [policy]. split; [done|]. split; [done|]. by apply StatusLine_shows. }
  destruct (_ || _).
  - destruct (persist_limits_runs c' "auth-limit: could not persist the re-enabled state: " s) as (s' & log & ->). eexists _, _. split; [reflexivity|done].
  - eexists _, _. split; [reflexivity|done].
Qed.
Lemma start_off_runs c b s : ∃ s' r, start_off c b s = (s', Ok r) ∧ started c r ∧ as_Limiter r = None.
Proof.
  unfold start_off. cbv zeta. rewrite bind_run. set (w := authLimitOffWarning).
  assert (Hoff : ∀ since c' log p, started c (mkAuthStart None (StatusLine (set_enabled (ac_Limits c) false since)) c'
    (log ++ [w (set_enabled (ac_Limits c) false since) b p]))).
  { intros since c' log p. split; [by apply off_line|]. cbn [as_Log]. eexists. split; [apply elem_of_app; right; by left|apply off_warning]. }
  destruct (negb (negb _)); [eexists _, _; split; [reflexivity|done]|]. destruct (negb (String.eqb _ _)); [eexists _, _; split; [reflexivity|done]|].
  rewrite bind_run. cbn [now]. set (c' := with_Limits c _). rewrite bind_run.
  destruct (persist_limits_runs c' "auth-limit: could not persist the disabled-since timestamp: " (tick1 s)) as (s' & log & ->).
  eexists _, _. split; [reflexivity|done].
Qed.

(** C23. Whatever the file of settings holds, a server runs either with a fresh limiter
    under exactly the limits configured (brought into bounds within which it does lock
    out repeated failures), or with none and a warning.  The status line of a limiter
    shows that limiter's failures, window, first and longest lock.  It runs without one
    just when the flag says off, or the file does and the flag is absent; and it is
    refused, with nothing done, just when the flag is none of absent, on and off. *)
Theorem startAuthLimit_locks c flag s :
  let f := to_lower (trim_space flag) in let c := Normalize c in
  match startAuthLimit c flag s with
  | (_, Ok r) => f ∈ ["";"on";"off"] ∧ started c r ∧ (as_Limiter r = None ↔ f = "off" ∨ (f = "" ∧ al_Enabled (ac_Limits c) = Some false))
  | (s', Err _) => s' = s ∧ f ∉ ["";"on";"off"]
  end.
Proof.
  cbv zeta. set (c1 := Normalize c). assert (Hok : limits_ok (ac_Limits c1)) by apply Normalize_ok.
  assert (He : IsEnabled (ac_Limits c1) = false ↔ al_Enabled (ac_Limits c1) = Some false).
  { unfold IsEnabled. destruct (al_Enabled (ac_Limits c1)) as [[]|]; split; congruence. }
  unfold startAuthLimit, resolveAuthLimitEnabled. cbv zeta. set (f := to_lower (trim_space flag)). rewrite bind_run.
  destruct (start_on_runs c1 s Hok) as (s1 & r1 & E1 & Hs1 & Hl1).
  destruct (String.eqb_spec f "") as [Hf|Hf]; cbn [lift]; [|destruct (String.eqb_spec f "on") as [Hf1|Hf1]; [|destruct (String.eqb_spec f "off") as [Hf2|Hf2]]]; cbn [lift].
  - destruct (IsEnabled (ac_Limits c1)) eqn:Ee.
    + rewrite E1. split; [rewrite Hf; by repeat constructor|]. split; [done|]. split; [by intros ?%Hl1|intros [?|[_ ?%He]]; congruence].
    + destruct (start_off_runs c1 false s) as (s2 & r2 & -> & Hs2 & Hl2). split; [rewrite Hf; by repeat constructor|]. split; [done|]. split; [intros _; right; split; [done|by apply He]|done].
  - rewrite E1. split; [rewrite Hf1; by repeat constructor|]. split; [done|]. split; [by intros ?%Hl1|intros [?|[? _]]; congruence].
  - destruct (start_off_runs c1 true s) as (s2 & r2 & -> & Hs2 & Hl2). split; [rewrite Hf2; by repeat constructor|]. split; [done|]. split; [by left|done].
  - split; [done|]. rewrite !not_elem_of_cons. split; [done|]. split; [done|]. split; [done|apply not_elem_of_nil].
Qed.
End start.

(** ** The file

    The file of the configuration: replaced in one step, and read back as written. *)

Section file.
Context `{Env} `{Platform} `{GoUnicode} `{ConfigJSON} (conf : list string).
Hypothesis conf_dir : ConfigDir = Ok (at_root conf []).
Hypothesis conf_plain : Forall plain_seg conf.
Hypothesis conf_some : conf ≠ [].

Definition conf_file : fpath := "" :: conf ++ ["appconfig.json"].
Lemma Path_is s s' p : Path s = (s', Ok p) → p = at_root conf ["appconfig.json"] ∧ st_files s' = st_files s.
Proof.
  unfold Path, EnsureConfigDir. rewrite conf_dir. change (lift (Ok ?a) ≫= ?f) with (f a). cbv beta zeta.
  intros (s1 & dir & (s2 & u & Hq & [= -> <-])%M_bind_ok & [= <- <-])%M_bind_ok.
  split; [|by apply query_ok in Hq as [-> _]].
  assert (Hd : path_join [at_root conf []] = at_root conf []).
  { unfold path_join. cbn [List.filter]. change (String.eqb (at_root conf []) "") with false. cbn [negb join_slash].
    unfold at_root. rewrite app_nil_r. by apply clean_abs. }
  rewrite Hd. by apply (join_at conf conf_plain conf_some ["appconfig.json"]); [repeat constructor|done|repeat constructor].
Qed.

Lemma Path_reads fs0 : preserves (eq fs0) Path.
Proof. unfold Path, EnsureConfigDir, os_MkdirAll. keep. Qed.
Lemma Path_quiet s : quiet s → ∃ s', Path s = (s', Ok (at_root conf ["appconfig.json"])) ∧ st_files s' = st_files s.
Proof.
  intros Hq. destruct (Path s) as [s' [p|e]] eqn:E; [by apply Path_is in E as H'; destruct H' as [-> ?]; eauto|].
  exfalso. unfold Path, EnsureConfigDir in E. rewrite conf_dir in E. change (lift (Ok ?a) ≫= ?f) with (f a) in E. cbv beta zeta in E.
  rewrite !bind_run in E. unfold os_MkdirAll in E. rewrite query_quiet in E by by apply quiet_now. done.
Qed.

Section written.
Context (data : bytes) (fs0 : files).
Definition new_file (fs : files) : Prop := ∃ t, fs !! conf_file = Some (mkFile data t).
Definition old_or_new (fs : files) : Prop := fs !! conf_file = fs0 !! conf_file ∨ new_file fs.

Lemma triple_cleanup tmp (r : result unit) : tmp ≠ conf_file →
  triple (fun fs => match r with Ok _ => new_file fs | Err _ => old_or_new fs end) (_ ← try (os_Remove tmp); lift r) (fun _ => new_file) old_or_new.
Proof.
  intros Hne. set (I fs := match r with Ok _ => new_file fs | Err _ => old_or_new fs end).
  assert (Hk : preserves I (os_Remove tmp)).
  { apply preserves_syscall. intros fs t Hs. destruct (fs !! tmp); [|done].
    unfold I, old_or_new, new_file in *. destruct r; cbn [fst]; by rewrite lookup_delete_ne. }
  apply (triple_bind _ _ (fun _ => I)).
  - intros st Hst. pose proof (preserves_try I _ Hk st Hst). unfold try in *. by destruct (os_Remove tmp st).
  - intros _. unfold I. destruct r; [by apply triple_ret|by apply triple_fail].
Qed.

Lemma triple_atomic : triple (eq fs0) (AppConfig.atomicWriteFile (at_root conf ["appconfig.json"]) data) (fun _ => new_file) old_or_new.
Proof.
  unfold AppConfig.atomicWriteFile. rewrite path_dir_at, !segs_at by (done || by repeat constructor). rewrite app_nil_r.
  apply triple_temp; [by left|]. intros name Hpre Hnew. set (tmp := ("" :: conf) ++ [name]).
  assert (Hne : tmp ≠ conf_file).
  { intros E. unfold tmp, conf_file in E. injection E as E. apply app_inv_head in E. injection E as ->. done. }
  assert (Hstg : ∀ fs, staging fs0 tmp fs → old_or_new fs) by (intros fs Hs; left; by apply Hs).
  apply (triple_bind _ _ (fun r fs => match r with Ok _ => new_file fs | Err _ => old_or_new fs end)).
  2: { intros r. by apply triple_cleanup. }
  apply triple_try. set (J := fun fs => staging fs0 tmp fs).
  assert (Hq : ∀ e, triple (A:=unit) J (_ ← try os_Quiet; fail e) (fun _ => new_file) old_or_new).
  { intros e. apply (triple_bind _ _ (fun _ => J)); [|intros _; by apply triple_fail].
    eapply triple_conseq; [apply triple_preserves, preserves_try, (preserves_query J)|done|done|exact Hstg]. }
  apply (triple_bind _ _ (fun w fs => match w with Ok _ => staged fs0 tmp data fs | Err _ => J fs end)).
  { apply triple_try, triple_write. }
  intros [u|e]; [|apply Hq].
  apply (triple_bind _ _ (fun c fs => match c with Ok _ => staged fs0 tmp data fs | Err _ => J fs end)).
  { apply triple_try, triple_staged_quiet. }
  intros [u'|e]; [|apply Hq].
  apply (triple_bind _ _ (fun _ => staged fs0 tmp data)).
  { eapply triple_conseq; [apply (triple_staged_quiet fs0 tmp data)|done|done|exact Hstg]. }
  intros _. apply (triple_bind _ _ (fun n fs => match n with Ok _ => new_file fs | Err _ => old_or_new fs end)).
  2: { intros [u''|e]; [by apply triple_ret|by apply triple_fail]. }
  apply triple_try, triple_syscall; [intros fs Hs; by apply Hstg, staged_staging with data|].
  intros fs t [_ [t' Ht]]. rewrite Ht. exists t'. by rewrite lookup_insert_eq.
Qed.
End written.

(** The whole of [Save]. *)
Lemma triple_Save c fs0 : triple (eq fs0) (AppConfig.Save c) (fun _ => new_file (marshal (AppConfig.Normalize c))) (old_or_new (marshal (AppConfig.Normalize c)) fs0).
Proof.
  unfold AppConfig.Save. cbv zeta. set (d := marshal _). assert (Hstay : ∀ fs, fs0 = fs → old_or_new d fs0 fs) by (intros fs <-; by left).
  apply (triple_bind _ _ (fun p fs => fs0 = fs ∧ p = at_root conf ["appconfig.json"])).
  - intros s ->. destruct (Path s) as [s' [p|e]] eqn:E; [by apply Path_is in E as [-> ->]|].
    apply Hstay. pose proof (Path_reads (st_files s) s eq_refl) as Hk. by rewrite E in Hk.
  - intros p. apply triple_from. intros fs [<- ->]. apply (triple_bind _ _ (fun _ => eq fs0)); [|intros _; apply triple_atomic].
    eapply triple_conseq; [apply triple_preserves, (preserves_query (eq fs0))|done|done|exact Hstay].
Qed.

(** A normal configuration survives the encoder. *)
Lemma normal_whole c : whole_over Default_ (AppConfig.Normalize c).
Proof.
  destruct (Normalize_ok c) as (_ & _ & _ & Hl & _). unfold whole_over. cbv zeta.
  destruct Hl as (He & Hf & Ha & Hk & (w & _ & Hw & _) & (d & m & (_ & Hd & _) & (_ & Hm & _)) & (fd & _ & Hfd & _) & _).
  unfold maxFailuresBeforeLock, maxAccountFailuresBeforeLock, maxAuthMaxKeys in *. repeat (split; [done || lia|]). done.
Qed.

(** C27. Saving the configuration replaces its file in one step: whatever calls fail, the
    file is as it was or holds the new configuration, and it holds the new one when no
    error is reported.  A later load then returns exactly the normalised configuration. *)
Theorem save_then_load c s s' r : AppConfig.Save c s = (s', r) → json_ok (AppConfig.Normalize c) →
  (st_files s' !! conf_file = st_files s !! conf_file ∨ ∃ t, st_files s' !! conf_file = Some (mkFile (marshal (AppConfig.Normalize c)) t)) ∧
  (r = Ok tt → (∃ t, st_files s' !! conf_file = Some (mkFile (marshal (AppConfig.Normalize c)) t)) ∧
     ((∀ i, env_fault i = None) → ∃ s2, AppConfig.Load_ s' = (s2, Ok (AppConfig.Normalize c, None)))).
Proof.
  intros E Hj. pose proof (triple_Save c (st_files s) s eq_refl) as Ht. rewrite E in Ht. destruct r as [[]|e].
  - split; [by right|]. intros _. split; [exact Ht|]. intros Hq. destruct Ht as [t Ht].
    unfold AppConfig.Load_. rewrite bind_run, try_run. destruct (Path_quiet s' ltac:(by intros i _)) as (s1 & -> & F1). cbn [fst snd].
    rewrite bind_run, try_run. unfold os_ReadFile at 1 2. rewrite segs_at by (done || by repeat constructor). fold conf_file.
    rewrite query_quiet by apply Hq. cbn [fst snd]. rewrite F1, Ht. cbn [f_data].
    rewrite into_marshal by (done || apply normal_whole). eexists. rewrite Normalize_fixed by apply Normalize_ok. reflexivity.
  - split; [exact Ht|done].
Qed.
End file.

(** ** A configuration saved and loaded *)

#[global] Instance AuthLimits_Fields : Fields AuthLimits.
Proof.
  by apply (Fields_via
    (fun a => (al_Enabled a, al_FailuresBeforeLock a, al_AccountFailuresBeforeLock a, al_Window a, al_LockStart a, al_LockMax a, al_FailureDelay a, al_MaxKeys a, al_DisabledSince a))
    (fun '(a, b, c, d, e, f, g, h, i) => mkAuthLimits a b c d e f g h i)); intros [].
Defined.
#[global] Instance TLSSection_Fields : Fields TLSSection.
Proof. by apply (Fields_via (fun t => (ts_CertFile t, ts_KeyFile t, ts_AllowHosts t)) (fun '(a, b, c) => mkTLSSection a b c)); intros []. Defined.
#[global] Instance GUIConfig_Fields : Fields GUIConfig.
Proof.
  by apply (Fields_via
    (fun g => (gc_Protocol g, gc_CertFile g, gc_KeyFile g, gc_SelfSigned g, gc_Username g, gc_PasswordConfigured g, gc_PasswordHash g))
    (fun '(a, b, c, d, e, f, g) => mkGUIConfig a b c d e f g)); intros [].
Defined.
#[global] Instance AppConf_Fields : Fields AppConf.
Proof.
  by apply (Fields_via
    (fun c => (ac_Version c, ac_GUI c, ac_TLS c, ac_Limits c,
               (lg_MaxEntries (ac_Log c), lg_FilePath (ac_Log c), lg_Persist (ac_Log c)),
               (rs_RcloneChannel (ac_Sources c), rs_RsyncSourceBaseURL (ac_Sources c), rs_RsyncRuntimeBaseURL (ac_Sources c), rs_WSLInstallSource (ac_Sources c))))
    (fun '(a, b, c, d, (e1, e2, e3), (f1, f2, f3, f4)) => mkAppConf a b c d (mkLogConfig e1 e2 e3) (mkRuntimeSources f1 f2 f3 f4)));
    intros [? ? ? ? [] []].
Defined.
Definition json_conf : JSON AppConf := fields_json.
Lemma json_conf_into (d c : AppConf) : @json_ok _ json_conf c → whole_over d c → @unmarshal _ json_conf (@marshal _ json_conf c) = Some c.
Proof. intros Hj _. by apply (@unmarshal_marshal _ json_conf). Qed.
Definition config_json : @ConfigJSON json_conf := @Build_ConfigJSON json_conf (fun _ => @unmarshal _ json_conf) json_conf_into.

Section demo.
#[local] Existing Instances demo_unicode demo_platform demo_env json_conf config_json.
(** A file that would switch the limiter off in all but name. *)
Definition hostile : AppConf :=
  with_Limits Default_ (mkAuthLimits None 2000000000 0 "1ns" "0s" "5s" "-1s" 0 " yesterday ").
Definition saved : St * result unit := AppConfig.Save hostile (mkSt ∅ 0 None 0 None).
#[local] Strategy -100 [saved].
Lemma saved_ok : is_ok saved.2 = true.
Proof. vm_compute. reflexivity. Qed.

Lemma save_then_load_witness :
  is_ok saved.2 = true ∧ ac_Limits (AppConfig.Normalize hostile) = mkAuthLimits (Some true) 5 20 "15m" "30s" "30s" "250ms" 10000 "" ∧
  ∃ s2, AppConfig.Load_ saved.1 = (s2, Ok (AppConfig.Normalize hostile, None)).
Proof.
  split; [exact saved_ok|]. split; [vm_compute; reflexivity|].
  refine (proj2 (proj2 (save_then_load ["home"; "u"; ".config"; "seavault"] _ _ _ hostile (mkSt ∅ 0 None 0 None) saved.1 saved.2 _ _) (is_ok_tt _ saved_ok)) _).
  - vm_compute. reflexivity.
  - repeat constructor; discriminate.
  - discriminate.
  - exact (surjective_pairing saved).
  - done.
  - intros i. reflexivity.
Defined.
End demo.
