(* ===== verification/TLSConfig.v ===== *)
(** The certificate a server shows (internal/tlsconfig): which pair of files is chosen,
    what makes a pair acceptable, and how a changed pair replaces the one in service.

    A certificate is what crypto/x509 tells of it; parsing and the match of a key are
    interfaces.  Instants are those of the clock. *)
From Stdlib Require Import Floats.SpecFloat.
From S2P Require Export AppConfig VaultOps.
Local Open Scope Z_scope.

(** ** Certificates *)

(** A public key, by algorithm. *)
Inductive PublicKey : Type :=
  | RSAKey (b : bytes)
  | ECDSAKey (b : bytes)
  | Ed25519Key (b : bytes)
  | OtherKey (b : bytes).
#[global] Instance PublicKey_eq_dec : EqDecision PublicKey.
Proof. solve_decision. Defined.
(** An [x509.Certificate], as far as it is read. *)
Record Leaf : Type := mkLeaf {
  lf_Raw : bytes; lf_DNSNames : list string; lf_IPAddresses : list string; lf_NotBefore : Z; lf_NotAfter : Z;
  lf_SubjectCN : string; lf_IssuerCN : string; lf_RawIssuer : bytes; lf_RawSubject : bytes; lf_PublicKey : PublicKey }.

(** encoding/pem, crypto/x509 and crypto/tls.  A private key is its public half, when it
    is a signer. *)
Class X509 := {
  pem_Decode : bytes → option (string * bytes * bytes);
  pem_shorter data t b rest : pem_Decode data = Some (t, b, rest) → (length rest < length data)%nat;
  ParseCertificate : bytes → option Leaf;
  ParsePKCS8 : bytes → option (option PublicKey);
  ParsePKCS1 : bytes → option (option PublicKey);
  ParseEC : bytes → option (option PublicKey);
  (** the leaf of [tls.X509KeyPair], with its own parse when it has none *)
  X509KeyPair : bytes → bytes → option (option Leaf);
  (** whether a file may be read by others than its owner *)
  open_to_others : files → fpath → bool
}.

Definition ErrHalfPair : err := ESentinel "ErrHalfPair".
Definition ErrKeyMismatch : err := ESentinel "ErrKeyMismatch".
Definition ErrCertParse : err := ESentinel "ErrCertParse".
Definition ErrKeyParse : err := ESentinel "ErrKeyParse".

(** internal/tlsconfig/validate.go:24-24 [renewWindow] *)
Definition renewWindow : Z := 14 * 24 * time_Hour.
(** internal/tlsconfig/validate.go:28-37 [Info] *)
Record Info : Type := mkInfo {
  in_Names : list string; in_NotBefore : Z; in_NotAfter : Z; in_SubjectCN : string; in_IssuerCN : string;
  in_SelfSigned : bool; in_Fingerprint : string; in_Warnings : list string }.

Section validate.
Context `{X509}.

(** internal/tlsconfig/validate.go:102-119 [parseLeaf]; every round takes a block. *)
Fixpoint parseLeaf_fuel (fuel : nat) (data : bytes) : result Leaf :=
  match fuel with
  | O => Err (EWrap "no CERTIFICATE block found" ErrCertParse)
  | S f =>
      match pem_Decode data with
      | None => Err (EWrap "no CERTIFICATE block found" ErrCertParse)
      | Some (t, b, rest) =>
          if negb (String.eqb t "CERTIFICATE") then parseLeaf_fuel f rest
          else match ParseCertificate b with Some l => Ok l | None => Err (EWrap "x509" ErrCertParse) end
      end
  end.
(** internal/tlsconfig/validate.go:102-119 [parseLeaf] *)
Definition parseLeaf (data : bytes) : result Leaf := parseLeaf_fuel (S (length data)) data.

(** internal/tlsconfig/validate.go:124-147 [parsePrivateKey]; every round takes a block. *)
Fixpoint parsePrivateKey_fuel (fuel : nat) (data : bytes) : result (option PublicKey) :=
  match fuel with
  | O => Err (EWrap "no PRIVATE KEY block found" ErrKeyParse)
  | S f =>
      match pem_Decode data with
      | None => Err (EWrap "no PRIVATE KEY block found" ErrKeyParse)
      | Some (t, b, rest) =>
          if negb (has_suffix t "PRIVATE KEY") then parsePrivateKey_fuel f rest
          else match ParsePKCS8 b with
               | Some k => Ok k
               | None => match ParsePKCS1 b with
                         | Some k => Ok k
                         | None => match ParseEC b with
                                   | Some k => Ok k
                                   | None => Err (EWrap "unsupported private key encoding" ErrKeyParse)
                                   end
                         end
               end
      end
  end.
(** internal/tlsconfig/validate.go:124-147 [parsePrivateKey] *)
Definition parsePrivateKey (data : bytes) : result (option PublicKey) := parsePrivateKey_fuel (S (length data)) data.

(** internal/tlsconfig/validate.go:151-167 [publicKeysEqual] *)
Definition publicKeysEqual (pub : PublicKey) (priv : option PublicKey) : bool :=
  match priv with
  | None => false
  | Some k => match pub with OtherKey _ => false | _ => bool_decide (pub = k) end
  end.
(** internal/tlsconfig/validate.go:171-178 [leafNames] *)
Definition leafNames (l : Leaf) : list string := lf_DNSNames l ++ lf_IPAddresses l.
Definition fingerprint (l : Leaf) : string := hex_encode (sha256 (lf_Raw l)).

(** [int(d.Hours() / 24)], in doubles. *)
Definition f64_int (f : spec_float) : Z :=
  match f with
  | S754_finite s m e => let n := Z.shiftl (Z.pos m) e in if s then - n else n
  | _ => 0
  end.
Definition duration_Hours (d : Z) : spec_float :=
  SFadd 53 1024 (f64_of_Z (Z.quot d time_Hour)) (f64_div (f64_of_Z (Z.rem d time_Hour)) (f64_of_Z time_Hour)).
Definition days_in_duration (d : Z) : Z := f64_int (f64_div (duration_Hours d) (f64_of_Z 24)).

Context `{Env} `{Platform}.

(** internal/tlsconfig/validate.go:182-194 [keyPermWarning] *)
Definition keyPermWarning (keyPath : string) : M string :=
  if String.eqb GOOS "windows" then mret ""
  else
    r ← try (query (fun fs => if bool_decide (is_Some (fs !! os_segs keyPath)) || is_dir fs (os_segs keyPath)
                              then Ok (open_to_others fs (os_segs keyPath)) else Err ErrNotExist));
    mret (match r with
          | Ok true => str_concat ["key file "; keyPath; " is group/world-readable — run chmod 600 "; keyPath]
          | _ => ""
          end).

(** internal/tlsconfig/validate.go:49-99 [validateAt]: the warning about the time *)
Definition time_warning (l : Leaf) (now : Z) : list string :=
  if lf_NotAfter l <? now then ["certificate expired on " +:+ format_rfc3339 (lf_NotAfter l)]
  else if now <? lf_NotBefore l then ["certificate is not valid until " +:+ format_rfc3339 (lf_NotBefore l)]
  else if dur_sub (lf_NotAfter l) now <? renewWindow then
    [str_concat ["certificate expires in "; itoa (days_in_duration (dur_sub (lf_NotAfter l) now)); " days (";
       format_rfc3339 (lf_NotAfter l); ") — renew soon"]]
  else [].
(** internal/tlsconfig/validate.go:49-99 [validateAt] *)
Definition validateAt (certPath keyPath : string) (now : Z) : M Info :=
  c ← try (os_ReadFile (os_segs certPath));
  match c with
  | Err _ => fail (EWrap "cannot read " ErrCertParse)
  | Ok certPEM =>
      l ← lift (parseLeaf certPEM);
      k ← try (os_ReadFile (os_segs keyPath));
      match k with
      | Err _ => fail (EWrap "cannot read " ErrKeyParse)
      | Ok keyPEM =>
          priv ← lift (parsePrivateKey keyPEM);
          if negb (publicKeysEqual (lf_PublicKey l) priv) then fail (EWrap certPath ErrKeyMismatch)
          else
            w ← keyPermWarning keyPath;
            mret (mkInfo (leafNames l) (lf_NotBefore l) (lf_NotAfter l) (lf_SubjectCN l) (lf_IssuerCN l)
              (bool_decide (lf_RawIssuer l = lf_RawSubject l)) (fingerprint l)
              (time_warning l now ++ (if String.eqb w "" then [] else [w])))
      end
  end.
(** internal/tlsconfig/validate.go:45-47 [Validate] *)
Definition Validate (certPath keyPath : string) : M Info := t ← now; validateAt certPath keyPath t.

(** internal/tlsconfig/tlsconfig.go:212-233 [loadCertificate]: the leaf of the pair *)
Definition loadCertificate (certPath keyPath : string) : M (option Leaf) :=
  c ← try (os_ReadFile (os_segs certPath));
  match c with
  | Err _ => fail (EWrap certPath ErrCertParse)
  | Ok certPEM =>
      k ← try (os_ReadFile (os_segs keyPath));
      match k with
      | Err _ => fail (EWrap keyPath ErrKeyParse)
      | Ok keyPEM => match X509KeyPair certPEM keyPEM with
                     | None => fail (EWrap certPath ErrKeyMismatch)
                     | Some l => mret l
                     end
      end
  end.
End validate.

(** ** The choice of the pair *)

(** internal/tlsconfig/tlsconfig.go:30-30 [Source] *)
Inductive Source : Type := SourceFlags | SourceConfig | SourceLegacyGUI | SourceSelfSigned | SourceNone.
#[global] Instance Source_eq_dec : EqDecision Source.
Proof. solve_decision. Defined.
(** internal/tlsconfig/tlsconfig.go:65-71 [Options] *)
Record TLSOptions : Type := mkTLSOptions { to_CertFlag : string; to_KeyFlag : string; to_Cfg : AppConf; to_Purpose : string; to_BindHost : string }.
(** internal/tlsconfig/tlsconfig.go:74-85 [Resolved]; a nil [TLS] is no leaf in service *)
Record Resolved : Type := mkResolved {
  rv_Serving : option (option Leaf); rv_Source : Source; rv_CertPath : string; rv_KeyPath : string; rv_SelfSigned : bool;
  rv_Names : list string; rv_NotAfter : Z; rv_Warnings : list string }.

Section resolve.
Context `{Env} `{Platform} `{GoUnicode} `{ConfigJSON} `{SelfSigner} `{X509}.

(** One tier of the chain: nothing configured, half a pair or a pair. *)
Definition tier (cert key : string) (msg : string) (src : Source) (next : M (string * string * Source)) : M (string * string * Source) :=
  let c := trim_space cert in
  let k := trim_space key in
  if negb (String.eqb c "") || negb (String.eqb k "") then
    if String.eqb c "" || String.eqb k "" then fail (EWrap msg ErrHalfPair) else mret (c, k, src)
  else next.

(** internal/tlsconfig/tlsconfig.go:164-207 [pickPair] *)
Definition pickPair (o : TLSOptions) : M (string * string * Source) :=
  tier (to_CertFlag o) (to_KeyFlag o) "--tls-cert and --tls-key must be given together" SourceFlags
    (tier (ts_CertFile (ac_TLS (to_Cfg o))) (ts_KeyFile (ac_TLS (to_Cfg o))) "tls.certFile and tls.keyFile must be set together" SourceConfig
      (if String.eqb (to_Purpose o) "gui" then
         tier (gc_CertFile (ac_GUI (to_Cfg o))) (gc_KeyFile (ac_GUI (to_Cfg o))) "gui.certFile and gui.keyFile must be set together" SourceLegacyGUI
           (if String.eqb (gc_Protocol (ac_GUI (to_Cfg o))) "https" then
              ncfg ← EnsureSelfSignedCertificate (to_Cfg o) (to_BindHost o);
              mret (trim_space (gc_CertFile (ac_GUI ncfg)), trim_space (gc_KeyFile (ac_GUI ncfg)), SourceSelfSigned)
            else mret ("", "", SourceNone))
       else mret ("", "", SourceNone))).

(** internal/tlsconfig/tlsconfig.go:118-160 [Resolve] *)
Definition Resolve (o : TLSOptions) : M Resolved :=
  '(certPath, keyPath, src) ← pickPair o;
  if bool_decide (src = SourceNone) then mret (mkResolved None SourceNone "" "" false [] 0 [])
  else
    info ← Validate certPath keyPath;
    cert ← loadCertificate certPath keyPath;
    mret (mkResolved (Some cert) src certPath keyPath
      (bool_decide (src = SourceSelfSigned) || (bool_decide (src = SourceLegacyGUI) && gc_SelfSigned (ac_GUI (to_Cfg o))) || in_SelfSigned info)
      (in_Names info) (in_NotAfter info) (in_Warnings info)).
End resolve.

(** ** The certificate of a running listener

    The certificate of a running listener (internal/tlsconfig/reload.go): the files are
    looked at every interval, and a changed pair replaces the one in service when it is
    valid and no downgrade. *)

(** internal/tlsconfig/reload.go:31-31 [DefaultPollInterval] *)
Definition DefaultPollInterval : Z := 30 * nano.
(** internal/tlsconfig/reload.go:36-36 [heartbeatInterval] *)
Definition heartbeatInterval : Z := 24 * time_Hour.
(** internal/tlsconfig/reload.go:40-40 [staleAfter] *)
Definition staleAfter : Z := 2 * 24 * time_Hour.
(** internal/tlsconfig/reload.go:43-43 [servingFileName] *)
Definition servingFileName : string := "serving.json".

(** internal/tlsconfig/reload.go:47-52 [Serving] *)
Record Serving : Type := mkServing { sg_Fingerprint : string; sg_Names : list string; sg_NotAfter : Z; sg_UpdatedAt : Z }.
(** internal/tlsconfig/reload.go:70-83 [Reloader]; with the certificate of its holder and the
    lines it logged; a zero time is [None] *)
Record Reloader : Type := mkReloader {
  rl_leaf : option Leaf; rl_certPath : string; rl_keyPath : string; rl_interval : Z; rl_servingPath : string;
  rl_lastCertMod : option Z; rl_lastKeyMod : option Z; rl_lastServingWrite : option Z; rl_log : list string }.
Definition log_line (rl : Reloader) (l : string) : Reloader :=
  mkReloader (rl_leaf rl) (rl_certPath rl) (rl_keyPath rl) (rl_interval rl) (rl_servingPath rl) (rl_lastCertMod rl) (rl_lastKeyMod rl)
    (rl_lastServingWrite rl) (rl_log rl ++ [l]).
Definition set_mods (rl : Reloader) (c k : Z) : Reloader :=
  mkReloader (rl_leaf rl) (rl_certPath rl) (rl_keyPath rl) (rl_interval rl) (rl_servingPath rl) (Some c) (Some k)
    (rl_lastServingWrite rl) (rl_log rl).
Definition set_written (rl : Reloader) (t : Z) : Reloader :=
  mkReloader (rl_leaf rl) (rl_certPath rl) (rl_keyPath rl) (rl_interval rl) (rl_servingPath rl) (rl_lastCertMod rl) (rl_lastKeyMod rl)
    (Some t) (rl_log rl).
Definition set_leaf (rl : Reloader) (l : option Leaf) : Reloader :=
  mkReloader l (rl_certPath rl) (rl_keyPath rl) (rl_interval rl) (rl_servingPath rl) (rl_lastCertMod rl) (rl_lastKeyMod rl)
    (rl_lastServingWrite rl) (rl_log rl).

(** internal/tlsconfig/reload.go:275-277 [withinWindow] *)
Definition withinWindow (l : Leaf) (now : Z) : bool := negb (now <? lf_NotBefore l) && negb (lf_NotAfter l <? now).
(** internal/tlsconfig/reload.go:209-211 [candidateOutOfWindow] *)
Definition candidateOutOfWindow (l : option Leaf) (now : Z) : bool :=
  match l with None => true | Some l => (lf_NotAfter l <? now) || (now <? lf_NotBefore l) end.
(** internal/tlsconfig/reload.go:218-220 [isExpiryWarning] *)
Definition isExpiryWarning (w : string) : bool := has_prefix w "certificate ".

Section reload.
Context `{Env} `{Platform} `{X509} `{JSON Serving}.

(** internal/tlsconfig/reload.go:345-368 [atomicWrite]; the deferred removal runs on every way out *)
Definition atomicWrite (path : string) (data : bytes) : M unit :=
  tmp ← os_CreateTemp (os_segs (path_dir path)) ".tmp-serving-";
  r ← try (w ← try (os_Write tmp data);
           match w with
           | Err e => _ ← try os_Quiet; fail e
           | Ok _ =>
               c ← try os_Quiet;
               match c with
               | Err e => _ ← try os_Quiet; fail e
               | Ok _ =>
                   _ ← os_Quiet;
                   n ← try (os_Rename tmp (os_segs path));
                   match n with Err e => fail (EWrap "replace serving.json: " e) | Ok _ => mret tt end
               end
           end);
  _ ← try (os_Remove tmp);
  lift r.

(** internal/tlsconfig/reload.go:245-261 [writeServing] *)
Definition writeServing (rl : Reloader) (l : Leaf) (now : Z) : M unit :=
  _ ← os_MkdirAll (os_segs (path_dir (rl_servingPath rl)));
  atomicWrite (rl_servingPath rl) (marshal (mkServing (fingerprint l) (leafNames l) (lf_NotAfter l) now)).

(** internal/tlsconfig/reload.go:225-241 [onServing] *)
Definition onServing (rl : Reloader) (leaf : option Leaf) : M Reloader :=
  match leaf with
  | None => mret rl
  | Some l =>
      t ← now;
      w ← try (writeServing rl l t);
      let rl := match w with
                | Err e => log_line rl (str_concat ["tls: could not update "; rl_servingPath rl; ": "; err_text e])
                | Ok _ => rl
                end in
      let rl := set_written rl t in
      let left := dur_sub (lf_NotAfter l) t in
      mret (if left <? renewWindow
            then log_line rl (str_concat ["tls: the serving certificate has "; itoa (days_in_duration left); " days left (renew soon; the app reloads a renewed pair within %s)"])
            else rl)
  end.

(** internal/tlsconfig/reload.go:281-291 [statMods] *)
Definition statMods (certPath keyPath : string) : M (option (Z * Z)) :=
  c ← try (os_Info (os_segs certPath));
  match c with
  | Err _ => mret None
  | Ok cf =>
      k ← try (os_Info (os_segs keyPath));
      mret (match k with Err _ => None | Ok kf => Some (f_mtime cf, f_mtime kf) end)
  end.
(** internal/tlsconfig/reload.go:264-272 [recordMods] *)
Definition recordMods (rl : Reloader) : M Reloader :=
  m ← statMods (rl_certPath rl) (rl_keyPath rl);
  mret (match m with None => rl | Some (c, k) => set_mods rl c k end).

(** The warnings of a pair that are not about the time. *)
Definition log_warnings (rl : Reloader) (ws : list string) : Reloader :=
  fold_left (fun rl w => if isExpiryWarning w then rl else log_line rl ("tls reload: " +:+ w)) ws rl.

(** internal/tlsconfig/reload.go:166-205 [reload]; [hook] is what happens to the files between the
    two times they are read *)
Definition reload (hook : M unit) (rl : Reloader) : M Reloader :=
  t ← now;
  i ← try (validateAt (rl_certPath rl) (rl_keyPath rl) t);
  match i with
  | Err e => mret (log_line rl ("tls reload: keeping the current certificate; the new pair was rejected: " +:+ err_text e))
  | Ok info =>
      _ ← try hook;
      c ← try (loadCertificate (rl_certPath rl) (rl_keyPath rl));
      match c with
      | Err e => mret (log_line rl ("tls reload: keeping the current certificate; the new pair failed to load: " +:+ err_text e))
      | Ok cert =>
          if candidateOutOfWindow cert t && match rl_leaf rl with Some l => withinWindow l t | None => false end
          then mret (log_line rl "tls reload: keeping the current certificate; the new leaf is expired or not yet valid while the serving leaf is still valid")
          else
            rl ← onServing (set_leaf rl cert) cert;
            mret (log_warnings rl (in_Warnings info))
      end
  end.

(** internal/tlsconfig/reload.go:142-161 [tick] *)
Definition tick (hook : M unit) (rl : Reloader) : M Reloader :=
  m ← statMods (rl_certPath rl) (rl_keyPath rl);
  let changed := match m with
                 | None => false
                 | Some (c, k) => negb (bool_decide (rl_lastCertMod rl = Some c)) || negb (bool_decide (rl_lastKeyMod rl = Some k))
                 end in
  let lastServing := rl_lastServingWrite rl in
  let rl := match m with None => rl | Some (c, k) => set_mods rl c k end in
  if changed then reload hook rl
  else
    t ← now;
    if heartbeatInterval <=? match lastServing with Some u => dur_sub t u | None => int64_max end
    then onServing rl (rl_leaf rl) else mret rl.

(** internal/tlsconfig/reload.go:124-138 [Run]: one hook per tick *)
Definition Run (rl : Reloader) (hooks : list (M unit)) : M Reloader :=
  rl ← recordMods rl;
  rl ← onServing rl (rl_leaf rl);
  mfold (fun rl hook => tick hook rl) rl hooks.

(** internal/tlsconfig/reload.go:88-119 [Resolved.Reloader] *)
Definition NewReloader (r : Resolved) (interval : Z) (dir : string) : M (option Reloader) :=
  match rv_Serving r with
  | None => mret None
  | Some leaf =>
      d ← (if String.eqb dir "" then e ← try (EnsureConfigDir ["tls"]); mret (match e with Ok d => d | Err _ => "" end) else mret dir);
      mret (Some (mkReloader leaf (rv_CertPath r) (rv_KeyPath r) (if interval <=? 0 then DefaultPollInterval else interval)
        (path_join [d; servingFileName]) None None None []))
  end.

(** ** What a running listener tells *)

(** internal/tlsconfig/reload.go:296-304 [RunningStatus] *)
Record RunningStatus : Type := mkRunningStatus {
  ru_Present : bool; ru_Stale : bool; ru_DaysLeft : Z; ru_Names : list string; ru_Fingerprint : string; ru_NotAfter : Z; ru_UpdatedAt : Z }.
(** internal/tlsconfig/reload.go:307-317 [ReadServing] *)
Definition ReadServing (dir : string) : M Serving :=
  data ← os_ReadFile (os_segs (path_join [dir; servingFileName]));
  match unmarshal data with Some s => mret s | None => fail (ENew "invalid character in serving.json") end.
(** internal/tlsconfig/reload.go:322-336 [RunningListenerStatus] *)
Definition RunningListenerStatus (dir : string) (now : Z) : M RunningStatus :=
  r ← try (ReadServing dir);
  mret (match r with
        | Err _ => mkRunningStatus false false 0 [] "" 0 0
        | Ok s => mkRunningStatus true (staleAfter <? dur_sub now (sg_UpdatedAt s)) (days_in_duration (dur_sub (sg_NotAfter s) now))
                    (sg_Names s) (sg_Fingerprint s) (sg_NotAfter s) (sg_UpdatedAt s)
        end).
(** internal/tlsconfig/reload.go:340-342 [ServingDir] *)
Definition ServingDir : M string := EnsureConfigDir ["tls"].
End reload.
