(* ===== verification/TLSReloadFacts.v ===== *)
(** A running listener never goes from a certificate that is valid to one that is not,
    and follows a changed pair as a short table says. *)
From S2P Require Export TLSConfig WorldFacts OpenVaultFacts.
Local Open Scope Z_scope.

Section reload.
Context `{Env} `{Platform} `{X509} `{JSON Serving}.

(** ** What each step does to the certificate in service *)

Lemma log_warnings_leaf ws : ∀ rl, rl_leaf (log_warnings rl ws) = rl_leaf rl.
Proof. unfold log_warnings. induction ws as [|w ws IH]; intros rl; [done|]. cbn [fold_left]. rewrite IH. by destruct (isExpiryWarning w). Qed.
Lemma log_warnings_mods ws : ∀ rl, rl_lastCertMod (log_warnings rl ws) = rl_lastCertMod rl ∧ rl_lastKeyMod (log_warnings rl ws) = rl_lastKeyMod rl.
Proof. unfold log_warnings. induction ws as [|w ws IH]; intros rl; [done|]. cbn [fold_left]. destruct (isExpiryWarning w); [apply IH|apply (IH (log_line rl _))]. Qed.
(** Only the log and the time of the last write change. *)
Definition same_but_log (rl rl' : Reloader) : Prop :=
  rl_leaf rl' = rl_leaf rl ∧ rl_certPath rl' = rl_certPath rl ∧ rl_keyPath rl' = rl_keyPath rl ∧
  rl_lastCertMod rl' = rl_lastCertMod rl ∧ rl_lastKeyMod rl' = rl_lastKeyMod rl.
Lemma onServing_run rl l s : ∃ s' rl', onServing rl l s = (s', Ok rl') ∧ same_but_log rl rl'.
Proof.
  unfold onServing. destruct l as [l|]; [|by exists s, rl]. rewrite bind_run. cbn [now]. rewrite bind_run, try_run. cbv beta iota zeta.
  eexists _, _. split; [reflexivity|]. destruct (writeServing _ _ _ _).2; cbn [mret M_ret fst snd]; by destruct (_ <? _).
Qed.

Lemma Info_run p s : ∃ r, os_Info p s = (tick1 s, r).
Proof. destruct (query_run (fun fs => match fs !! p with Some f => Ok f | None => Err ErrNotExist end) s) as (r & E & _). by exists r. Qed.
Lemma statMods_run c k s : ∃ s' m, statMods c k s = (s', Ok m) ∧ (st_tick s ≤ st_tick s' ≤ st_tick s + 2)%nat ∧ st_files s' = st_files s.
Proof.
  unfold statMods. rewrite bind_run, try_run. destruct (Info_run (os_segs c) s) as [r ->]. cbn [fst snd].
  destruct r as [cf|e]; [|exists (tick1 s), None; split; [reflexivity|split; [cbn; lia|done]]].
  rewrite bind_run, try_run. destruct (Info_run (os_segs k) (tick1 s)) as [r ->].
  cbn [fst snd]. eexists (tick1 (tick1 s)), _. split; [reflexivity|split; [cbn; lia|done]].
Qed.

#[global] Instance in_window_dec l t : Decision (∃ x, l = Some x ∧ lf_NotBefore x ≤ t ≤ lf_NotAfter x).
Proof.
  destruct l as [l|]; [|right; by intros (? & ? & _)].
  destruct (decide (lf_NotBefore l ≤ t ≤ lf_NotAfter l)) as [Hd|Hd]; [left; by exists l|right; by intros (x & [= <-] & ?)].
Defined.

(** The two files of the reloader hold a certificate and its key. *)
Definition on_disk (fs : files) (c k : string) (leaf : option Leaf) : Prop :=
  ∃ cf kf, fs !! os_segs c = Some cf ∧ fs !! os_segs k = Some kf ∧ X509KeyPair (f_data cf) (f_data kf) = Some leaf.
Lemma ReadFile_found p s s' d : os_ReadFile p s = (s', Ok d) → s' = tick1 s ∧ ∃ f, st_files s !! p = Some f ∧ f_data f = d.
Proof.
  unfold os_ReadFile. match goal with |- context [query ?a s] => destruct (query_run a s) as (r & -> & Hr) end. intros [= <- ->]. split; [done|].
  destruct Hr as [Hr|(e & _ & Hr)]; [|done]. cbv beta in Hr. destruct (st_files s !! p) as [f|]; [|done]. injection Hr as ->. by exists f.
Qed.
Lemma loadCertificate_read c k s s' leaf : loadCertificate c k s = (s', Ok leaf) → on_disk (st_files s) c k leaf.
Proof.
  unfold loadCertificate. rewrite bind_run, try_run. destruct (os_ReadFile (os_segs c) s) as [s1 [cert|e]] eqn:E1; cbn [fst snd]; [|done].
  apply ReadFile_found in E1 as (-> & cf & Hc & <-). rewrite bind_run, try_run.
  destruct (os_ReadFile (os_segs k) (tick1 s)) as [s2 [key|e]] eqn:E2; cbn [fst snd]; [|done].
  apply ReadFile_found in E2 as (-> & kf & Hk & <-). destruct (X509KeyPair (f_data cf) (f_data kf)) as [l|] eqn:Ek; [|done].
  intros [= _ <-]. by exists cf, kf.
Qed.
Lemma validateAt_keeps (I : files → Prop) c k t : preserves I (validateAt c k t).
Proof. unfold validateAt, keyPermWarning, os_ReadFile. keep. Qed.

Definition in_window (l : option Leaf) (t : Z) : Prop := ∃ x, l = Some x ∧ lf_NotBefore x ≤ t ≤ lf_NotAfter x.
#[global] Instance in_window_decision l t : Decision (in_window l t) := in_window_dec l t.
Lemma within_iff l t : withinWindow l t = true ↔ lf_NotBefore l ≤ t ≤ lf_NotAfter l.
Proof. unfold withinWindow. rewrite andb_true_iff, !negb_true_iff, !Z.ltb_ge. done. Qed.
Lemma in_iff l t : candidateOutOfWindow l t = false ↔ in_window l t.
Proof.
  unfold candidateOutOfWindow. destruct l as [l|]; [|split; [done|by intros (? & ? & _)]]. rewrite orb_false_iff, !Z.ltb_ge. split.
  - intros [? ?]. exists l. split; [done|lia].
  - intros (x & [= <-] & ?). lia.
Qed.
Lemma out_iff l t : candidateOutOfWindow l t = true ↔ ¬ in_window l t.
Proof. rewrite <- in_iff. by destruct (candidateOutOfWindow l t). Qed.
Lemma downgrade_iff cand serving t :
  candidateOutOfWindow cand t && match serving with Some l => withinWindow l t | None => false end = true ↔
  ¬ in_window cand t ∧ in_window serving t.
Proof.
  rewrite andb_true_iff, out_iff. destruct serving as [l|].
  - rewrite within_iff. split; [intros [? ?]; split; [done|by exists l]|intros [? (x & [= <-] & ?)]; done].
  - split; [by intros [_ ?]|by intros [_ (? & ? & _)]].
Qed.

(** The certificate in service before a tick and after it: what is new is the pair that
    stands on the disk [fs] once [hook] is through with it, and it is within its dates at
    [t] if the old one is. *)
Definition succeeds (hook : M unit) (fs : files) (t : Z) (rl : Reloader) (new : option Leaf) : Prop :=
  new = rl_leaf rl ∨
  (∃ mid, st_files mid = fs ∧ on_disk (st_files (hook mid).1) (rl_certPath rl) (rl_keyPath rl) new) ∧
  (in_window (rl_leaf rl) t → in_window new t).

Lemma reload_run hook rl s : ∃ s' rl', reload hook rl s = (s', Ok rl') ∧
  succeeds hook (st_files s) (env_clock (st_tick s)) rl (rl_leaf rl') ∧
  rl_certPath rl' = rl_certPath rl ∧ rl_keyPath rl' = rl_keyPath rl ∧ rl_lastCertMod rl' = rl_lastCertMod rl ∧ rl_lastKeyMod rl' = rl_lastKeyMod rl.
Proof.
  unfold reload. rewrite bind_run. cbn [now]. set (t := env_clock _). rewrite bind_run, try_run.
  set (v := validateAt _ _ _ _). cbv beta iota. destruct v.2 as [info|e]; [|eexists _, _; split; [reflexivity|]; split; [by left|done]].
  rewrite bind_run, try_run. cbv beta iota. rewrite bind_run, try_run.
  assert (Hmid : st_files v.1 = st_files s) by (symmetry; by apply (validateAt_keeps (eq (st_files s)))).
  set (c := loadCertificate _ _ _). cbv beta iota.
  destruct c.2 as [cert|e] eqn:Ec; [|eexists _, _; split; [reflexivity|]; split; [by left|done]].
  destruct (candidateOutOfWindow cert t && _) eqn:Ed; [eexists _, _; split; [reflexivity|]; split; [by left|done]|].
  rewrite bind_run. destruct (onServing_run (set_leaf rl cert) cert c.1) as (s' & rl1 & -> & (Hl & Hc & Hk & Hcm & Hkm)).
  eexists _, _. split; [reflexivity|]. rewrite log_warnings_leaf, Hl. destruct (log_warnings_mods (in_Warnings info) rl1) as [-> ->].
  assert (Hpaths : ∀ ws, rl_certPath (log_warnings rl1 ws) = rl_certPath rl1 ∧ rl_keyPath (log_warnings rl1 ws) = rl_keyPath rl1).
  { unfold log_warnings. intros ws. clear. revert rl1. induction ws as [|w ws IH]; intros rl1; [done|]. cbn [fold_left].
    destruct (isExpiryWarning w); [apply IH|apply (IH (log_line rl1 _))]. }
  destruct (Hpaths (in_Warnings info)) as [-> ->]. split; [|done]. right. split.
  - exists v.1. split; [done|]. exact (loadCertificate_read _ _ _ _ _ (eq_trans (surjective_pairing c) (f_equal (pair c.1) Ec))).
  - intros Hin. destruct (candidateOutOfWindow cert t) eqn:Eo; [|by apply in_iff]. apply out_iff in Eo. exfalso. apply andb_false_iff in Ed as [Ed|Ed]; [done|]. destruct Hin as (x & E & Hx). rewrite E in Ed. apply within_iff in Hx. congruence.
Qed.

(** C24. Whatever fails and whatever another program does to the files between the two
    times they are read: a tick of the reloader goes on, and the certificate in service
    stays as it was or becomes the one that stood in the reloader's certificate file,
    with its key in the key file, when the pair was loaded (after what that other program
    did to the files the tick began with); and one that is within its dates at the
    instant the tick reads the clock, at most two system calls after its start, never
    gives way to one that is not. *)
Theorem tick_no_downgrade hook rl s : ∃ s' rl' k,
  tick hook rl s = (s', Ok rl') ∧ (st_tick s ≤ k ≤ st_tick s + 2)%nat ∧
  succeeds hook (st_files s) (env_clock k) rl (rl_leaf rl').
Proof.
  unfold tick. rewrite bind_run. destruct (statMods_run (rl_certPath rl) (rl_keyPath rl) s) as (s1 & m & -> & Ht & Hf). cbv zeta.
  set (rl1 := match m with None => rl | Some (c, k) => set_mods rl c k end).
  assert (Hl1 : rl_leaf rl1 = rl_leaf rl ∧ rl_certPath rl1 = rl_certPath rl ∧ rl_keyPath rl1 = rl_keyPath rl) by (by destruct m as [[c k]|]).
  destruct Hl1 as (Hl1 & Hc1 & Hk1). destruct (match m with None => false | Some _ => _ end).
  - destruct (reload_run hook rl1 s1) as (s' & rl' & -> & Hs & _). exists s', rl', (st_tick s1). split; [done|]. split; [done|].
    unfold succeeds in *. by rewrite <- Hl1, <- Hc1, <- Hk1, <- Hf.
  - rewrite bind_run. cbn [now]. destruct (_ <=? _).
    + destruct (onServing_run rl1 (rl_leaf rl1) (tick1 s1)) as (s' & rl' & -> & Hs & _). exists s', rl', (st_tick s1).
      split; [done|]. split; [done|]. left. congruence.
    + eexists _, rl1, (st_tick s1). split; [reflexivity|]. split; [done|]. by left.
Qed.

(** ** What a tick does where nothing fails *)

(** A pair of files that is fit to be served, and its certificate. *)
Definition acceptable (cert key : bytes) : option (option Leaf) :=
  match parseLeaf cert, parsePrivateKey key with
  | Ok l, Ok p => if publicKeysEqual (lf_PublicKey l) p then X509KeyPair cert key else None
  | _, _ => None
  end.
Inductive outcome : Type := Unchanged | Refused | Swapped (l : option Leaf).
(** The table: files that are missing or as old as when last seen are left, a pair that
    is not fit or a downgrade is refused, any other is swapped in. *)
Definition decision (fs : files) (rl : Reloader) (t : Z) : outcome :=
  match fs !! os_segs (rl_certPath rl), fs !! os_segs (rl_keyPath rl) with
  | Some cf, Some kf =>
      if bool_decide (rl_lastCertMod rl = Some (f_mtime cf)) && bool_decide (rl_lastKeyMod rl = Some (f_mtime kf)) then Unchanged
      else match acceptable (f_data cf) (f_data kf) with
           | None => Refused
           | Some l => if bool_decide (in_window (rl_leaf rl) t) && negb (bool_decide (in_window l t)) then Refused else Swapped l
           end
  | _, _ => Unchanged
  end.
Definition seen (fs : files) (rl : Reloader) : Prop :=
  ∀ cf kf, fs !! os_segs (rl_certPath rl) = Some cf → fs !! os_segs (rl_keyPath rl) = Some kf →
    rl_lastCertMod rl = Some (f_mtime cf) ∧ rl_lastKeyMod rl = Some (f_mtime kf).
Definition carries_out (rl rl' : Reloader) (o : outcome) : Prop :=
  match o with
  | Unchanged => rl_leaf rl' = rl_leaf rl
  | Refused => rl_leaf rl' = rl_leaf rl ∧ ∃ w, rl_log rl' = rl_log rl ++ [w]
  | Swapped l => rl_leaf rl' = l
  end.

(** A call that only reads, where nothing fails. *)
Definition reads_to {A} (m : M A) (s : St) (r : result A) : Prop := ∃ s', m s = (s', r) ∧ quiet s' ∧ st_files s' = st_files s.
Lemma reads_query {A} (act : files → result A) s : quiet s → reads_to (query act) s (act (st_files s)).
Proof. intros Hq. exists (tick1 s). rewrite query_quiet by by apply quiet_now. split; [done|]. split; [by apply quiet_tick|done]. Qed.
Lemma reads_try_bind {A B} (m : M A) (f : result A → M B) s r0 r : reads_to m s r0 → (∀ s', quiet s' → st_files s' = st_files s → reads_to (f r0) s' r) → reads_to (try m ≫= f) s r.
Proof.
  intros (s1 & E & Hq & Hf) Hn. destruct (Hn s1 Hq Hf) as (s2 & E2 & Hq2 & Hf2). exists s2. rewrite bind_run, try_run, E. cbn [fst snd].
  split; [done|]. split; [done|congruence].
Qed.
Lemma reads_ret {A} (a : A) s : quiet s → reads_to (mret a) s (Ok a).
Proof. by exists s. Qed.
Lemma reads_fail {A} e s : quiet s → reads_to (fail (A:=A) e) s (Err e).
Proof. by exists s. Qed.
Lemma reads_bind {A B} (m : M A) (f : A → M B) s a r : reads_to m s (Ok a) → (∀ s', quiet s' → st_files s' = st_files s → reads_to (f a) s' r) → reads_to (m ≫= f) s r.
Proof.
  intros (s1 & E & Hq & Hf) Hn. destruct (Hn s1 Hq Hf) as (s2 & E2 & Hq2 & Hf2). exists s2. rewrite bind_run, E.
  split; [done|]. split; [done|congruence].
Qed.
Lemma reads_lift {A B} (x : result A) (f : A → M B) s r : quiet s → match x with Ok a => reads_to (f a) s r | Err e => r = Err e end → reads_to (lift x ≫= f) s r.
Proof. intros Hq Hx. destruct x as [a|e]; [exact Hx|]. subst r. by exists s. Qed.
Lemma reads_file p f s : quiet s → st_files s !! p = Some f → reads_to (os_ReadFile p) s (Ok (f_data f)).
Proof. intros Hq Hf. unfold os_ReadFile. pose proof (reads_query (fun fs => match fs !! p with Some f => Ok (f_data f) | None => Err ErrNotExist end) s Hq) as Hr. cbv beta in Hr. by rewrite Hf in Hr. Qed.

Definition perm_text (fs : files) (k : string) : string :=
  if String.eqb GOOS "windows" then ""
  else if (bool_decide (is_Some (fs !! os_segs k)) || is_dir fs (os_segs k)) && open_to_others fs (os_segs k)
       then str_concat ["key file "; k; " is group/world-readable — run chmod 600 "; k] else "".
Lemma keyPermWarning_reads k s : quiet s → reads_to (keyPermWarning k) s (Ok (perm_text (st_files s) k)).
Proof.
  intros Hq. unfold keyPermWarning, perm_text. destruct (String.eqb GOOS "windows"); [by apply reads_ret|].
  eapply reads_try_bind; [by apply reads_query|]. intros s' Hq' _. cbv beta. destruct (_ || _); cbn [andb]; [|by apply reads_ret].
  destruct (open_to_others _ _); by apply reads_ret.
Qed.
(** What [validateAt] finds in two files. *)
Definition validated (fs : files) (C K : string) (cert key : bytes) (t : Z) : result Info :=
  l ← parseLeaf cert;
  p ← parsePrivateKey key;
  if negb (publicKeysEqual (lf_PublicKey l) p) then Err (EWrap C ErrKeyMismatch)
  else let w := perm_text fs K in
    Ok (mkInfo (leafNames l) (lf_NotBefore l) (lf_NotAfter l) (lf_SubjectCN l) (lf_IssuerCN l)
      (bool_decide (lf_RawIssuer l = lf_RawSubject l)) (fingerprint l) (time_warning l t ++ (if String.eqb w "" then [] else [w]))).
Lemma validateAt_reads C K cf kf t s : quiet s → st_files s !! os_segs C = Some cf → st_files s !! os_segs K = Some kf →
  reads_to (validateAt C K t) s (validated (st_files s) C K (f_data cf) (f_data kf) t).
Proof.
  intros Hq Hc Hk. unfold validateAt, validated. eapply reads_try_bind; [by apply reads_file|]. intros s1 Hq1 F1. apply reads_lift; [done|].
  destruct (parseLeaf (f_data cf)) as [l|e]; [|done]. cbn [mbind result_bind].
  eapply reads_try_bind; [apply reads_file; [done|by rewrite F1]|]. intros s2 Hq2 F2. apply reads_lift; [done|].
  destruct (parsePrivateKey (f_data kf)) as [p|e]; [|done]. cbn [mbind result_bind].
  destruct (negb _); [by apply reads_fail|]. eapply reads_bind; [by apply keyPermWarning_reads|]. intros s3 Hq3 _.
  rewrite F2, F1. by apply reads_ret.
Qed.
Lemma loadCertificate_reads C K cf kf s : quiet s → st_files s !! os_segs C = Some cf → st_files s !! os_segs K = Some kf →
  reads_to (loadCertificate C K) s (match X509KeyPair (f_data cf) (f_data kf) with Some l => Ok l | None => Err (EWrap C ErrKeyMismatch) end).
Proof.
  intros Hq Hc Hk. unfold loadCertificate. eapply reads_try_bind; [by apply reads_file|]. intros s1 Hq1 F1.
  eapply reads_try_bind; [apply reads_file; [done|by rewrite F1]|]. intros s2 Hq2 F2. cbv beta iota.
  destruct (X509KeyPair _ _); [by apply reads_ret|by apply reads_fail].
Qed.
Lemma validated_acceptable fs C K cert key t : acceptable cert key =
  match validated fs C K cert key t with Ok _ => X509KeyPair cert key | Err _ => None end.
Proof. unfold acceptable, validated. destruct (parseLeaf cert) as [l|e]; [|reflexivity]. cbn [mbind result_bind]. destruct (parsePrivateKey key) as [p|e]; [|reflexivity]. cbn [mbind result_bind]. by destruct (publicKeysEqual _ _). Qed.

(** The decision about two files that changed. *)
Definition judged (rl : Reloader) (cert key : bytes) (t : Z) : outcome :=
  match acceptable cert key with
  | None => Refused
  | Some l => if bool_decide (in_window (rl_leaf rl) t) && negb (bool_decide (in_window l t)) then Refused else Swapped l
  end.
Lemma reload_quiet rl cf kf s : quiet s → st_files s !! os_segs (rl_certPath rl) = Some cf → st_files s !! os_segs (rl_keyPath rl) = Some kf →
  ∃ s' rl', reload (mret tt) rl s = (s', Ok rl') ∧ carries_out rl rl' (judged rl (f_data cf) (f_data kf) (env_clock (st_tick s))).
Proof.
  intros Hq Hc Hk. unfold reload. rewrite bind_run. cbn [now]. set (t := env_clock _). rewrite bind_run, try_run.
  destruct (validateAt_reads _ _ cf kf t (tick1 s) ltac:(by apply quiet_tick) Hc Hk) as (s1 & -> & Hq1 & F1). cbn [fst snd].
  unfold judged. rewrite (validated_acceptable (st_files (tick1 s)) (rl_certPath rl) (rl_keyPath rl) _ _ t).
  destruct (validated _ _ _ _ _ _) as [info|e]; [|eexists _, _; split; [reflexivity|]; split; [done|by eexists]].
  rewrite bind_run, try_run. cbn [fst snd mret M_ret]. rewrite bind_run, try_run.
  destruct (loadCertificate_reads (rl_certPath rl) (rl_keyPath rl) cf kf s1 Hq1 ltac:(by rewrite F1) ltac:(by rewrite F1)) as (s2 & -> & _ & _). cbn [fst snd].
  destruct (X509KeyPair _ _) as [l|]; [|eexists _, _; split; [reflexivity|]; split; [done|by eexists]].
  destruct (candidateOutOfWindow l t && _) eqn:Ed.
  - apply downgrade_iff in Ed as [Hn Hi]. rewrite bool_decide_true, (bool_decide_false (in_window l t)) by done.
    eexists _, _. split; [reflexivity|]. split; [done|by eexists].
  - rewrite bind_run. destruct (onServing_run (set_leaf rl l) l s2) as (s' & rl1 & -> & (Hl & _)).
    eexists _, _. split; [reflexivity|]. destruct (_ && negb _) eqn:Ed2.
    + exfalso. apply andb_true_iff in Ed2 as [Hi%bool_decide_eq_true Hn]. apply negb_true_iff, bool_decide_eq_false in Hn.
      apply not_true_iff_false in Ed. by apply Ed, downgrade_iff.
    + cbn [carries_out]. by rewrite log_warnings_leaf, Hl.
Qed.

Lemma Info_quiet p s : quiet s → os_Info p s = (tick1 s, match st_files s !! p with Some f => Ok f | None => Err ErrNotExist end).
Proof. intros Hq. unfold os_Info. by rewrite query_quiet by by apply quiet_now. Qed.
Lemma statMods_quiet c k s : quiet s → ∃ s', statMods c k s = (s', Ok (match st_files s !! os_segs c, st_files s !! os_segs k with
    | Some cf, Some kf => Some (f_mtime cf, f_mtime kf) | _, _ => None end)) ∧ quiet s' ∧ st_files s' = st_files s ∧ (st_tick s ≤ st_tick s')%nat.
Proof.
  intros Hq. pose proof (quiet_tick _ Hq) as Hq1. unfold statMods. rewrite bind_run, try_run, Info_quiet by done. cbn [fst snd].
  destruct (st_files s !! os_segs c) as [cf|].
  - rewrite bind_run, try_run, Info_quiet by done. cbn [fst snd]. change (st_files (tick1 s)) with (st_files s).
    destruct (st_files s !! os_segs k); (exists (tick1 (tick1 s)); split; [reflexivity|]; split; [by apply quiet_tick|]; split; [done|cbn; lia]).
  - exists (tick1 s). split; [reflexivity|]. split; [done|]. split; [done|cbn; lia].
Qed.
Lemma heartbeat_run rl rl1 s : ∃ s' rl',
  (t ← now;
   if heartbeatInterval <=? match rl_lastServingWrite rl with Some u => dur_sub t u | None => int64_max end
   then onServing rl1 (rl_leaf rl1) else mret rl1) s = (s', Ok rl') ∧ same_but_log rl1 rl'.
Proof.
  rewrite bind_run. cbn [now]. destruct (_ <=? _); [apply onServing_run|]. by exists (tick1 s), rl1.
Qed.

(** C25. Where no call fails a tick does what the table [decision] says, evaluated at the
    time the tick reads the clock: it leaves files that are missing or unchanged since
    they were last seen, refuses a pair that does not load, does not match or would be a
    downgrade, with one line in the log, and swaps in any other.  A pair is judged once:
    after the tick it counts as seen. *)
Theorem tick_follows_table rl s : quiet s →
  ∃ s' rl' k, tick (mret tt) rl s = (s', Ok rl') ∧ (st_tick s ≤ k)%nat ∧
    carries_out rl rl' (decision (st_files s) rl (env_clock k)) ∧ seen (st_files s) rl'.
Proof.
  intros Hq. unfold tick. rewrite bind_run. destruct (statMods_quiet (rl_certPath rl) (rl_keyPath rl) s Hq) as (s1 & -> & Hq1 & F1 & Ht).
  unfold decision, seen. rewrite <- F1. cbv zeta.
  destruct (st_files s1 !! os_segs (rl_certPath rl)) as [cf|] eqn:Ec; [destruct (st_files s1 !! os_segs (rl_keyPath rl)) as [kf|] eqn:Ek|].
  - rewrite <- negb_andb. destruct (bool_decide (rl_lastCertMod rl = _) && _) eqn:Es; cbn [negb].
    + apply andb_true_iff in Es as [Hcm%bool_decide_eq_true Hkm%bool_decide_eq_true].
      destruct (heartbeat_run rl (set_mods rl (f_mtime cf) (f_mtime kf)) s1) as (s' & rl' & -> & (Hl & Hp1 & Hp2 & Hm1 & Hm2)).
      exists s', rl', (st_tick s1). split; [done|]. split; [done|]. split; [exact Hl|]. rewrite Hp1, Hp2, Hm1, Hm2. cbn [set_mods rl_certPath rl_keyPath rl_lastCertMod rl_lastKeyMod].
      rewrite Ec, Ek. by intros ? ? [= <-] [= <-].
    + destruct (reload_quiet (set_mods rl (f_mtime cf) (f_mtime kf)) cf kf s1 Hq1 Ec Ek) as (s' & rl' & E & Hc).
      destruct (reload_run (mret tt) (set_mods rl (f_mtime cf) (f_mtime kf)) s1) as (s2 & rl2 & E2 & _ & Hp1 & Hp2 & Hm1 & Hm2).
      rewrite E in E2. injection E2 as <- <-. exists s', rl', (st_tick s1). split; [done|]. split; [done|].
      split; [exact Hc|]. rewrite Hp1, Hp2, Hm1, Hm2. cbn [set_mods rl_certPath rl_keyPath rl_lastCertMod rl_lastKeyMod]. rewrite Ec, Ek. by intros ? ? [= <-] [= <-].
  - destruct (heartbeat_run rl rl s1) as (s' & rl' & -> & (Hl & Hp1 & Hp2 & _)). exists s', rl', (st_tick s1).
    split; [done|]. split; [done|]. split; [exact Hl|]. rewrite Hp1, Hp2, Ek. done.
  - destruct (heartbeat_run rl rl s1) as (s' & rl' & -> & (Hl & Hp1 & Hp2 & _)). exists s', rl', (st_tick s1).
    split; [done|]. split; [done|]. split; [exact Hl|]. rewrite Hp1, Ec. done.
Qed.
End reload.

(** ** A renewal that came early *)

(** Certificates of three bytes: the seconds between which they are valid, and a key. *)
Definition demo_time (b : Byte.byte) : Z := 1700000000000000000 + Z.of_N (Byte.to_N b) * nano.
Definition demo_parse (b : bytes) : option Leaf :=
  match b with
  | [x; y; k] => Some (mkLeaf b ["localhost"] [] (demo_time x) (demo_time y) "s" "i" [] [] (Ed25519Key [k]))
  | _ => None
  end.
Definition demo_pem (b : bytes) : option (string * bytes * bytes) :=
  match b with
  | [] => None
  | [k] => Some ("PRIVATE KEY", [k], [])
  | _ => Some ("CERTIFICATE", b, [])
  end.
Lemma demo_pem_shorter data t b rest : demo_pem data = Some (t, b, rest) → (length rest < length data)%nat.
Proof. destruct data as [|x [|y l]]; cbn; [done| |]; intros [= _ _ <-]; cbn; lia. Qed.
Definition demo_x509 : X509 := {|
  pem_Decode := demo_pem; pem_shorter := demo_pem_shorter; ParseCertificate := demo_parse;
  ParsePKCS8 b := Some (Some (Ed25519Key b)); ParsePKCS1 _ := None; ParseEC _ := None;
  X509KeyPair c k := match demo_parse c with Some l => if bool_decide (lf_PublicKey l = Ed25519Key k) then Some (Some l) else None | None => None end;
  open_to_others _ _ := false |}.
#[global] Instance Serving_Fields : Fields Serving.
Proof. by apply (Fields_via (fun s => (sg_Fingerprint s, sg_Names s, sg_NotAfter s, sg_UpdatedAt s)) (fun '(a, b, c, d) => mkServing a b c d)); intros []. Defined.
Definition json_serving : JSON Serving := fields_json.

Section demo.
#[local] Existing Instances demo_env demo_platform demo_x509 json_serving.
Definition old_leaf : option Leaf := demo_parse [Byte.x00; Byte.x14; Byte.x01].
Definition new_pem : bytes := [Byte.x0a; Byte.xff; Byte.x02].
(** The new pair is on the disk; its certificate is valid from the tenth second on, the
    one in service until the twentieth. *)
Definition early : St := mkSt (<[[""; "c"] := mkFile new_pem 5]> (<[[""; "k"] := mkFile [Byte.x02] 5]> ∅)) 0 None 0 None.
Definition listener : Reloader := mkReloader old_leaf "/c" "/k" DefaultPollInterval "/t/serving.json" (Some 1) (Some 1) (Some (demo_time Byte.x00)) [].
Definition later (n : nat) : St * result Reloader := mfold (fun rl h => tick h rl) listener (repeat (mret tt) n) early.

Lemma tick_follows_table_witness :
  (∃ s' rl' k, tick (mret tt) listener early = (s', Ok rl') ∧ (st_tick early ≤ k)%nat ∧
    carries_out listener rl' (decision (st_files early) listener (env_clock k)) ∧ seen (st_files early) rl') ∧
  decision (st_files early) listener (demo_time Byte.x02) = Refused ∧ decision (st_files early) listener (demo_time Byte.x0c) = Swapped (demo_parse new_pem).
Proof.
  split; [|split; vm_compute; reflexivity]. apply tick_follows_table. intros i _. reflexivity.
Defined.

Definition still_old (r : St * result Reloader) : bool :=
  match r with
  | (s, Ok rl) => bool_decide (option_map lf_Raw (rl_leaf rl) = option_map lf_Raw old_leaf) && (length (rl_log rl) =? 1)%nat &&
      candidateOutOfWindow (rl_leaf rl) (@env_clock demo_env (st_tick s)) && negb (candidateOutOfWindow (demo_parse new_pem) (@env_clock demo_env (st_tick s)))
  | _ => false
  end.
(** A pair put in place before its certificate is valid is refused once and never looked
    at again: after ten ticks the listener shows an expired certificate although the one
    on the disk is valid by then. *)
Example early_renewal_lost : still_old (later 10) = true.
Proof. vm_compute. reflexivity. Qed.
End demo.
