(* ===== verification/Transport.v ===== *)
(** Carrying a vault's metadata directory to another place and back
    (internal/transport): what a backend promises, and the one that copies files
    (internal/transport/local/local.go).

    A context cancelled is a call that fails.  Paths are absolute; permission bits are
    not part of the disk. *)
From S2P Require Export Trees MetaDir Remotes.
Local Open Scope Z_scope.

(** internal/transport/transport.go:8-8 [Operation] *)
Inductive Operation : Type := OperationTest | OperationPush | OperationPull | OperationSync | OperationCheck.
#[global] Instance Operation_eq_dec : EqDecision Operation.
Proof. solve_decision. Defined.
(** internal/transport/transport.go:10-16 [OperationTest] *)
Definition operation_name (o : Operation) : string :=
  match o with
  | OperationTest => "test" | OperationPush => "push" | OperationPull => "pull" | OperationSync => "sync" | OperationCheck => "check"
  end.
(** internal/transport/transport.go:18-22 [Command] *)
Record Command : Type := mkCommand { cm_Program : string; cm_Args : list string; cm_Output : string }.
(** internal/transport/transport.go:24-33 [Result] *)
Record Result : Type := mkResult {
  rs_Operation : Operation; rs_OK : bool; rs_DryRun : bool; rs_Commands : list Command; rs_Output : string; rs_Error : string;
  rs_StartedAt : string; rs_FinishedAt : string }.
(** internal/transport/transport.go:35-38 [Status] *)
Record Status : Type := mkStatus { st_OK : bool; st_Message : string }.
(** internal/transport/transport.go:40-42 [Options] *)
Record TransportOptions : Type := mkTransportOptions { to_DryRun : bool }.
(** internal/transport/transport.go:44-52 [Transport]; a value stands beside its error. *)
Record Transport : Type := mkTransport {
  tr_Validate : M unit;
  tr_Status : M (Status * option err);
  tr_Test : M (Result * option err);
  tr_DryRunPush : M (Result * option err);
  tr_Push : TransportOptions → M (Result * option err);
  tr_Pull : TransportOptions → M (Result * option err);
  tr_Check : M (Result * option err)
}.

Definition error_of {A} (r : result A) : option err := match r with Ok _ => None | Err e => Some e end.
Definition error_text (e : option err) : string := match e with Some e => err_text e | None => "" end.

(** internal/vault/vault.go:26-26 [MetadataDirName] *)
Definition MetadataDirName : string := ".seavault".

(** ** The local backend *)

Section local.
Context `{Env} `{Platform} `{Host} `{GoUnicode}.

(** [time.Now().UTC().Format(time.RFC3339Nano)]. *)
Definition stamp : M string := t ← now; mret (format_rfc3339nano t).

(** internal/transport/local/local.go:20-20 [Backend] *)
Record Backend : Type := mkBackend { bk_Profile : RemoteProfile }.
(** internal/transport/local/local.go:22-22 [New] *)
Definition New (p : RemoteProfile) : M Backend := p ← Normalize p; mret (mkBackend p).
Definition vault_of (b : Backend) : string := rp_Vault (bk_Profile b).
Definition remote_of (b : Backend) : string := rc_RemotePath (rp_Remote (bk_Profile b)).

(** The name of the vault's metadata directory, or the legacy one where it is not known. *)
Definition meta_name (root : string) : M string :=
  r ← try (ResolveMetaDir root);
  mret (match r with Ok (name, _) => name | Err _ => MetadataDirName end).
(** internal/transport/local/local.go:127-133 [localMeta] *)
Definition localMeta (root : string) : M string := name ← meta_name root; mret (path_join [root; name]).
(** internal/transport/local/local.go:138-149 [remoteMeta] *)
Definition remoteMeta (remote localRoot : string) : M string :=
  name ← meta_name localRoot;
  let clean := path_clean remote in
  let base := path_base clean in
  mret (if String.eqb base "SeaVaultData" || String.eqb base MetadataDirName then clean else path_join [clean; name]).

(** The name a file has while it is written. *)
Definition tmp_name (p : fpath) : fpath := dir_of p ++ [base_of p +:+ ".tmp"].
(** internal/transport/local/local.go:177-201 [copyFile] *)
Definition copyFile (src dst : fpath) : M unit :=
  _ ← os_Stat src;
  _ ← os_MakeDirs (dir_of dst);
  let tmp := tmp_name dst in
  _ ← os_Truncate tmp;
  w ← try (data ← os_ReadFile src; os_Write tmp data);
  match w with
  | Err e => _ ← try os_Quiet; _ ← try (os_Remove tmp); fail e
  | Ok _ =>
      c ← try os_Quiet;
      match c with
      | Err e => _ ← try (os_Remove tmp); fail e
      | Ok _ => os_Replace tmp dst
      end
  end.

(** internal/transport/local/local.go:152-174 [copyDir]: the function called on each entry *)
Definition copy_step (src dst : fpath) (_ : unit) (path : fpath) (isDir : bool) (werr : option err) : M (unit * option err) :=
  match werr with
  | Some e => mret (tt, Some e)
  | None =>
      let target := dst ++ drop (length src) path in
      r ← try (_ ← os_Quiet;
               _ ← os_Quiet;
               if isDir then os_MakeDirs target else copyFile path target);
      mret (tt, error_of r)
  end.
(** internal/transport/local/local.go:151-175 [copyDir] *)
Definition copyDir (src dst : fpath) : M unit :=
  '(_, e) ← WalkDir (copy_step src dst) tt src;
  match e with Some e => fail e | None => mret tt end.

(** internal/transport/local/local.go:204-220 [compareDirs]: the function called on each
    entry *)
Definition compare_step (a b : fpath) (_ : unit) (path : fpath) (isDir : bool) (werr : option err) : M (unit * option err) :=
  match werr with
  | Some e => mret (tt, Some e)
  | None =>
      if isDir then mret (tt, None)
      else
        let rel := drop (length a) path in
        i ← try (os_Info path);
        match i with
        | Err e => mret (tt, Some e)
        | Ok ai =>
            j ← try (os_Stat (b ++ rel));
            match j with
            | Err _ => mret (tt, Some (ENew "missing remote object %s"))
            | Ok _ =>
                n ← gets (fun s => match st_files s !! (b ++ rel) with Some f => Some (length (f_data f)) | None => None end);
                mret (tt, if bool_decide (n = Some (length (f_data ai))) then None else Some (ENew "remote object size mismatch %s"))
            end
        end
  end.
(** internal/transport/local/local.go:203-221 [compareDirs] *)
Definition compareDirs (a b : fpath) : M unit :=
  '(_, e) ← WalkDir (compare_step a b) tt a;
  match e with Some e => fail e | None => mret tt end.

(** internal/transport/local/local.go:97-122 [Backend.copy] *)
Definition copy (op : Operation) (src dst : string) (dry : bool) : M (Result * option err) :=
  start ← stamp;
  let cmd := mkCommand "local" (if dry then ["dry-run"; "copy"; src; dst] else ["copy"; src; dst]) "" in
  r ← try (if dry then os_Stat (dir_segs src) else copyDir (dir_segs src) (dir_segs dst));
  finish ← stamp;
  let output :=
    match r with
    | Err e => err_text e
    | Ok _ => if dry then str_concat ["would copy "; src; " to "; dst] else str_concat ["copied "; src; " to "; dst]
    end in
  mret (mkResult op (is_ok r) dry [cmd] output (error_text (error_of r)) start finish, error_of r).

Section backend.
Context (b : Backend).

(** internal/transport/local/local.go:24-30 [Backend.Validate] *)
Definition Validate : M unit :=
  if String.eqb (trim_space (vault_of b)) "" || String.eqb (trim_space (remote_of b)) "" then fail (ENew "vault and remote path are required")
  else _ ← lift (Abs (vault_of b)); mret tt.

(** internal/transport/local/local.go:32-37 [Backend.Status] *)
Definition Status_ : M (Status * option err) :=
  r ← try Validate;
  match r with
  | Err e => mret (mkStatus false (err_text e), Some e)
  | Ok _ => mret (mkStatus true "local copy backend ready", None)
  end.

(** internal/transport/local/local.go:39-49 [Backend.Test] *)
Definition Test_ : M (Result * option err) :=
  start ← stamp;
  dst ← remoteMeta (remote_of b) (vault_of b);
  r ← try (os_MakeDirs (dir_segs dst));
  finish ← stamp;
  mret (mkResult OperationTest (is_ok r) false [] (if is_ok r then "local target is writable" else "") (error_text (error_of r)) start finish,
        error_of r).

(** internal/transport/local/local.go:55-57 [Backend.Push] *)
Definition Push (opts : TransportOptions) : M (Result * option err) :=
  src ← localMeta (vault_of b);
  dst ← remoteMeta (remote_of b) (vault_of b);
  copy OperationPush src dst (to_DryRun opts).
(** internal/transport/local/local.go:51-53 [Backend.DryRunPush] *)
Definition DryRunPush : M (Result * option err) := Push (mkTransportOptions true).
(** internal/transport/local/local.go:59-61 [Backend.Pull] *)
Definition Pull (opts : TransportOptions) : M (Result * option err) :=
  src ← remoteMeta (remote_of b) (vault_of b);
  dst ← localMeta (vault_of b);
  copy OperationPull src dst (to_DryRun opts).

(** internal/transport/local/local.go:63-76 [Backend.Sync] *)
Definition Sync (opts : TransportOptions) : M (Result * option err) :=
  start ← stamp;
  '(pull, e) ← Pull opts;
  match e with
  | Some _ => mret (pull, e)
  | None =>
      '(push, e) ← Push opts;
      finish ← stamp;
      mret (mkResult OperationSync (bool_decide (e = None)) (to_DryRun opts) (rs_Commands pull ++ rs_Commands push)
              (trim_space (str_concat [rs_Output pull; String newline ""; rs_Output push])) (error_text e) start finish, e)
  end.

(** internal/transport/local/local.go:78-95 [Backend.Check] *)
Definition Check_ : M (Result * option err) :=
  start ← stamp;
  a ← localMeta (vault_of b);
  c ← remoteMeta (remote_of b) (vault_of b);
  let cmd := mkCommand "local" ["compare"; a; c] "" in
  a ← localMeta (vault_of b);
  c ← remoteMeta (remote_of b) (vault_of b);
  r ← try (compareDirs (dir_segs a) (dir_segs c));
  finish ← stamp;
  mret (mkResult OperationCheck (is_ok r) false [cmd] (error_text (error_of r)) (error_text (error_of r))
          start finish, error_of r).

(** The backend behind the interface. *)
Definition local_transport : Transport := mkTransport Validate Status_ Test_ DryRunPush Push Pull Check_.
End backend.
End local.
