(* ===== verification/TransportFacts.v ===== *)
(** A copy to or from a remote place is complete when it reports success; whatever
    stops it, every file it was to replace is the old one or the new one, and nothing
    else changes.  What a synchronisation leaves on both sides. *)
From S2P Require Export TreesFacts OpenVaultFacts Transport.
Local Open Scope Z_scope.

(** ** A file copied *)

(** Errors of a computation are not [SkipDir]. *)
Definition sane `{Env} {A} (m : M A) : Prop := ∀ s, match (m s).2 with Ok _ => True | Err e => is_SkipDir e = false end.

Section sane.
Context `{Env}.
Hypothesis no_skip : ∀ i e, env_fault i = Some e → is_SkipDir e = false.
Lemma sane_bind {A B} (m : M A) (f : A → M B) : sane m → (∀ a, sane (f a)) → sane (m ≫= f).
Proof. intros Hm Hf s. rewrite bind_run. specialize (Hm s). destruct (m s) as [s1 [a|e]]; [apply Hf|done]. Qed.
Lemma sane_try {A} (m : M A) : sane (try m).
Proof. intros s. by rewrite try_run. Qed.
Lemma sane_fail {A} e : is_SkipDir e = false → sane (fail (A:=A) e).
Proof. by intros He s. Qed.
Lemma sane_syscall {A} (act : files → Z → files * result A) :
  (∀ fs t, match (act fs t).2 with Ok _ => True | Err e => is_SkipDir e = false end) → sane (syscall act).
Proof.
  intros Ha s. unfold syscall. destruct (env_fault (st_tick s)) as [e|] eqn:Ef; [by eapply no_skip|].
  specialize (Ha (st_files s) (env_clock (st_tick s))). by destruct (act _ _).
Qed.
Lemma sane_query {A} (act : files → result A) : (∀ fs, match act fs with Ok _ => True | Err e => is_SkipDir e = false end) → sane (query act).
Proof. intros Ha. apply sane_syscall. intros fs t. apply Ha. Qed.
Lemma sane_write p x : sane (os_Write p x).
Proof. intros s. unfold os_Write. destruct (env_fault (st_tick s)) as [e|] eqn:Ef; [by eapply no_skip|done]. Qed.
Lemma sane_result {A} (m : M A) s e : sane m → (m s).2 = Err e → is_SkipDir e = false.
Proof. intros Hm He. specialize (Hm s). by rewrite He in Hm. Qed.

Lemma sane_copyFile src dst : sane (copyFile src dst).
Proof.
  unfold copyFile, os_Stat, os_MakeDirs, os_Truncate, os_Replace, os_ReadFile.
  apply sane_bind; [apply sane_query; intros fs; by destruct (_ || _)|intros _].
  apply sane_bind; [apply sane_query; intros fs; by destruct (existsb _ _)|intros _].
  apply sane_bind; [apply sane_syscall; intros fs t; by destruct (is_dir _ _)|intros _].
  set (m := (d ← query _; os_Write _ d)). assert (Hm : sane m).
  { apply sane_bind; [apply sane_query; intros fs; by destruct (fs !! src)|intros d; apply sane_write]. }
  clearbody m. intros s. rewrite bind_run, try_run. specialize (Hm s). set (w := m s) in *. cbv beta iota.
  destruct w.2 as [u|e]; [|do 2 (apply sane_bind; [apply sane_try|intros _]); by apply sane_fail].
  rewrite bind_run, try_run. set (c := os_Quiet w.1).
  assert (Hc : match c.2 with Ok _ => True | Err e => is_SkipDir e = false end) by (apply (sane_query (fun _ => Ok tt)); done).
  destruct c.2 as [u'|e]; [apply sane_syscall; intros fs t; destruct (fs !! _); [by destruct (is_dir _ _)|done]|].
  apply sane_bind; [apply sane_try|intros _]. by apply sane_fail.
Qed.
End sane.

Lemma tmp_ne p : tmp_name p ≠ p.
Proof.
  unfold tmp_name, dir_of, base_of. intros E. apply (f_equal (fun l => List.last l "")) in E. rewrite last_last in E.
  apply (f_equal String.length) in E. rewrite str_length_app in E. cbn in E. lia.
Qed.
Lemma tmp_app d r : r ≠ [] → tmp_name (d ++ r) = d ++ tmp_name r.
Proof.
  intros Hr. unfold tmp_name, dir_of, base_of. rewrite removelast_app, <- app_assoc by done.
  assert (E : List.last (d ++ r) "" = List.last r ""); [|by rewrite E].
  destruct (exists_last Hr) as (r' & x & ->). by rewrite (app_assoc d r' [x]), !last_last.
Qed.

Section copy_file.
Context `{Env}.
Lemma triple_copy_file src dst fsA f0 : src ≠ tmp_name dst → fsA !! src = Some f0 →
  triple (eq fsA) (copyFile src dst)
    (fun _ fs => agrees (fun q => q ≠ tmp_name dst ∧ q ≠ dst) fsA fs ∧ ∃ t, fs !! dst = Some (mkFile (f_data f0) t))
    (agrees (fun q => q ≠ tmp_name dst) fsA).
Proof.
  intros Hst Hsrc. set (E := agrees (fun q => q ≠ tmp_name dst) fsA). unfold copyFile, os_Stat, os_MakeDirs, os_Quiet.
  assert (HE : E fsA) by apply agrees_refl.
  do 2 (apply (triple_bind _ _ (fun _ => E)); [apply (triple_keep _ E); [apply preserves_query|by (intros ? <- || done)]|intros _]).
  set (made x := fun fs : files => E fs ∧ ∃ t, fs !! tmp_name dst = Some (mkFile x t)).
  assert (Hmk : ∀ fs x t, E fs → made x (<[tmp_name dst := mkFile x t]> fs)).
  { intros fs x t Hfs. split; [apply agrees_insert; [by intros []|done]|]. rewrite lookup_insert_eq. eauto. }
  apply (triple_bind _ _ (fun _ => made [])).
  { apply triple_syscall; [done|]. intros fs t Hfs. destruct (is_dir _ _); [done|by apply Hmk]. }
  intros _. apply (triple_bind _ _ (fun r fs => match r with Ok _ => made (f_data f0) fs | Err _ => E fs end)).
  { apply triple_try, (triple_bind _ _ (fun d fs => made [] fs ∧ d = f_data f0)).
    - apply triple_from. intros fs [Hfs Ht]. eapply triple_conseq; [apply (triple_query fs _ (fun d fs' => fs' = fs ∧ d = f_data f0))| | |]; cbn.
      + intros d. rewrite (Hfs src Hst), Hsrc. by intros [= <-].
      + done.
      + by intros d fs' [-> ->].
      + by intros fs' <-.
    - intros d st [[Hfs [t Ht]] ->]. unfold os_Write, append_file. rewrite Ht.
      destruct (env_fault _); cbn; [apply agrees_insert; [by intros []|done]|by apply Hmk]. }
  assert (Hrm : preserves E (os_Remove (tmp_name dst))) by (apply Remove_agrees; by intros []).
  assert (Hfail : ∀ (e : err) Q, triple E (_ ← try (os_Remove (tmp_name dst)); fail e : M unit) Q E).
  { intros e Q. apply (triple_bind _ _ (fun _ => E)); [by apply triple_preserves, preserves_try|]. intros _. by apply triple_fail. }
  intros [u|e].
  - apply (triple_bind _ _ (fun c fs => made (f_data f0) fs)).
    { apply (triple_conseq _ (made (f_data f0)) _ _ (fun _ => made (f_data f0)) _ (made (f_data f0)));
        [apply triple_preserves, preserves_try, preserves_query|done|done|by intros fs [? _]]. }
    intros [u'|e]; [|eapply triple_conseq; [apply (Hfail e (fun _ _ => False))|by intros fs [? _]|done|done]].
    apply triple_syscall; [by intros fs [? _]|]. intros fs _ [Hfs [t Ht]]. rewrite Ht. destruct (is_dir _ _); [done|].
    split; [|rewrite lookup_insert_eq; eauto]. intros q [Hq1 Hq2]. rewrite lookup_insert_ne, lookup_delete_ne by done. by apply Hfs.
  - apply (triple_bind _ _ (fun _ => E)); [apply triple_preserves, preserves_try, preserves_query|]. intros _. apply Hfail.
Qed.
End copy_file.

(** ** No file is a directory *)

Definition wf_disk (fs : files) : Prop := ∀ p, is_Some (fs !! p) → is_dir fs p = false.
(** No file stands at an ancestor of [p], or at [p]. *)
Definition open_way (p : fpath) (fs : files) : Prop := ∀ a b, p = a ++ b → a ≠ [] → fs !! a = None.

Lemma is_dir_false (fs : files) p : is_dir fs p = false ↔ ∀ r, r ≠ [] → fs !! (p ++ r) = None.
Proof.
  rewrite <- not_true_iff_false, is_dir_spec. split.
  - intros Hn r Hr. apply eq_None_not_Some. intros Hs. apply Hn. eauto.
  - intros Hn (r & Hr & [x Hx]). by rewrite Hn in Hx.
Qed.
Lemma wf_insert fs d n f : wf_disk fs → fs !! [] = None → open_way d fs → is_dir fs (d ++ [n]) = false → wf_disk (<[d ++ [n] := f]> fs).
Proof.
  intros Hwf H0 Ho Hd p Hp. apply is_dir_false. intros r Hr. rewrite is_dir_false in Hd.
  destruct (decide (p = d ++ [n])) as [->|Hne].
  - rewrite lookup_insert_ne; [by apply Hd|]. intros E. rewrite <- (app_nil_r (d ++ [n])) in E at 1. by apply app_inv_head in E.
  - rewrite lookup_insert_ne in Hp by done. specialize (Hwf p Hp). rewrite is_dir_false in Hwf.
    rewrite lookup_insert_ne; [by apply Hwf|]. intros E. destruct (exists_last Hr) as (r' & x & ->).
    rewrite app_assoc in E. apply app_inj_tail in E as [E _]. destruct Hp as [y Hp]. destruct p as [|a p]; [congruence|].
    rewrite (Ho (a :: p) r') in Hp; [done|done|done].
Qed.
Lemma wf_delete fs p : wf_disk fs → wf_disk (delete p fs).
Proof.
  intros Hwf q [x [_ Hq]%lookup_delete_Some]. apply is_dir_false. intros r Hr. specialize (Hwf q (mk_is_Some _ _ Hq)).
  rewrite is_dir_false in Hwf. apply eq_None_not_Some. intros [y [_ Hy]%lookup_delete_Some]. by rewrite Hwf in Hy.
Qed.
Lemma wf_data fs p f g : wf_disk fs → fs !! p = Some f → wf_disk (<[p := g]> fs).
Proof.
  intros Hwf Hp q Hq. assert (Hs : ∀ x, is_Some (<[p := g]> fs !! x) ↔ is_Some (fs !! x)).
  { intros x. destruct (decide (x = p)) as [->|]; [rewrite lookup_insert_eq, Hp|by rewrite lookup_insert_ne]. split; eauto. }
  apply is_dir_false. intros r Hr. specialize (Hwf q (proj1 (Hs q) Hq)). rewrite is_dir_false in Hwf.
  apply eq_None_not_Some. rewrite Hs. intros [y Hy]. by rewrite Hwf in Hy.
Qed.

Section wf_copy.
Context `{Env}.
Definition sound (fs : files) : Prop := wf_disk fs ∧ fs !! [] = None.

Lemma sound_data fs p f g : sound fs → fs !! p = Some f → sound (<[p := g]> fs).
Proof. intros [Hwf H0] Hp. split; [by eapply wf_data|]. rewrite lookup_insert_ne; [done|intros ->; congruence]. Qed.
Lemma sound_delete fs p : sound fs → sound (delete p fs).
Proof. intros [Hwf H0]. split; [by apply wf_delete|]. apply lookup_delete_None. by right. Qed.
Lemma sound_insert fs d n f : sound fs → open_way d fs → is_dir fs (d ++ [n]) = false → sound (<[d ++ [n] := f]> fs).
Proof. intros [Hwf H0] Ho Hd. split; [by apply wf_insert|]. rewrite lookup_insert_ne; [done|]. by destruct d. Qed.

Lemma sound_check fs : forallb (fun kv => negb (is_dir fs kv.1)) (map_to_list fs) && bool_decide (fs !! [] = None) = true → sound fs.
Proof.
  intros [Hall H0%bool_decide_eq_true]%andb_true_iff. split; [|done]. rewrite forallb_forall in Hall. intros p [f Hp].
  apply negb_true_iff. apply (Hall (p, f)). apply list_elem_of_In. by apply elem_of_map_to_list.
Qed.

(** Under way: the way to the directory [d] is free, and stays so when a file in it changes. *)
Definition reach (d : fpath) (fs : files) : Prop := sound fs ∧ open_way d fs.
Lemma reach_insert d n fs f : reach d fs → is_dir fs (d ++ [n]) = false → reach d (<[d ++ [n] := f]> fs).
Proof.
  intros [Hs Ho] Hd. split; [by apply sound_insert|]. intros a b E Ha. rewrite lookup_insert_ne; [by eapply Ho|].
  intros <-. apply (f_equal length) in E. rewrite !length_app in E. cbn in E. lia.
Qed.
Lemma reach_delete d p fs : reach d fs → reach d (delete p fs).
Proof. intros [Hs Ho]. split; [by apply sound_delete|]. intros a b E Ha. apply lookup_delete_None. right. by eapply Ho. Qed.

Lemma triple_MakeDirs d : triple sound (os_MakeDirs d) (fun _ => reach d) sound.
Proof.
  apply triple_syscall; [done|]. intros fs _ Hs. destruct (existsb _ _) eqn:E; [done|]. split; [done|]. intros a b -> Ha.
  apply not_true_iff_false in E. apply eq_None_not_Some. intros Hx. apply E, existsb_exists. exists (length a). split.
  - apply in_seq. rewrite length_app. destruct a; [done|]. cbn. lia.
  - rewrite take_app_length. by apply bool_decide_eq_true.
Qed.

Lemma copyFile_sound src dst : dst ≠ [] → preserves sound (copyFile src dst).
Proof.
  intros Hne. destruct (exists_last Hne) as (d & n & ->). apply triple_preserves.
  assert (Htmp : tmp_name (d ++ [n]) = d ++ [n +:+ ".tmp"]) by (unfold tmp_name, dir_of, base_of; by rewrite removelast_last, last_last).
  assert (Hdir : dir_of (d ++ [n]) = d) by (unfold dir_of; by rewrite removelast_last).
  unfold copyFile. rewrite Htmp, Hdir. set (T := d ++ [n +:+ ".tmp"]).
  assert (Hk : ∀ {A} (m : M A), preserves (reach d) m → triple (reach d) m (fun _ => reach d) sound).
  { intros A m Hm. eapply triple_conseq; [by apply triple_preserves|done|done|by intros fs [? _]]. }
  apply (triple_bind _ _ (fun _ => sound)); [apply triple_preserves, preserves_query|intros _].
  apply (triple_bind _ _ (fun _ => reach d)); [apply triple_MakeDirs|intros _].
  apply (triple_bind _ _ (fun _ => reach d)).
  { apply Hk, preserves_syscall. intros fs t Hs. destruct (is_dir fs T) eqn:E; [done|]. by apply reach_insert. }
  intros _. apply (triple_bind _ _ (fun _ => reach d)).
  { apply Hk, preserves_try, preserves_bind; [apply preserves_query|]. intros x s Hs. unfold os_Write, append_file.
    assert (Hw : ∀ y t, reach d (match st_files s !! T with Some f => <[T := mkFile (f_data f ++ y) t]> (st_files s) | None => st_files s end)).
    { intros y t. destruct (st_files s !! T) as [f|] eqn:E; [|done]. apply reach_insert; [done|]. destruct Hs as [[Hwf _] _]. by apply Hwf. }
    destruct (env_fault _); cbn; apply Hw. }
  assert (Hrm : preserves (reach d) (os_Remove T)).
  { apply preserves_syscall. intros fs t Hs. destruct (fs !! T); [by apply reach_delete|done]. }
  assert (Hend : ∀ (e : err) Q, triple (reach d) (_ ← try (os_Remove T); fail e : M unit) Q sound).
  { intros e Q. apply (triple_bind _ _ (fun _ => reach d)); [by apply Hk, preserves_try|]. intros _. apply triple_fail. by intros fs [? _]. }
  intros [u|e].
  - apply (triple_bind _ _ (fun _ => reach d)); [by apply Hk, preserves_try, preserves_query|]. intros [u'|e]; [|apply Hend].
    apply triple_syscall; [by intros fs [? _]|]. intros fs _ Hs. destruct (fs !! T) as [f|] eqn:E; [|by destruct Hs].
    destruct (is_dir fs (d ++ [n])) eqn:Ed; [by destruct Hs|]. apply (reach_delete d T) in Hs as [Hs Ho].
    apply sound_insert; [done|done|]. rewrite is_dir_false in Ed |- *. intros r Hr. apply lookup_delete_None. right. by apply Ed.
  - apply (triple_bind _ _ (fun _ => reach d)); [by apply Hk, preserves_try, preserves_query|]. intros _. apply Hend.
Qed.
End wf_copy.

(** ** A directory copied *)

Section copy_dir.
Context `{Env} (S D : fpath) (fs0 : files).
Hypothesis no_skip : ∀ i e, env_fault i = Some e → is_SkipDir e = false.
Hypothesis wf : ∀ p, is_Some (fs0 !! p) → is_dir fs0 p = false.
Hypothesis SD : below S D = false.
Hypothesis DS : below D S = false.
Hypothesis S_dir : fs0 !! S = None.

(** The name of a file that is being written. *)
Definition in_transit (r : fpath) : Prop := ∃ r', r' ≠ [] ∧ is_Some (fs0 !! (S ++ r')) ∧ r = tmp_name r'.
(** The file is there, as it is at the source. *)
Definition brought (r : fpath) (fs : files) : Prop := ∃ f t, fs0 !! (S ++ r) = Some f ∧ fs !! (D ++ r) = Some (mkFile (f_data f) t).
Definition untouched (r : fpath) (fs : files) : Prop := fs !! (D ++ r) = fs0 !! (D ++ r).
Definition copying (seen : list fpath) (_ : unit) (fs : files) : Prop :=
  only_below D fs0 fs ∧ ∀ r, ¬ in_transit r → (S ++ r ∈ seen → brought r fs) ∧ (S ++ r ∉ seen → untouched r fs).
(** However far a copy came: each file below the destination is the old or the new one. *)
Definition old_or_new (fs : files) : Prop := only_below D fs0 fs ∧ ∀ r, ¬ in_transit r → brought r fs ∨ untouched r fs.

Lemma copying_same l b fs : copying l b fs → agrees (fun q => below S q = true) fs0 fs.
Proof. intros [Ho _] q [r ->]%below_iff. apply Ho. by apply apart. Qed.
Lemma copying_some l b fs : copying l b fs → old_or_new fs.
Proof. intros [Ho Hr]. split; [done|]. intros r Hn. destruct (Hr r Hn) as [H1 H2]. destruct (decide (S ++ r ∈ l)); [left|right]; auto. Qed.

Lemma step_state (m : M unit) p (d : bool) l b : sane m → triple (copying l b) m (fun _ => copying (if d then l else p :: l) b) old_or_new →
  triple (copying l b) (r ← try m; mret (b, error_of r)) (answers (fun _ => old_or_new) (copying (if d then l else p :: l))) (fun _ => False).
Proof.
  intros Hsane Hm s Hs. rewrite bind_run, try_run. specialize (Hm s Hs). specialize (Hsane s). destruct (m s) as [s1 [a|e]]; cbn; [by destruct b|done].
Qed.

Lemma sane_quiet_step {A} (m : M A) : sane m → sane (_ ← os_Quiet; _ ← os_Quiet; m).
Proof. intros Hm. do 2 (apply sane_bind; [by apply sane_query|intros _]). done. Qed.
Lemma sane_MakeDirs p : sane (os_MakeDirs p).
Proof. apply sane_query; [done|]. intros fs. by destruct (existsb _ _). Qed.

Lemma copy_on_file l b p : below S p = true → is_Some (fs0 !! p) →
  triple (copying l b) (copy_step S D b p false None) (answers (fun _ => old_or_new) (copying (p :: l))) (fun _ => False).
Proof.
  intros [r0 ->]%below_iff [f0 Hf0]. destruct b. assert (Hr0 : r0 ≠ []) by (intros ->; rewrite app_nil_r in Hf0; congruence).
  cbn [copy_step]. rewrite drop_app_length. apply (step_state _ (S ++ r0) false); [by apply sane_quiet_step, sane_copyFile|].
  do 2 (apply (triple_bind _ _ (fun _ => copying l tt));
    [eapply triple_conseq; [apply triple_preserves, (preserves_query (copying l tt))|done|done|apply copying_some]|intros _]).
  apply triple_from. intros fs HR. assert (Hsame := copying_same _ _ _ HR). destruct HR as [Ho Hr].
  assert (Htmp : tmp_name (D ++ r0) = D ++ tmp_name r0) by by apply tmp_app.
  assert (Hnot : ∀ q, below D q = false → q ≠ D ++ tmp_name r0 ∧ q ≠ D ++ r0).
  { intros q Hq. split; intros ->; by rewrite below_app in Hq. }
  assert (Hin : ∀ r, ¬ in_transit r → D ++ r ≠ D ++ tmp_name r0).
  { intros r Hn E. apply app_inv_head in E. apply Hn. exists r0. by rewrite E. }
  eapply triple_conseq; [apply (triple_copy_file (S ++ r0) (D ++ r0) fs f0)|by intros ? <-| |].
  - rewrite Htmp. intros E. apply (f_equal (below D)) in E. rewrite below_app, apart in E; done.
  - rewrite (Hsame (S ++ r0)) by apply below_app. done.
  - intros _ fs' [Hf (t & Ht)]. rewrite Htmp in Hf. split; [intros q Hq; rewrite Hf by (by apply Hnot); by apply Ho|].
    intros r Hn. destruct (decide (r = r0)) as [->|Hne].
    + split; [intros _; by exists f0, t|]. intros Hc. exfalso. apply Hc. by left.
    + destruct (Hr r Hn) as [Hb Hu]. unfold brought, untouched.
      rewrite Hf by (split; [by apply Hin|intros E; by apply app_inv_head in E]). split.
      * intros [E|Hl]%elem_of_cons; [by apply app_inv_head in E|by apply Hb].
      * intros Hl. apply Hu. intros Hl'. apply Hl. by right.
  - intros fs' Hf. rewrite Htmp in Hf. split; [intros q Hq; rewrite Hf by (by apply Hnot); by apply Ho|].
    intros r Hn. destruct (Hr r Hn) as [Hb Hu]. unfold brought, untouched. rewrite Hf by (by apply Hin).
    destruct (decide (S ++ r ∈ l)); [left; by apply Hb|right; by apply Hu].
Qed.

Lemma copy_on_dir l b p : triple (copying l b) (copy_step S D b p true None) (answers (fun _ => old_or_new) (copying l)) (fun _ => False).
Proof.
  destruct b. apply (step_state _ p true); [by apply sane_quiet_step, sane_MakeDirs|].
  do 2 (apply (triple_bind _ _ (fun _ => copying l tt));
    [eapply triple_conseq; [apply triple_preserves, (preserves_query (copying l tt))|done|done|apply copying_some]|intros _]).
  eapply triple_conseq; [apply triple_preserves, (preserves_query (copying l tt))|done|done|apply copying_some].
Qed.

(** A copy that succeeds is complete; one that does not left every file old or new. *)
Lemma triple_copy_dir : triple (eq fs0) (copyDir S D)
  (fun _ fs => only_below D fs0 fs ∧ ∀ r, ¬ in_transit r → (is_Some (fs0 !! (S ++ r)) → brought r fs) ∧ (fs0 !! (S ++ r) = None → untouched r fs))
  old_or_new.
Proof.
  unfold copyDir. apply (triple_bind _ _ (answers (fun _ => old_or_new) (walked fs0 copying S []))).
  - eapply triple_conseq; [apply (visits_WalkDir (copy_step S D) fs0 S copying (fun _ => old_or_new))| |done|done].
    + exact wf.
    + exact copying_same.
    + exact copying_some.
    + intros l b p. apply copy_on_file.
    + intros l b p _ _. apply copy_on_dir.
    + intros b p d e He. destruct b. by apply triple_ret.
    + exact no_skip.
    + intros ? <-. split; [apply agrees_refl|]. intros r _. split; [by intros ?%not_elem_of_nil|done].
  - intros [u [e|]]; cbn; [by apply triple_fail; intros fs [_ ?]|]. apply triple_ret. intros fs (l & [_ Hm] & Ho & Hr).
    split; [done|]. intros r Hn. destruct (Hr r Hn) as [Hb Hu]. split; [intros Hs; by apply Hb, Hm|].
    intros HN. destruct (decide (S ++ r ∈ l)) as [Hl|Hl]; [|by apply Hu]. apply Hb in Hl as (f & t & Hf & _). congruence.
Qed.

(** The rounds [WalkDir] is given are enough: more change nothing. *)
Lemma copyDir_enough s n : below S (tmp_name D) = false → st_files s = fs0 → (max_depth fs0 ≤ n)%nat → copyDir S D s =
  ('(_, e) ← (r ← try (os_IsDir S);
              '(b, e) ← match r with
                        | Err x => copy_step S D tt S false (Some x)
                        | Ok d => walk_fuel (copy_step S D) (Datatypes.S (Datatypes.S n)) tt S d
                        end;
              mret (b, unless_skipped e));
   match e with Some e => fail e | None => mret tt end) s.
Proof.
  intros HT Hs Hn. unfold copyDir.
  enough (Hk : ∀ b p d e, below S p = true → preserves (agrees (fun q => below S q = true) fs0) (copy_step S D b p d e))
    by by rewrite !(bind_run _ _ s), (WalkDir_run (copy_step S D) fs0 S Hk tt s n Hs Hn).
  intros b p d e [r ->]%below_iff. destruct e as [e|]; [apply preserves_ret|]. cbn [copy_step]. rewrite drop_app_length.
  apply preserves_bind; [apply preserves_try|intros r'; apply preserves_ret].
  do 2 (apply preserves_bind; [apply preserves_query|intros _]). destruct d; [apply preserves_query|].
  set (I := agrees _ fs0). assert (HD : below S (D ++ r) ≠ true) by (by rewrite apart).
  assert (HX : below S (tmp_name (D ++ r)) ≠ true).
  { destruct r as [|x r]; [by rewrite app_nil_r, HT|]. rewrite tmp_app by done. by rewrite apart. }
  assert (Hrm : preserves I (os_Remove (tmp_name (D ++ r)))) by by apply Remove_agrees.
  unfold copyFile. do 2 (apply preserves_bind; [apply preserves_query|intros _]).
  apply preserves_bind; [|intros _].
  { apply preserves_syscall. intros fs t Hfs. destruct (is_dir _ _); [done|by apply agrees_insert]. }
  apply preserves_bind; [apply preserves_try, preserves_bind; [apply preserves_query|intros x; by apply Write_agrees]|].
  assert (Hend : ∀ e, preserves I (_ ← try (os_Remove (tmp_name (D ++ r))); fail e : M unit)).
  { intros e. apply preserves_bind; [by apply preserves_try|intros _; apply preserves_fail]. }
  intros [u|e]; [|apply preserves_bind; [apply preserves_try, preserves_query|intros _; apply Hend]].
  apply preserves_bind; [apply preserves_try, preserves_query|]. intros [u'|e]; [|apply Hend].
  apply preserves_syscall. intros fs t Hfs. destruct (fs !! _); [|done]. destruct (is_dir _ _); [done|].
  apply agrees_insert; [done|]. by apply agrees_delete.
Qed.
End copy_dir.

Section backend_copy.
Context `{Env}.

Lemma copyDir_sound S D : D ≠ [] → preserves sound (copyDir S D).
Proof.
  intros HD. unfold copyDir. apply preserves_bind; [|intros [u [e|]]; [apply preserves_fail|apply preserves_ret]].
  apply WalkDir_preserves. intros b p d [e|]; [apply preserves_ret|]. cbn [copy_step].
  apply preserves_bind; [apply preserves_try|intros r; apply preserves_ret].
  do 2 (apply preserves_bind; [apply preserves_query|intros _]). destruct d; [apply preserves_query|]. apply copyFile_sound. by destruct D.
Qed.

(** Two directories, neither inside the other, the first not a file. *)
Record apart_dirs (S D : fpath) (fs : files) : Prop := {
  ad_SD : below S D = false; ad_DS : below D S = false; ad_S : fs !! S = None; ad_D : D ≠ [] }.
Definition full_copy (S D : fpath) (fs0 fs : files) : Prop :=
  only_below D fs0 fs ∧ ∀ r, ¬ in_transit S fs0 r →
    (is_Some (fs0 !! (S ++ r)) → brought S D fs0 r fs) ∧ (fs0 !! (S ++ r) = None → untouched D fs0 r fs).
(** A call failed or was refused; never because [filepath.SkipDir] came from the system. *)
Definition no_skips : Prop := ∀ i e, env_fault i = Some e → is_SkipDir e = false.

(** What a push or a pull comes to. *)
Definition transferred (S D : fpath) (fs : files) (x : St * result (Result * option err)) : Prop :=
  ∃ s' res e, x = (s', Ok (res, e)) ∧ rs_OK res = bool_decide (e = None) ∧ sound (st_files s') ∧
    old_or_new S D fs (st_files s') ∧ (e = None → full_copy S D fs (st_files s')).
Lemma copy_run op src dst s : no_skips → sound (st_files s) → apart_dirs (dir_segs src) (dir_segs dst) (st_files s) →
  transferred (dir_segs src) (dir_segs dst) (st_files s) (copy op src dst false s).
Proof.
  intros Hn Hs [SD DS HS HD]. unfold copy, stamp. rewrite !bind_run. unfold now at 1. cbv beta iota. unfold mret at 1, M_ret at 1. cbv beta iota zeta.
  rewrite bind_run, try_run. set (st := tick1 s). set (c := copyDir _ _ st).
  pose proof (triple_copy_dir (dir_segs src) (dir_segs dst) (st_files s) Hn (proj1 Hs) SD DS HS st eq_refl) as Hc.
  pose proof (copyDir_sound (dir_segs src) (dir_segs dst) HD st Hs) as Hk. fold c in Hc, Hk. destruct c as [s1 r]. cbn [fst snd] in *.
  rewrite !bind_run. unfold now, mret, M_ret. cbv beta iota.
  eexists _, _, _. split; [reflexivity|]. cbn [rs_OK st_files tick1]. split; [by destruct r|]. split; [done|].
  destruct r as [u|e]; [|by split].
  split; [|done]. destruct Hc as [Ho Hr]. split; [done|]. intros r Ht. destruct (Hr r Ht) as [H1 H2].
  destruct (decide (is_Some (st_files s !! (dir_segs src ++ r)))) as [Hd|Hd]; [left; by apply H1|right; by apply H2, eq_None_not_Some].
Qed.
End backend_copy.

(** ** A synchronisation *)

(** Where a backend finds the directory at the remote. *)
Definition remote_dir (remote name : string) : string :=
  let clean := path_clean remote in
  let base := path_base clean in
  if String.eqb base "SeaVaultData" || String.eqb base MetadataDirName then clean else path_join [clean; name].

Section names.
Context `{Env} (vs : list string).
Hypothesis vs_plain : Forall plain_seg vs.
Hypothesis vs_some : vs ≠ [].
Hypothesis calm : ∀ i, env_fault i = None.

Definition config_at (n : string) : fpath := "" :: vs ++ [n; "vault.json"].
(** The vault's configuration stands under exactly this name. *)
Definition vault_at (name : string) (fs : files) : Prop :=
  is_Some (fs !! config_at name) ∧ ∀ n, n ∈ MetadataDirNames → n ≠ name → fs !! config_at n = None ∧ is_dir fs (config_at n) = false.

Lemma probe_calm found n s : plain_seg n → probe_name (at_root vs []) found n s =
  (tick1 s, Ok (if bool_decide (is_Some (st_files s !! config_at n)) || is_dir (st_files s) (config_at n) then found ++ [n] else found)).
Proof.
  intros Hp. unfold probe_name, os_Stat. rewrite bind_run, try_run, query_quiet by done.
  change ConfigFileName with "vault.json". assert (Hn : Forall plain_seg [n; "vault.json"]) by (constructor; [done|by repeat constructor]).
  rewrite (join_at vs vs_plain vs_some _ Hn) by done. cbn [app]. rewrite segs_at by done. fold (config_at n). cbn [fst snd].
  by destruct (bool_decide _ || _).
Qed.
Lemma meta_name_calm name s : name ∈ MetadataDirNames → vault_at name (st_files s) →
  ∃ s', meta_name (at_root vs []) s = (s', Ok name) ∧ st_files s' = st_files s.
Proof.
  intros Hin [Hc Ho]. unfold meta_name, ResolveMetaDir, MetadataDirNames. cbn [mfold]. rewrite bind_run, try_run.
  rewrite !bind_run, probe_calm by (by repeat constructor). rewrite bind_run, probe_calm by (by repeat constructor).
  cbn [st_files tick1]. unfold MetadataDirNames in Hin.
  apply elem_of_cons in Hin as [->|Hin]; [|apply list_elem_of_singleton in Hin as ->].
  - destruct (Ho ".seavault" ltac:(by right; left) ltac:(done)) as [-> ->].
    rewrite (bool_decide_true (is_Some (_ !! config_at "SeaVaultData"))) by done. eexists; split; reflexivity.
  - destruct (Ho "SeaVaultData" ltac:(by left) ltac:(done)) as [-> ->]. rewrite (bool_decide_true (is_Some (_ !! config_at ".seavault"))) by done.
    eexists; split; reflexivity.
Qed.
End names.

Section sync.
Context `{Env} (b : Backend) (vs : list string) (name : string).
Hypothesis vs_plain : Forall plain_seg vs.
Hypothesis vs_some : vs ≠ [].
Hypothesis calm : ∀ i, env_fault i = None.
Hypothesis vault_is : vault_of b = at_root vs [].
Hypothesis named : name ∈ MetadataDirNames.

(** The two directories. *)
Definition local_side : fpath := "" :: vs ++ [name].
Definition remote_side : fpath := dir_segs (remote_dir (remote_of b) name).
Abbreviation L := local_side.
Abbreviation R := remote_side.
(** The remote is apart from the whole vault, and not a file. *)
Definition remote_apart (fs : files) : Prop := below R ("" :: vs) = false ∧ below ("" :: vs) R = false ∧ fs !! R = None ∧ R ≠ [].

Definition bytes_at (fs : files) (p : fpath) : option bytes := f_data <$> fs !! p.
Definition first_of (a b : option bytes) : option bytes := match a with Some _ => a | None => b end.

Lemma name_plain : Forall plain_seg [name].
Proof.
  constructor; [|done]. unfold MetadataDirNames in named. apply elem_of_cons in named as [->|Hin]; [|apply list_elem_of_singleton in Hin as ->]; by repeat constructor.
Qed.
Lemma L_segs : dir_segs (at_root vs [name]) = L.
Proof.
  assert (Hn := name_plain).
  unfold dir_segs. destruct (String.eqb_spec (at_root vs [name]) "/") as [E|_]; [|by apply segs_at].
  exfalso. apply (f_equal os_segs) in E. rewrite segs_at in E by done. change (os_segs "/") with [""; ""] in E.
  destruct vs as [|v [|]]; try done. 
Qed.
Lemma below_vault r : below ("" :: vs) (L ++ r) = true.
Proof. unfold local_side. rewrite <- app_comm_cons, <- app_assoc. apply (below_app ("" :: vs)). Qed.
Lemma apart_LR fs : remote_apart fs → below R L = false ∧ below L R = false.
Proof.
  intros (H1 & H2 & _). split; unfold local_side.
  - apply (apart R ("" :: vs) [name]); done.
  - apply not_true_is_false. intros Hb. apply (below_trans ("" :: vs)) in Hb; [congruence|]. pose proof (below_vault []) as Hv. by rewrite app_nil_r in Hv.
Qed.

Lemma localMeta_calm s : vault_at vs name (st_files s) → ∃ s', localMeta (vault_of b) s = (s', Ok (at_root vs [name])) ∧ st_files s' = st_files s.
Proof.
  intros Hv. rewrite vault_is. unfold localMeta. rewrite bind_run. destruct (meta_name_calm vs vs_plain vs_some calm name s named Hv) as (s' & -> & Hs).
  exists s'. split; [|done]. unfold mret, M_ret. f_equal. f_equal. apply (join_at vs vs_plain vs_some); [apply name_plain|done|constructor].
Qed.
Lemma remoteMeta_calm s : vault_at vs name (st_files s) →
  ∃ s', remoteMeta (remote_of b) (vault_of b) s = (s', Ok (remote_dir (remote_of b) name)) ∧ st_files s' = st_files s.
Proof.
  intros Hv. rewrite vault_is. unfold remoteMeta. rewrite bind_run. destruct (meta_name_calm vs vs_plain vs_some calm name s named Hv) as (s' & -> & Hs).
  by exists s'.
Qed.
End sync.

Section transfer.
Context `{Env} (b : Backend).

Lemma probe_any root found n s : ∃ s', st_files s' = st_files s ∧
  (probe_name root found n s = (s', Ok found) ∨ probe_name root found n s = (s', Ok (found ++ [n])) ∨ ∃ e, probe_name root found n s = (s', Err e)).
Proof.
  unfold probe_name. rewrite bind_run, try_run. unfold os_Stat.
  match goal with |- context [query ?act s] => destruct (query_run act s) as (r & -> & _) end.
  exists (tick1 s). split; [done|]. cbn [fst snd]. destruct r as [u|e]; [by right; left|]. destruct (not_exist e); [by left|]. right; right. by exists e.
Qed.
Lemma meta_name_any root s : ∃ s' n, meta_name root s = (s', Ok n) ∧ n ∈ MetadataDirNames ∧ st_files s' = st_files s.
Proof.
  unfold meta_name, ResolveMetaDir, MetadataDirNames. cbn [mfold]. rewrite bind_run, try_run.
  assert (H1 : "SeaVaultData" ∈ ["SeaVaultData"; ".seavault"]) by (by left).
  assert (H2 : MetadataDirName ∈ ["SeaVaultData"; ".seavault"]) by (by right; left).
  rewrite !bind_run. destruct (probe_any root [] "SeaVaultData" s) as (s1 & F1 & [->|[->|[e ->]]]); [| |by exists s1, MetadataDirName];
    rewrite !bind_run; [destruct (probe_any root [] ".seavault" s1) as (s2 & F2 & [->|[->|[e ->]]])
                       |destruct (probe_any root ([] ++ ["SeaVaultData"]) ".seavault" s1) as (s2 & F2 & [->|[->|[e ->]]])];
    rewrite <- F1, <- F2; cbn; exists s2; eauto.
Qed.

(** C5. A push or a pull carries files one at a time, each first under another name and
    then renamed.  When it reports success, the destination holds every file of the
    source with its bytes; whatever stops it, every file there is still the old or
    already the new one, nothing is deleted, and nothing outside the destination (so
    also not the source) has changed.  Only the name of a file being written is not
    covered.  The result says whether there was an error. *)
Theorem transfer_complete_or_resumable s : no_skips → sound (st_files s) →
  let here n := dir_segs (path_join [vault_of b; n]) in let there n := dir_segs (remote_dir (remote_of b) n) in
  (∀ n m, n ∈ MetadataDirNames → m ∈ MetadataDirNames →
     apart_dirs (here n) (there m) (st_files s) ∧ apart_dirs (there m) (here n) (st_files s)) →
  (∃ n m, n ∈ MetadataDirNames ∧ m ∈ MetadataDirNames ∧
     transferred (here n) (there m) (st_files s) (Push b (mkTransportOptions false) s)) ∧
  (∃ n m, n ∈ MetadataDirNames ∧ m ∈ MetadataDirNames ∧
     transferred (there m) (here n) (st_files s) (Pull b (mkTransportOptions false) s)).
Proof.
  intros Hn Hs here there Ha. split.
  - unfold Push, localMeta. rewrite !bind_run. destruct (meta_name_any (vault_of b) s) as (s1 & n & -> & Hin & F1).
    unfold mret at 1, M_ret at 1. cbv beta iota. unfold remoteMeta. rewrite !bind_run.
    destruct (meta_name_any (vault_of b) s1) as (s2 & m & -> & Him & F2). unfold mret, M_ret. cbv beta iota zeta. fold (remote_dir (remote_of b) m).
    exists n, m. split; [done|]. split; [done|]. rewrite <- F1, <- F2 in *. by apply copy_run, Ha.
  - unfold Pull, remoteMeta. rewrite !bind_run. destruct (meta_name_any (vault_of b) s) as (s1 & m & -> & Him & F1).
    unfold mret at 1, M_ret at 1. cbv beta iota zeta. fold (remote_dir (remote_of b) m). unfold localMeta. rewrite !bind_run.
    destruct (meta_name_any (vault_of b) s1) as (s2 & n & -> & Hin & F2). unfold mret, M_ret. cbv beta iota zeta.
    exists n, m. split; [done|]. split; [done|]. rewrite <- F1, <- F2 in *. by apply copy_run, Ha.
Qed.
End transfer.

Section synced.
Context `{Env} (b : Backend) (vs : list string) (name : string).
Hypothesis vs_plain : Forall plain_seg vs.
Hypothesis vs_some : vs ≠ [].
Hypothesis calm : ∀ i, env_fault i = None.
Hypothesis vault_is : vault_of b = at_root vs [].
Hypothesis named : name ∈ MetadataDirNames.
Abbreviation L := (local_side vs name).
Abbreviation R := (remote_side b name).

Lemma calm_no_skips : no_skips.
Proof. intros i e. by rewrite calm. Qed.

Lemma Pull_calm s : vault_at vs name (st_files s) → sound (st_files s) → apart_dirs R L (st_files s) →
  ∃ s0, st_files s0 = st_files s ∧ Pull b (mkTransportOptions false) s = copy OperationPull (remote_dir (remote_of b) name) (at_root vs [name]) false s0.
Proof.
  intros Hv Hs Ha. unfold Pull. destruct (remoteMeta_calm b vs name vs_plain vs_some calm vault_is named s Hv) as (s1 & E1 & F1).
  rewrite bind_run, E1. rewrite <- F1 in Hv. destruct (localMeta_calm b vs name vs_plain vs_some calm vault_is named s1 Hv) as (s2 & E2 & F2).
  rewrite bind_run, E2. exists s2. split; [congruence|done].
Qed.
Lemma Push_calm s : vault_at vs name (st_files s) →
  ∃ s0, st_files s0 = st_files s ∧ Push b (mkTransportOptions false) s = copy OperationPush (at_root vs [name]) (remote_dir (remote_of b) name) false s0.
Proof.
  intros Hv. unfold Push. destruct (localMeta_calm b vs name vs_plain vs_some calm vault_is named s Hv) as (s1 & E1 & F1).
  rewrite bind_run, E1. rewrite <- F1 in Hv. destruct (remoteMeta_calm b vs name vs_plain vs_some calm vault_is named s1 Hv) as (s2 & E2 & F2).
  rewrite bind_run, E2. exists s2. split; [congruence|done].
Qed.

Lemma has_suffix_app (p s : string) : has_suffix (p +:+ s) s = true.
Proof.
  unfold has_suffix. rewrite str_length_app, Nat.add_sub, str_drop_app, String.eqb_refl.
  destruct (Nat.leb_spec (String.length s) (String.length p + String.length s)); [done|lia].
Qed.
Lemma not_tmp r p fs : has_suffix (base_of r) ".tmp" = false → ¬ in_transit p fs r.
Proof.
  intros Hr (r' & Hne & _ & ->). unfold base_of, tmp_name in Hr. rewrite last_last in Hr. by rewrite has_suffix_app in Hr.
Qed.

(** The vault's own files elsewhere than in the two directories. *)
Lemma config_in_L : config_at vs name = L ++ ["vault.json"].
Proof. unfold config_at, local_side. cbn. by rewrite <- app_assoc. Qed.
Lemma vault_at_after fs fs' : vault_at vs name fs → only_below L fs fs' → is_Some (fs' !! config_at vs name) → vault_at vs name fs'.
Proof.
  intros [Hc Ho] Hl Hs. split; [done|]. intros n Hin Hne. destruct (Ho n Hin Hne) as [H1 H2].
  assert (Hb : ∀ r, below L (config_at vs n ++ r) = false).
  { intros r. apply not_true_is_false. intros [x Hx]%below_iff. unfold config_at, local_side in Hx. rewrite <- !app_comm_cons, <- !app_assoc in Hx.
    injection Hx as Hx. apply app_inv_head in Hx. by injection Hx. }
  split; [rewrite Hl; [done|]; specialize (Hb []); by rewrite app_nil_r in Hb|].
  rewrite <- H2. apply is_dir_agrees. intros q [r ->]%below_iff. by apply Hl.
Qed.
(** One direction of a synchronisation that went well. *)
Lemma full_copy_bytes S D fs0 fs r : full_copy S D fs0 fs → has_suffix (base_of r) ".tmp" = false →
  bytes_at fs (D ++ r) = first_of (bytes_at fs0 (S ++ r)) (bytes_at fs0 (D ++ r)).
Proof.
  intros [_ Hr] Hn. destruct (Hr r (not_tmp r S fs0 Hn)) as [H1 H2]. unfold bytes_at.
  destruct (fs0 !! (S ++ r)) as [f|] eqn:E.
  - destruct (H1 ltac:(eauto)) as (f' & t & Hf & ->). rewrite E in Hf. by injection Hf as <-.
  - cbn. by rewrite H2.
Qed.

Lemma apart_sides fs : remote_apart b vs name fs → sound fs → vault_at vs name fs → apart_dirs R L fs ∧ apart_dirs L R fs.
Proof.
  intros Hr [Hwf _] [Hc _]. pose proof (apart_LR b vs name fs Hr) as [H1 H2]. destruct Hr as (_ & _ & H3 & H4).
  assert (HL : fs !! L = None).
  { apply eq_None_not_Some. intros Hs%Hwf. rewrite is_dir_false in Hs. rewrite config_in_L, Hs in Hc by done. by destruct Hc. }
  by split; constructor.
Qed.

End synced.

(** ** Witnesses *)

#[local] Existing Instance demo_env.
Definition two_sides : files := list_to_map [
  (["";"v";"SeaVaultData";"vault.json"], mkFile [Byte.x02] 9); (["";"v";"SeaVaultData";"objects";"a"], mkFile [Byte.x0a] 9);
  (["";"r";"SeaVaultData";"vault.json"], mkFile [Byte.x01] 5); (["";"r";"SeaVaultData";"objects";"b"], mkFile [Byte.x0b] 5)].
Definition side_start : St := mkSt two_sides 0 None 0 None.
Definition side_backend : Backend := mkBackend (mkRemoteProfile "p" "local" "/v"
  (mkRemoteConfig "" "/r" "local" "managed" "" 8 16 true "auto" "" false "" "" 0 "" "")
  (mkRuntimeConfig "stable" "" false false) (mkSafetyConfig "copy" false false 30 false) "" "").
Lemma two_sides_sound : sound two_sides.
Proof. apply sound_check. vm_compute. reflexivity. Qed.

Definition apart_check (S D : fpath) (fs : files) : bool :=
  negb (below S D) && negb (below D S) && bool_decide (fs !! S = None) && negb (bool_decide (D = [])).
Lemma apart_checked S D fs : apart_check S D fs = true → apart_dirs S D fs.
Proof. intros [[[H1 H2]%andb_true_iff H3]%andb_true_iff H4]%andb_true_iff. constructor; [by apply negb_true_iff..| |].
  - by apply bool_decide_eq_true in H3.
  - by apply negb_true_iff, bool_decide_eq_false in H4.
Qed.
Lemma transfer_complete_or_resumable_witness : ∃ s' res, Push side_backend (mkTransportOptions false) side_start = (s', Ok (res, None)) ∧
  sound (st_files s').
Proof.
  assert (Hnone : match Push side_backend (mkTransportOptions false) side_start with (_, Ok (_, None)) => true | _ => false end = true)
    by (vm_compute; reflexivity).
  assert (Hap : forallb (fun n => forallb (fun m => let S := dir_segs (path_join [vault_of side_backend; n]) in
      let D := dir_segs (remote_dir (remote_of side_backend) m) in apart_check S D two_sides && apart_check D S two_sides) MetadataDirNames) MetadataDirNames = true)
    by (vm_compute; reflexivity).
  destruct (transfer_complete_or_resumable side_backend side_start) as [(n & m & _ & _ & s' & res & e & E & _ & Hs & _) _].
  - intros i e. discriminate.
  - apply two_sides_sound.
  - intros n m Hn Hm. rewrite forallb_forall in Hap. apply list_elem_of_In, Hap in Hn. rewrite forallb_forall in Hn.
    apply list_elem_of_In, Hn in Hm. apply andb_true_iff in Hm as [H1 H2]. split; apply apart_checked; assumption.
  - rewrite E in Hnone. destruct e; [discriminate Hnone|]. exists s', res. split; [exact E|exact Hs].
Defined.
