(* ===== verification/Rclone.v ===== *)
(** Carrying a vault's metadata directory with rclone
    (internal/transport/rclone/rclone.go, and RedactText of internal/rclonebin): the
    commands a transfer issues and their order, the guard before it, and what of the
    program's output is kept.  rclone itself is an argument, the [Runner]. *)
From S2P Require Export Transport OpenVault.
Local Open Scope Z_scope.

Definition quote : ascii := ascii_of_N 34.
Definition quoted_text (s : string) : string := String quote s +:+ String quote "".

(** ** Redaction *)

Section redact.
Context `{GoUnicode}.
Definition secret_keys : list string :=
  ["token"; "refresh_token"; "access_token"; "client_secret"; "password"; "pass"; "secret"; "key_file_pass"; "authorization"; "key";
   "credential"; "sas_url"; "connection_string"; "bearer"; "sig="].
(** [line[:idx+1]] for the first byte that is one of [=:]. *)
Fixpoint upto_separator (s : string) : option string :=
  match s with
  | EmptyString => None
  | String c t => if one_of "=:" c then Some (String c "") else String c <$> upto_separator t
  end.
(** internal/rclonebin/rclonebin.go:857-875 [RedactText]: one line *)
Definition redact_text_line (line : string) : string :=
  let lower := to_lower line in
  if negb (existsb (str_contains lower) secret_keys) then line
  else match upto_separator line with Some p => p +:+ " [REDACTED]" | None => line end.
(** internal/rclonebin/rclonebin.go:855-877 [RedactText] *)
Definition RedactText (s : string) : string := join_lines (map redact_text_line (lines_of s)).
(** internal/transport/rclone/rclone.go:437-439 [Redact] *)
Definition Redact (s : string) : string := RedactText s.

Definition secret_arg (a : string) : bool :=
  let lower := to_lower a in
  str_contains lower "password" || str_contains lower "secret" || str_contains lower "token" || str_contains lower "pass".
(** internal/transport/rclone/rclone.go:443-453 [redactArgs]: the loop; [hidden] says that
    the argument before has this one replaced *)
Fixpoint redact_args_from (hidden : bool) (args : list string) : list string :=
  match args with
  | [] => []
  | a :: t =>
      let a := if hidden then "[REDACTED]" else a in
      if secret_arg a then
        if str_contains a "=" then (before_byte "=" a +:+ "=[REDACTED]") :: redact_args_from false t
        else a :: redact_args_from true t
      else a :: redact_args_from false t
  end.
(** internal/transport/rclone/rclone.go:441-455 [redactArgs] *)
Definition redactArgs (args : list string) : list string := redact_args_from false args.
End redact.

(** ** Output *)

(** internal/transport/rclone/rclone.go:393-399 [firstLine] *)
Definition firstLine (s : string) : string := let s := trim_space s in
  if str_contains s (String Remotes.newline "") then trim_space (before_byte Remotes.newline s) else s.

(** internal/transport/rclone/rclone.go:408-435 [summarizeOutput] *)
Definition summarizeOutput (s : string) : string :=
  let trimmed := trim_space s in
  if String.eqb trimmed "" then ""
  else
    let lines := map (trim_right (Ascii.eqb (ascii_of_N 13))) (List.filter (fun ln => negb (String.eqb (trim_space ln) "")) (lines_of trimmed)) in
    let n := length lines in
    if (n <=? 3)%nat then String.concat "; " lines
    else str_concat [String.concat "; " (take 1 lines); " … ("; itoa (Z.of_nat n - 3); " more lines omitted) … ";
           String.concat "; " (drop (n - 2) lines)].

(** ** The vault's identity in the remote configuration *)

(** [\s] of the regular expression. *)
Definition re_space (c : ascii) : bool := existsb (Ascii.eqb c) (map ascii_of_N [9; 10; 12; 13; 32]%N).
Fixpoint skip_while (p : ascii → bool) (s : string) : string :=
  match s with String c t => if p c then skip_while p t else s | EmptyString => s end.
(** internal/transport/rclone/rclone.go:26-26 [vaultIDPattern] matched where the string
    begins; the identity it finds. *)
Definition vaultIDPattern (s : string) : option string :=
  if has_prefix s (quoted_text "vaultId") then
    match skip_while re_space (str_drop 9 s) with
    | String c t =>
        if Ascii.eqb c ":" then
          match skip_while re_space t with
          | String q v =>
              if Ascii.eqb q quote then
                let id := before_byte quote v in
                if negb (String.eqb id "") && negb (String.eqb id v) then Some id else None
              else None
          | EmptyString => None
          end
        else None
    | EmptyString => None
    end
  else None.
(** internal/transport/rclone/rclone.go:180-186 [parseVaultID]: the leftmost match *)
Fixpoint parseVaultID (s : string) : option string :=
  match vaultIDPattern s with
  | Some id => Some id
  | None => match s with String _ t => parseVaultID t | EmptyString => None end
  end.
Example parse_ex : parseVaultID (str_concat ["{ "; quoted_text "a"; ":1, "; quoted_text "vaultId"; " : "; quoted_text "LOCAL-AAA"; "}"]) = Some "LOCAL-AAA".
Proof. reflexivity. Qed.

(** ** Paths and arguments *)

Definition is_sep (c : ascii) : bool := Ascii.eqb c slash || Ascii.eqb c backslash.
(** internal/transport/rclone/rclone.go:355-362 [joinRemote] *)
Definition joinRemote (base elem : string) : string :=
  let base := trim_right is_sep (trim_space base) in
  let elem := skip_while (Ascii.eqb slash) (replace_byte backslash slash elem) in
  if String.eqb base "" then elem else str_concat [base; "/"; elem].

(** A remote path that is the root of this machine. *)
Example root_lost : joinRemote (trim_right is_sep "/") "SeaVaultData" = "SeaVaultData".
Proof. reflexivity. Qed.

(** internal/transport/rclone/rclone.go:307-317 [isTransferCommand] *)
Definition isTransferCommand (args : list string) : bool :=
  match args with [] => false | a :: _ => existsb (String.eqb a) ["copy"; "copyto"; "sync"; "check"] end.
(** internal/transport/rclone/rclone.go:384-391 [hasArg] *)
Definition hasArg (args : list string) (arg : string) : bool := existsb (fun a => String.eqb a arg) args.

(** A remote path that names the metadata directory already. *)
Definition names_metadata (trim : string) : bool :=
  existsb (fun n => has_suffix trim ("/" +:+ n) || has_suffix trim ("\" +:+ n) || has_suffix trim (":" +:+ n) || String.eqb trim n) MetadataDirNames.

(** internal/transport/rclone/rclone.go:28-31 [Runner] *)
Record Runner : Type := mkRunner { rn_Run : list string → M (string * option err); rn_Path : string }.
(** internal/transport/rclone/rclone.go:46-63 [CommandRunner.Run]; its process is an
    argument: the combined output and the error of [exec.CommandContext]. *)
Definition CommandRunner `{GoUnicode} (exec : string → list string → M (string * option err)) (Binary : string) : Runner := {|
  rn_Path := Binary;
  rn_Run args :=
    '(out, e) ← exec Binary args;
    let redacted := Redact out in
    mret (redacted, match e with
                    | Some e => Some (EWrap (str_concat ["rclone "; String.concat " " args; " failed: "; summarizeOutput redacted; ": "]) e)
                    | None => None
                    end)
|}.

Section rclone.
Context `{Env} `{Platform} `{Host} `{GoUnicode}.

(** internal/transport/rclone/rclone.go:321-331 [localMeta] *)
Definition localMeta (root : string) : M string :=
  let root := match Abs root with Ok abs => abs | Err _ => root end in
  name ← meta_name root;
  mret (path_join [root; name]).

(** internal/transport/rclone/rclone.go:337-353 [remoteMeta] *)
Definition remoteMeta (remote localRoot : string) : M string :=
  let r := trim_space remote in
  if String.eqb r "" then mret r
  else
    name ← meta_name localRoot;
    let trim := trim_right is_sep r in
    mret (if names_metadata trim then trim else joinRemote trim name).

(** internal/transport/rclone/rclone.go:364-377 [ensureConfigFile] *)
Definition ensureConfigFile (path : string) : M unit :=
  p ← lift (Abs path);
  _ ← os_MakeDirs (dir_segs (path_dir p));
  r ← try (os_Stat (dir_segs p));
  match r with
  | Err e =>
      if not_exist e
      then os_WriteFile (dir_segs p) (bytes_of ("# open-seavault-rclone managed rclone configuration" +:+ String Remotes.newline ""))
      else fail e
  | Ok _ => mret tt
  end.

(** internal/transport/rclone/rclone.go:379-382 [dirExists] *)
Definition dirExists (path : string) : M bool :=
  r ← try (os_IsDir (dir_segs path));
  mret (match r with Ok b => b | Err _ => false end).

(** internal/transport/rclone/rclone.go:273-305 [appendBaseArgs] *)
Definition appendBaseArgs (p : RemoteProfile) (args : list string) : M (list string) :=
  p ← Normalize p;
  let r := rp_Remote p in
  let cfg := rc_RcloneConfigPath r in
  mret (args ++
    (if String.eqb (trim_space cfg) "" then [] else ["--config"; match Abs cfg with Ok c => c | Err _ => cfg end]) ++
    ["--log-format"; "date,time"] ++
    (if negb (isTransferCommand args) then []
     else ["--transfers"; itoa (rc_Transfers r); "--checkers"; itoa (rc_Checkers r); "--stats"; "1s"; "--progress"] ++
       (if rc_FastList r then ["--fast-list"] else []) ++
       (if String.eqb (trim_space (rc_BandwidthLimit r)) "" then [] else ["--bwlimit"; rc_BandwidthLimit r]))).

(** internal/transport/rclone/rclone.go:251-264 [pushSequence] *)
Definition pushSequence (p : RemoteProfile) : M (list (list string)) :=
  p ← Normalize p;
  root ← remoteMeta (rc_RemotePath (rp_Remote p)) (rp_Vault p);
  src ← localMeta (rp_Vault p);
  c0 ← appendBaseArgs p ["mkdir"; root];
  c1 ← appendBaseArgs p ["copy"; path_join [src; "objects"; "chunks"]; joinRemote root "objects/chunks"];
  c2 ← appendBaseArgs p ["copy"; path_join [src; "manifests"]; joinRemote root "manifests"];
  tombs ← dirExists (path_join [src; "tombstones"]);
  c3 ← (if tombs : bool
        then c ← appendBaseArgs p ["copy"; path_join [src; "tombstones"]; joinRemote root "tombstones"]; mret [c]
        else mret []);
  c4 ← appendBaseArgs p ["copy"; path_join [src; ConfigFileName]; root];
  mret ([c0; c1; c2] ++ c3 ++ [c4]).

(** internal/transport/rclone/rclone.go:266-271 [pullSequence] *)
Definition pullSequence (p : RemoteProfile) : M (list (list string)) :=
  p ← Normalize p;
  root ← remoteMeta (rc_RemotePath (rp_Remote p)) (rp_Vault p);
  dst ← localMeta (rp_Vault p);
  c ← appendBaseArgs p ["copy"; root; dst];
  mret [c].

(** internal/transport/rclone/rclone.go:65-68 [Backend]; no runner is [None]. *)
Record RcloneBackend : Type := mkRclone { rb_Profile : RemoteProfile; rb_Runner : option Runner }.
(** internal/transport/rclone/rclone.go:82-84 [NewWithRunner] *)
Definition NewWithRunner (p : RemoteProfile) (r : Runner) : M RcloneBackend := p ← Normalize p; mret (mkRclone p (Some r)).

(** internal/transport/rclone/rclone.go:70-72 [New] *)
Definition New (exec : string → list string → M (string * option err)) (binary : string) (p : RemoteProfile) : M RcloneBackend :=
  NewWithRunner p (CommandRunner exec binary).
(** internal/transport/rclone/rclone.go:74-80 [NewManaged]; which rclone is installed is
    an argument. *)
Definition NewManaged (exec : string → list string → M (string * option err)) (BinaryPath : M string) (p : RemoteProfile) : M RcloneBackend :=
  binary ← BinaryPath; NewWithRunner p (CommandRunner exec binary).

Section backend.
Context `{JSON VaultConfig} `{JSON LegacyID} (b : RcloneBackend).

(** internal/transport/rclone/rclone.go:86-103 [Backend.Validate] *)
Definition Validate : M unit :=
  p ← Normalize (rb_Profile b);
  _ ← lift (Validate_ p);
  _ ← lift (match rb_Runner b with None => Err (ENew "managed rclone runner is not configured") | Some _ => Ok tt end);
  _ ← lift (Abs (rp_Vault p));
  if String.eqb (trim_space (rc_RcloneConfigPath (rp_Remote p))) "" then mret tt
  else ensureConfigFile (rc_RcloneConfigPath (rp_Remote p)).

(** A method of the runner; without one there is no call to make: the callers check. *)
Definition run (args : list string) : M (string * option err) :=
  match rb_Runner b with Some r => rn_Run r args | None => fail (ENew "nil pointer dereference") end.
Definition runner_path : string := match rb_Runner b with Some r => rn_Path r | None => "" end.

(** internal/transport/rclone/rclone.go:227-229 [Backend.runSequence]: the arguments as
    they are run *)
Definition run_args (dry : bool) (args : list string) : list string :=
  if dry && isTransferCommand args && negb (hasArg args "--dry-run") then args ++ ["--dry-run"] else args.
(** internal/transport/rclone/rclone.go:226-244 [Backend.runSequence]: the loop, with the
    commands run and what they printed *)
Fixpoint run_all (dry : bool) (seq : list (list string)) (cmds : list Command) (outputs : list string) :
    M (list Command * list string * option err) :=
  match seq with
  | [] => mret (cmds, outputs, None)
  | args :: seq =>
      let args := run_args dry args in
      '(out, e) ← run args;
      let out := trim_space out in
      let cmds := cmds ++ [mkCommand runner_path (redactArgs args) out] in
      let outputs := if String.eqb out "" then outputs else outputs ++ [out] in
      match e with
      | Some _ => mret (cmds, outputs, e)
      | None => run_all dry seq cmds outputs
      end
  end.
(** internal/transport/rclone/rclone.go:217-249 [Backend.runSequence] *)
Definition runSequence (op : Operation) (dry : bool) (seq : list (list string)) : M (Result * option err) :=
  start ← stamp;
  v ← try Validate;
  match v with
  | Err e => finish ← stamp; mret (mkResult op false dry [] "" (err_text e) start finish, Some e)
  | Ok _ =>
      '(cmds, outputs, e) ← run_all dry seq [] [];
      finish ← stamp;
      mret (mkResult op (bool_decide (e = None)) dry cmds (join_lines outputs) (error_text e) start finish, e)
  end.

(** internal/transport/rclone/rclone.go:105-114 [Backend.Status] *)
Definition Status_ : M (Status * option err) :=
  v ← try Validate;
  match v with
  | Err e => mret (mkStatus false (err_text e), Some e)
  | Ok _ =>
      '(out, e) ← run ["version"];
      mret (match e with Some e' => mkStatus false (err_text e') | None => mkStatus true (firstLine out) end, e)
  end.

(** internal/transport/rclone/rclone.go:168-175 [Backend.remoteVaultID] *)
Definition remoteVaultID (p : RemoteProfile) : M (option string) :=
  root ← remoteMeta (rc_RemotePath (rp_Remote p)) (rp_Vault p);
  args ← appendBaseArgs p ["cat"; joinRemote root ConfigFileName];
  '(out, e) ← run args;
  mret (match e with Some _ => None | None => parseVaultID out end).
(** internal/transport/rclone/rclone.go:148-163 [Backend.guardRemoteVaultIdentity] *)
Definition guardRemoteVaultIdentity : M (option err) :=
  p ← Normalize (rb_Profile b);
  c ← try (ReadConfig (rp_Vault p));
  match c with
  | Err _ => mret None
  | Ok localCfg =>
      let local := trim_space (VaultID localCfg) in
      if String.eqb local "" then mret None
      else
        id ← remoteVaultID p;
        match id with
        | None => mret None
        | Some remoteID =>
            if String.eqb remoteID local then mret None
            else
              root ← remoteMeta (rc_RemotePath (rp_Remote p)) (rp_Vault p);
              mret (Some (ENew (str_concat ["refusing to sync: the remote folder "; root; " already holds a DIFFERENT vault (remote vaultId ";
                quoted_text remoteID; ", local "; quoted_text local;
                "); two vaults must not share one remote folder — give this vault its own subfolder or a different remote"])))
        end
  end.

(** internal/transport/rclone/rclone.go:136-139 [Backend.refusedResult] *)
Definition refusedResult (op : Operation) (dry : bool) (e : err) : M Result :=
  t ← stamp; mret (mkResult op false dry [] "" (err_text e) t t).

(** internal/transport/rclone/rclone.go:120-125 [Backend.Push] *)
Definition Push (opts : TransportOptions) : M (Result * option err) :=
  g ← guardRemoteVaultIdentity;
  match g with
  | Some e => r ← refusedResult OperationPush (to_DryRun opts) e; mret (r, Some e)
  | None => seq ← pushSequence (rb_Profile b); runSequence OperationPush (to_DryRun opts) seq
  end.
(** internal/transport/rclone/rclone.go:116-118 [Backend.DryRunPush] *)
Definition DryRunPush : M (Result * option err) := Push (mkTransportOptions true).
(** internal/transport/rclone/rclone.go:127-132 [Backend.Pull] *)
Definition Pull (opts : TransportOptions) : M (Result * option err) :=
  g ← guardRemoteVaultIdentity;
  match g with
  | Some e => r ← refusedResult OperationPull (to_DryRun opts) e; mret (r, Some e)
  | None => seq ← pullSequence (rb_Profile b); runSequence OperationPull (to_DryRun opts) seq
  end.

(** internal/transport/rclone/rclone.go:188-201 [Backend.Sync] *)
Definition Sync (opts : TransportOptions) : M (Result * option err) :=
  start ← stamp;
  '(pull, e) ← Pull opts;
  match e with
  | Some _ => mret (pull, e)
  | None =>
      '(push, e) ← Push opts;
      finish ← stamp;
      mret (mkResult OperationSync (bool_decide (e = None)) (to_DryRun opts) (rs_Commands pull ++ rs_Commands push)
              (trim_space (str_concat [rs_Output pull; String Remotes.newline ""; rs_Output push])) (error_text e) start finish, e)
  end.

(** internal/transport/rclone/rclone.go:203-209 [Backend.Check] *)
Definition Check_ : M (Result * option err) :=
  p ← Normalize (rb_Profile b);
  src ← localMeta (rp_Vault p);
  dst ← remoteMeta (rc_RemotePath (rp_Remote p)) (rp_Vault p);
  args ← appendBaseArgs p ["check"; src; dst; "--size-only"; "--one-way"];
  runSequence OperationCheck false [args].
(** internal/transport/rclone/rclone.go:211-215 [Backend.Test] *)
Definition Test_ : M (Result * option err) :=
  p ← Normalize (rb_Profile b);
  root ← remoteMeta (rc_RemotePath (rp_Remote p)) (rp_Vault p);
  args ← appendBaseArgs p ["lsf"; root; "--max-depth"; "1"];
  runSequence OperationTest false [["version"]; args].

(** The backend behind the interface of the package transport. *)
Definition rclone_transport : Transport := mkTransport Validate Status_ Test_ DryRunPush Push Pull Check_.
End backend.
End rclone.
