(* ===== verification/RcloneFacts.v ===== *)
(** A push sends the configuration last, two vaults never share a remote folder, and
    what rclone prints of secrets is not kept. *)
From S2P Require Export VaultMoveProps TransportFacts SettingsFacts Rclone.
Local Open Scope Z_scope.

(** ** Parts of strings *)

Lemma str_contains_cons c s w : str_contains (String c s) w = has_prefix (String c s) w || str_contains s w.
Proof.
  unfold str_contains, str_index, has_prefix. cbn [String.index].
  destruct w as [|d w]; [done|]. destruct (String.prefix (String d w) (String c s)); [done|]. by destruct (String.index 0 (String d w) s).
Qed.
Lemma str_contains_nil w : str_contains "" w = String.eqb w "".
Proof. by destruct w. Qed.
Lemma has_prefix_more s t w : has_prefix s w = true → has_prefix (s +:+ t) w = true.
Proof. intros (u & ->)%has_prefix_inv. rewrite str_app_assoc. apply has_prefix_app. Qed.
Lemma str_contains_app s t w : str_contains s w = true → str_contains (s +:+ t) w = true.
Proof.
  induction s as [|c s IH]; intros Hw.
  - rewrite str_contains_nil in Hw. apply String.eqb_eq in Hw as ->. change ("" +:+ t) with t. destruct t; [done|]. by rewrite str_contains_cons.
  - change (String c s +:+ t) with (String c (s +:+ t)). rewrite str_contains_cons in Hw |- *. apply orb_true_iff in Hw as [Hw|Hw].
    + apply (has_prefix_more _ t) in Hw. change (String c s +:+ t) with (String c (s +:+ t)) in Hw. by rewrite Hw.
    + by rewrite IH, orb_true_r.
Qed.
Lemma no_contains_suffix s t w : str_contains (s +:+ t) w = false → str_contains t w = false.
Proof.
  induction s as [|c s IH]; [done|]. change (String c s +:+ t) with (String c (s +:+ t)). rewrite str_contains_cons. intros [_ Hs]%orb_false_iff. by apply IH.
Qed.
Lemma no_contains_prefix s t w : str_contains (s +:+ t) w = false → has_prefix t w = false.
Proof. intros Hn%no_contains_suffix. destruct t as [|c t]; [by destruct w|]. rewrite str_contains_cons in Hn. by apply orb_false_iff in Hn as []. Qed.

Definition no_byte (c : ascii) (s : string) : bool := forallb (fun d => negb (Ascii.eqb d c)) (list_ascii_of_string s).
Lemma no_byte_app c a b : no_byte c (a +:+ b) = no_byte c a && no_byte c b.
Proof. induction a as [|d a IH]; [done|]. cbn. unfold no_byte in *. by rewrite IH, andb_assoc. Qed.

(** ** Lines *)

Abbreviation no_newline := (no_byte Remotes.newline).
Lemma split_ends l : ∃ h r, GoHttp.split_byte Remotes.newline l = h :: r.
Proof. induction l as [|c l (h & r & E)]; cbn [GoHttp.split_byte]; [eauto|]. rewrite E. destruct (Ascii.eqb _ _); eauto. Qed.
Lemma lines_char c t : Ascii.eqb c Remotes.newline = false → ∃ h r, lines_of t = h :: r ∧ lines_of (String c t) = String c h :: r.
Proof.
  intros Hc. unfold lines_of. cbn [list_ascii_of_string GoHttp.split_byte]. rewrite Hc. destruct (split_ends (list_ascii_of_string t)) as (h & r & ->). cbn [map]. eauto.
Qed.
Lemma no_byte_cons c d s : no_byte c (String d s) = true ↔ Ascii.eqb d c = false ∧ no_byte c s = true.
Proof. unfold no_byte. cbn. rewrite andb_true_iff, negb_true_iff. done. Qed.
Lemma lines_one s : no_newline s = true → lines_of s = [s].
Proof.
  induction s as [|c s IH]; [done|]. intros [Hc Hs]%no_byte_cons. destruct (lines_char c s Hc) as (h & r & E & ->).
  rewrite IH in E by done. by injection E as <- <-.
Qed.
Lemma lines_cons s t : no_newline s = true → lines_of (s +:+ String Remotes.newline t) = s :: lines_of t.
Proof.
  induction s as [|c s IH]; [done|]. intros [Hc Hs]%no_byte_cons. change (String c s +:+ ?t) with (String c (s +:+ t)).
  destruct (lines_char c (s +:+ String Remotes.newline t) Hc) as (h & r & E & ->). rewrite IH in E by done. by injection E as <- <-.
Qed.
Lemma join_lines_cons s l : l ≠ [] → join_lines (s :: l) = s +:+ String Remotes.newline (join_lines l).
Proof. by destruct l. Qed.
Lemma lines_of_join l : l ≠ [] → Forall (fun s => no_newline s = true) l → lines_of (join_lines l) = l.
Proof.
  intros Hne Hl. induction Hl as [|s l Hs _ IH]; [done|]. destruct l as [|t l]; [by apply lines_one|].
  by rewrite join_lines_cons, lines_cons, IH.
Qed.

(** ** Redaction *)

Section redaction.
Context `{GoUnicode}.

(** The text before a separator names a secret. *)
Definition names_secret (key : string) : bool := existsb (str_contains (lower_ascii key)) secret_keys.
Definition no_separator (s : string) : bool := forallb (fun d => negb (one_of "=:" d)) (list_ascii_of_string s).
Lemma upto_separator_at p c v : no_separator p = true → one_of "=:" c = true → upto_separator (p +:+ String c v) = Some (p +:+ String c "").
Proof.
  intros Hp Hc. induction p as [|d p IH].
  - change ("" +:+ String c v) with (String c v). cbn [upto_separator]. by rewrite Hc.
  - unfold no_separator in *. cbn [list_ascii_of_string forallb] in Hp. apply andb_true_iff in Hp as [Hd%negb_true_iff Hp]. change (String d p +:+ String c v) with (String d (p +:+ String c v)).
    cbn [upto_separator]. rewrite Hd, IH by done. done.
Qed.

(** Two lines alike but for what follows the separator of a name that is a secret's. *)
Inductive alike : string → string → Prop :=
  | alike_same l : alike l l
  | alike_secret key c v v' : is_ascii key = true → names_secret key = true → no_separator key = true → one_of "=:" c = true →
      alike (key +:+ String c v) (key +:+ String c v').
Lemma redact_secret key c v : is_ascii key = true → names_secret key = true → no_separator key = true → one_of "=:" c = true →
  redact_text_line (key +:+ String c v) = (key +:+ String c "") +:+ " [REDACTED]".
Proof.
  intros Ha Hk Hn Hc. unfold redact_text_line. rewrite to_lower_ascii_app by done.
  assert (Hx : existsb (str_contains (lower_ascii key +:+ to_lower (String c v))) secret_keys = true).
  { apply existsb_exists in Hk as (w & Hin & Hw). apply existsb_exists. exists w. split; [done|]. by apply str_contains_app. }
  rewrite Hx. cbn [negb]. by rewrite upto_separator_at.
Qed.

(** C29. What rclone printed after the separator of a line that names a secret does not
    show in what is kept of its output: two outputs alike but for such values are kept as
    the same text. *)
Theorem redaction_hides_values ls ls' : Forall2 alike ls ls' → Forall (fun s => no_newline s = true) ls →
  Forall (fun s => no_newline s = true) ls' → RedactText (join_lines ls) = RedactText (join_lines ls').
Proof.
  intros Hal Hn Hn'. destruct Hal as [|l l' ls ls' Hl Hls]; [done|]. unfold RedactText. rewrite !lines_of_join by done. f_equal.
  assert (Hone : ∀ a b, alike a b → redact_text_line a = redact_text_line b) by (intros a b [x|]; [done|by rewrite !redact_secret]).
  cbn [map]. f_equal; [by apply Hone|]. clear -Hls Hone. induction Hls as [|a b ls ls' Ha _ IH]; [done|]. cbn. by rewrite (Hone _ _ Ha), IH.
Qed.
End redaction.

(** ** The identity of a vault in its configuration *)

Lemma prefix_before c w u t : no_byte c w = true → has_prefix (u +:+ String c t) w = has_prefix u w.
Proof.
  revert u. induction w as [|d w IH]; intros u; [by destruct u|]. intros [Hd Hw]%no_byte_cons. destruct u as [|e u].
  - unfold has_prefix. cbn. destruct (ascii_dec d c) as [->|]; [|done]. by rewrite Ascii.eqb_refl in Hd.
  - change (String e u +:+ ?x) with (String e (u +:+ x)). unfold has_prefix in *. cbn. destruct (ascii_dec d e); [by apply IH|done].
Qed.
Lemma contains_before c w u t : w ≠ "" → no_byte c w = true → str_contains (u +:+ String c t) w = str_contains u w || str_contains t w.
Proof.
  intros Hne Hw. induction u as [|d u IH].
  - change ("" +:+ String c t) with (String c t). rewrite str_contains_cons, str_contains_nil. pose proof (prefix_before c w "" t Hw) as Hp.
    change ("" +:+ String c t) with (String c t) in Hp. rewrite Hp. destruct w; [done|]. done.
  - change (String d u +:+ ?x) with (String d (u +:+ x)). rewrite !str_contains_cons, IH.
    pose proof (prefix_before c w (String d u) t Hw) as Hp. change (String d u +:+ ?x) with (String d (u +:+ x)) in Hp. by rewrite Hp, orb_assoc.
Qed.
Definition only (p : ascii → bool) (s : string) : Prop := forallb p (list_ascii_of_string s) = true.
Lemma only_app p a b : only p a → only p b → only p (a +:+ b).
Proof. unfold only. induction a as [|c a IH]; [done|]. cbn. intros [-> Ha]%andb_true_iff Hb. by apply IH. Qed.
Lemma only_prefix p s w : only p s → has_prefix s w = true → only p w.
Proof.
  intros Hs (u & ->)%has_prefix_inv. unfold only in *. induction w as [|c w IH]; [done|]. cbn in *. apply andb_true_iff in Hs as [-> Hs]. by apply IH.
Qed.
Lemma only_contains p s w : only p s → str_contains s w = true → only p w.
Proof.
  induction s as [|c s IH]; [rewrite str_contains_nil; by intros _ ->%String.eqb_eq|]. intros Hs. rewrite str_contains_cons.
  intros [Hw|Hw]%orb_true_iff; [by eapply only_prefix|]. apply IH; [|done]. unfold only in Hs. cbn in Hs. by apply andb_true_iff in Hs as [].
Qed.
Lemma only_lower p s : only p s → (∀ c, p c = true → p (ascii_lower c) = true) → only p (lower_ascii s).
Proof.
  intros Hs Hp. unfold only in *. induction s as [|c s IH]; [done|]. cbn [list_ascii_of_string forallb] in Hs. apply andb_true_iff in Hs as [Hc Hs].
  change (lower_ascii (String c s)) with (String (ascii_lower c) (lower_ascii s)). cbn [list_ascii_of_string forallb]. by rewrite Hp, IH.
Qed.

Definition id_key : string := quoted_text "vaultId".
(** The line of the identity, as [json.MarshalIndent] writes it. *)
Definition id_line (id : string) : string := "  " +:+ id_key +:+ ": " +:+ quoted_text id +:+ ",".
Definition hex_digit (c : ascii) : bool := one_of "0123456789abcdef" c.
Definition id_chars (c : ascii) : bool := hex_digit c || one_of " vaultid:,I" c || Ascii.eqb c quote.
Lemma id_line_chars id : only hex_digit id → only id_chars (id_line id).
Proof.
  intros Hid. unfold id_line, quoted_text. repeat apply only_app; try reflexivity.
  change (String quote id) with (String quote "" +:+ id). apply only_app; [reflexivity|]. unfold only in *.
  induction id as [|c id IH]; [done|]. cbn [list_ascii_of_string forallb] in *. apply andb_true_iff in Hid as [Hc Hid]. unfold id_chars at 1. rewrite Hc. by apply IH.
Qed.
Lemma id_chars_lower c : id_chars c = true → id_chars (ascii_lower c) = true.
Proof. by destruct c as [[] [] [] [] [] [] [] []]. Qed.
Lemma id_chars_ascii c : id_chars c = true → (ascii_code c <? 128)%Z = true.
Proof. by destruct c as [[] [] [] [] [] [] [] []]. Qed.
Lemma only_ascii s : only id_chars s → is_ascii s = true.
Proof.
  unfold only, is_ascii. rewrite !forallb_forall. intros Hs c Hc. by apply id_chars_ascii, Hs.
Qed.
Lemma id_line_kept `{GoUnicode} id : only hex_digit id → redact_text_line (id_line id) = id_line id.
Proof.
  intros Hid. unfold redact_text_line. assert (Hl := id_line_chars id Hid). rewrite to_lower_ascii by by apply only_ascii.
  destruct (existsb _ secret_keys) eqn:E; [|done]. apply existsb_exists in E as (w & Hin & Hw). exfalso.
  apply (only_contains _ _ _ (only_lower _ _ Hl id_chars_lower)) in Hw. unfold secret_keys in Hin.
  repeat (destruct Hin as [<-|Hin]; [discriminate Hw|]). done.
Qed.
Lemma redact_no_key `{GoUnicode} l : str_contains l id_key = false → str_contains (redact_text_line l) id_key = false.
Proof.
  intros Hl. unfold redact_text_line. destruct (negb _); [done|]. destruct (upto_separator l) as [p|] eqn:E; [|done].
  assert (∃ t, l = p +:+ t) as [t ->].
  { clear Hl. revert p E. induction l as [|c l IH]; intros p; [done|]. cbn [upto_separator]. destruct (one_of "=:" c); [intros [= <-]; by exists l|].
    destruct (upto_separator l) as [q|]; [|done]. intros [= <-]. destruct (IH q eq_refl) as [t ->]. by exists t. }
  rewrite (contains_before " ") by done. apply orb_false_iff. split; [|reflexivity]. apply not_true_is_false.
  intros Hc%(str_contains_app _ t). by rewrite Hc in Hl.
Qed.

Lemma no_match s : has_prefix s id_key = false → vaultIDPattern s = None.
Proof. intros Hp. unfold vaultIDPattern. fold id_key. by rewrite Hp. Qed.
Lemma parse_past u t : str_contains u id_key = false → parseVaultID (u +:+ String Remotes.newline t) = parseVaultID t.
Proof.
  intros Hu. assert (Hk : no_byte Remotes.newline id_key = true) by reflexivity. induction u as [|c u IH].
  - change ("" +:+ ?x) with x. cbn [parseVaultID]. by rewrite no_match.
  - change (String c u +:+ ?x) with (String c (u +:+ x)). cbn [parseVaultID]. rewrite str_contains_cons in Hu. apply orb_false_iff in Hu as [Hp Hu].
    rewrite no_match; [by apply IH|]. change (String c (u +:+ ?x)) with (String c u +:+ x). by rewrite prefix_before.
Qed.
Lemma before_quote id t : only hex_digit id → before_byte quote (id +:+ String quote t) = id.
Proof.
  unfold only. induction id as [|c id IH]; cbn [list_ascii_of_string forallb]; [done|]. intros [Hc Hid]%andb_true_iff.
  change (String c id +:+ ?x) with (String c (id +:+ x)). cbn [before_byte]. destruct (ascii_dec c quote) as [->|]; [discriminate Hc|]. by rewrite IH.
Qed.
Lemma parse_line id t : only hex_digit id → id ≠ "" → parseVaultID (id_line id +:+ t) = Some id.
Proof.
  intros Hid Hne. assert (E : id_line id +:+ t = String " " (String " " (id_key +:+ (": " +:+ String quote (id +:+ String quote ("," +:+ t)))))).
  { unfold id_line, quoted_text. rewrite !str_app_assoc. reflexivity. }
  rewrite E. cbn [parseVaultID]. rewrite !no_match by reflexivity.
  assert (Hm : vaultIDPattern (id_key +:+ (": " +:+ String quote (id +:+ String quote ("," +:+ t)))) = Some id).
  { unfold vaultIDPattern. fold id_key. rewrite has_prefix_app. change (str_drop 9 (id_key +:+ ?x)) with x.
    change (skip_while re_space (": " +:+ ?x)) with (": " +:+ x). change (": " +:+ ?x) with (String ":" (String " " x)). cbv beta iota.
    change (Ascii.eqb ":" ":") with true. cbv iota. change (skip_while re_space (String " " (String quote ?x))) with (String quote x).
    cbv beta iota. rewrite Ascii.eqb_refl, before_quote by done. apply String.eqb_neq in Hne as Hn. rewrite Hn. cbn [negb andb].
    destruct (String.eqb_spec id (id +:+ String quote ("," +:+ t))) as [E1|]; [|done]. exfalso.
    apply (f_equal String.length) in E1. rewrite str_length_app in E1. cbn in E1. lia. }
  destruct (id_key +:+ _); cbn [parseVaultID]; by rewrite Hm.
Qed.

(** What a configuration looks like: lines, one of them the first with the identity. *)
Definition config_text (id text : string) : Prop := ∃ pre post, text = join_lines (pre ++ id_line id :: post) ∧
  Forall (fun l => no_newline l = true ∧ str_contains l id_key = false) pre ∧ Forall (fun l => no_newline l = true) post.

Lemma id_no_newline id : only hex_digit id → no_newline (id_line id) = true.
Proof.
  intros Hid%id_line_chars. unfold no_byte, only in *. rewrite forallb_forall in Hid |- *. intros c Hc%Hid.
  destruct (Ascii.eqb_spec c Remotes.newline) as [->|]; [discriminate Hc|done].
Qed.
(** The identity survives the redaction of the output. *)
Lemma id_survives `{GoUnicode} id text : only hex_digit id → id ≠ "" → config_text id text → parseVaultID (Redact text) = Some id.
Proof.
  intros Hid Hne (pre & post & -> & Hpre & Hpost). unfold Redact, RedactText. rewrite lines_of_join.
  2: by destruct pre. 
  2: { apply Forall_app. split; [eapply Forall_impl; [exact Hpre|by intros l []]|]. constructor; [by apply id_no_newline|done]. }
  rewrite map_app. cbn [map]. rewrite id_line_kept by done. induction Hpre as [|l pre [Hl Hk] _ IH].
  - cbn [map app]. destruct (map redact_text_line post) as [|x r].
    + change (join_lines [id_line id]) with (id_line id). rewrite <- (str_app_nil (id_line id)). by apply parse_line.
    + rewrite join_lines_cons by done. by apply parse_line.
  - cbn [map app]. rewrite join_lines_cons by by destruct (map _ pre). rewrite parse_past by by apply redact_no_key. apply IH.
Qed.

(** ** The commands of a push *)

Abbreviation never := (fun _ : files => False).
Lemma always_runs {A} (P : files → Prop) (m : M A) Q s : triple P m Q never → P (st_files s) → ∃ s' a, m s = (s', Ok a) ∧ Q a (st_files s').
Proof. intros Hm Hs. specialize (Hm s Hs). destruct (m s) as [s' [a|e]]; [eauto|done]. Qed.
Lemma triple_steps {A} (I : files → Prop) (m : M A) Q E : (∀ fs1, triple (eq fs1) m Q E) → triple I m Q E.
Proof. intros Hm s _. by apply (Hm (st_files s)). Qed.

Section arguments.
Context `{Env} `{Platform} `{Host} `{GoUnicode}.

Lemma config_path_runs (I : files → Prop) : triple I DefaultRcloneConfigPath (fun _ => I) never.
Proof.
  unfold DefaultRcloneConfigPath, EnsureConfigDir. apply (triple_bind _ _ (fun _ => I)); [|intros r; by apply triple_ret].
  intros s Hs. rewrite try_run. revert s Hs. enough (Hp : preserves I (p ← lift ConfigDir; _ ← os_MkdirAll (os_segs (path_join (p :: ["rclone"]))); mret (path_join (p :: ["rclone"])))).
  { intros s Hs. by apply Hp. }
  unfold os_MkdirAll. keep.
Qed.
(** What a profile keeps when it is normalised. *)
Definition normal_of (p p' : RemoteProfile) : Prop :=
  rp_Vault p' = trim_space (rp_Vault p) ∧ rc_RemotePath (rp_Remote p') = trim_space (rc_RemotePath (rp_Remote p)) ∧
  (rc_RcloneConfigPath (rp_Remote p) ≠ "" → rc_RcloneConfigPath (rp_Remote p') = rc_RcloneConfigPath (rp_Remote p)) ∧
  rc_BandwidthLimit (rp_Remote p') = rc_BandwidthLimit (rp_Remote p) ∧ 0 < rc_Transfers (rp_Remote p') ∧ 0 < rc_Checkers (rp_Remote p').
Lemma Normalize_runs (I : files → Prop) p : triple I (Normalize p) (fun p' fs => I fs ∧ normal_of p p') never.
Proof.
  unfold Normalize. apply (triple_bind _ _ (fun c fs => I fs ∧ (rc_RcloneConfigPath (rp_Remote p) ≠ "" → c = rc_RcloneConfigPath (rp_Remote p)))).
  - destruct (String.eqb_spec (rc_RcloneConfigPath (rp_Remote p)) "") as [E|E]; [|by apply triple_ret].
    eapply triple_conseq; [apply (config_path_runs I)|done| |done]. by intros c fs.
  - intros c. apply triple_ret. intros fs [Hfs Hc]. split; [done|]. split_and!; cbn; try done.
    + destruct (Z.leb_spec (rc_Transfers (rp_Remote p)) 0); lia.
    + destruct (Z.leb_spec (rc_Checkers (rp_Remote p)) 0); lia.
Qed.
Lemma stamp_runs (I : files → Prop) : triple I stamp (fun _ => I) never.
Proof. unfold stamp. apply triple_now. intros k. by apply triple_ret. Qed.
Lemma meta_name_runs (I : files → Prop) root : triple I (meta_name root) (fun n fs => I fs ∧ n ∈ MetadataDirNames) never.
Proof. intros s Hs. destruct (meta_name_any root s) as (s' & n & -> & Hn & F). by rewrite F. Qed.

(** The profile names rclone's configuration file. *)
Definition own_words (p : RemoteProfile) (cfg : string) : Prop :=
  rc_RcloneConfigPath (rp_Remote p) ≠ "" ∧ Abs (rc_RcloneConfigPath (rp_Remote p)) = Ok cfg.
Lemma own_normal p p' cfg : normal_of p p' → own_words p cfg → own_words p' cfg.
Proof. intros (_ & _ & Hc & _) (G1 & G2). unfold own_words. by rewrite Hc. Qed.
(** The options the program passes: none of them selects files or keeps a copy from
    being made. *)
Definition takes_value (w : string) : bool :=
  existsb (String.eqb w) ["--config"; "--log-format"; "--transfers"; "--checkers"; "--stats"; "--bwlimit"].
Fixpoint own_options (l : list string) : bool :=
  match l with
  | [] => true
  | w :: t =>
      if takes_value w then match t with _ :: t => own_options t | [] => false end
      else existsb (String.eqb w) ["--progress"; "--fast-list"] && own_options t
  end.
Lemma base_args_runs (I : files → Prop) p cfg args : own_words p cfg →
  triple I (appendBaseArgs p args) (fun l fs => I fs ∧ ∃ rest, l = args ++ rest ∧ own_options rest = true) never.
Proof.
  intros Ho. unfold appendBaseArgs. eapply triple_bind; [apply Normalize_runs|]. intros p'. apply triple_ret.
  intros fs [Hfs Hn]. split; [done|]. eexists. split; [reflexivity|].
  destruct (String.eqb (trim_space (rc_RcloneConfigPath _)) ""), (isTransferCommand args), (rc_FastList _), (String.eqb (trim_space (rc_BandwidthLimit _)) ""); reflexivity.
Qed.
End arguments.

(** ** What rclone does *)

(** Where [copy] puts a file: a directory's at the same relative name, a file in the
    directory that is its destination. *)
Definition copy_dest (S D r : fpath) : fpath := match r with [] => D ++ [base_of S] | _ => D ++ r end.
(** A name under which rclone keeps a file that is not complete. *)
Definition is_partial (q : fpath) : bool := has_suffix (base_of q) ".partial".
(** At [q] there are the bytes of [f], or the file that was there before, of the same
    length: rclone does not transfer what it takes for identical, by size and time or by
    hash. *)
Definition same_there (fs fs' : files) (q : fpath) (f : File) : Prop := ∃ g, fs' !! q = Some g ∧
  (f_data g = f_data f ∨ fs !! q = Some g ∧ length (f_data g) = length (f_data f)).
(** [rclone copy S D]: only the files of [S], and unfinished ones, change at [D]; without
    an error each of them is there, or what rclone takes for it. *)
Record delivered (S D : fpath) (fs fs' : files) (e : option err) : Prop := {
  ca_only q : (∀ r, is_Some (fs !! (S ++ r)) → q ≠ copy_dest S D r) → below D q && is_partial q = false → fs' !! q = fs !! q;
  ca_all : e = None → ∀ r f, fs !! (S ++ r) = Some f → same_there fs fs' (copy_dest S D r) f }.

Lemma dest_below S D r : below D (copy_dest S D r) = true.
Proof. destruct r; apply below_app. Qed.
Lemma delivered_outside S D fs fs' e q : delivered S D fs fs' e → below D q = false → fs' !! q = fs !! q.
Proof. intros Hc Hq. apply Hc; [|by rewrite Hq]. intros r _ ->. by rewrite dest_below in Hq. Qed.

(** The place of a remote path on the disk: what is local to the machine is a path like
    any other, what is elsewhere begins with the name of its remote. *)
Definition remote_segs (p : string) : fpath := split_slash p.

(** What rclone would take for an option. *)
Definition is_flag (w : string) : bool := has_prefix w "-".

(** What rclone documents of its commands when they are given paths and no options but
    [own_options] (and none is set in its environment): [cat] reads, [mkdir] makes a
    directory, which is not part of the disk; a source that is not there is an error; what
    is copied. *)
Definition reading : list string := ["mkdir"; "cat"].
Record rclone_ok `{Env} (run : list string → M (string * option err)) : Prop := {
  rk_read c path rest fs0 : c ∈ reading → is_flag path = false → own_options rest = true →
    triple (eq fs0) (run (c :: path :: rest)) (fun _ => eq fs0) never;
  rk_missing src dst rest fs0 : is_flag src = false → is_flag dst = false → own_options rest = true →
    fs0 !! dir_segs src = None → is_dir fs0 (dir_segs src) = false →
    triple (eq fs0) (run ("copy" :: src :: dst :: rest)) (fun r _ => r.2 ≠ None) never;
  rk_copy src dst rest fs0 : is_flag src = false → is_flag dst = false → own_options rest = true →
    below (dir_segs src) (remote_segs dst) = false → below (remote_segs dst) (dir_segs src) = false →
    triple (eq fs0) (run ("copy" :: src :: dst :: rest)) (fun r fs => delivered (dir_segs src) (remote_segs dst) fs0 fs r.2) never }.

Lemma split_slash_mid a x : split_slash (a +:+ String slash x) = split_slash a ++ split_slash x.
Proof.
  induction a as [|c a IH]; [done|]. change (String c a +:+ ?y) with (String c (a +:+ y)). cbn [split_slash]. rewrite IH.
  destruct (ascii_dec c slash); [done|]. pose proof (split_slash_nonnil a). by destruct (split_slash a).
Qed.

Section push.
Context `{Env} `{Platform} `{Host} `{GoUnicode} `{JSON VaultConfig} `{JSON LegacyID} (b : RcloneBackend) (vs cs : list string).
Hypothesis vs_plain : Forall plain_seg vs.
Hypothesis vs_some : vs ≠ [].
Abbreviation prof := (rb_Profile b).
Abbreviation cfg := (at_root cs []).
Hypothesis runs : rclone_ok (run b).
Hypothesis vault_is : Abs (trim_space (rp_Vault prof)) = Ok (at_root vs []).
Hypothesis words : own_words prof cfg.

(** Where a push finds the two sides, by the name the metadata directory is taken to have. *)
Definition remote_root (m : string) : string :=
  let trim := trim_right is_sep (trim_space (trim_space (rc_RemotePath (rp_Remote prof)))) in
  if names_metadata trim then trim else joinRemote trim m.
Definition local_at (n : string) : fpath := "" :: vs ++ [n].
Definition remote_at (m : string) : fpath := remote_segs (remote_root m).
Definition at_config : fpath := dir_segs cfg.

(** A remote path that [joinRemote] leaves as it is, and that is not an option to rclone. *)
Definition tidy (root : string) : bool :=
  String.eqb (trim_right is_sep (trim_space root)) root && negb (String.eqb root "") && negb (is_flag root).
(** The two sides and the configuration of rclone are apart. *)
Definition sides_apart (n m : string) : Prop :=
  below (local_at n) (remote_at m) = false ∧ below (remote_at m) (local_at n) = false ∧
  below (local_at n) at_config = false ∧ below (remote_at m) at_config = false ∧ tidy (remote_root m) = true.

Lemma join_tidy root x : tidy root = true → has_prefix x "/" = false → x ≠ "" → replace_byte backslash slash x = x →
  remote_segs (joinRemote root x) = remote_segs root ++ split_slash x.
Proof.
  intros [[E%String.eqb_eq Hn%negb_true_iff]%andb_true_iff _]%andb_true_iff Hx Hne Hb. unfold joinRemote. rewrite E, Hb. cbv zeta. rewrite Hn.
  assert (Hs : skip_while (Ascii.eqb slash) x = x).
  { destruct x as [|c x]; [done|]. cbn [skip_while]. destruct (Ascii.eqb_spec slash c) as [<-|]; [|done]. by destruct x. }
  rewrite Hs. unfold remote_segs. change (str_concat [root; "/"; x]) with (root +:+ ("/" +:+ x)). change ("/" +:+ x) with (String slash x).
  apply split_slash_mid.
Qed.

Lemma join_not_flag root x : tidy root = true → is_flag (joinRemote root x) = false.
Proof.
  intros [[E%String.eqb_eq Hn%negb_true_iff]%andb_true_iff Hf%negb_true_iff]%andb_true_iff. unfold joinRemote. rewrite E. cbv zeta. rewrite Hn.
  by destruct root as [|c [|c' root]].
Qed.
Lemma tidy_not_flag root : tidy root = true → is_flag root = false.
Proof. by intros [_ Hf%negb_true_iff]%andb_true_iff. Qed.

(** What a command is given: a path of this machine, a path of the remote, and options. *)
Definition plain_args (src dst : string) (rest : list string) : Prop :=
  is_flag src = false ∧ is_flag dst = false ∧ own_options rest = true.

Section sides.
Context (n m : string) (fs0 : files).
Hypothesis n_in : n ∈ MetadataDirNames.
Hypothesis apart_nm : sides_apart n m.
Hypothesis fs0_wf : is_dir fs0 (local_at n ++ [ConfigFileName]) = false.
Abbreviation L := (local_at n).
Abbreviation R := (remote_at m).
Definition remote_config : fpath := R ++ [ConfigFileName].

(** The files of the part [k] of the metadata directory are at the remote. *)
Definition there (k : fpath) (fs : files) : Prop := ∀ r f, r ≠ [] → is_partial (R ++ k ++ r) = false →
  fs0 !! (L ++ k ++ r) = Some f → same_there fs0 fs (R ++ k ++ r) f.
(** Nothing changed but below the remote and the configuration of rclone. *)
Definition around (fs : files) : Prop := ∀ q, below R q = false → q ≠ at_config → fs !! q = fs0 !! q.
(** ... and at the remote, only in these parts. *)
Definition kept (ks : list fpath) (fs : files) : Prop :=
  ∀ q, q ≠ at_config → Forall (fun k => below (R ++ k) q = false) ks → fs !! q = fs0 !! q.

Lemma below_part k q : below R q = false → below (R ++ k) q = false.
Proof. intros Hq. apply not_true_is_false. intros [y ->]%below_iff. by rewrite <- app_assoc, below_app in Hq. Qed.
Lemma kept_around ks fs : kept ks fs → around fs.
Proof. intros Hk q Hq Hc. apply Hk; [done|]. apply Forall_forall. intros k _. by apply below_part. Qed.
Lemma remote_not_config x : R ++ x ≠ at_config.
Proof. destruct apart_nm as (_ & _ & _ & A4 & _). intros E. rewrite <- E in A4. by rewrite below_app in A4. Qed.
Lemma local_same fs x : around fs → fs !! (L ++ x) = fs0 !! (L ++ x).
Proof.
  destruct apart_nm as (A1 & A2 & A3 & _). intros Ha. apply Ha; [by apply apart|]. intros E. rewrite <- E in A3. by rewrite below_app in A3.
Qed.
Definition heads_differ (k k' : fpath) : Prop := ∃ a x a' x', k = a :: x ∧ k' = a' :: x' ∧ a ≠ a'.
Lemma heads_apart k k' r : heads_differ k k' → below (R ++ k') (R ++ k ++ r) = false.
Proof.
  intros (a & x & a' & x' & -> & -> & Hne). apply not_true_is_false. intros [y Hy]%below_iff. rewrite <- app_assoc in Hy.
  apply app_inv_head in Hy. injection Hy as Hy _. done.
Qed.
Lemma heads_sym k k' : heads_differ k k' → heads_differ k' k.
Proof. intros (a & x & a' & x' & -> & -> & Hne). by exists a', x', a, x. Qed.
Lemma kept_part ks fs k r : kept ks fs → Forall (fun k' => heads_differ k' k) ks → fs !! (R ++ k ++ r) = fs0 !! (R ++ k ++ r).
Proof.
  intros Hk Hks. apply Hk; [apply remote_not_config|]. eapply Forall_impl; [exact Hks|]. intros k' Hd. by apply heads_apart, heads_sym.
Qed.
Lemma kept_config ks fs : kept ks fs → Forall (fun k' => heads_differ k' [ConfigFileName]) ks → fs !! remote_config = fs0 !! remote_config.
Proof. intros Hk Hks. unfold remote_config. rewrite <- (app_nil_r [ConfigFileName]). by eapply kept_part. Qed.

(** A part copied: the parts copied before stay, nothing else is touched. *)
Lemma copy_part src dst rest k ks : dir_segs src = L ++ k → remote_segs dst = R ++ k → k ≠ [] →
  Forall (fun k' => heads_differ k' k) ks → plain_args src dst rest →
  triple (fun fs => kept ks fs ∧ Forall (fun k' => there k' fs) ks) (run b ("copy" :: src :: dst :: rest))
    (fun r fs => kept (k :: ks) fs ∧ Forall (fun k' => there k' fs) ks ∧ (r.2 = None → there k fs)) never.
Proof.
  intros Es Ed Hk Hks (F1 & F2 & Hrest) s [Hkept Hds]. assert (Ha := kept_around _ _ Hkept). destruct apart_nm as (A1 & A2 & A3 & A4 & _).
  pose proof (rk_copy _ runs src dst rest (st_files s) F1 F2 Hrest) as Hrun. rewrite Es, Ed in Hrun.
  specialize (Hrun (apart_app _ _ _ _ A1 A2) (apart_app _ _ _ _ A2 A1) s eq_refl). destruct (run b _ s) as [s' [[out e]|e]]; [|done].
  cbn [snd] in *. assert (Hout : ∀ q, below (R ++ k) q = false → st_files s' !! q = st_files s !! q) by (intros q; by eapply delivered_outside).
  split; [|split].
  - intros q Hq Hf. inversion_clear Hf as [|? ? Hb Hf']. rewrite Hout by done. by apply Hkept.
  - clear -Hds Hks Hout. induction Hks as [|k' ks Hd _ IH]; [done|]. inversion_clear Hds as [|? ? Ht Hds']. constructor; [|by apply IH].
    intros r f Hr Hp Hf. destruct (Ht r f Hr Hp Hf) as (g & Hg & Hs). exists g. split; [|done]. rewrite Hout; [done|]. by apply heads_apart.
  - intros -> r f Hr Hp Hf. pose proof (ca_all _ _ _ _ _ Hrun eq_refl r f) as Hall. rewrite <- !app_assoc, local_same in Hall by done.
    specialize (Hall Hf). destruct r; [done|]. cbn [copy_dest] in Hall. rewrite <- app_assoc in Hall.
    destruct Hall as (g & Hg & Hs). exists g. split; [done|]. by rewrite (kept_part ks) in Hs.
Qed.

Definition config_sent (fs : files) : Prop := ∃ f, fs0 !! (L ++ [ConfigFileName]) = Some f ∧ same_there fs0 fs remote_config f.
(** The configuration copied last. *)
Lemma copy_config src dst rest ks : dir_segs src = L ++ [ConfigFileName] → remote_segs dst = R →
  Forall (fun k' => heads_differ k' [ConfigFileName]) ks → plain_args src dst rest →
  triple (fun fs => kept ks fs ∧ Forall (fun k' => there k' fs) ks) (run b ("copy" :: src :: dst :: rest))
    (fun r fs => around fs ∧ Forall (fun k' => there k' fs) ks ∧ (r.2 = None → config_sent fs)) never.
Proof.
  intros Es Ed Hks (F1 & F2 & Hrest) s [Hkept Hds]. assert (Ha := kept_around _ _ Hkept). destruct apart_nm as (A1 & A2 & A3 & A4 & _).
  pose proof (rk_copy _ runs src dst rest (st_files s) F1 F2 Hrest) as Hrun. pose proof (rk_missing _ runs src dst rest (st_files s) F1 F2 Hrest) as Hmiss.
  rewrite Es, Ed in Hrun. rewrite Es in Hmiss.
  assert (G1 : below (L ++ [ConfigFileName]) R = false) by (rewrite <- (app_nil_r R); by apply apart_app).
  specialize (Hrun G1 (apart _ _ _ A2 A1) s eq_refl).
  assert (Hm : st_files s !! (L ++ [ConfigFileName]) = None → is_dir (st_files s) (L ++ [ConfigFileName]) = false →
    match (run b ("copy" :: src :: dst :: rest) s).2 with Ok r => r.2 ≠ None | Err _ => False end).
  { intros G2 G3. specialize (Hmiss G2 G3 s eq_refl). by destruct (run b _ s) as [? []]. }
  clear Hmiss. destruct (run b _ s) as [s' [[out e]|e]]; [|done].
  cbn [snd] in *. assert (Hout : ∀ q, below R q = false → st_files s' !! q = st_files s !! q) by (intros q; by eapply delivered_outside).
  assert (Hone : ∀ r, is_Some (st_files s !! ((L ++ [ConfigFileName]) ++ r)) → r = []).
  { intros r Hr. rewrite <- app_assoc, local_same in Hr by done. destruct r as [|x r]; [done|]. rewrite is_dir_false in fs0_wf.
    rewrite app_assoc, fs0_wf in Hr by done. by destruct Hr. }
  assert (Hbase : base_of (L ++ [ConfigFileName]) = ConfigFileName) by apply base_snoc.
  split; [|split].
  - intros q Hq Hqc. rewrite Hout by done. by apply Ha.
  - clear -Hds Hks Hrun Hone Hbase. induction Hks as [|k' ks Hd _ IH]; [done|]. inversion_clear Hds as [|? ? Ht Hds']. constructor; [|by apply IH].
    intros r f Hr Hp Hf. destruct (Ht r f Hr Hp Hf) as (g & Hg & Hs). exists g. split; [|done].
    rewrite (ca_only _ _ _ _ _ Hrun); [done| |by rewrite Hp, andb_false_r].
    intros r' ->%Hone. cbn [copy_dest]. rewrite Hbase. intros E%app_inv_head. destruct Hd as (a & x & a' & x' & -> & [= <- <-] & Hne). by injection E.
  - intros ->. cbn [snd] in Hm. destruct (st_files s !! (L ++ [ConfigFileName])) as [f|] eqn:Ef.
    + pose proof (ca_all _ _ _ _ _ Hrun eq_refl [] f) as Hall. rewrite app_nil_r in Hall. specialize (Hall Ef). cbn [copy_dest] in Hall.
      rewrite Hbase in Hall. exists f. rewrite local_same in Ef by done. split; [done|]. destruct Hall as (g & Hg & Hs). exists g. split; [done|].
      change (R ++ [ConfigFileName]) with remote_config in Hs. by rewrite (kept_config ks) in Hs.
    + destruct Hm; [done| |done]. rewrite <- fs0_wf. apply is_dir_agrees. intros q [r ->]%below_iff.
      rewrite <- app_assoc. by apply local_same.
Qed.

(** What a push comes to. *)
Definition parts : list fpath := [["objects"; "chunks"]; ["manifests"]].
Lemma parts_in ks k : k ∈ parts → k ∈ ["manifests"] :: ["objects"; "chunks"] :: ks.
Proof. intros [->|Hk%list_elem_of_singleton]%elem_of_cons; [by right; left|]. rewrite Hk. by left. Qed.
Definition data_there (fs : files) : Prop := Forall (fun k => there k fs) parts.
Definition pushed (e : option err) (fs : files) : Prop :=
  around fs ∧ (fs !! remote_config = fs0 !! remote_config ∨ data_there fs) ∧
  (e = None → data_there fs ∧ config_sent fs).

Lemma run_all_cons P J K Q args seq cmds outs :
  triple P (run b args) (fun r fs => match r.2 with None => J fs | Some _ => K fs end) never →
  (∀ cmds outs, triple J (run_all b false seq cmds outs) Q never) → (∀ cmds outs e fs, K fs → Q (cmds, outs, Some e) fs) →
  triple P (run_all b false (args :: seq) cmds outs) Q never.
Proof.
  intros Hr Hs Hk. cbn [run_all]. change (run_args false args) with args. eapply triple_bind; [exact Hr|]. intros [out [e|]]; cbn [snd].
  - apply triple_ret. intros fs. apply Hk.
  - apply Hs.
Qed.

Definition part_args (k : fpath) (args : list string) : Prop := ∃ src dst rest, args = "copy" :: src :: dst :: rest ∧
  dir_segs src = L ++ k ∧ remote_segs dst = R ++ k ∧ plain_args src dst rest.
Definition push_shape (seq : list (list string)) : Prop := ∃ root r0 c1 c2 c3 c4, seq = ("mkdir" :: root :: r0) :: c1 :: c2 :: c3 ++ [c4] ∧
  (is_flag root = false ∧ own_options r0 = true) ∧
  part_args ["objects"; "chunks"] c1 ∧ part_args ["manifests"] c2 ∧ (c3 = [] ∨ ∃ c, c3 = [c] ∧ part_args ["tombstones"] c) ∧
  ∃ src dst rest, c4 = "copy" :: src :: dst :: rest ∧ dir_segs src = L ++ [ConfigFileName] ∧ remote_segs dst = R ∧ plain_args src dst rest.

(** What every stage of the push leaves, should the next command fail. *)
Definition stage (ks : list fpath) (fs : files) : Prop := kept ks fs ∧ Forall (fun k' => there k' fs) ks.
Definition plain_parts (ks : list fpath) : Prop := Forall (fun k' => heads_differ k' [ConfigFileName]) ks.
Lemma failed_early ks e fs : kept ks fs → plain_parts ks → pushed (Some e) fs.
Proof. intros Hk Hp. split; [by eapply kept_around|]. split; [left; by eapply kept_config|done]. Qed.

(** A part copied by the loop. *)
Lemma part_step k ks args seq cmds outs : part_args k args → k ≠ [] → plain_parts (k :: ks) → Forall (fun k' => heads_differ k' k) ks →
  (∀ cmds outs, triple (stage (k :: ks)) (run_all b false seq cmds outs) (fun x => pushed x.2) never) →
  triple (stage ks) (run_all b false (args :: seq) cmds outs) (fun x => pushed x.2) never.
Proof.
  intros (src & dst & rest & -> & Es & Ed & Hr) Hk Hc Hks Hrest.
  eapply (run_all_cons _ (stage (k :: ks)) (kept (k :: ks))); [|done|].
  - eapply triple_conseq; [by apply (copy_part src dst rest k ks)|done| |done]. intros [out [e|]] fs (G1 & G2 & G3); [done|].
    split; [done|]. constructor; [by apply G3|done].
  - intros cs' os e fs Hfs. by eapply failed_early.
Qed.
Lemma heads a x a' x' : a ≠ a' → heads_differ (a :: x) (a' :: x').
Proof. intros Hne. by exists a, x, a', x'. Qed.

Lemma config_step args cmds outs ks : (∀ k, k ∈ parts → k ∈ ks) → plain_parts ks →
  (∃ src dst rest, args = "copy" :: src :: dst :: rest ∧ dir_segs src = L ++ [ConfigFileName] ∧ remote_segs dst = R ∧ plain_args src dst rest) →
  triple (stage ks) (run_all b false [args] cmds outs) (fun x => pushed x.2) never.
Proof.
  intros Hin Hks (src & dst & rest & -> & Es & Ed & Hr).
  assert (Hall : ∀ fs, Forall (fun k' => there k' fs) ks → data_there fs).
  { intros fs Hf. apply Forall_forall. intros k Hk%Hin. rewrite Forall_forall in Hf. by apply Hf. }
  eapply (run_all_cons _ (pushed None) (fun fs => around fs ∧ data_there fs)).
  - eapply triple_conseq; [by apply (copy_config src dst rest ks)|done| |done].
    intros [out [e|]] fs (G1 & G2 & G3); cbn [snd] in *; [by split; [|apply Hall]|]. split; [done|]. split; [right; by apply Hall|].
    intros _. split; [by apply Hall|by apply G3].
  - intros cs' os. by apply triple_ret.
  - intros cs' os e fs [Ha Hd]. split; [done|]. split; [by right|done].
Qed.
Ltac other_heads := unfold plain_parts; repeat first [apply Forall_nil_2 | apply Forall_cons_2; [by apply heads|]].
Lemma push_runs seq cmds outs : push_shape seq → triple (kept []) (run_all b false seq cmds outs) (fun x => pushed x.2) never.
Proof.
  intros (root & r0 & c1 & c2 & c3 & c4 & -> & [G0 G0'] & G1 & G2 & G3 & G4).
  eapply (run_all_cons _ (stage []) (kept [])).
  - intros s Hs. pose proof (rk_read _ runs "mkdir" root r0 (st_files s) ltac:(by left) G0 G0' s eq_refl) as Hm.
    destruct (run b _ s) as [s' [[out [e|]]|e]]; cbn [snd]; rewrite <- ?Hm; done.
  - intros cmds1 outs1. apply part_step with (k := ["objects"; "chunks"]); [done|done|by other_heads|done|].
    intros cmds2 outs2. apply part_step with (k := ["manifests"]); [done|done|by other_heads|by other_heads|].
    intros cmds3 outs3. destruct G3 as [->|(c & -> & G3)].
    + apply config_step; [by apply parts_in|by other_heads|done].
    + cbn [app]. apply part_step with (k := ["tombstones"]); [done|done|by other_heads|by other_heads|].
      intros cmds4 outs4. apply config_step; [by intros k Hk; right; by apply parts_in|by other_heads|done].
  - intros cs' os e fs Hk. apply (failed_early []); [done|by other_heads].
Qed.
End sides.

(** ** The push as a whole *)

Lemma run_reads (I : files → Prop) c path rest : c ∈ reading → is_flag path = false → own_options rest = true →
  triple I (run b (c :: path :: rest)) (fun _ => I) never.
Proof. intros Hc G1 G2 s Hs. pose proof (rk_read _ runs c path rest (st_files s) Hc G1 G2 s eq_refl) as Hm. destruct (run b _ s) as [s' [r|e]]; [by rewrite <- Hm|done]. Qed.
Lemma remoteMeta_runs (I : files → Prop) r root : triple I (remoteMeta r root)
  (fun x fs => I fs ∧ ∃ m, m ∈ MetadataDirNames ∧ (trim_space r ≠ "" → x = let trim := trim_right is_sep (trim_space r) in if names_metadata trim then trim else joinRemote trim m)) never.
Proof.
  unfold remoteMeta. destruct (String.eqb_spec (trim_space r) "") as [E|E].
  - apply triple_ret. intros fs Hfs. split; [done|]. exists "SeaVaultData". split; [by left|done].
  - eapply triple_bind; [apply meta_name_runs|]. intros m. apply triple_ret. intros fs [Hfs Hm]. split; [done|]. by exists m.
Qed.
Lemma ReadConfig_keeps (I : files → Prop) root : preserves I (ReadConfig root).
Proof. unfold ReadConfig, ResolveMetaDir, probe_name, readCapped, os_Stat, os_ReadFile. keep. Qed.
Definition remote_given : Prop := trim_space (trim_space (rc_RemotePath (rp_Remote prof))) ≠ "".
Hypothesis remote_named : remote_given.
Lemma guard_runs (I : files → Prop) : (∀ m, m ∈ MetadataDirNames → tidy (remote_root m) = true) → triple I (guardRemoteVaultIdentity b) (fun _ => I) never.
Proof.
  intros Htidy. unfold guardRemoteVaultIdentity. eapply triple_bind; [apply Normalize_runs|]. intros p.
  apply (triple_bind _ _ (fun _ fs => I fs ∧ normal_of prof p)).
  { intros s [Hs Hn]. rewrite try_run. split; [by apply ReadConfig_keeps|done]. }
  intros [c|e]; [|by apply triple_ret; intros fs []]. destruct (String.eqb _ ""); [by apply triple_ret; intros fs []|].
  apply (triple_bind _ _ (fun _ => I)).
  - unfold remoteVaultID. eapply triple_bind; [apply remoteMeta_runs|]. intros root.
    apply (triple_bind _ _ (fun l fs => I fs ∧ ∃ m rest, m ∈ MetadataDirNames ∧ own_options rest = true ∧
      l = ["cat"; joinRemote (remote_root m) ConfigFileName] ++ rest)).
    + intros s [[Hs Hn] (m & Hm & Hroot)]. assert (Hr := Hn). destruct Hr as (_ & Hr & _). rewrite Hr in Hroot. specialize (Hroot remote_named).
      fold (remote_root m) in Hroot. cbn beta in Hroot. change (root = remote_root m) in Hroot. pose proof (base_args_runs I p cfg ["cat"; joinRemote root ConfigFileName] (own_normal _ _ _ Hn words) s Hs) as Hb.
      destruct (appendBaseArgs _ _ s) as [s' [l|e]]; [|done]. destruct Hb as (G1 & rest & -> & G2). subst root. eauto 6.
    + intros l. apply (triple_bind _ _ (fun _ => I)); [|intros [out e]; by apply triple_ret].
      intros s (Hs & m & rest & Hm & Hr & ->). apply (run_reads I "cat"); [by right; left|by apply join_not_flag, Htidy|done|done].
  - intros [id|]; [|by apply triple_ret]. destruct (String.eqb _ _); [by apply triple_ret|].
    eapply triple_bind; [apply remoteMeta_runs|]. intros root. by apply triple_ret; intros fs [].
Qed.

Lemma local_segs n ks : n ∈ MetadataDirNames → Forall plain_seg ks → dir_segs (at_root vs (n :: ks)) = local_at n ++ ks.
Proof.
  intros Hn Hks. assert (E : at_root vs (n :: ks) = at_root (vs ++ n :: ks) []) by (unfold at_root; by rewrite app_nil_r). rewrite E.
  unfold local_at. cbn [app]. rewrite <- app_assoc. apply dir_segs_at; [|by destruct vs]. apply Forall_app. split; [done|]. constructor; [|done].
  unfold MetadataDirNames in Hn. apply elem_of_cons in Hn as [->|Hin]; [|apply list_elem_of_singleton in Hin as ->]; by repeat constructor.
Qed.
Lemma local_join n ks : n ∈ MetadataDirNames → Forall plain_seg ks → ks ≠ [] → dir_segs (path_join (at_root vs [n] :: ks)) = local_at n ++ ks.
Proof.
  intros Hn Hks Hne. rewrite (join_at vs vs_plain vs_some ks Hks Hne); [by apply local_segs|].
  constructor; [|done]. unfold MetadataDirNames in Hn. apply elem_of_cons in Hn as [->|Hin]; [|apply list_elem_of_singleton in Hin as ->]; by repeat constructor.
Qed.
Lemma localMeta_runs (I : files → Prop) root : Abs root = Ok (at_root vs []) →
  triple I (localMeta root) (fun x fs => I fs ∧ ∃ n, n ∈ MetadataDirNames ∧ x = at_root vs [n]) never.
Proof.
  intros E. unfold localMeta. rewrite E. cbv zeta. eapply triple_bind; [apply meta_name_runs|]. intros n. apply triple_ret. intros fs [Hfs Hn].
  split; [done|]. exists n. split; [done|]. rewrite (join_at vs vs_plain vs_some [n]); [done| |done|done].
  constructor; [|done]. unfold MetadataDirNames in Hn. apply elem_of_cons in Hn as [->|Hin]; [|apply list_elem_of_singleton in Hin as ->]; by repeat constructor.
Qed.

Lemma args_plain n ks dst rest : n ∈ MetadataDirNames → Forall plain_seg ks → ks ≠ [] → is_flag dst = false → own_options rest = true →
  plain_args (path_join (at_root vs [n] :: ks)) dst rest.
Proof.
  intros Hn Hks Hne Hd Hr. split; [|done]. rewrite (join_at vs vs_plain vs_some ks Hks Hne); [done|].
  constructor; [|done]. unfold MetadataDirNames in Hn. apply elem_of_cons in Hn as [->|Hin]; [|apply list_elem_of_singleton in Hin as ->]; by repeat constructor.
Qed.

(** A computation that keeps every invariant and never fails, and what it answers. *)
Definition answer {A} (m : M A) (Q : A → Prop) : Prop := ∀ I : files → Prop, triple I m (fun a fs => I fs ∧ Q a) never.
Lemma answer_bind {A B} (m : M A) (f : A → M B) Q R : answer m Q → (∀ a, Q a → answer (f a) R) → answer (m ≫= f) R.
Proof.
  intros Hm Hf I. eapply triple_bind; [apply Hm|]. intros a s [Hs Ha]. by apply (Hf a Ha I).
Qed.
Lemma answer_ret {A} (a : A) (Q : A → Prop) : Q a → answer (mret a) Q.
Proof. intros Ha I. by apply triple_ret. Qed.
Lemma base_args_answer p args : own_words p cfg → answer (appendBaseArgs p args) (fun l => ∃ rest, l = args ++ rest ∧ own_options rest = true).
Proof.
  intros Ho I. by apply (base_args_runs I p cfg).
Qed.
Lemma dirExists_answer p : answer (dirExists p) (fun _ => True).
Proof.
  intros I. unfold dirExists, os_IsDir. eapply (triple_bind _ _ (fun _ => I)); [|intros r; by apply triple_ret].
  intros s Hs. rewrite try_run. match goal with |- context [query ?a s] => destruct (query_run a s) as (r & -> & _) end. done.
Qed.

Lemma push_sequence_answer : (∀ n m, n ∈ MetadataDirNames → m ∈ MetadataDirNames → sides_apart n m) →
  answer (pushSequence prof) (fun seq => ∃ n m, n ∈ MetadataDirNames ∧ m ∈ MetadataDirNames ∧ push_shape n m seq).
Proof.
  intros Hap. unfold pushSequence. eapply answer_bind; [intros I; apply Normalize_runs|]. intros p Hp.
  assert (Hw := own_normal _ _ _ Hp words). destruct Hp as (Ev & Er & _). rewrite Ev, Er.
  eapply answer_bind; [intros I; apply remoteMeta_runs|]. intros root (m & Hm & Hroot). specialize (Hroot remote_named). fold (remote_root m) in Hroot.
  eapply answer_bind; [intros I; by apply localMeta_runs|]. intros src (n & Hn & ->). cbn beta in Hroot. change (root = remote_root m) in Hroot. subst root.
  destruct (Hap n m Hn Hm) as (_ & _ & _ & _ & Ht).
  do 3 (eapply answer_bind; [by apply base_args_answer|]; intros ? (? & -> & ?)).
  eapply answer_bind; [apply dirExists_answer|]. intros tombs _.
  eapply (answer_bind _ _ (fun c3 => c3 = [] ∨ ∃ c, c3 = [c] ∧ part_args n m ["tombstones"] c)).
  { destruct tombs; [|apply answer_ret; by left]. eapply answer_bind; [by apply base_args_answer|]. intros ? (r3 & -> & Hr3). apply answer_ret. right.
    eexists. split; [reflexivity|]. do 3 eexists. split; [reflexivity|]. split; [apply local_join; [done|by repeat constructor|done]|].
    split; [by apply (join_tidy _ "tombstones")|apply args_plain; [done|by repeat constructor|done|by apply join_not_flag|done]]. }
  intros c3 Hc3. eapply answer_bind; [by apply base_args_answer|]. intros ? (r4 & -> & Hr4). apply answer_ret. exists n, m. split; [done|]. split; [done|].
  do 6 eexists. split; [reflexivity|]. split; [split; [by apply tidy_not_flag|done]|].
  split; [|split; [|split; [exact Hc3|]]]; do 3 eexists; (split; [reflexivity|]);
    (split; [apply local_join; [done|by repeat constructor|done]|]); (split; [|apply args_plain; [done|by repeat constructor|done| |done]]);
    [by apply (join_tidy _ "objects/chunks")|by apply join_not_flag|by apply (join_tidy _ "manifests")|by apply join_not_flag|done|by apply tidy_not_flag].
Qed.


Lemma Validate_keeps (fs0 : files) : preserves (agrees (fun q => q ≠ at_config) fs0) (Validate b).
Proof.
  unfold Validate. intros s Hs. rewrite bind_run. pose proof (Normalize_runs (agrees (fun q => q ≠ at_config) fs0) prof s Hs) as Hn.
  destruct (Normalize prof s) as [s1 [p|e]]; [|done]. destruct Hn as [H1' Hn]. destruct (own_normal _ _ _ Hn words) as [_ Ha].
  revert s1 H1'. enough (Hp : preserves (agrees (fun q => q ≠ at_config) fs0) (_ ← lift (Validate_ p);
    _ ← lift (match rb_Runner b with None => Err (ENew "managed rclone runner is not configured") | Some _ => Ok tt end); _ ← lift (Abs (rp_Vault p));
    if String.eqb (trim_space (rc_RcloneConfigPath (rp_Remote p))) "" then mret tt else ensureConfigFile (rc_RcloneConfigPath (rp_Remote p)))).
  { intros s1 Hs1. by apply Hp. }
  do 3 (apply preserves_bind; [apply preserves_lift|intros _]). destruct (String.eqb _ ""); [apply preserves_ret|].
  unfold ensureConfigFile, os_MakeDirs, os_Stat. rewrite Ha. apply preserves_known.
  apply preserves_bind; [apply preserves_query|intros _]. apply preserves_bind; [apply preserves_try, preserves_query|].
  intros [x|e]; [apply preserves_ret|]. destruct (not_exist e); [|apply preserves_fail]. apply WriteFile_agrees. by intros Hne.
Qed.

End push.

(** ** Two vaults and one remote folder *)

Section foreign.
Context `{Env} `{Platform} `{Host} `{GoUnicode} `{JSON VaultConfig} `{JSON LegacyID} (p0 : RemoteProfile) (exec : string → list string → M (string * option err))
  (binary : string) (vs cs : list string) (name : string).
Hypothesis vs_plain : Forall plain_seg vs.
Hypothesis vs_some : vs ≠ [].
Hypothesis named : name ∈ MetadataDirNames.
Hypothesis calm : ∀ i, env_fault i = None.
Abbreviation b := (mkRclone p0 (Some (CommandRunner exec binary))).
Hypothesis vault_is : trim_space (rp_Vault p0) = at_root vs [].
Hypothesis vault_abs : Abs (at_root vs []) = Ok (at_root vs []).
Hypothesis words : own_words p0 (at_root cs []).
Hypothesis remote_named : remote_given b.
Hypothesis remote_tidy : tidy (remote_root b name) = true.
(** [rclone cat] prints the file. *)
Hypothesis exec_cat : ∀ path rest s f text, is_flag path = false → own_options rest = true → st_files s !! remote_segs path = Some f → f_data f = bytes_of text →
  ∃ s', exec binary ("cat" :: path :: rest) s = (s', Ok (text, None)) ∧ st_files s' = st_files s.

Lemma ResolveMetaDir_calm s : vault_at vs name (st_files s) →
  ∃ s', ResolveMetaDir (at_root vs []) s = (s', Ok (name, true)) ∧ st_files s' = st_files s.
Proof.
  intros [Hc Ho]. unfold ResolveMetaDir, MetadataDirNames. cbn [mfold].
  rewrite !bind_run, probe_calm by (done || by repeat constructor). rewrite bind_run, probe_calm by (done || by repeat constructor).
  cbn [st_files tick1]. assert (Hin := named). unfold MetadataDirNames in Hin.
  apply elem_of_cons in Hin as [->|Hin]; [|apply list_elem_of_singleton in Hin as ->].
  - destruct (Ho ".seavault" ltac:(by right; left) ltac:(done)) as [-> ->].
    rewrite (bool_decide_true (is_Some (_ !! config_at vs "SeaVaultData"))) by done. eexists; split; reflexivity.
  - destruct (Ho "SeaVaultData" ltac:(by left) ltac:(done)) as [-> ->]. rewrite (bool_decide_true (is_Some (_ !! config_at vs ".seavault"))) by done.
    eexists; split; reflexivity.
Qed.

(** The configuration of the vault here, and its identity. *)
Definition here (c : VaultConfig) (fs : files) : Prop := vault_at vs name fs ∧
  ∃ f, fs !! config_at vs name = Some f ∧ unmarshal (f_data f) = Some c ∧ Z.of_nat (length (f_data f)) ≤ maxConfigBytes ∧
    Z.of_nat (length (WrapEntries c)) ≤ maxWrapEntries ∧ trim_space (VaultID c) ≠ "".
Lemma ReadConfig_calm c s : here c (st_files s) → ∃ s', ReadConfig (at_root vs []) s = (s', Ok c) ∧ st_files s' = st_files s.
Proof.
  intros (Hv & f & Hf & Hc & Hcap & Hw & Hid). unfold ReadConfig. rewrite vault_abs, bind_run. unfold lift at 1.
  destruct (ResolveMetaDir_calm s Hv) as (s1 & E1 & F1). rewrite bind_run, E1, bind_run. unfold readCapped. rewrite bind_run. unfold os_ReadFile.
  rewrite query_quiet by done. assert (Hp : os_segs (path_join [at_root vs []; name; ConfigFileName]) = config_at vs name).
  { assert (Hn : Forall plain_seg [name; "vault.json"]) by (apply (Forall_app _ [name] ["vault.json"]); split; [by apply name_plain|by repeat constructor]).
    change ConfigFileName with "vault.json". by rewrite (join_at vs vs_plain vs_some _ Hn), segs_at. }
  rewrite Hp, F1, Hf. destruct (Z.ltb_spec maxConfigBytes (Z.of_nat (length (f_data f)))); [lia|].
  unfold mret at 1, M_ret at 1. cbv beta iota. rewrite Hc. destruct (Z.ltb_spec maxWrapEntries (Z.of_nat (length (WrapEntries c)))); [lia|].
  destruct (String.eqb_spec (VaultID c) "") as [E|_]; [by rewrite E in Hid|]. by exists (tick1 s1).
Qed.

Lemma exec_reads path rest s f text : is_flag path = false → own_options rest = true → st_files s !! remote_segs path = Some f → f_data f = bytes_of text →
  ∃ s', run b ("cat" :: path :: rest) s = (s', Ok (Redact text, None)) ∧ st_files s' = st_files s.
Proof.
  intros G1 G2 Hf Hd. destruct (exec_cat path rest s f text G1 G2 Hf Hd) as (s' & E & F). exists s'. split; [|done].
  unfold run, CommandRunner. cbn [rb_Runner rn_Run]. by rewrite bind_run, E.
Qed.
Lemma remoteMeta_at s : vault_at vs name (st_files s) → ∃ s', remoteMeta (trim_space (rc_RemotePath (rp_Remote p0))) (at_root vs []) s =
  (s', Ok (remote_root b name)) ∧ st_files s' = st_files s.
Proof.
  intros Hv. unfold remoteMeta. destruct (String.eqb_spec (trim_space (trim_space (rc_RemotePath (rp_Remote p0)))) "") as [E|_]; [done|].
  destruct (meta_name_calm vs vs_plain vs_some calm name s named Hv) as (s' & E & F). exists s'. split; [|done]. by rewrite bind_run, E.
Qed.

(** Another vault's configuration stands at the remote. *)
Definition other_there (other : string) (fs : files) : Prop := ∃ f text, fs !! remote_config b name = Some f ∧ f_data f = bytes_of text ∧
  config_text other text ∧ only hex_digit other ∧ other ≠ "".

Lemma guard_refuses c other s : here c (st_files s) → other_there other (st_files s) → other ≠ trim_space (VaultID c) →
  ∃ s' e, guardRemoteVaultIdentity b s = (s', Ok (Some e)) ∧ st_files s' = st_files s.
Proof.
  intros Hh (f & text & Hf & Hd & Htext & Hhex & Hone) Hne. unfold guardRemoteVaultIdentity. rewrite bind_run. cbn [rb_Profile].
  destruct (always_runs _ _ _ s (Normalize_runs (eq (st_files s)) p0) eq_refl) as (s1 & p & -> & F1 & Hn).
  assert (Hw := own_normal _ _ _ Hn words). destruct Hn as (Hpv & Hpr & _). rewrite Hpv, vault_is, bind_run, try_run. rewrite F1 in Hh, Hf.
  destruct (ReadConfig_calm c s1 Hh) as (s2 & E2 & F2). rewrite E2. cbn [fst snd]. rewrite <- F2 in Hh, Hf. assert (Hid : trim_space (VaultID c) ≠ "") by (by destruct Hh as (_ & ? & _ & _ & _ & _ & ?)).
  cbv zeta. destruct (String.eqb_spec (trim_space (VaultID c)) "") as [|_]; [done|]. rewrite bind_run. unfold remoteVaultID. rewrite bind_run, Hpr, Hpv, vault_is.
  destruct (remoteMeta_at s2 ltac:(by destruct Hh)) as (s3 & E3 & F3). rewrite E3, bind_run. rewrite <- F3 in Hh, Hf.
  destruct (always_runs _ _ _ s3 (base_args_runs (eq (st_files s3)) p _ ["cat"; joinRemote (remote_root b name) ConfigFileName] Hw) eq_refl)
    as (s4 & l & E4 & F4 & rest & -> & Hrest). rewrite E4, bind_run. rewrite F4 in Hh, Hf.
  assert (Hplace : remote_config b name = remote_segs (joinRemote (remote_root b name) ConfigFileName)) by (symmetry; by apply join_tidy).
  rewrite Hplace in Hf. destruct (exec_reads _ rest s4 f text (join_not_flag _ _ remote_tidy) Hrest Hf Hd) as (s5 & E5 & F5). change (["cat"; ?x] ++ rest) with ("cat" :: x :: rest).
  rewrite E5. rewrite (id_survives other) by done. unfold mret at 1, M_ret at 1. cbv beta iota.
  apply String.eqb_neq in Hne as ->. rewrite <- F5 in Hh. destruct (remoteMeta_at s5 ltac:(by destruct Hh)) as (s6 & E6 & F6). rewrite bind_run, E6.
  eexists s6, _. split; [reflexivity|]. by rewrite F6, F5, <- F4, F3, F2, <- F1.
Qed.
Lemma refused_run op opts e s : ∃ s' res, ((r ← refusedResult op (to_DryRun opts) e; mret (r, Some e)) : M (Result * option err)) s = (s', Ok (res, Some e)) ∧
  rs_OK res = false ∧ rs_Commands res = [] ∧ st_files s' = st_files s.
Proof.
  unfold refusedResult. rewrite bind_run, bind_run. destruct (always_runs _ _ _ s (stamp_runs (eq (st_files s))) eq_refl) as (s1 & t & -> & F).
  by eexists s1, _.
Qed.

(** C8. The guard against two vaults in one remote folder, where it can see the other
    vault: no system call fails; the vault here has its configuration under exactly one of
    the two names of the metadata directory, readable, within its caps and with an
    identity; [rclone cat] prints the one at the remote, which is text of one field a
    line, as [json.MarshalIndent] writes it, with an identity in hex digits; and the
    profile names an absolute vault, a remote and rclone's configuration file, the
    remote's path having no blanks or slashes at its end and no dash in front.  When the
    two identities differ, a push, a pull and a synchronisation are all refused before any
    command that could write runs, and nothing has changed on either side.  The guard is
    best effort: a remote configuration that cannot be read, or is written on one line
    together with a secret's name, lets the transfer through ([one_line_unseen]). *)
Theorem foreign_vault_refused c other s opts op : here c (st_files s) → other_there other (st_files s) → other ≠ trim_space (VaultID c) →
  op ∈ [Push b opts; Pull b opts; Sync b opts] →
  ∃ s' res e, op s = (s', Ok (res, Some e)) ∧ rs_OK res = false ∧ rs_Commands res = [] ∧ st_files s' = st_files s.
Proof.
  intros Hh Ho Hne Hop. assert (Hpull : ∀ t, st_files t = st_files s → ∃ s' res e, Pull b opts t = (s', Ok (res, Some e)) ∧ rs_OK res = false ∧
    rs_Commands res = [] ∧ st_files s' = st_files s).
  { intros t Ft. rewrite <- Ft in Hh, Ho. destruct (guard_refuses c other t Hh Ho Hne) as (s1 & e & E & F1). unfold Pull. rewrite bind_run, E.
    destruct (refused_run OperationPull opts e s1) as (s' & res & -> & G1 & G2 & G3). exists s', res, e. split_and!; congruence. }
  apply elem_of_cons in Hop as [->|[->|[->|[]%not_elem_of_nil]%elem_of_cons]%elem_of_cons].
  - destruct (guard_refuses c other s Hh Ho Hne) as (s1 & e & E & F1). unfold Push. rewrite bind_run, E.
    destruct (refused_run OperationPush opts e s1) as (s' & res & -> & G1 & G2 & G3). exists s', res, e. split_and!; congruence.
  - by apply Hpull.
  - unfold Sync. rewrite bind_run. destruct (always_runs _ _ _ s (stamp_runs (eq (st_files s))) eq_refl) as (s0 & t & -> & F0).
    rewrite bind_run. destruct (Hpull s0 ltac:(done)) as (s' & res & e & -> & G). by exists s', res, e.
Qed.
End foreign.

(** ** An rclone to run *)

(** [copy]: all of it at once, or nothing when the source is missing or odd. *)
Definition demo_copy (S D : fpath) (fs : files) : files * option err :=
  match fs !! S with
  | Some f => if is_dir fs S then (fs, Some ErrNotExist) else (<[D ++ [base_of S] := f]> fs, None)
  | None =>
      if below S D || below D S || negb (is_dir fs S) then (fs, Some ErrNotExist)
      else (move_tree S D (filter (fun kv => below S kv.1 = true) fs) ∪ fs, None)
  end.
Definition demo_exec (_ : string) (args : list string) : M (string * option err) := fun s =>
    match args with
    | c :: path :: rest =>
        if String.eqb c "copy" then
          match rest with
          | dst :: rest => if negb (own_options rest) then (s, Ok ("", None)) else let x := demo_copy (dir_segs path) (remote_segs dst) (st_files s) in (set_files s x.1, Ok ("", x.2))
          | [] => (s, Ok ("", None))
          end
        else if String.eqb c "cat" then
          (s, Ok (match st_files s !! remote_segs path with Some f => (string_of_list_byte (f_data f), None) | None => ("", Some ErrNotExist) end))
        else (s, Ok ("", None))
    | _ => (s, Ok ("", None))
    end.
Lemma demo_copied S D fs : below S D = false → below D S = false → delivered S D fs (demo_copy S D fs).1 (demo_copy S D fs).2.
Proof.
  intros HSD HDS. unfold demo_copy. destruct (fs !! S) as [f0|] eqn:ES.
  - destruct (is_dir fs S) eqn:Ed; [by split|]. cbn [fst snd]. rewrite is_dir_false in Ed.
    assert (Hone : ∀ r f, fs !! (S ++ r) = Some f → r = []) by (intros [|x r] f Hf; [done|]; by rewrite Ed in Hf).
    split.
    + intros q Hq _. rewrite lookup_insert_ne; [done|]. intros <-. apply (Hq []); [|done]. rewrite app_nil_r, ES. eauto.
    + intros _ r f Hf. pose proof (Hone r f Hf) as ->. rewrite app_nil_r, ES in Hf. injection Hf as ->. cbn [copy_dest]. exists f. rewrite lookup_insert_eq. split; [done|by left].
  - rewrite HSD, HDS. cbn [orb]. destruct (negb _); [by split|]. cbn [fst snd]. set (fs1 := filter _ fs).
    assert (Hin : ∀ q, below S q = true → fs1 !! q = fs !! q).
    { intros q Hq. unfold fs1. rewrite map_lookup_filter. destruct (fs !! q) as [f|]; [|done]. cbn. by rewrite option_guard_True. }
    assert (Hout : ∀ q, below S q = false → fs1 !! q = None).
    { intros q Hq. apply map_lookup_filter_None. right. intros x _. cbn. by rewrite Hq. }
    assert (Hfree : ∀ q, below D q = true → fs1 !! q = None).
    { intros q [r ->]%below_iff. apply Hout. by apply apart. }
    split.
    + intros q Hq Hp. rewrite lookup_union. assert (move_tree S D fs1 !! q = None) as ->; [|by destruct (fs !! q)].
      destruct (below D q) eqn:E.
      * apply below_iff in E as [r ->]. rewrite move_tree_new by done. rewrite Hin by apply below_app. apply eq_None_not_Some. intros Hs.
        destruct r as [|x r]; [rewrite app_nil_r, ES in Hs; by destruct Hs|]. by apply (Hq (x :: r)).
      * destruct (below S q) eqn:E2; [by apply move_tree_old|]. rewrite move_tree_other by done. by apply Hout.
    + intros _ [|x r] f Hf; [by rewrite app_nil_r, ES in Hf|]. cbn [copy_dest]. exists f. split; [|by left].
      rewrite lookup_union, move_tree_new by done. rewrite Hin by apply below_app. rewrite Hf. by destruct (fs !! (D ++ x :: r)).
Qed.
(** The program behind [CommandRunner] does what it does. *)
Lemma CommandRunner_ok `{Env} `{GoUnicode} exec bin p : rclone_ok (exec bin) → rclone_ok (run (mkRclone p (Some (CommandRunner exec bin)))).
Proof.
  intros [R1 R2 R3]. split.
  - intros c path rest fs0 G1 G2 G3. unfold run. cbn [rb_Runner rn_Run CommandRunner]. eapply triple_bind; [by apply R1|]. intros [out e]. by apply triple_ret.
  - intros src dst rest fs0 G1 G2 G3 G4 G5. unfold run. cbn [rb_Runner rn_Run CommandRunner]. eapply triple_bind; [by apply R2|]. intros [out e]. apply triple_ret.
    intros fs He. by destruct e.
  - intros src dst rest fs0 F1 F2 Hr G1 G2. unfold run. cbn [rb_Runner rn_Run CommandRunner]. eapply triple_bind; [by apply R3|]. intros [out e]. apply triple_ret.
    intros fs Hd. cbn [snd] in *. destruct e; [|done]. split; [by apply Hd|done].
Qed.
Lemma demo_exec_ok `{Env} bin : rclone_ok (demo_exec bin).
Proof.
  split.
  - intros c path rest fs0 Hc G1 G2 s Hs. unfold demo_exec.
    destruct (String.eqb_spec c "copy") as [->|_]; [|by destruct (String.eqb c "cat")].
    exfalso. revert Hc. unfold reading. rewrite !elem_of_cons. by intros [E|[E|E%not_elem_of_nil]].
  - intros src dst rest fs0 F1 F2 Hr G1 G2 s ->. unfold demo_exec. change (String.eqb "copy" "copy") with true. cbv iota. rewrite Hr. cbv zeta. cbn [negb snd].
    unfold demo_copy. rewrite G1, G2. cbn [negb]. by rewrite orb_true_r.
  - intros src dst rest fs0 F1 F2 Hr G1 G2 s ->. unfold demo_exec. change (String.eqb "copy" "copy") with true. cbv iota. rewrite Hr. cbv zeta. cbn [negb snd].
    by apply demo_copied.
Qed.

(** ** Witnesses *)

#[local] Existing Instances demo_env demo_unicode demo_platform demo_host json_config json_legacy.
Definition carry_profile (vault remote : string) : RemoteProfile := mkRemoteProfile "p" "rclone" vault
  (mkRemoteConfig "" remote "local" "managed" "/c/rclone.conf" 8 16 true "auto" "" false "" "" 0 "" "")
  (mkRuntimeConfig "stable" "" false false) (mkSafetyConfig "copy" false false 30 false) "" "".
Definition carrier (remote : string) : RcloneBackend := mkRclone (carry_profile "/v" remote) (Some (CommandRunner demo_exec "rclone")).
Lemma carrier_runs remote : rclone_ok (run (carrier remote)).
Proof. apply CommandRunner_ok, demo_exec_ok. Qed.
Definition carry_files : files := list_to_map [
  (["";"v";"SeaVaultData";"vault.json"], mkFile [Byte.x02] 9); (["";"v";"SeaVaultData";"objects";"chunks";"ab";"a"], mkFile [Byte.x0a] 9);
  (["";"v";"SeaVaultData";"manifests";"m"], mkFile [Byte.x0c] 9)].
Definition carry_start : St := mkSt carry_files 0 None 0 None.
Definition sides_check (b : RcloneBackend) (vs cs : list string) (n m : string) : bool :=
  negb (below (local_at vs n) (remote_at b m)) && negb (below (remote_at b m) (local_at vs n)) &&
  negb (below (local_at vs n) (at_config cs)) && negb (below (remote_at b m) (at_config cs)) && tidy (remote_root b m).
Lemma sides_checked b vs cs : forallb (fun n => forallb (sides_check b vs cs n) MetadataDirNames) MetadataDirNames = true →
  ∀ n m, n ∈ MetadataDirNames → m ∈ MetadataDirNames → sides_apart b vs cs n m.
Proof.
  intros Hc n m Hn%list_elem_of_In Hm%list_elem_of_In. rewrite forallb_forall in Hc. specialize (Hc n Hn). rewrite forallb_forall in Hc. specialize (Hc m Hm).
  unfold sides_check in Hc. rewrite !andb_true_iff, !negb_true_iff in Hc. unfold sides_apart. tauto.
Qed.

Lemma demo_cat bin path rest s f text : is_flag path = false → own_options rest = true → st_files s !! remote_segs path = Some f → f_data f = bytes_of text →
  ∃ s', demo_exec bin ("cat" :: path :: rest) s = (s', Ok (text, None)) ∧ st_files s' = st_files s.
Proof.
  intros _ _ Hf Hd. exists s. split; [|done]. unfold demo_exec. change (String.eqb "cat" "copy") with false. change (String.eqb "cat" "cat") with true.
  cbv iota. by rewrite Hf, Hd, string_of_list_byte_of_string.
Qed.
Definition other_id : string := "ffffffffffffffffffffffffffffffff".
Definition other_config : string := join_lines ["{"; "  " +:+ quoted_text "version" +:+ ": 2,"; id_line other_id; "  " +:+ quoted_text "wrappedKeys" +:+ ": ..."; "}"].
Definition met : St := mkSt (list_to_map [(["";"v";"SeaVaultData";"vault.json"], mkFile (marshal demo_config) 9);
  (["nas:backup";"SeaVaultData";"vault.json"], mkFile (bytes_of other_config) 9)]) 0 None 0 None.
Lemma met_here : here ["v"] "SeaVaultData" demo_config (st_files met).
Proof.
  split; [split; [exists (mkFile (marshal demo_config) 9); vm_compute; reflexivity|]|].
  - intros n Hn Hne. unfold MetadataDirNames in Hn. apply elem_of_cons in Hn as [Hn|Hn%list_elem_of_singleton]; [contradiction|].
    rewrite Hn. split; vm_compute; reflexivity.
  - exists (mkFile (marshal demo_config) 9). split; [vm_compute; reflexivity|]. split; [vm_compute; reflexivity|]. split; [vm_compute; discriminate|].
    split; [vm_compute; discriminate|]. vm_compute. discriminate.
Qed.
Lemma foreign_vault_refused_witness : ∃ s' res e, Sync (carrier "nas:backup") (mkTransportOptions false) met = (s', Ok (res, Some e)) ∧
  rs_OK res = false ∧ rs_Commands res = [] ∧ st_files s' = st_files met.
Proof.
  assert (H1 : trim_space (rp_Vault (carry_profile "/v" "nas:backup")) = at_root ["v"] []) by (vm_compute; reflexivity).
  assert (H2 : own_words (carry_profile "/v" "nas:backup") (at_root ["c"; "rclone.conf"] []))
    by (split; [discriminate|vm_compute; reflexivity]).
  assert (H3 : remote_given (carrier "nas:backup")) by (unfold remote_given; apply String.eqb_neq; vm_compute; reflexivity).
  assert (H6 : Forall plain_seg ["v"]) by (repeat constructor; discriminate).
  apply (foreign_vault_refused (carry_profile "/v" "nas:backup") demo_exec "rclone" ["v"] ["c"; "rclone.conf"] "SeaVaultData" H6 ltac:(discriminate)
    ltac:(by left) ltac:(reflexivity) H1 ltac:(vm_compute; reflexivity) H2 H3 ltac:(vm_compute; reflexivity) (demo_cat "rclone") demo_config other_id met
    (mkTransportOptions false) (Sync (carrier "nas:backup") (mkTransportOptions false)) met_here).
  - exists (mkFile (bytes_of other_config) 9), other_config. split; [vm_compute; reflexivity|]. split; [reflexivity|]. split; [|split; [vm_compute; reflexivity|discriminate]].
    exists ["{"; "  " +:+ quoted_text "version" +:+ ": 2,"], ["  " +:+ quoted_text "wrappedKeys" +:+ ": ..."; "}"]. split; [reflexivity|].
    split; repeat constructor; vm_compute; reflexivity.
  - vm_compute. discriminate.
  - right. right. left.
Defined.
(** A configuration on one line is cut before the identity. *)
Example one_line_unseen : let text := str_concat ["{"; quoted_text "version"; ":2,"; id_key; ":"; quoted_text other_id; ","; quoted_text "wrappedKeys"; ":1}"] in
  (parseVaultID text, parseVaultID (Redact text)) = (Some other_id, None).
Proof. vm_compute. reflexivity. Qed.

Lemma redaction_hides_values_witness : RedactText (join_lines ["[nas]"; "pass = abc"]) = RedactText (join_lines ["[nas]"; "pass = xyz"]).
Proof.
  apply redaction_hides_values.
  - constructor; [apply alike_same|]. constructor; [|constructor]. apply (alike_secret "pass " "=" " abc" " xyz"); reflexivity.
  - repeat constructor.
  - repeat constructor.
Defined.
