(* ===== verification/Importer.v ===== *)
(** Bringing a file or a tree of the device into a vault (internal/importer): the walk,
    what it leaves out, the progress it reports, and the table of running jobs.

    The context is cancelled from some moment on; links and special files are not part
    of the disk.  What rsync is installed (internal/rsyncput) is told by [Rsync]. *)
From S2P Require Export Trees UserPath.
Local Open Scope Z_scope.

(** ** Data *)

(** internal/importer/importer.go:22-28 [Options] *)
Record ImportOptions : Type := mkImportOptions {
  io_VirtualPath : string; io_DryRun : bool; io_Method : string; io_RsyncBinary : string; io_SkipExisting : bool }.
(** internal/importer/importer.go:41-48 [Progress]: its int64 counters *)
Record Counts : Type := mkCounts {
  FilesScanned : Z; FilesImported : Z; FilesSkipped : Z; DirsScanned : Z; DirsCreated : Z; BytesScanned : Z; BytesImported : Z;
  Errors : Z }.
(** internal/importer/importer.go:30-52 [Progress]; no [FinishedAt] is the zero time. *)
Record Progress : Type := mkProgress {
  pg_JobID : string; pg_Status : string; pg_SourcePath : string; pg_VirtualPath : string; pg_CanonicalPath : string;
  pg_Method : string; pg_DryRun : bool; pg_StartedAt : Z; pg_UpdatedAt : Z; pg_FinishedAt : option Z; pg_Counts : Counts;
  pg_CurrentPath : string; pg_LastError : string; pg_Samples : list string }.

Definition no_counts : Counts := mkCounts 0 0 0 0 0 0 0 0.
(** Counters of things met stay far below 2^63; sums of sizes wrap. *)
Definition plus_counts (a b : Counts) : Counts :=
  mkCounts (FilesScanned a + FilesScanned b) (FilesImported a + FilesImported b) (FilesSkipped a + FilesSkipped b)
    (DirsScanned a + DirsScanned b) (DirsCreated a + DirsCreated b) (wrap64 (BytesScanned a + BytesScanned b))
    (wrap64 (BytesImported a + BytesImported b)) (Errors a + Errors b).
Definition one_error : Counts := mkCounts 0 0 0 0 0 0 0 1.
Definition one_skipped : Counts := mkCounts 0 0 1 0 0 0 0 0.
Definition one_dir : Counts := mkCounts 0 0 0 1 0 0 0 0.
Definition one_created : Counts := mkCounts 0 0 0 0 1 0 0 0.
Definition one_scanned (size : Z) : Counts := mkCounts 1 0 0 0 0 size 0 0.
Definition one_imported (size : Z) : Counts := mkCounts 0 1 0 0 0 0 size 0.

(** Assignments to fields. *)
Definition count (p : Progress) (c : Counts) : Progress :=
  mkProgress (pg_JobID p) (pg_Status p) (pg_SourcePath p) (pg_VirtualPath p) (pg_CanonicalPath p) (pg_Method p) (pg_DryRun p) (pg_StartedAt p)
    (pg_UpdatedAt p) (pg_FinishedAt p) (plus_counts (pg_Counts p) c) (pg_CurrentPath p) (pg_LastError p) (pg_Samples p).
Definition set_LastError (p : Progress) (e : err) : Progress :=
  mkProgress (pg_JobID p) (pg_Status p) (pg_SourcePath p) (pg_VirtualPath p) (pg_CanonicalPath p) (pg_Method p) (pg_DryRun p) (pg_StartedAt p)
    (pg_UpdatedAt p) (pg_FinishedAt p) (pg_Counts p) (pg_CurrentPath p) (err_text e) (pg_Samples p).
Definition set_CurrentPath (p : Progress) (c : string) : Progress :=
  mkProgress (pg_JobID p) (pg_Status p) (pg_SourcePath p) (pg_VirtualPath p) (pg_CanonicalPath p) (pg_Method p) (pg_DryRun p) (pg_StartedAt p)
    (pg_UpdatedAt p) (pg_FinishedAt p) (pg_Counts p) c (pg_LastError p) (pg_Samples p).
Definition set_paths (p : Progress) (src base : string) : Progress :=
  mkProgress (pg_JobID p) (pg_Status p) src (pg_VirtualPath p) base (pg_Method p) (pg_DryRun p) (pg_StartedAt p)
    (pg_UpdatedAt p) (pg_FinishedAt p) (pg_Counts p) (pg_CurrentPath p) (pg_LastError p) (pg_Samples p).
Definition set_UpdatedAt (p : Progress) (t : Z) : Progress :=
  mkProgress (pg_JobID p) (pg_Status p) (pg_SourcePath p) (pg_VirtualPath p) (pg_CanonicalPath p) (pg_Method p) (pg_DryRun p) (pg_StartedAt p)
    t (pg_FinishedAt p) (pg_Counts p) (pg_CurrentPath p) (pg_LastError p) (pg_Samples p).
Definition set_finished (p : Progress) (status : string) (t : Z) : Progress :=
  mkProgress (pg_JobID p) status (pg_SourcePath p) (pg_VirtualPath p) (pg_CanonicalPath p) (pg_Method p) (pg_DryRun p) (pg_StartedAt p)
    (pg_UpdatedAt p) (Some t) (pg_Counts p) (pg_CurrentPath p) (pg_LastError p) (pg_Samples p).
Definition set_JobID (p : Progress) (id : string) : Progress :=
  mkProgress id (pg_Status p) (pg_SourcePath p) (pg_VirtualPath p) (pg_CanonicalPath p) (pg_Method p) (pg_DryRun p) (pg_StartedAt p)
    (pg_UpdatedAt p) (pg_FinishedAt p) (pg_Counts p) (pg_CurrentPath p) (pg_LastError p) (pg_Samples p).
(** internal/importer/importer.go:337-341 [addSample] *)
Definition addSample (p : Progress) (vp : string) : Progress :=
  mkProgress (pg_JobID p) (pg_Status p) (pg_SourcePath p) (pg_VirtualPath p) (pg_CanonicalPath p) (pg_Method p) (pg_DryRun p) (pg_StartedAt p)
    (pg_UpdatedAt p) (pg_FinishedAt p) (pg_Counts p) (pg_CurrentPath p) (pg_LastError p)
    (if (length (pg_Samples p) <? 10)%nat then pg_Samples p ++ [vp] else pg_Samples p).
Definition failed_with (p : Progress) (e : err) : Progress := set_LastError (count p one_error) e.

(** ** The choice of a method *)

(** What [rsyncput.Inspect] finds, as far as the importer reads it. *)
Record RsyncStatus : Type := mkRsyncStatus { ry_Available : bool; ry_Error : string; ry_Installed : bool; ry_RuntimeOK : bool }.
Class Rsync := { rsync_Inspect : nat → string → RsyncStatus }.

(** internal/importer/importer.go:306-319 [normalizeMethod] *)
Definition normalizeMethod `{GoUnicode} (method : string) : string :=
  let m := to_lower (trim_space method) in
  if String.eqb m "" then "native"
  else if String.eqb m "managed-rsync" || String.eqb m "system-rsync" || String.eqb m "rsync" then m
  else if String.eqb m "auto" || String.eqb m "native" then "native"
  else m.

Section importer.
Context `{GoUnicode} `{AEAD} `{Env} `{Platform} `{Host} `{Rsync} `{JSON ManifestRecord} `{JSON Index} (v : Vault).
(** [ctx.Err()], by the number of the call. *)
Context (ctx_err : nat → option err).
Definition ctx_done : M (option err) := gets (fun s => ctx_err (st_tick s)).

(** internal/importer/importer.go:321-335 [preflight] *)
Definition preflight (method binary : string) : M unit :=
  n ← gets st_tick;
  if String.eqb method "managed-rsync" then
    let st := rsync_Inspect n "" in
    if negb (ry_Installed st) || negb (ry_RuntimeOK st)
    then fail (ENew "managed rsync is not installed or failed verification; use native large import or install managed rsync")
    else mret tt
  else if String.eqb method "system-rsync" || String.eqb method "rsync" then
    if negb (ry_Available (rsync_Inspect n binary)) then fail (ENew "system rsync is not available: %s") else mret tt
  else mret tt.

(** internal/importer/importer.go:298-304 [baseVirtualPath] *)
Definition baseVirtualPath (src requested : string) : result string :=
  let vp := trim_space requested in
  NormalizeContentPath (if String.eqb vp "" then path_base src else vp).

(** The progress, and what was reported of it so far: the closures [emit] and [finish]
    share the variable. *)
Definition Told : Type := Progress * list Progress.
(** internal/importer/importer.go:118-123 [ImportPath]: [emit] *)
Definition emit (x : Told) : M Told := t ← now; let p := set_UpdatedAt x.1 t in mret (p, x.2 ++ [p]).
(** internal/importer/importer.go:124-132 [ImportPath]: [finish] *)
Definition finish (status : string) (e : option err) (x : Told) : M Told :=
  t ← now;
  let p := match e with Some e => set_LastError x.1 e | None => x.1 end in
  emit (set_finished p status t, x.2).

(** ** One file *)

(** [FileInfo] finds a file of this size. *)
Definition already_there (vp : string) (size : Z) : M bool :=
  r ← try (FileInfo v vp);
  mret (match r with Ok (rec, ok) => ok && (fr_Size rec =? size) | Err _ => false end).

(** internal/importer/importer.go:268-296 [importOneFile].  The progress is passed by
    value: what it counts is counted in a copy, the second part of the result, while
    [emit] and [finish] report the caller's. *)
Definition importOneFile (src : fpath) (vp : string) (size : Z) (opts : ImportOptions) (x : Told) : M (Told * Progress) :=
  c ← ctx_done;
  match c with
  | Some e => x ← finish "cancelled" (Some e) x; mret (x, x.1)
  | None =>
      let prog := set_CurrentPath (count x.1 (one_scanned size)) vp in
      if io_DryRun opts then y ← finish "completed" None x; mret (y, addSample prog vp)
      else
        there ← (if io_SkipExisting opts then already_there vp size else mret false);
        if there : bool then y ← finish "completed" None x; mret (y, count prog one_skipped)
        else
          r ← try (PutPath v src vp);
          match r with
          | Err e => y ← finish "failed" (Some e) x; mret (y, count prog one_error)
          | Ok _ =>
              y ← emit x;
              y ← finish "completed" None y;
              mret (y, addSample (count prog (one_imported size)) vp)
          end
  end.

(** ** A tree *)

(** internal/importer/importer.go:216-254 [ImportPath]: an entry that is taken *)
Definition import_entry (p : fpath) (vp : string) (size : option Z) (opts : ImportOptions) (x : Told) : M Told :=
  match size with
  | None =>
      let x := (count x.1 one_dir, x.2) in
      x ← (if io_DryRun opts then mret x
           else r ← try (EnsureDirectory v vp);
                mret (match r with Err e => (failed_with x.1 e, x.2) | Ok _ => (count x.1 one_created, x.2) end));
      emit x
  | Some n =>
      let x := (set_CurrentPath (count x.1 (one_scanned n)) vp, x.2) in
      if io_DryRun opts then emit (addSample x.1 vp, x.2)
      else
        there ← (if io_SkipExisting opts then already_there vp n else mret false);
        if there : bool then emit (count x.1 one_skipped, x.2)
        else
          r ← try (PutPath v p vp);
          emit (match r with
                | Err e => (failed_with x.1 e, x.2)
                | Ok _ => (addSample (count x.1 (one_imported n)) vp, x.2)
                end)
  end.

(** [d.Info()]: the size, none of a directory. *)
Definition entry_info (p : fpath) (isDir : bool) : M (option Z) :=
  if isDir then _ ← os_Quiet; mret None else f ← os_Info p; mret (Some (Z.of_nat (length (f_data f)))).

(** internal/importer/importer.go:162-255 [ImportPath]: the function called on each entry *)
Definition import_step (src : fpath) (base : string) (opts : ImportOptions) (x : Told) (p : fpath) (isDir : bool) (walkErr : option err)
    : M (Told * option err) :=
  match walkErr with
  | Some e => x ← emit (failed_with x.1 e, x.2); mret (x, None)
  | None =>
      c ← ctx_done;
      match c with
      | Some e => mret (x, Some e)
      | None =>
          let name := base_of p in
          if isDir && (String.eqb name ".git" || bool_decide (p = v_MetaRoot v)) then mret (x, Some SkipDir)
          else if IsInternalVirtualPath name then
            if isDir then mret (x, Some SkipDir) else mret ((count x.1 one_skipped, x.2), None)
          else
            i ← try (entry_info p isDir);
            match i with
            | Err e => x ← emit (failed_with x.1 e, x.2); mret (x, None)
            | Ok size =>
                match drop (length src) p with
                | [] => mret (x, None)
                | rel => x ← import_entry p (path_join (base :: rel)) size opts x; mret (x, None)
                end
            end
      end
  end.

(** internal/importer/importer.go:155-266 [ImportPath]: a directory *)
Definition import_tree (src : fpath) (base : string) (opts : ImportOptions) (x : Told) : M Told :=
  r ← (if io_DryRun opts then mret (Ok x)
       else d ← try (EnsureDirectory v base);
            mret (match d with Err e => Err e | Ok _ => Ok (count x.1 one_created, x.2) end));
  match r with
  | Err e => finish "failed" (Some e) x
  | Ok x =>
      '(x, e) ← WalkDir (import_step src base opts) x src;
      match e with
      | Some e =>
          c ← ctx_done;
          match c with Some e => finish "cancelled" (Some e) x | None => finish "failed" (Some e) x end
      | None => if 0 <? Errors (pg_Counts x.1) then finish "completed-with-errors" None x else finish "completed" None x
      end
  end.

(** internal/importer/importer.go:114-266 [ImportPath]: the result, and the progress
    reported on the way. *)
Definition ImportPath (sourcePath : string) (opts : ImportOptions) : M Told :=
  t ← now;
  let x := (mkProgress "" "running" sourcePath (io_VirtualPath opts) "" (normalizeMethod (io_Method opts)) (io_DryRun opts) t t None
              no_counts "" "" [], []) in
  r ← try (src ← lift (Abs sourcePath);
           _ ← preflight (normalizeMethod (io_Method opts)) (io_RsyncBinary opts);
           d ← os_IsDir (dir_segs src);
           base ← lift (baseVirtualPath src (io_VirtualPath opts));
           mret (src, d, base));
  match r with
  | Err e => finish "failed" (Some e) x
  | Ok (src, isDir, base) =>
      x ← emit (set_paths x.1 src base, x.2);
      if isDir : bool then import_tree (dir_segs src) base opts x
      else
        n ← gets (fun s => match st_files s !! dir_segs src with Some f => Z.of_nat (length (f_data f)) | None => 0 end);
        '(x, _) ← importOneFile (dir_segs src) base n opts x;
        mret x
  end.
End importer.

(** ** The jobs *)

(** internal/importer/importer.go:60-64 [jobs]: the table and the counter; a job is its
    progress, and whether it was cancelled *)
Record Jobs : Type := mkJobs { jb_jobs : gmap string (Progress * bool); jb_nextID : Z }.

Section jobs.
Context `{GoUnicode}.
(** internal/importer/importer.go:66-85 [Start]: up to the goroutine, which reports by
    [update] and ends by [job_done] *)
Definition Start (now_ : Z) (sourcePath : string) (opts : ImportOptions) (j : Jobs) : result (string * Jobs) :=
  if String.eqb (trim_space sourcePath) "" then Err (ENew "source path is required")
  else
    let n := wrap64 (jb_nextID j + 1) in
    let id := "import-" +:+ itoa n in
    let p := mkProgress id "queued" sourcePath (io_VirtualPath opts) "" (normalizeMethod (io_Method opts)) (io_DryRun opts) now_ now_ None
               no_counts "" "" [] in
    Ok (id, mkJobs (<[id := (p, false)]> (jb_jobs j)) n).
End jobs.
(** internal/importer/importer.go:87-92 [Get] *)
Definition Get (id : string) (j : Jobs) : option (Progress * bool) := jb_jobs j !! id.
Definition change_job (f : Progress * bool → Progress * bool) (id : string) (j : Jobs) : Jobs := mkJobs (alter f id (jb_jobs j)) (jb_nextID j).
(** internal/importer/importer.go:94-99 [Job.Cancel] *)
Definition Cancel : string → Jobs → Jobs := change_job (fun pb => (pb.1, true)).
(** internal/importer/importer.go:107-112 [Job.update] *)
Definition update (p : Progress) : string → Jobs → Jobs := change_job (fun pb => (set_JobID p (pg_JobID pb.1), pb.2)).
(** internal/importer/importer.go:76-83 [Start]: the end of the goroutine *)
Definition job_done (res : Progress) (id : string) : Jobs → Jobs := change_job (fun pb => (set_JobID res id, pb.2)) id.
