(* ===== verification/ImporterFacts.v ===== *)
(** An import always ends with a report that adds up; a dry run writes nothing; what the
    report of a single file leaves out. *)
From S2P Require Export Importer TreesFacts UserPathFacts DavFileFacts.
Local Open Scope Z_scope.

(** A computation that always returns, and what it returns. *)
Definition returns {A} (C : A → Prop) (m : M A) : Prop := ∀ s, match (m s).2 with Ok a => C a | Err _ => False end.

Lemma returns_bind {A B} (C : A → Prop) (D : B → Prop) (m : M A) (f : A → M B) :
  returns C m → (∀ a, C a → returns D (f a)) → returns D (m ≫= f).
Proof. intros Hm Hf s. rewrite bind_run. specialize (Hm s). destruct (m s) as [s1 [a|e]]; [by apply Hf|done]. Qed.
Lemma returns_ret {A} (C : A → Prop) a : C a → returns C (mret a).
Proof. by intros Ha s. Qed.
Lemma returns_try {A} (m : M A) : returns (fun _ => True) (try m).
Proof. intros s. by rewrite try_run. Qed.
Lemma returns_gets {A} (f : St → A) : returns (fun _ => True) (gets f).
Proof. by intros s. Qed.
Lemma returns_mfold {A B} (J : B → Prop) (f : B → A → M B) l : (∀ b a, J b → returns J (f b a)) → ∀ b, J b → returns J (mfold f b l).
Proof.
  intros Hf. induction l as [|a l IH]; intros b Hb; cbn [mfold]; [by apply returns_ret|].
  apply (returns_bind J); [by apply Hf|exact IH].
Qed.
Lemma returns_run {A} (C : A → Prop) (m : M A) s : returns C m → ∃ s' a, m s = (s', Ok a) ∧ C a.
Proof. intros Hm. specialize (Hm s). destruct (m s) as [s' [a|e]]; [eauto|done]. Qed.

Lemma WalkDir_returns `{Env} {B} (fn : B → fpath → bool → option err → M (B * option err)) (J : B → Prop) b root :
  (∀ b p d e, J b → returns (fun x => J x.1) (fn b p d e)) → J b → returns (fun x => J x.1) (WalkDir fn b root).
Proof.
  intros Hfn Hb. assert (Hw : ∀ fuel b p d, J b → returns (fun x => J x.1) (walk_fuel fn fuel b p d)).
  { clear b Hb. induction fuel as [|fuel IH]; intros b p d Hb; cbn [walk_fuel]; [by apply returns_ret|].
    apply (returns_bind (fun x => J x.1)); [by apply Hfn|]. intros [b1 [e|]] H1; [by apply returns_ret|].
    destruct (negb d); [by apply returns_ret|]. apply (returns_bind (fun _ => True)); [apply returns_try|]. intros [l|x] _.
    - apply (returns_bind (fun x => J x.1)); [|intros [b2 e] H2; by apply returns_ret].
      apply returns_mfold; [|done]. intros [b2 [e|]] [n c] H2; [by apply returns_ret|]. by apply IH.
    - apply (returns_bind (fun x => J x.1)); [by apply Hfn|]. intros [b2 e] H2. by apply returns_ret. }
  unfold WalkDir. apply (returns_bind (fun _ => True)); [apply returns_gets|intros n _].
  apply (returns_bind (fun _ => True)); [apply returns_try|intros r _].
  apply (returns_bind (fun x => J x.1)); [destruct r; [by apply Hw|by apply Hfn]|]. intros [b2 e] H2. by apply returns_ret.
Qed.

(** ** The report *)

Section reports.
Context `{GoUnicode} `{AEAD} `{Env} `{Platform} `{Host} `{Rsync} `{JSON ManifestRecord} `{JSON Index} (v : Vault).
Context (ctx_err : nat → option err) (opts : ImportOptions).

(** A report that adds up. *)
Record adds_up (p : Progress) : Prop := {
  au_dry : pg_DryRun p = io_DryRun opts;
  au_imported : 0 ≤ FilesImported (pg_Counts p) ≤ FilesScanned (pg_Counts p);
  au_skipped : 0 ≤ FilesSkipped (pg_Counts p);
  au_errors : 0 ≤ Errors (pg_Counts p);
  au_scanned : io_DryRun opts = false →
    FilesScanned (pg_Counts p) ≤ FilesImported (pg_Counts p) + FilesSkipped (pg_Counts p) + Errors (pg_Counts p);
  au_none : io_DryRun opts = true → FilesImported (pg_Counts p) = 0 ∧ DirsCreated (pg_Counts p) = 0;
  au_dirs : 0 ≤ DirsCreated (pg_Counts p);
  au_samples : (length (pg_Samples p) ≤ 10)%nat
}.
Definition told_ok (x : Told) : Prop := adds_up x.1 ∧ Forall adds_up x.2.

Lemma addSample_length p vp : (length (pg_Samples p) ≤ 10)%nat → (length (pg_Samples (addSample p vp)) ≤ 10)%nat.
Proof. unfold addSample. cbn [pg_Samples]. destruct (Nat.ltb_spec (length (pg_Samples p)) 10); [rewrite length_app; cbn; lia|done]. Qed.
Ltac tally := repeat match goal with Hp : adds_up _ |- _ => destruct Hp end; constructor; cbn in *;
  first [done | lia | by apply addSample_length | let h := fresh in intros h; congruence | let h := fresh in intros h;
    repeat match goal with Hi : ?P → _ |- _ => first [specialize (Hi h) | clear Hi] end; lia].
Lemma emit_ok x : told_ok x → returns told_ok (emit x).
Proof.
  intros [Hx Hl]. unfold emit. apply (returns_bind (fun _ => True)); [done|]. intros t _. apply returns_ret.
  assert (Hp : adds_up (set_UpdatedAt x.1 t)) by (destruct Hx; by constructor). split; [done|]. apply Forall_app. by split; [|constructor].
Qed.
(** The last report is the result. *)
Definition finished (P : string → Progress → Prop) (x : Told) : Prop :=
  told_ok x ∧ pg_FinishedAt x.1 ≠ None ∧ P (pg_Status x.1) x.1 ∧ ∃ l, x.2 = l ++ [x.1].
Lemma finish_ok P status e x : told_ok x → (∀ p, pg_Counts p = pg_Counts x.1 → P status p) → returns (finished P) (finish status e x).
Proof.
  intros [Hx Hl] HP. unfold finish. apply (returns_bind (fun _ => True)); [done|]. intros t _.
  set (p := match e with Some e => _ | None => _ end). assert (Hc : pg_Counts p = pg_Counts x.1) by (unfold p; by destruct e).
  assert (Hp : adds_up p) by (unfold p; destruct e; [destruct Hx; by constructor|done]).
  unfold emit. apply (returns_bind (fun _ => True)); [done|]. intros t' _. apply returns_ret. cbn.
  assert (Hq : adds_up (set_UpdatedAt (set_finished p status t) t')) by (destruct Hp; by constructor).
  split; [split; [done|apply Forall_app; by split; [|constructor]]|]. split; [done|]. split; [by apply HP|by eexists].
Qed.

(** ** The parts of an import *)

Lemma failed_with_ok x e : told_ok x → told_ok (failed_with x.1 e, x.2).
Proof. intros [Hx Hl]. split; [|done]. cbn. tally. Qed.

Lemma import_entry_ok p vp size x : told_ok x → returns told_ok (import_entry v p vp size opts x).
Proof.
  intros [Hx Hl]. destruct size as [n|]; cbn [import_entry fst snd].
  - destruct (io_DryRun opts) eqn:Ed; [apply emit_ok; split; [|done]; cbn; tally|].
    apply (returns_bind (fun _ => True)).
    { destruct (io_SkipExisting opts); [|by apply returns_ret]. unfold already_there.
      apply (returns_bind (fun _ => True)); [apply returns_try|]. intros [[r o]|e] _; by apply returns_ret. }
    intros [] _; [apply emit_ok; split; [|done]; cbn; tally|].
    apply (returns_bind (fun _ => True)); [apply returns_try|]. intros [r|e] _; apply emit_ok; (split; [|done]); cbn; tally.
  - apply (returns_bind told_ok); [|intros y; apply emit_ok].
    destruct (io_DryRun opts) eqn:Ed; [apply returns_ret; split; [|done]; cbn; tally|].
    apply (returns_bind (fun _ => True)); [apply returns_try|]. intros [r|e] _; apply returns_ret; (split; [|done]); cbn; tally.
Qed.

Lemma import_step_ok src base x p d e : told_ok x → returns (fun y => told_ok y.1) (import_step v ctx_err src base opts x p d e).
Proof.
  intros Hx. destruct e as [e|]; cbn [import_step].
  { apply (returns_bind told_ok); [by apply emit_ok, failed_with_ok|]. intros y Hy. by apply returns_ret. }
  apply (returns_bind (fun _ => True)); [apply returns_gets|]. intros [c|] _; [by apply returns_ret|].
  destruct (d && _); [by apply returns_ret|]. destruct (IsInternalVirtualPath _).
  { destruct d; apply returns_ret; [done|]. destruct Hx as [Hx Hl]. split; [|done]. cbn. tally. }
  apply (returns_bind (fun _ => True)); [apply returns_try|]. intros [size|e] _.
  - destruct (drop (length src) p) as [|r rel]; [by apply returns_ret|].
    apply (returns_bind told_ok); [by apply import_entry_ok|]. intros y Hy. by apply returns_ret.
  - apply (returns_bind told_ok); [by apply emit_ok, failed_with_ok|]. intros y Hy. by apply returns_ret.
Qed.

(** How an import may end. *)
Definition ended (status : string) (p : Progress) : Prop :=
  status ∈ ["failed"; "cancelled"] ∨
  (status = "completed" ∧ Errors (pg_Counts p) = 0) ∨ (status = "completed-with-errors" ∧ 0 < Errors (pg_Counts p)).
Lemma ended_badly status p : status ∈ ["failed"; "cancelled"] → ended status p.
Proof. by left. Qed.
#[local] Hint Extern 1 (ended "failed" _) => apply ended_badly; left : core.
#[local] Hint Extern 1 (ended "cancelled" _) => apply ended_badly; right; left : core.

Lemma import_tree_ok src base x : told_ok x → returns (finished ended) (import_tree v ctx_err src base opts x).
Proof.
  intros Hx. unfold import_tree. apply (returns_bind (fun r => match r with Ok y => told_ok y | Err _ => True end)).
  { destruct (io_DryRun opts) eqn:Ed; [by apply returns_ret|]. apply (returns_bind (fun _ => True)); [apply returns_try|].
    intros [u|e] _; apply returns_ret; [|done]. destruct Hx as [Hx Hl]. split; [|done]. cbn. tally. }
  intros [y|e] Hy; [|apply finish_ok; auto].
  apply (returns_bind (fun z => told_ok z.1)); [apply WalkDir_returns; [intros; by apply import_step_ok|done]|]. intros [z [e|]] Hz.
  - apply (returns_bind (fun _ => True)); [apply returns_gets|]. intros [c|] _; apply finish_ok; auto.
  - destruct (Z.ltb_spec 0 (Errors (pg_Counts z.1))) as [Hlt|Hge]; apply finish_ok; [done| |done|].
    + intros p Hp. right; right. by rewrite Hp.
    + intros p Hp. right; left. rewrite Hp. split; [done|]. destruct Hz as [[] _]. cbn in *. lia.
Qed.

Lemma importOneFile_ok src vp n x : told_ok x → Errors (pg_Counts x.1) = 0 →
  returns (fun y => finished ended y.1) (importOneFile v ctx_err src vp n opts x).
Proof.
  intros Hx Hzero. unfold importOneFile.
  assert (Hend : ∀ status e y q, told_ok y → Errors (pg_Counts y.1) = 0 → status ∈ ["failed"; "cancelled"; "completed"] →
    returns (fun y => finished ended y.1) (z ← finish status e y; mret (z, q) : M (Told * Progress))).
  { intros status e y q Hy Hz Hst. apply (returns_bind (finished ended)); [|intros z Hf; by apply returns_ret]. apply finish_ok; [done|].
    intros p Hp. apply elem_of_cons in Hst as [->|Hst]; [auto|]. apply elem_of_cons in Hst as [->|Hst%list_elem_of_singleton]; [auto|].
    subst status. right; left. by rewrite Hp. }
  apply (returns_bind (fun _ => True)); [apply returns_gets|]. intros [c|] _.
  { apply (returns_bind (finished ended)); [apply finish_ok; auto|]. intros y Hy. by apply returns_ret. }
  destruct (io_DryRun opts); [apply Hend; [done..|set_solver]|].
  apply (returns_bind (fun _ => True)).
  { destruct (io_SkipExisting opts); [|by apply returns_ret]. unfold already_there.
    apply (returns_bind (fun _ => True)); [apply returns_try|]. intros [[r o]|e] _; by apply returns_ret. }
  intros [] _; [apply Hend; [done..|set_solver]|].
  apply (returns_bind (fun _ => True)); [apply returns_try|]. intros [r|e] _; [|apply Hend; [done..|set_solver]].
  apply (returns_bind (fun y => told_ok y ∧ Errors (pg_Counts y.1) = 0)).
  { intros s. pose proof (emit_ok x Hx s) as He. unfold emit in *. rewrite bind_run in *. cbn in *. by split. }
  intros y [Hy Hz]. apply Hend; [done..|set_solver].
Qed.

(** C10. An import always comes to an end with a report: it says failed or cancelled, or
    completed when there was no error, or completed with errors.  The report is the
    last of those given on the way, and each of them adds up: what is imported was
    scanned, what was scanned (and is not only tried) was imported, skipped or counted
    as an error, a dry run imports nothing, and there are at most ten samples. *)
Theorem import_reports_add_up sourcePath s : ∃ s' p told, ImportPath v ctx_err sourcePath opts s = (s', Ok (p, told ++ [p])) ∧
  Forall adds_up (told ++ [p]) ∧ ended (pg_Status p) p ∧ pg_FinishedAt p ≠ None.
Proof.
  destruct (returns_run (finished ended) (ImportPath v ctx_err sourcePath opts) s) as (s' & [p l] & E & (Hx & Ha) & Hf & He & told & Hl).
  - unfold ImportPath. apply (returns_bind (fun _ => True)); [done|]. intros t _. set (x := (_, [])). 
    assert (Hx : told_ok x ∧ Errors (pg_Counts x.1) = 0) by (split; [split; [constructor; cbn; (done || lia)|constructor]|done]).
    destruct Hx as [Hx Hzero]. apply (returns_bind (fun _ => True)); [apply returns_try|]. intros [[[src d] base]|e] _; [|apply finish_ok; auto].
    apply (returns_bind (fun y => told_ok y ∧ Errors (pg_Counts y.1) = 0)).
    { set (y := (set_paths x.1 src base, x.2)). assert (Hy : told_ok y) by (destruct Hx as [[] Hl]; split; [by constructor|done]).
      intros s0. pose proof (emit_ok y Hy s0) as Hk. unfold emit in *. rewrite bind_run in *. cbn in *. by split. }
    intros y [Hy Hz]. destruct d; [by apply import_tree_ok|]. apply (returns_bind (fun _ => True)); [apply returns_gets|]. intros n _.
    apply (returns_bind (fun z => finished ended z.1)); [by apply importOneFile_ok|]. intros [z q] Hq. by apply returns_ret.
  - cbn in *. subst l. by exists s', p, told.
Qed.

(** The report of a single file has none of the counters and samples: they were counted
    in a copy. *)
Theorem one_file_counts_lost src vp n x s s' y copy : importOneFile v ctx_err src vp n opts x s = (s', Ok (y, copy)) →
  pg_Counts y.1 = pg_Counts x.1 ∧ pg_Samples y.1 = pg_Samples x.1.
Proof.
  set (C (z : Told) := pg_Counts z.1 = pg_Counts x.1 ∧ pg_Samples z.1 = pg_Samples x.1).
  assert (Hemit : ∀ z, C z → returns C (emit z)).
  { intros z Hz. unfold emit. apply (returns_bind (fun _ => True)); [done|]. intros t _. by apply returns_ret. }
  assert (Hfin : ∀ st e z, C z → returns C (finish st e z)).
  { intros st e z Hz. unfold finish. apply (returns_bind (fun _ => True)); [done|]. intros t _. apply Hemit. by destruct e. }
  assert (Hend : ∀ st e z q, C z → returns (fun r => C r.1) (w ← finish st e z; mret (w, q) : M (Told * Progress))).
  { intros st e z q Hz. apply (returns_bind C); [by apply Hfin|]. intros w Hw. by apply returns_ret. }
  assert (Hall : returns (fun r => C r.1) (importOneFile v ctx_err src vp n opts x)).
  { assert (Hx : C x) by done. unfold importOneFile. apply (returns_bind (fun _ => True)); [apply returns_gets|]. intros [c|] _.
    { apply (returns_bind C); [by apply Hfin|]. intros w Hw. by apply returns_ret. }
    destruct (io_DryRun opts); [by apply Hend|]. apply (returns_bind (fun _ => True)).
    { destruct (io_SkipExisting opts); [|by apply returns_ret]. unfold already_there.
      apply (returns_bind (fun _ => True)); [apply returns_try|]. intros [[r o]|e] _; by apply returns_ret. }
    intros [] _; [by apply Hend|]. apply (returns_bind (fun _ => True)); [apply returns_try|]. intros [r|e] _; [|by apply Hend].
    apply (returns_bind C); [by apply Hemit|]. intros w Hw. by apply Hend. }
  intros E. specialize (Hall s). by rewrite E in Hall.
Qed.

(** A dry run changes nothing on the disk. *)
Lemma emit_preserves (I : files → Prop) x : preserves I (emit x).
Proof. unfold emit. apply preserves_bind; [apply preserves_now|intros t; apply preserves_ret]. Qed.
Lemma finish_preserves (I : files → Prop) st e x : preserves I (finish st e x).
Proof. unfold finish. apply preserves_bind; [apply preserves_now|intros t; apply emit_preserves]. Qed.
Lemma dry_step_preserves (I : files → Prop) src base x p d e : io_DryRun opts = true → preserves I (import_step v ctx_err src base opts x p d e).
Proof.
  intros Ed. destruct e as [e|]; cbn [import_step]; [apply preserves_bind; [apply emit_preserves|intros; apply preserves_ret]|].
  apply preserves_bind; [apply preserves_gets|]. intros [c|]; [apply preserves_ret|]. destruct (d && _); [apply preserves_ret|].
  destruct (IsInternalVirtualPath _); [destruct d; apply preserves_ret|].
  apply preserves_bind; [apply preserves_try|].
  { destruct d; (apply preserves_bind; [apply preserves_query|intros; apply preserves_ret]). }
  intros [size|e]; [|apply preserves_bind; [apply emit_preserves|intros; apply preserves_ret]].
  destruct (drop _ p); [apply preserves_ret|]. apply preserves_bind; [|intros; apply preserves_ret].
  destruct size; cbn [import_entry]; rewrite Ed; [apply emit_preserves|]. apply preserves_bind; [apply preserves_ret|intros; apply emit_preserves].
Qed.
Theorem dry_import_writes_nothing sourcePath s : io_DryRun opts = true → st_files (ImportPath v ctx_err sourcePath opts s).1 = st_files s.
Proof.
  intros Ed. symmetry. assert (Hp : preserves (eq (st_files s)) (ImportPath v ctx_err sourcePath opts)); [|by apply Hp].
  set (I := eq (st_files s)). clearbody I. unfold ImportPath. apply preserves_bind; [apply preserves_now|intros t]. cbv zeta.
  apply preserves_bind.
  { apply preserves_try. apply preserves_bind; [apply preserves_lift|intros src]. apply preserves_bind.
    { unfold preflight. apply preserves_bind; [apply preserves_gets|intros n]. cbv zeta.
      repeat match goal with |- preserves _ (if ?b then _ else _) => destruct b end; first [apply preserves_fail|apply preserves_ret]. }
    intros _. apply preserves_bind; [apply preserves_query|intros d]. apply preserves_bind; [apply preserves_lift|intros; apply preserves_ret]. }
  intros [[[src d] base]|e]; [|apply finish_preserves]. apply preserves_bind; [apply emit_preserves|]. intros x. destruct d.
  - unfold import_tree. rewrite Ed. apply preserves_bind; [apply preserves_ret|]. intros [y|e]; [|apply finish_preserves].
    apply preserves_bind; [apply WalkDir_preserves; intros; by apply dry_step_preserves|]. intros [z [e|]].
    + apply preserves_bind; [apply preserves_gets|intros [c|]; apply finish_preserves].
    + destruct (0 <? _); apply finish_preserves.
  - apply preserves_bind; [apply preserves_gets|intros n]. apply preserves_bind; [|intros [y q]; apply preserves_ret].
    unfold importOneFile. apply preserves_bind; [apply preserves_gets|]. intros [c|].
    + apply preserves_bind; [apply finish_preserves|intros; apply preserves_ret].
    + rewrite Ed. cbv zeta. apply preserves_bind; [apply finish_preserves|intros; apply preserves_ret].
Qed.
End reports.

Section demo.
#[local] Existing Instances demo_unicode demo_aead demo_env demo_platform demo_host json_manifest json_index json_legacy json_seen.
#[local] Instance no_rsync : Rsync := {| rsync_Inspect := fun _ _ => mkRsyncStatus false "" false false |}.

Definition tree_opts (dry : bool) : ImportOptions := mkImportOptions "notes" dry "" "" false.
Definition tree_start : St := mkSt (list_to_map [
  (["";"in";"fox.txt"], mkFile (bytes_of "fox") 3); (["";"in";".git";"config"], mkFile (bytes_of "g") 3);
  (["";"in";"sub";"a.txt"], mkFile (bytes_of "abc") 3)]) 0 None 0 None.
Definition summary (x : St * result Told) : option (string * Z * Z * Z * list string) :=
  match x.2 with
  | Ok (p, _) => Some (pg_Status p, FilesScanned (pg_Counts p), FilesImported (pg_Counts p), DirsCreated (pg_Counts p), pg_Samples p)
  | Err _ => None
  end.
Example a_tree : summary (ImportPath demo_vault (fun _ => None) "/in" (tree_opts false) tree_start) =
  Some ("completed", 2, 2, 2, ["content/notes/fox.txt"; "content/notes/sub/a.txt"]).
Proof. vm_compute. reflexivity. Qed.
Example a_dry_run : summary (ImportPath demo_vault (fun _ => None) "/in" (tree_opts true) tree_start) =
  Some ("completed", 2, 0, 0, ["content/notes/fox.txt"; "content/notes/sub/a.txt"]).
Proof. vm_compute. reflexivity. Qed.
Example one_file : summary (ImportPath demo_vault (fun _ => None) "/in/fox.txt" (tree_opts false) tree_start) = Some ("completed", 0, 0, 0, []).
Proof. vm_compute. reflexivity. Qed.
Example cancelled_tree : summary (ImportPath demo_vault (fun n => if (n <? 30)%nat then None else Some (ENew "context canceled")) "/in" (tree_opts false) tree_start) =
  Some ("cancelled", 1, 1, 1, ["content/notes/fox.txt"]).
Proof. vm_compute. reflexivity. Qed.
Lemma dry_import_writes_nothing_witness :
  st_files (ImportPath demo_vault (fun _ => None) "/in" (tree_opts true) tree_start).1 = st_files tree_start.
Proof. apply (dry_import_writes_nothing demo_vault (fun _ => None) (tree_opts true) "/in" tree_start). reflexivity. Defined.
End demo.
