(* ===== verification/Setup.v ===== *)
(** Making a vault and wiring it up in one go (internal/setup/plan.go, execute.go,
    providers.go): the plan, its checks, and the steps of [Execute] over the operations
    it is given.

    A directory that is empty is not part of the disk. *)
From S2P Require Export Trees OpenVault Profile Remotes.
Local Open Scope Z_scope.

(** ** The plan *)

(** internal/setup/providers.go:15-24 [Provider]; [OtherProvider] is any other name. *)
Inductive Provider : Type :=
  | ProviderDropbox | ProviderOneDrive | ProviderICloud | ProviderGoogleDrive | ProviderNextcloud | ProviderSyncthing
  | OtherProvider (name : string).
#[global] Instance Provider_eq_dec : EqDecision Provider.
Proof. solve_decision. Defined.
(** internal/setup/providers.go:28-35 [AllProviders] *)
Definition AllProviders : list Provider :=
  [ProviderDropbox; ProviderOneDrive; ProviderICloud; ProviderGoogleDrive; ProviderNextcloud; ProviderSyncthing].
Definition quoted (s : string) : string := let q := String (ascii_of_N 34) "" in q +:+ s +:+ q.
(** internal/setup/providers.go:47-61 [caveats] *)
Definition Caveat_text (p : Provider) : string :=
  match p with
  | ProviderDropbox => str_concat ["Dropbox can keep files online-only (Smart Sync / Selective Sync). Right-click the vault folder and choose ";
      quoted "Make available offline"; " so every encrypted chunk stays on disk; otherwise the vault may fail to open when you are offline."]
  | ProviderOneDrive => str_concat ["OneDrive's Files On-Demand can make the vault's chunks online-only placeholders. Right-click the vault folder and choose ";
      quoted "Always keep on this device"; " so the encrypted data is present locally."]
  | ProviderICloud => str_concat ["iCloud Drive can offload local copies of files you have not opened recently to free space (macOS ";
      quoted "Optimize Mac Storage"; "; on Windows the iCloud client streams files on demand). Keep the vault folder downloaded — turn Optimize Storage off or open the folder to re-download it on macOS, and ";
      quoted "Always Keep on This Device"; " / Keep Downloaded on Windows — so its encrypted chunks are not evicted."]
  | ProviderGoogleDrive => str_concat ["Google Drive for desktop streams files by default instead of mirroring them. Set the vault folder to ";
      quoted "Available offline"; " (or use Mirror mode) so the encrypted data stays on local disk."]
  | ProviderNextcloud => str_concat ["Nextcloud's virtual-files (on-demand) mode can leave the vault's chunks online-only. Mark the vault folder ";
      quoted "Make always available locally"; ", and enable hidden-file sync if you are opening an older .seavault vault."]
  | ProviderSyncthing => "Syncthing skips anything matched by a .stignore rule and keeps no server-side version history by default. Keep the vault folder outside every ignore pattern so all chunks propagate to your other devices."
  | OtherProvider _ => ""
  end.
(** internal/setup/providers.go:66-66 [Caveat] *)
Definition Caveat (p : Provider) : string := Caveat_text p.
(** internal/setup/providers.go:70-87 [DisplayName] *)
Definition DisplayName (p : Provider) : string :=
  match p with
  | ProviderDropbox => "Dropbox" | ProviderOneDrive => "OneDrive" | ProviderICloud => "iCloud Drive"
  | ProviderGoogleDrive => "Google Drive" | ProviderNextcloud => "Nextcloud" | ProviderSyncthing => "Syncthing"
  | OtherProvider name => name
  end.

(** internal/setup/plan.go:59-79 [CloudChoice] *)
Inductive CloudChoice : Type :=
  | SyncedFolder (p : Provider)
  | RcloneRemote (name remotePath : string)
  | LocalOnly.
(** internal/setup/plan.go:84-87 [ExpertOptions] *)
Record ExpertOptions : Type := mkExpert { ex_KDF : KDFConfig; ex_Chunk : ChunkParams }.
(** internal/setup/plan.go:91-97 [Plan]; a nil [Cloud] is [LocalOnly]. *)
Record Plan : Type := mkSetupPlan {
  pl_VaultDir : string; pl_ProfileName : string; pl_SaveKeychain : bool; pl_Cloud : CloudChoice; pl_Expert : option ExpertOptions }.

Definition ErrVaultDirNotEmpty : err := ESentinel "ErrVaultDirNotEmpty".
Definition ErrVaultDirLeftovers : err := ESentinel "ErrVaultDirLeftovers".
Definition ErrKDFBelowFloor : err := ESentinel "ErrKDFBelowFloor".
Definition ErrRemoteNameInvalid : err := ESentinel "ErrRemoteNameInvalid".
Definition ErrProfileNameInUse : err := ESentinel "ErrProfileNameInUse".

Definition no_chunk : ChunkParams := mkChunkParams 0 0 0.

(** internal/setup/plan.go:101-107 [Plan.ResolvedProfileName] *)
Definition ResolvedProfileName (p : Plan) : string :=
  let name := trim_space (pl_ProfileName p) in
  if negb (String.eqb name "") then name else path_base (path_clean (pl_VaultDir p)).

(** internal/setup/plan.go:113-127 [Plan.createOptions] *)
Definition createOptions `{GoUnicode} (p : Plan) : result CreateOptions :=
  let kdf := match pl_Expert p with Some x => ex_KDF x | None => DefaultKDFConfig end in
  let chunk := match pl_Expert p with
               | Some x => if bool_decide (ex_Chunk x = no_chunk) then DefaultChunkParams else ex_Chunk x
               | None => DefaultChunkParams
               end in
  normalized ← NormalizeKDFConfig kdf true;
  Ok (mkCreateOptions chunk normalized).

(** internal/setup/plan.go:231-248 [validateRemoteName]; no byte of a rune outside ASCII
    is one of these. *)
Definition validateRemoteName (name : string) : result unit :=
  let name := trim_space name in
  if String.eqb name "" then Err (EWrap "" ErrRemoteNameInvalid)
  else if forallb (fun c => alnum c || one_of "_-." c) (list_ascii_of_string name) then Ok tt
  else Err (EWrap "" ErrRemoteNameInvalid).
(** internal/setup/plan.go:186-194 [validateProfileName] *)
Definition validateProfileName (name : string) : result unit :=
  if String.eqb (trim_space name) "" then Err (ENew "profile name must not be empty")
  else if has_separator name then Err (ENew "profile name must not contain path separators")
  else Ok tt.
(** internal/setup/plan.go:201-203 [sameVaultPath] *)
Definition sameVaultPath (a b : string) : bool := String.eqb (path_clean a) (path_clean b).

Definition expert_check `{GoUnicode} (x : ExpertOptions) : result unit :=
  normalized ← NormalizeKDFConfig (ex_KDF x) true;
  match ValidateKDFStrength normalized with
  | Some e => Err (EWrap (err_text e) ErrKDFBelowFloor)
  | None =>
      if bool_decide (ex_Chunk x = no_chunk) then Ok tt
      else match Chunker.Validate (ex_Chunk x) with Some e => Err e | None => Ok tt end
  end.

Section plan.
Context `{GoUnicode} `{Env} `{Platform} `{Host} `{JSON ProfileStore}.

(** internal/setup/execute.go:325-341 [dirNonEmpty] *)
Definition dirNonEmpty (path : string) : M bool :=
  f ← try (os_Stat (dir_segs path));
  match f with
  | Err e => if not_exist e then mret false else fail e
  | Ok _ =>
      names ← try (os_ReadEntries (dir_segs path));
      mret (match names with Ok l => negb (bool_decide (l = [])) | Err _ => false end)
  end.
(** internal/setup/plan.go:210-229 [vaultDirState] *)
Definition vaultDirState (vaultDir : string) : M unit :=
  r ← try (ResolveMetaDir vaultDir);
  match r with
  | Ok (_, true) => fail (EWrap vaultDir ErrVaultDirNotEmpty)
  | Err e => if errors_is "ErrAmbiguousMetadataDir" e then fail (EWrap vaultDir ErrVaultDirNotEmpty) else fail e
  | Ok (_, false) =>
      nonEmpty ← dirNonEmpty vaultDir;
      if nonEmpty : bool then fail (EWrap vaultDir ErrVaultDirLeftovers) else mret tt
  end.
(** internal/setup/plan.go:22-28 [profileLookup] *)
Definition profileLookup (name : string) : M (option string) := e ← Profile.Resolve name; mret (en_VaultPath <$> e).

(** internal/setup/plan.go:133-181 [Plan.Validate] *)
Definition Plan_Validate (p : Plan) : M unit :=
  if String.eqb (trim_space (pl_VaultDir p)) "" then fail (ENew "vault directory is required")
  else
    _ ← vaultDirState (path_clean (pl_VaultDir p));
    _ ← lift (match pl_Expert p with Some x => expert_check x | None => Ok tt end);
    _ ← lift (match pl_Cloud p with RcloneRemote name _ => validateRemoteName name | _ => Ok tt end);
    let name := ResolvedProfileName p in
    _ ← lift (validateProfileName name);
    found ← profileLookup name;
    match found with
    | Some existing => if sameVaultPath existing (pl_VaultDir p) then mret tt else fail (EWrap existing ErrProfileNameInUse)
    | None => mret tt
    end.
End plan.

(** ** The steps *)

(** internal/setup/execute.go:27-34 [StepCreate] *)
Inductive Step : Type := StepCreate | StepKeychain | StepProfile | StepRcloneEnsure | StepRemoteAdd | StepRemoteTest.
#[global] Instance Step_eq_dec : EqDecision Step.
Proof. solve_decision. Defined.
(** internal/setup/execute.go:43-69 [Deps] *)
Record Deps : Type := mkDeps {
  CreateVault : string → string → CreateOptions → M unit;
  KeychainSet : string → string → M unit;
  ProfileLookup : string → M (option string);
  ProfileAdd : string → string → M unit;
  RcloneEnsure : M unit;
  RemoteAdd : string → string → string → M unit;
  RemoteTest : string → M unit }.
(** internal/setup/execute.go:75-99 [Result]; no failed step is the empty string *)
Record SetupResult : Type := mkSetupResult {
  su_VaultID : string; su_VaultDir : string; su_ProfileName : string; su_KeychainSaved : bool; su_KeychainNote : string;
  su_KeychainErrDetail : string; su_CloudNote : string; su_PreflightNote : string; su_CaveatNote : string; su_FailedStep : option Step }.

Definition set_VaultID (r : SetupResult) (id : string) : SetupResult :=
  mkSetupResult id (su_VaultDir r) (su_ProfileName r) (su_KeychainSaved r) (su_KeychainNote r) (su_KeychainErrDetail r) (su_CloudNote r)
    (su_PreflightNote r) (su_CaveatNote r) (su_FailedStep r).
Definition set_Keychain (r : SetupResult) (saved : bool) (note detail : string) : SetupResult :=
  mkSetupResult (su_VaultID r) (su_VaultDir r) (su_ProfileName r) saved note detail (su_CloudNote r)
    (su_PreflightNote r) (su_CaveatNote r) (su_FailedStep r).
Definition set_CloudNote (r : SetupResult) (note : string) : SetupResult :=
  mkSetupResult (su_VaultID r) (su_VaultDir r) (su_ProfileName r) (su_KeychainSaved r) (su_KeychainNote r) (su_KeychainErrDetail r) note
    (su_PreflightNote r) (su_CaveatNote r) (su_FailedStep r).
Definition set_Preflight (r : SetupResult) (note : string) : SetupResult :=
  mkSetupResult (su_VaultID r) (su_VaultDir r) (su_ProfileName r) (su_KeychainSaved r) (su_KeychainNote r) (su_KeychainErrDetail r)
    (su_CloudNote r) note (su_CaveatNote r) (su_FailedStep r).
Definition set_Caveat (r : SetupResult) (note : string) : SetupResult :=
  mkSetupResult (su_VaultID r) (su_VaultDir r) (su_ProfileName r) (su_KeychainSaved r) (su_KeychainNote r) (su_KeychainErrDetail r)
    (su_CloudNote r) (su_PreflightNote r) note (su_FailedStep r).
Definition set_FailedStep (r : SetupResult) (s : Step) : SetupResult :=
  mkSetupResult (su_VaultID r) (su_VaultDir r) (su_ProfileName r) (su_KeychainSaved r) (su_KeychainNote r) (su_KeychainErrDetail r)
    (su_CloudNote r) (su_PreflightNote r) (su_CaveatNote r) (Some s).

(** internal/setup/execute.go:351-371 [shellQuote] *)
Definition shellQuote (s : string) : string :=
  if String.eqb s "" then "''"
  else if forallb (fun c => alnum c || one_of "_-./@%+:," c) (list_ascii_of_string s) then s
  else "'" +:+ ReplaceAll s "'" "'\''" +:+ "'".

(** [os.MkdirTemp]: the name of an empty directory that was not there, [pre] and a
    number; which number is taken does not matter. *)
Definition os_MkdirTemp `{Env} (dir : fpath) (pre : string) : M string := query (fun fs =>
  match List.find (fun k => bool_decide (pre +:+ itoa (Z.of_nat k) ∉ names_in fs dir)) (seq 0 10000) with
  | Some k => Ok (pre +:+ itoa (Z.of_nat k))
  | None => Err (ESentinel "EEXIST")
  end).
(** [os.Remove] of what is a directory with something in it. *)
Definition os_RemoveDir `{Env} (p : fpath) : M unit := query (fun fs =>
  if is_dir fs p then Err (ESentinel "ENOTEMPTY") else Ok tt).

Section execute.
Context `{GoUnicode} `{Env} `{Platform} `{Host} `{JSON ProfileStore} `{JSON VaultConfig} `{JSON LegacyID} (deps : Deps).

(** internal/setup/execute.go:188-194 [Execute]: is the profile name taken by another
    vault? *)
Definition taken (name vaultDir : string) : M (option string) :=
  found ← ProfileLookup deps name;
  mret (match found with Some existing => if String.eqb (path_clean existing) vaultDir then None else Some existing | None => None end).

(** internal/setup/execute.go:208-237 [Execute]: the vault is built beside its place and
    then renamed to it *)
Definition build (vaultDir password : string) (opts : CreateOptions) : M unit :=
  let parent := path_dir vaultDir in
  _ ← os_MakeDirs (dir_segs parent);
  name ← os_MkdirTemp (dir_segs parent) (str_concat ["."; path_base vaultDir; ".setup-"]);
  let tmp := path_join [parent; name] in
  let abandon (e : err) : M unit := _ ← try (os_RemoveAll (dir_segs tmp)); fail e in
  c ← try (CreateVault deps tmp password opts);
  match c with
  | Err e => abandon e
  | Ok _ =>
      d ← try (os_IsDir (dir_segs vaultDir));
      r ← (match d with Ok true => try (os_RemoveDir (dir_segs vaultDir)) | _ => mret (Ok tt) end);
      match r with
      | Err e => abandon e
      | Ok _ =>
          m ← try (os_RenameTree (dir_segs tmp) (dir_segs vaultDir));
          match m with Err e => abandon e | Ok _ => mret tt end
      end
  end.

Definition stop (step : Step) (r : SetupResult) (e : err) : M (SetupResult * option err) := mret (set_FailedStep r step, Some e).

(** internal/setup/execute.go:286-318 [Execute]: the cloud step *)
Definition cloud_step (cloud : CloudChoice) (vaultDir : string) (res : SetupResult) : M (SetupResult * option err) :=
  match cloud with
  | SyncedFolder p =>
      let res := set_CloudNote res (str_concat ["placed inside "; vaultDir; " — check that your sync client shows it as uploaded. Nothing else is needed; any sync client that watches this folder moves the encrypted vault."]) in
      mret (if String.eqb (Caveat p) "" then res else set_Caveat res (Caveat p), None)
  | LocalOnly => mret (set_CloudNote res "local / external-drive only — no cloud sync was configured.", None)
  | RcloneRemote name remotePath =>
      r ← try (RcloneEnsure deps);
      match r with
      | Err e => stop StepRcloneEnsure (set_CloudNote res (str_concat
          ["the vault and profile were created, but the rclone runtime is not ready: "; err_text e;
           ". Run `seavault rclone install` to install it (offline: `seavault rclone install --offline-archive <zip>` or `--from-binary <path>`), then `seavault remote test "; name; "`."])) e
      | Ok _ =>
          r ← try (RemoteAdd deps name vaultDir remotePath);
          match r with
          | Err e => stop StepRemoteAdd (set_CloudNote res (str_concat
              ["the vault and profile were created, but the remote "; quoted name; " could not be registered: "; err_text e; "."])) e
          | Ok _ =>
              r ← try (RemoteTest deps name);
              match r with
              | Err e => stop StepRemoteTest (set_CloudNote res (str_concat
                  ["the vault, profile and remote were created, but the remote did not verify: "; err_text e; ". Fix it and run `seavault remote test "; name; "`."])) e
              | Ok _ => mret (set_CloudNote res (str_concat ["remote "; quoted name; " verified — the vault will sync through it."]), None)
              end
          end
      end
  end.

(** internal/setup/execute.go:246-284 [Execute]: the profile and the key store, once the
    vault is there *)
Definition register (p : Plan) (password vaultDir name : string) (res : SetupResult) : M (SetupResult * option err) :=
  t ← try (taken name vaultDir);
  match t with
  | Err e => stop StepProfile res e
  | Ok (Some existing) =>
      stop StepProfile (set_CloudNote res (str_concat
        ["a vault was created at "; vaultDir; " but its profile name "; quoted name; " is now taken by "; existing;
         "; open it with a different --profile name (nothing was removed)."])) (EWrap existing ErrProfileNameInUse)
  | Ok None =>
      a ← try (ProfileAdd deps name vaultDir);
      match a with
      | Err e => stop StepProfile res e
      | Ok _ =>
          res ← (if pl_SaveKeychain p then
                   k ← try (KeychainSet deps (su_VaultID res) password);
                   mret (match k with
                         | Err e => set_Keychain res false (str_concat
                             ["could not save the password to the OS keychain (it may be locked, unavailable, or not configured). The vault still opens with the password you typed or via SEAVAULT_PASSWORD; store it later with `seavault keychain store ";
                              shellQuote name; "`."]) (err_text e)
                         | Ok _ => set_Keychain res true (su_KeychainNote res) (su_KeychainErrDetail res)
                         end)
                 else mret res);
          cloud_step (pl_Cloud p) vaultDir (set_Preflight res (SyncClientPreflightNote vaultDir))
      end
  end.

(** internal/setup/execute.go:167-321 [Execute]; the result stands beside the error. *)
Definition Execute (p : Plan) (password : string) : M (SetupResult * option err) :=
  let zero := mkSetupResult "" "" "" false "" "" "" "" "" None in
  v ← try (Plan_Validate p);
  match v with
  | Err e => mret (zero, Some e)
  | Ok _ =>
      if String.eqb password "" then mret (zero, Some (ENew "password must not be empty"))
      else
        let vaultDir := path_clean (pl_VaultDir p) in
        let name := ResolvedProfileName p in
        let res := mkSetupResult "" vaultDir name false "" "" "" "" "" None in
        t ← try (taken name vaultDir);
        match t with
        | Err e => stop StepProfile res e
        | Ok (Some existing) => stop StepProfile res (EWrap existing ErrProfileNameInUse)
        | Ok None =>
            d ← try (_ ← vaultDirState vaultDir; lift (createOptions p));
            match d with
            | Err e => mret (res, Some e)
            | Ok opts =>
                b ← try (_ ← build vaultDir password opts; ReadConfig vaultDir);
                match b with
                | Err e => stop StepCreate res e
                | Ok cfg => register p password vaultDir name (set_VaultID res (VaultID cfg))
                end
            end
        end
  end.
End execute.

(** ** [DefaultDeps] *)

Section defaults.
Context `{GoUnicode} `{AEAD} `{Argon2} `{Platform} `{Host} `{Env} `{JSON ProfileStore} `{JSON RemoteStore}.
Context `{JSON ManifestRecord} `{JSON Index} `{JSON LegacyID} `{JSON freshnessAnchor} `{JSON VaultConfig} `{!CompactJSON VaultConfig}.
Context `{JSON deviceIDStore} `{JSON readerInventory}.

(** internal/setup/execute.go:105-129 [DefaultDeps]; the key store of the system, the rclone
    runtime and the test of a remote are arguments. *)
Definition DefaultDeps (keychainSet : string → string → M unit) (rcloneEnsure : M unit) (remoteTest : string → M unit) : Deps := {|
  CreateVault := CreateWithOptions;
  KeychainSet := keychainSet;
  ProfileLookup := profileLookup;
  ProfileAdd := fun name vaultDir => _ ← Profile.Add_ name vaultDir; mret tt;
  RcloneEnsure := rcloneEnsure;
  RemoteAdd := fun name vaultDir remotePath => p ← Remotes.DefaultProfile name vaultDir remotePath "rclone"; _ ← Remotes.Add_ p; mret tt;
  RemoteTest := remoteTest
|}.
End defaults.
