(* ===== verification/SetupFacts.v ===== *)
(** A setup leaves a whole vault or none, and its printed remedies survive a shell. *)
From S2P Require Export Setup TreesFacts VaultMoveProps.
Local Open Scope Z_scope.

(** ** The vault built beside its place *)

Section trees.
Context `{Env}.
(** A directory renamed: all of it is at the new place, nothing was there before. *)
Lemma RenameTree_ok old new s s' : old ≠ [] → below old new = false → os_RenameTree old new s = (s', Ok tt) →
  (∀ r, st_files s' !! (new ++ r) = st_files s !! (old ++ r)) ∧ (∀ r, r ≠ [] → st_files s !! (new ++ r) = None) ∧
  (is_dir (st_files s) old = true → st_files s !! new = None).
Proof.
  intros Ho Hon. unfold os_RenameTree, syscall. destruct (env_fault _); [done|]. set (fs := st_files s).
  destruct (negb (is_dir fs old) && _); [done|]. destruct (is_dir fs new) eqn:En; [done|].
  destruct (bool_decide (is_Some (fs !! new)) && is_dir fs old) eqn:Ef; [done|]. intros [= <-]. cbn [st_files tick1 set_files].
  assert (Hnew : ∀ r, r ≠ [] → fs !! (new ++ r) = None).
  { intros r Hr. apply eq_None_not_Some. intros Hs. apply not_true_iff_false in En. apply En, is_dir_spec. eauto. }
  set (fs1 := if bool_decide (is_Some (fs !! new)) then delete new fs else fs).
  assert (Hself : new ≠ old) by (intros ->; rewrite <- (app_nil_r old) in Hon at 2; by rewrite below_app in Hon).
  assert (Hold : ∀ r, new ≠ old ++ r) by (intros r ->; by rewrite below_app in Hon).
  assert (Hfree : ∀ q, below new q = true → fs1 !! q = None).
  { intros q [r ->]%below_iff. unfold fs1. destruct r as [|x r].
    - rewrite app_nil_r. case_bool_decide as Hb; [apply lookup_delete_eq|by apply eq_None_not_Some].
    - case_bool_decide; [|by apply Hnew]. rewrite lookup_delete_ne; [by apply Hnew|].
      intros E. rewrite <- (app_nil_r new) in E at 1. by apply app_inv_head in E. }
  split; [|split; [done|]].
  - intros r. rewrite (move_tree_new old new fs1 Hfree). unfold fs1. case_bool_decide; [|done]. by rewrite lookup_delete_ne.
  - intros Hd. rewrite Hd, andb_true_r in Ef. apply bool_decide_eq_false in Ef. by apply eq_None_not_Some.
Qed.
End trees.

Section setup.
Context `{GoUnicode} `{Env} `{Platform} `{Host} `{JSON ProfileStore} `{JSON VaultConfig} `{JSON LegacyID} (deps : Deps).
Context (Dg : list string) (name : string).
Hypothesis D_plain : Forall plain_seg Dg.
Hypothesis D_some : Dg ≠ [].
Hypothesis n_plain : plain_seg name.
Abbreviation place := (at_root Dg [name]).
Abbreviation V := ("" :: Dg ++ [name]).
Abbreviation same_vault := (agrees (fun q => below V q = true)).

(** What the operations promise: a vault is created below its directory only, and
    nothing else touches the place of the vault. *)
Record deps_ok : Prop := {
  do_create dir pw o fs0 : preserves (agrees (fun q => below (dir_segs dir) q = false) fs0) (CreateVault deps dir pw o);
  do_keychain a b fs0 : preserves (same_vault fs0) (KeychainSet deps a b);
  do_lookup a fs0 : preserves (same_vault fs0) (ProfileLookup deps a);
  do_add a b fs0 : preserves (same_vault fs0) (ProfileAdd deps a b);
  do_rclone fs0 : preserves (same_vault fs0) (RcloneEnsure deps);
  do_remote a b c fs0 : preserves (same_vault fs0) (RemoteAdd deps a b c);
  do_test a fs0 : preserves (same_vault fs0) (RemoteTest deps a) }.
Hypothesis ok : deps_ok.

Definition temp_name (k : nat) : string := str_concat ["."; name; ".setup-"] +:+ itoa (Z.of_nat k).
Definition temp_path (k : nat) : string := path_join [path_dir place; temp_name k].
Lemma temp_plain k : plain_seg (temp_name k).
Proof.
  unfold temp_name. change (str_concat [?a; ?b; ?c]) with (a +:+ (b +:+ c)). destruct n_plain as (_ & _ & _ & Hn).
  split_and!; [..|by rewrite !no_slash_app, Hn, itoa_no_slash];
    intros E; apply (f_equal String.length) in E; rewrite !str_length_app in E; cbn in E; lia.
Qed.
Lemma place_segs : dir_segs place = V.
Proof.
  assert (E : place = at_root (Dg ++ [name]) []) by (unfold at_root; by rewrite app_nil_r). rewrite E.
  apply dir_segs_at; [|by destruct Dg]. apply Forall_app. split; [done|by constructor].
Qed.
Lemma temp_segs k : dir_segs (temp_path k) = "" :: Dg ++ [temp_name k].
Proof.
  unfold temp_path. rewrite path_dir_at by done. assert (Hm := temp_plain k).
  rewrite (join_at Dg D_plain D_some [temp_name k]) by (done || by constructor). cbn [app].
  assert (E : at_root Dg [temp_name k] = at_root (Dg ++ [temp_name k]) []) by (unfold at_root; by rewrite app_nil_r). rewrite E.
  apply dir_segs_at; [|by destruct Dg]. apply Forall_app. split; [done|by constructor].
Qed.
Lemma temp_apart k : below (dir_segs (temp_path k)) V = false ∧ below V (dir_segs (temp_path k)) = false.
Proof.
  rewrite temp_segs. assert (Hne : temp_name k ≠ name).
  { intros E. apply (f_equal String.length) in E. unfold temp_name in E. change (str_concat [?a; ?b; ?c]) with (a +:+ (b +:+ c)) in E.
    rewrite !str_length_app in E. cbn in E. lia. }
  split; apply not_true_is_false; intros [r E]%below_iff; injection E as E; rewrite <- app_assoc in E; apply app_inv_head in E; by injection E.
Qed.

(** What was built in the temporary directory is at its place; nothing was there. *)
Definition placed (pw : string) (opts : CreateOptions) (fs0 fs : files) : Prop :=
  ∃ k s1 s2, CreateVault deps (temp_path k) pw opts s1 = (s2, Ok tt) ∧
    (∀ r, fs !! (V ++ r) = st_files s2 !! (dir_segs (temp_path k) ++ r)) ∧ (∀ r, r ≠ [] → fs0 !! (V ++ r) = None) ∧
    (is_dir (st_files s2) (dir_segs (temp_path k)) = true → fs0 !! V = None).

Lemma abandon_run k (e : err) fs0 s : same_vault fs0 (st_files s) →
  ∃ s', ((_ ← try (os_RemoveAll (dir_segs (temp_path k))); fail e) : M unit) s = (s', Err e) ∧ same_vault fs0 (st_files s').
Proof.
  intros Hs. rewrite bind_run, try_run. eexists. split; [reflexivity|].
  apply (RemoveAll_agrees (fun q => below V q = true) fs0); [|done]. intros q [r ->]%below_iff. apply apart; apply temp_apart.
Qed.

Lemma build_run pw opts s : ∃ s' r, build deps place pw opts s = (s', r) ∧
  match r with Ok _ => placed pw opts (st_files s) (st_files s') | Err _ => same_vault (st_files s) (st_files s') end.
Proof.
  unfold build, os_MakeDirs, os_MkdirTemp. rewrite bind_run.
  match goal with |- context [query ?a s] => destruct (query_run a s) as (r & -> & _) end.
  destruct r as [u|e]; [|eexists _, _; split; [reflexivity|]; apply agrees_refl]. rewrite bind_run.
  match goal with |- context [query ?a ?t] => destruct (query_run a t) as (r & -> & Hr) end.
  destruct r as [nm|e]; [|eexists _, _; split; [reflexivity|]; apply agrees_refl].
  assert (exists k, nm = temp_name k) as [k ->].
  { destruct Hr as [Hr|(? & _ & ?)]; [|done]. rewrite path_base_at in Hr by done. destruct (List.find _ _) as [k|]; [|done].
    injection Hr as ->. by exists k. }
  clear Hr. fold (temp_path k). cbv zeta. set (s0 := tick1 (tick1 s)). rewrite bind_run, try_run.
  pose proof (do_create ok (temp_path k) pw opts (st_files s) s0 (agrees_refl _ _)) as Hc.
  destruct (CreateVault deps (temp_path k) pw opts s0) as [s1 c] eqn:Ec. cbn [fst snd] in *.
  assert (Hs1 : same_vault (st_files s) (st_files s1)).
  { intros q [r ->]%below_iff. apply Hc. apply apart; apply temp_apart. }
  destruct c as [[]|e]; [|destruct (abandon_run k e (st_files s) s1 Hs1) as (s' & -> & Hs'); by exists s', (Err e)].
  unfold os_IsDir, os_RemoveDir. rewrite bind_run, try_run.
  match goal with |- context [query ?a s1] => destruct (query_run a s1) as (d & -> & _) end. cbn [fst snd]. rewrite bind_run.
  assert (Hq : ∃ t q, (match d with Ok true => try (query (fun fs => if is_dir fs (dir_segs place) then Err (ESentinel "ENOTEMPTY") else Ok tt))
      | _ => mret (Ok tt) end) (tick1 s1) = (t, Ok q) ∧ st_files t = st_files s1).
  { destruct d as [[]|]; [|by eexists _, _|by eexists _, _]. rewrite try_run.
    match goal with |- context [query ?a ?t] => destruct (query_run a t) as (q & -> & _) end. by eexists _, _. }
  destruct Hq as (t & q & -> & Ht). rewrite <- Ht in Hs1. destruct q as [[]|e].
  - rewrite bind_run, try_run. destruct (os_RenameTree _ _ t) as [s2 m] eqn:Em. cbn [fst snd].
    destruct m as [[]|e].
    + eexists _, _. split; [reflexivity|]. rewrite place_segs in Em.
      apply RenameTree_ok in Em as (G1 & G2 & G3); [|by rewrite temp_segs|apply temp_apart].
      exists k, s0, s1. rewrite Ht in *. split; [done|]. split; [done|]. split.
      * intros r Hr. rewrite <- Hs1 by apply below_app. by apply G2.
      * intros Hd. rewrite <- (Hs1 V); [by apply G3|]. rewrite <- (app_nil_r V) at 2. apply below_app.
    + assert (Hs2 : st_files s2 = st_files t).
      { revert Em. unfold os_RenameTree, syscall. destruct (env_fault _); [by intros [= <- _]|].
        repeat match goal with |- context [if ?b then _ else _] => destruct b end; by intros [= <- ?]. }
      rewrite <- Hs2 in Hs1. destruct (abandon_run k e (st_files s) s2 Hs1) as (s' & -> & Hs'). by exists s', (Err e).
  - destruct (abandon_run k e (st_files s) t Hs1) as (s' & -> & Hs'). by exists s', (Err e).
Qed.

(** ** All of a setup *)

Lemma placed_before pw opts fs0 fs1 fs : same_vault fs0 fs1 → placed pw opts fs1 fs → placed pw opts fs0 fs.
Proof.
  intros Hs (k & s1 & s2 & Hc & Hr & Hn & Hd). exists k, s1, s2. split; [done|]. split; [done|]. split.
  - intros r Hne. rewrite <- Hs by apply below_app. by apply Hn.
  - intros Hdir. rewrite <- (Hs V); [by apply Hd|]. rewrite <- (app_nil_r V) at 2. apply below_app.
Qed.
Lemma keeps_placed {A} pw opts fs0 (m : M A) : (∀ fs1, preserves (same_vault fs1) m) → preserves (placed pw opts fs0) m.
Proof.
  intros Hm s (k & s1 & s2 & Hc & Hr & Hn & Hd). exists k, s1, s2. split; [done|]. split; [|done].
  intros r. rewrite <- Hr. apply (Hm (st_files s) s (agrees_refl _ _)). apply below_app.
Qed.

(** A step that may fail, tried: what held of the place still holds. *)
Abbreviation never := (fun _ : files => False).
Lemma tried {A B} (I : files → Prop) (m : M A) (f : result A → M B) Q : preserves I m → (∀ r, triple I (f r) Q never) →
  triple I (try m ≫= f) Q never.
Proof. intros Hm Hf. apply (triple_bind _ _ (fun _ => I)); [|done]. intros s Hs. rewrite try_run. by apply Hm. Qed.

Definition answered (I : files → Prop) (m : M (SetupResult * option err)) : Prop := triple I m (fun _ => I) never.
Lemma answered_ret I x : answered I (mret x).
Proof. by apply triple_ret. Qed.

Lemma cloud_step_answers I cloud vd res : (∀ A (m : M A), (∀ fs1, preserves (same_vault fs1) m) → preserves I m) → answered I (cloud_step deps cloud vd res).
Proof.
  intros HI. destruct cloud as [q|n rp|]; cbn [cloud_step]; [apply answered_ret| |apply answered_ret].
  apply tried; [apply HI, (do_rclone ok)|]. intros [u|e]; [|apply answered_ret].
  apply tried; [apply HI, (do_remote ok)|]. intros [u'|e]; [|apply answered_ret].
  apply tried; [apply HI, (do_test ok)|]. intros [u''|e]; apply answered_ret.
Qed.
Lemma taken_keeps I n vd : (∀ A (m : M A), (∀ fs1, preserves (same_vault fs1) m) → preserves I m) → preserves I (taken deps n vd).
Proof.
  intros HI. unfold taken. apply preserves_bind; [apply HI, (do_lookup ok)|intros r; apply preserves_ret].
Qed.
Lemma register_answers I p pw vd n res : (∀ A (m : M A), (∀ fs1, preserves (same_vault fs1) m) → preserves I m) → answered I (register deps p pw vd n res).
Proof.
  intros HI. unfold register. apply tried; [by apply taken_keeps|]. intros [[ex|]|e]; [apply answered_ret| |apply answered_ret].
  apply tried; [apply HI, (do_add ok)|]. intros [u|e]; [|apply answered_ret].
  apply (triple_bind _ _ (fun _ => I)); [|intros r; by apply cloud_step_answers].
  destruct (pl_SaveKeychain p); [|by apply triple_ret]. apply tried; [apply HI, (do_keychain ok)|]. intros [u'|e]; by apply triple_ret.
Qed.

Lemma vaultDirState_keeps (I : files → Prop) vd : preserves I (vaultDirState vd).
Proof. unfold vaultDirState, dirNonEmpty, ResolveMetaDir, probe_name, os_Stat, os_ReadEntries. keep. Qed.
Lemma read_settings_keeps {T} `{JSON T} (I : files → Prop) q : preserves I (read_settings (A:=T) q).
Proof. unfold read_settings, os_ReadFile. keep. Qed.

(** What a setup comes to: nothing at the place of the vault and an error, or the whole
    of what was built. *)
Definition nothing_made (fs0 : files) (x : SetupResult * option err) (fs : files) : Prop :=
  same_vault fs0 fs ∧ x.2 ≠ None ∧ su_VaultID x.1 = "" ∧ su_KeychainSaved x.1 = false.
Definition whole_made (p : Plan) (pw : string) (fs0 fs : files) : Prop := ∃ opts, createOptions p = Ok opts ∧ placed pw opts fs0 fs.

Lemma Plan_Validate_keeps (I : files → Prop) p : preserves I (Plan_Validate p).
Proof.
  unfold Plan_Validate. destruct (String.eqb _ ""); [apply preserves_fail|].
  apply preserves_bind; [apply vaultDirState_keeps|intros _]. do 2 (apply preserves_bind; [apply preserves_lift|intros _]). cbv zeta.
  apply preserves_bind; [apply preserves_lift|intros _]. apply preserves_bind; [|intros [x|]; [|apply preserves_ret]; destruct (sameVaultPath _ _); [apply preserves_ret|apply preserves_fail]].
  unfold profileLookup, Resolve, Load_. do 2 (apply preserves_bind; [|intros; apply preserves_ret]).
  apply preserves_bind; [apply preserves_lift|intros q]. apply preserves_bind; [apply read_settings_keeps|intros; apply preserves_ret].
Qed.

End setup.

(** ** Words of a shell *)

(** How a POSIX shell reads a line: blanks part words, single quotes and backslashes keep
    what they hold, and any other character that means something to it is refused. *)
Inductive sh_mode : Type := Unquoted | Quoted | Escaped.
Definition sh_plain (c : ascii) : bool := alnum c || one_of "_-./@%+:," c.
Fixpoint sh_words (m : sh_mode) (word : option string) (s : string) : option (list string) :=
  let add c := Some (default "" word +:+ String c "") in
  match s with
  | EmptyString => match m with Unquoted => Some (match word with Some w => [w] | None => [] end) | _ => None end
  | String c t =>
      match m with
      | Quoted => if Ascii.eqb c "'" then sh_words Unquoted word t else sh_words Quoted (add c) t
      | Escaped => sh_words Unquoted (add c) t
      | Unquoted =>
          if Ascii.eqb c "'" then sh_words Quoted (Some (default "" word)) t
          else if Ascii.eqb c "\" then sh_words Escaped (Some (default "" word)) t
          else if Ascii.eqb c " " then l ← sh_words Unquoted None t; Some (match word with Some w => w :: l | None => l end)
          else if sh_plain c then sh_words Unquoted (add c) t else None
      end
  end.
Example sh_ex : sh_words Unquoted None "open 'My Vault' it\'s" = Some ["open"; "My Vault"; "it's"].
Proof. reflexivity. Qed.

Fixpoint requoted (s : string) : string :=
  match s with
  | EmptyString => ""
  | String c t => if Ascii.eqb c "'" then "'\''" +:+ requoted t else String c (requoted t)
  end.
Lemma requoted_is f s : (String.length s ≤ f)%nat → replace_from f "'" "'\''" s = requoted s.
Proof.
  revert s. induction f as [|f IH]; intros [|c t] Hl; cbn [String.length] in Hl; try done; [lia|]. cbn [replace_from requoted].
  assert (Hc : has_prefix (String c t) "'" = Ascii.eqb c "'").
  { unfold has_prefix. cbn [String.prefix]. destruct (ascii_dec "'" c) as [<-|Hne]; [by destruct t|]. symmetry. apply Ascii.eqb_neq. congruence. }
  rewrite Hc. destruct (Ascii.eqb c "'"); [|by rewrite IH by lia]. change (str_drop (String.length "'") (String c t)) with t. by rewrite IH by lia.
Qed.
Lemma snoc_app a c t : (a +:+ String c "") +:+ t = a +:+ String c t.
Proof. by rewrite str_app_assoc. Qed.
Lemma words_requoted s : ∀ w, sh_words Quoted (Some w) (requoted s +:+ "'") = Some [w +:+ s].
Proof.
  induction s as [|c t IH]; intros w; cbn [requoted]; [cbn; by rewrite str_app_nil|].
  destruct (Ascii.eqb_spec c "'") as [->|Hne].
  - rewrite str_app_assoc. cbn. rewrite IH. by rewrite snoc_app.
  - change (String c ?a +:+ ?b) with (String c (a +:+ b)). cbn [sh_words]. apply Ascii.eqb_neq in Hne. rewrite Hne. cbn [default].
    rewrite IH. by rewrite snoc_app.
Qed.
Lemma plain_not c : sh_plain c = true → Ascii.eqb c "'" = false ∧ Ascii.eqb c "\" = false ∧ Ascii.eqb c " " = false.
Proof. intros Hc. split_and!; apply Ascii.eqb_neq; intros ->; discriminate Hc. Qed.
Lemma words_plain s : ∀ w, forallb sh_plain (list_ascii_of_string s) = true → sh_words Unquoted (Some w) s = Some [w +:+ s].
Proof.
  induction s as [|c t IH]; intros w; cbn [list_ascii_of_string forallb]; [by rewrite str_app_nil|].
  intros [Hc Ht]%andb_true_iff. destruct (plain_not c Hc) as (E1 & E2 & E3). cbn [sh_words]. rewrite E1, E2, E3, Hc. cbn [default].
  rewrite IH by done. by rewrite snoc_app.
Qed.

(** A name printed in a remedy by [shellQuote] is read by a shell as one word, and
    that word is the name, whatever characters it has. *)
Theorem shellQuote_one_word s : sh_words Unquoted None (shellQuote s) = Some [s].
Proof.
  unfold shellQuote. destruct s as [|c t]; [done|]. change (String.eqb (String c t) "") with false. cbv iota.
  change (fun c => alnum c || one_of "_-./@%+:," c) with sh_plain. destruct (forallb _ _) eqn:E.
  - cbn [list_ascii_of_string forallb] in E. apply andb_true_iff in E as [Hc Ht]. destruct (plain_not c Hc) as (E1 & E2 & E3).
    cbn [sh_words]. rewrite E1, E2, E3, Hc. cbn [default]. by rewrite words_plain.
  - unfold ReplaceAll. rewrite requoted_is by lia. change ("'" +:+ ?a) with (String "'" a). cbn [sh_words]. cbn [default].
    change (Ascii.eqb "'" "'") with true. cbv iota. apply words_requoted.
Qed.

(** ** Witness *)

#[local] Existing Instances demo_unicode demo_platform demo_host json_config json_legacy json_profiles demo_env.
Definition create_file (dir : string) (_ : string) (_ : CreateOptions) : M unit :=
  os_WriteFile (dir_segs dir ++ ["SeaVaultData"; "vault.json"]) (marshal demo_config).
Definition demo_deps : Deps := mkDeps create_file (fun _ _ => mret tt) (fun _ => mret None) (fun _ _ => mret tt) (mret tt)
  (fun _ _ _ => mret tt) (fun _ => mret tt).
Definition demo_plan : Plan := mkSetupPlan "/v/My Vault" "" true (SyncedFolder ProviderDropbox) None.
Definition empty_start : St := mkSt ∅ 0 None 0 None.
Lemma demo_deps_ok : deps_ok demo_deps ["v"] "My Vault".
Proof.
  constructor; intros; cbn; try (apply preserves_ret).
  apply WriteFile_agrees. intros Hb. by rewrite below_app in Hb.
Qed.

(** The vault is made and its profile and password kept. *)
Definition set_up : St * result (SetupResult * option err) := Execute demo_deps demo_plan "correct horse" empty_start.
#[local] Strategy -100 [set_up].
