(* ===== verification/ExportFacts.v ===== *)
(** Facts of the export: every record of a batch has a target of its own, inside
    the destination; a file is replaced in one step. *)
From S2P Require Export Export RootPaths GoPathFacts StoreFacts PathsFacts LoadFacts Fields.
Local Open Scope Z_scope.

(** ** Names without a slash *)

Lemma no_slash_flat_map f s : (∀ c, no_slash (f c) = true) → no_slash (str_flat_map f s) = true.
Proof. intros Hf. induction s as [|c s IH]; [done|]. cbn [str_flat_map]. by rewrite no_slash_app, Hf. Qed.
Lemma sanitize_runes_no_slash fuel : ∀ s, no_slash s = true → no_slash (sanitize_runes fuel s) = true.
Proof.
  induction fuel as [|f IH]; intros [|c s] Hs; try done. cbn [sanitize_runes].
  assert (Hs' : no_slash s = true) by apply (no_slash_drop 1 (String c s) Hs).
  destruct (_ || _); [by apply IH|]. destruct (rune_width (String c s)) as [n|]; rewrite no_slash_app.
  - rewrite no_slash_take by done. apply IH, no_slash_drop, Hs.
  - by apply IH.
Qed.
Lemma no_slash_trim p s : no_slash s = true → no_slash (trim_right p s) = true.
Proof.
  rewrite !no_slash_elem, trim_right_list. intros Hs Hin. apply Hs.
  destruct (drop_while_suffix p (rev (list_ascii_of_string s))) as [k Hk].
  apply list_elem_of_In, in_rev. apply list_elem_of_In in Hin. apply in_rev in Hin.
  rewrite Hk. apply list_elem_of_In, elem_of_app. right. by apply list_elem_of_In.
Qed.
Lemma sanitize_no_slash s : no_slash s = true → no_slash (sanitizePortableSegment s) = true.
Proof.
  intros Hs. unfold sanitizePortableSegment. set (r := trim_right _ _).
  assert (Hr : no_slash r = true) by apply no_slash_trim, sanitize_runes_no_slash, Hs.
  assert (Ho : no_slash (if String.eqb r "" then "_" else r) = true) by (by destruct (String.eqb r "")).
  destruct (isReservedStem _); [exact Ho|exact Ho].
Qed.

(** A portable name is one path segment. *)
Lemma portable_plain s : no_slash s = true → ValidatePortableName s = None → plain_seg s.
Proof.
  intros Hs Hv. split_and!; [by intros ->..|done].
Qed.
Lemma portable_segments_plain rel : Forall plain_seg (portable_segments rel).
Proof.
  apply Forall_fmap, Forall_forall. intros s Hs. cbn.
  assert (Hn : no_slash s = true) by (by apply (proj1 (Forall_forall _ _) (split_slash_no_slash rel))).
  destruct (ValidatePortableName s) eqn:E; [|by apply portable_plain].
  apply portable_plain; [by apply sanitize_no_slash|apply sanitize_valid].
Qed.
Lemma conflictSuffix_no_slash rec : no_slash (conflictSuffix rec) = true.
Proof.
  unfold conflictSuffix. rewrite !no_slash_app. cbn [no_slash]. unfold stamp_replace.
  rewrite no_slash_flat_map.
  2:{ intros c. repeat (destruct (ascii_dec _ _); [done|]). by cbn; destruct (ascii_dec c slash). }
  rewrite no_slash_take; [done|]. apply hex_no_slash.
Qed.

(** ** Targets *)

Section targets.
Context `{GoUnicode}.

Lemma target_key_suffix init base s : is_ascii s = true →
  target_key (init ++ [base +:+ s]) = target_key (init ++ [base]) +:+ lower_ascii s.
Proof.
  intros Hs. unfold target_key. rewrite <- to_lower_app_ascii by done. f_equal.
  destruct init as [|x init]; [done|]. rewrite !join_slash_cat by done.
  change (join_slash [base +:+ s]) with (base +:+ s). change (join_slash [base]) with base.
  change (String slash (base +:+ s)) with (String slash base +:+ s). by rewrite str_app_assoc.
Qed.
Lemma str_app_inj_l a b c : a +:+ b = a +:+ c → b = c.
Proof. induction a as [|x a IH]; [done|]. intros E. apply IH. by injection E. Qed.
Lemma numbered_key_inj init base n m : 0 ≤ n → 0 ≤ m →
  target_key (init ++ [base +:+ "." +:+ itoa n]) = target_key (init ++ [base +:+ "." +:+ itoa m]) → n = m.
Proof.
  intros Hn Hm. rewrite <- !str_app_assoc.
  rewrite (target_key_suffix _ _ (itoa n)), (target_key_suffix _ _ (itoa m)) by (apply digits_ascii, itoa_digits; done).
  rewrite !digits_lower by (apply itoa_digits; done). intros E%str_app_inj_l. by apply (inj pretty) in E.
Qed.

(** The numbering ends on a name that is free. *)
Lemma numbered_free_at used init base fuel : ∀ n (seen : gset string), 0 ≤ n →
  (∀ k, k ∈ seen → ∃ m, 0 ≤ m < n ∧ k = target_key (init ++ [base +:+ "." +:+ itoa m])) →
  (size used < fuel + size seen)%nat → seen ⊆ used →
  target_key (numbered fuel used init base n) ∉ used.
Proof.
  induction fuel as [|f IH]; intros n seen Hn Hseen Hf Hsub.
  { exfalso. pose proof (subseteq_size _ _ Hsub). lia. }
  cbn [numbered]. case_bool_decide as Hin; [|done]. set (k := target_key _) in Hin.
  apply (IH (n + 1) ({[k]} ∪ seen)); [lia| | |].
  - intros k' [->%elem_of_singleton|Hk]%elem_of_union; [exists n; split; [lia|done]|].
    destruct (Hseen k' Hk) as (m & Hm & ->). exists m. split; [lia|done].
  - assert (Hnew : k ∉ seen).
    { intros Hk. destruct (Hseen k Hk) as (m & Hm & E). apply numbered_key_inj in E; lia. }
    rewrite size_union by (intros x ->%elem_of_singleton; done). rewrite size_singleton. lia.
  - intros x [->%elem_of_singleton|Hx]%elem_of_union; [done|by apply Hsub].
Qed.
Lemma numbered_free used init base : target_key (numbered (S (size used)) used init base 2) ∉ used.
Proof.
  apply (numbered_free_at _ _ _ _ 2 ∅); [lia|by intros k Hk%not_elem_of_empty|rewrite size_empty; lia|by intros x Hx%not_elem_of_empty].
Qed.

(** ** The targets of a batch *)

Context (fs : gmap string FileRecord) (vp : string) (exactFile : bool).

(** The segments [export_target] chooses for [p]. *)
Definition chosen (used : gset string) (p : string) : list string :=
  let segs := portable_segments (exportRelativePath p vp exactFile) in
  if bool_decide (target_key segs ∈ used) then
    let base := List.last segs "" +:+ "." +:+ conflictSuffix (default zero_FileRecord (fs !! p)) in
    let segs := removelast segs ++ [base] in
    if bool_decide (target_key segs ∈ used) then numbered (S (size used)) used (removelast segs) base 2 else segs
  else segs.
Lemma export_target_chosen rels used p :
  export_target fs vp exactFile (rels, used) p = (<[p := join_slash (chosen used p)]> rels, {[target_key (chosen used p)]} ∪ used).
Proof. done. Qed.
Lemma chosen_free used p : target_key (chosen used p) ∉ used.
Proof.
  unfold chosen. case_bool_decide as E1; [|done]. case_bool_decide as E2; [|done]. apply numbered_free.
Qed.

(** Every target is remembered under its key, and no two share one. *)
Definition targets_ok (rels : gmap string string) (used : gset string) : Prop :=
  (∀ p r, rels !! p = Some r → to_lower r ∈ used) ∧
  (∀ p q r t, rels !! p = Some r → rels !! q = Some t → to_lower r = to_lower t → p = q).
Lemma targets_fold ps : ∀ rels used, NoDup ps → (∀ p, p ∈ ps → rels !! p = None) → targets_ok rels used →
  let r := fold_left (export_target fs vp exactFile) ps (rels, used) in
  targets_ok r.1 r.2 ∧ (∀ p, p ∈ ps ∨ is_Some (rels !! p) → is_Some (r.1 !! p)).
Proof.
  induction ps as [|p ps IH]; intros rels used Hnd Hnew Hok.
  { split; [done|]. by intros p [Hp%not_elem_of_nil|Hp]. }
  apply NoDup_cons in Hnd as [Hp Hnd]. cbn [fold_left]. rewrite export_target_chosen.
  set (segs := chosen used p). destruct Hok as [Hu Hd].
  assert (Hfree : target_key segs ∉ used) by apply chosen_free.
  destruct (IH (<[p := join_slash segs]> rels) ({[target_key segs]} ∪ used)) as [Hok' Hall]; [done| | |].
  - intros q Hq. rewrite lookup_insert_ne by congruence. apply Hnew. by right.
  - split.
    + intros q r Hq. destruct (decide (p = q)) as [->|Hne].
      * rewrite lookup_insert_eq in Hq. injection Hq as <-. apply elem_of_union_l, elem_of_singleton. done.
      * rewrite lookup_insert_ne in Hq by done. apply elem_of_union_r. by apply (Hu q).
    + intros q1 q2 r t H1 H2 E.
      destruct (decide (p = q1)) as [<-|N1]; destruct (decide (p = q2)) as [<-|N2]; [done| | |].
      * rewrite lookup_insert_eq in H1. rewrite lookup_insert_ne in H2 by done. injection H1 as <-.
        destruct Hfree. unfold target_key. rewrite E. by apply (Hu q2).
      * rewrite lookup_insert_eq in H2. rewrite lookup_insert_ne in H1 by done. injection H2 as <-.
        destruct Hfree. unfold target_key. rewrite <- E. by apply (Hu q1).
      * rewrite lookup_insert_ne in H1, H2 by done. by apply (Hd q1 q2 r t).
  - split; [done|]. intros q Hq. apply Hall. destruct (decide (p = q)) as [->|Hne]; [right; by rewrite lookup_insert_eq|].
    rewrite lookup_insert_ne by done. destruct Hq as [[->|Hq]%elem_of_cons|Hq]; [done|by left|by right].
Qed.

Lemma removelast_last (l : list string) : l ≠ [] → l = removelast l ++ [List.last l ""].
Proof. apply app_removelast_last. Qed.
Lemma Forall_removelast {A} (P : A → Prop) l : Forall P l → Forall P (removelast l).
Proof.
  induction 1 as [|x [|y l] Hx Hl IH]; [constructor|constructor|]. change (removelast (x :: y :: l)) with (x :: removelast (y :: l)).
  by constructor.
Qed.
(** A name of more than two characters without a slash. *)
Lemma long_plain s : (2 < String.length s)%nat → no_slash s = true → plain_seg s.
Proof. intros Hl Hs. split_and!; [intros ->; cbn in Hl; lia..|done]. Qed.
Lemma suffixed_plain x s : (2 < String.length s)%nat → no_slash s = true → no_slash x = true → plain_seg (x +:+ s).
Proof. intros Hl Hs Hx. apply long_plain; [rewrite str_length_app; lia|by rewrite no_slash_app, Hx]. Qed.
Lemma numbered_shape fuel : ∀ used init base n, 0 ≤ n → ∃ m, 0 ≤ m ∧ numbered fuel used init base n = init ++ [base +:+ "." +:+ itoa m].
Proof.
  induction fuel as [|f IH]; intros used init base n Hn; cbn [numbered]; [by exists n|].
  case_bool_decide; [apply IH; lia|by exists n].
Qed.
Lemma chosen_plain used p : chosen used p ≠ [] ∧ Forall plain_seg (chosen used p).
Proof.
  unfold chosen. set (segs := portable_segments _).
  assert (Hs : segs ≠ []) by (unfold segs, portable_segments; pose proof (split_slash_nonnil (exportRelativePath p vp exactFile)); by destruct (split_slash _)).
  assert (Hp : Forall plain_seg segs) by apply portable_segments_plain.
  case_bool_decide as E1; [|done]. set (rec := default _ _). set (base := _ +:+ "." +:+ conflictSuffix rec).
  assert (Hn : no_slash (List.last segs "") = true).
  { rewrite (removelast_last segs Hs) in Hp. apply Forall_app in Hp as [_ Hp]. apply Forall_cons in Hp as [Hp _]. apply Hp. }
  assert (Hc : no_slash ("." +:+ conflictSuffix rec) = true) by (rewrite no_slash_app, conflictSuffix_no_slash; done).
  assert (Hb : plain_seg base).
  { apply suffixed_plain; [|done|done]. unfold conflictSuffix. rewrite !str_length_app. cbn. lia. }
  assert (Hi := Forall_removelast _ _ Hp).
  case_bool_decide as E2; [|split; [by destruct (removelast segs)|apply Forall_app; split; [done|by constructor]]].
  rewrite removelast_app by done. cbn [removelast]. rewrite app_nil_r.
  destruct (numbered_shape (S (size used)) used (removelast segs) base 2) as (m & Hm & ->); [lia|].
  split; [by destruct (removelast segs)|]. apply Forall_app. split; [done|]. constructor; [|done].
  destruct Hb as (_&_&_&Hb). apply long_plain.
  - unfold base. rewrite !str_length_app. unfold conflictSuffix. rewrite !str_length_app. cbn. lia.
  - rewrite !no_slash_app, Hb, (digits_no_slash (itoa m)) by (by apply itoa_digits). done.
Qed.
Lemma targets_shape ps : ∀ acc, map_Forall (fun _ r => ∃ l, l ≠ [] ∧ Forall plain_seg l ∧ r = join_slash l) acc.1 →
  map_Forall (fun _ r => ∃ l, l ≠ [] ∧ Forall plain_seg l ∧ r = join_slash l) (fold_left (export_target fs vp exactFile) ps acc).1.
Proof.
  induction ps as [|p ps IH]; intros [rels used] Hacc; [done|]. cbn [fold_left]. rewrite export_target_chosen. apply IH. cbn [fst].
  apply map_Forall_insert_2; [|done]. destruct (chosen_plain used p). eauto.
Qed.
Lemma targets_cover ps : ∀ acc p, p ∈ ps ∨ is_Some (acc.1 !! p) → is_Some ((fold_left (export_target fs vp exactFile) ps acc).1 !! p).
Proof.
  induction ps as [|x ps IH]; intros [rels used] p Hp; [by destruct Hp as [Hp%not_elem_of_nil|Hp]|].
  cbn [fold_left]. rewrite export_target_chosen. apply IH. cbn [fst] in *.
  destruct (decide (x = p)) as [->|Hne]; [right; by rewrite lookup_insert_eq|].
  rewrite lookup_insert_ne by done. destruct Hp as [[->|Hp]%elem_of_cons|Hp]; [done|by left|by right].
Qed.
End targets.

(** ** The promise of a batch *)

Lemma path_join_joined a l : l ≠ [] → Forall plain_seg l → path_join [a; join_slash l] = path_join (a :: l).
Proof.
  intros Hne Hl. unfold path_join. cbn [List.filter].
  assert (Hf : List.filter (fun s => negb (String.eqb s "")) l = l).
  { clear Hne. induction Hl as [|x l [Hx _] _ IH]; [done|]. cbn [List.filter]. apply String.eqb_neq in Hx. rewrite Hx. cbn. by rewrite IH. }
  rewrite Hf. assert (Hj : join_slash l ≠ "").
  { destruct l as [|x [|y l]]; [done|by inversion Hl as [|?? [? _]]|]. rewrite join_slash_cons. by destruct x. }
  apply String.eqb_neq in Hj. rewrite Hj. cbn [negb]. destruct (String.eqb a ""); cbn [negb].
  - by destruct l.
  - destruct l as [|x l]; [done|]. by rewrite join_slash_cons.
Qed.

(** C35. Whatever paths and records the index holds, an export writes every file of
    its batch at a target of its own, and below the destination: each match has a
    relative path made of plain segments (none empty, a dot, a double dot or with a
    slash), the operating-system path it is joined to is the destination followed by
    those segments, and no two matches have relative paths that are equal when case
    is ignored.  In particular the search for a free number ends. *)
Theorem export_targets_apart `{GoUnicode} (matches : list string) (idx : Index) (vp : string) (exactFile : bool)
    (dest : list string) : NoDup matches → Forall plain_seg dest → dest ≠ [] →
  let rels := exportTargets matches idx vp exactFile in
  (∀ p, p ∈ matches → ∃ l, l ≠ [] ∧ Forall plain_seg l ∧ rels !! p = Some (join_slash l) ∧
     os_segs (path_join [at_root dest []; join_slash l]) = "" :: dest ++ l) ∧
  (∀ p q r t, rels !! p = Some r → rels !! q = Some t → to_lower r = to_lower t → p = q).
Proof.
  intros Hnd Hd Hne rels. unfold rels, exportTargets.
  destruct (targets_fold (ix_Files idx) vp exactFile matches ∅ ∅ Hnd) as [[_ Hinj] Hall].
  { intros p _. apply lookup_empty. } { by split; intros *; rewrite lookup_empty. }
  split; [|exact Hinj]. intros p Hp. destruct (Hall p (or_introl Hp)) as [r Hr].
  pose proof (targets_shape (ix_Files idx) vp exactFile matches (∅, ∅) (map_Forall_empty _) p r Hr) as (l & Hl & Hpl & ->).
  exists l. split; [done|]. split; [done|]. split; [exact Hr|].
  rewrite path_join_joined, join_at by done. by rewrite segs_at.
Qed.

(** ** Writing one file *)

Section restore.
Context `{GoUnicode} `{AEAD} `{Env} `{Platform} `{JSON ManifestRecord} `{JSON Index} (v : Vault).
Context (p : fpath) (fs0 : files) (tmp : fpath) (overwrite : Overwrite).
Hypothesis tmp_other : tmp ≠ p.

(** The temporary file is gone over or abandoned, the target as before, or removed
    where the policy is to replace it. *)
Definition abandoned (fs : files) : Prop :=
  (∀ q, q ≠ p → q ≠ tmp → fs !! q = fs0 !! q) ∧
  (fs !! p = fs0 !! p ∨ overwrite = OverwriteReplace ∧ fs !! p = None).
Lemma staging_abandoned fs : staging fs0 tmp fs → abandoned fs.
Proof. intros Hq. split; [auto|left; auto]. Qed.

(** The chunks the temporary file has so far. *)
Definition filled (refs : list ChunkRef) (fs : files) : Prop :=
  ∃ cs, Forall2 (authentic v) refs cs ∧ staged fs0 tmp (concat cs) fs.
Lemma filled_staging refs fs : filled refs fs → staging fs0 tmp fs.
Proof. intros (cs & _ & Hs). by eapply staged_staging. Qed.

Lemma triple_load ref pre : triple (filled pre) (chunk ← loadChunk v ref; os_Write tmp chunk) (fun _ => filled (pre ++ [ref])) (staging fs0 tmp).
Proof.
  apply triple_from. intros fs (cs & Hcs & Hst).
  apply (triple_bind _ _ (fun c fs => authentic v ref c ∧ staged fs0 tmp (concat cs) fs)).
  - intros s ->. destruct (loadChunk v ref s) as [s' r] eqn:E.
    apply loadChunk_authentic in E as [Hf Ha]. rewrite Hf. destruct r as [c|e]; [by split; [apply Ha|]|by eapply staged_staging].
  - intros c s [Ha Hs]. pose proof (triple_append fs0 tmp (concat cs) c s Hs) as Hw.
    destruct (os_Write tmp c s) as [s' [[]|e]]; [|done]. exists (cs ++ [c]). split.
    + apply Forall2_app; [done|by constructor].
    + by rewrite concat_app, (app_nil_r c : concat [c] = c).
Qed.
Lemma triple_fill refs : ∀ pre,
  triple (filled pre) (mfold (fun (_ : unit) ref => guarded tmp (chunk ← loadChunk v ref; os_Write tmp chunk)) tt refs)
    (fun _ => filled (pre ++ refs)) (staging fs0 tmp).
Proof.
  induction refs as [|ref refs IH]; intros pre; cbn [mfold].
  - apply triple_ret. intros fs Hf. by rewrite app_nil_r.
  - apply (triple_bind _ _ (fun _ => filled (pre ++ [ref]))).
    + apply triple_guarded; [apply filled_staging|apply triple_load].
    + intros []. replace (pre ++ ref :: refs) with ((pre ++ [ref]) ++ refs) by (by rewrite <- app_assoc). apply IH.
Qed.

Lemma triple_time refs mt : triple (filled refs) (restore_time tmp mt) (fun _ => filled refs) (staging fs0 tmp).
Proof.
  unfold restore_time. destruct (String.eqb mt ""); [by apply triple_ret|]. destruct (parse_rfc3339 mt) as [t|]; [|by apply triple_ret].
  apply (triple_bind _ _ (fun _ => filled refs)); [|intros _; by apply triple_ret].
  eapply triple_conseq; [apply (triple_try (filled refs) _ (fun _ => filled refs) (filled refs) (staging fs0 tmp))|done|by intros [] fs|done].
  apply triple_syscall; [done|]. intros fs t' (cs & Hcs & Hq & t0 & Ht). rewrite Ht. exists cs. split; [done|]. split.
  - intros q Hne. rewrite lookup_insert_ne by done. by apply Hq.
  - rewrite lookup_insert_eq. eauto.
Qed.

(** Ready for the rename: the temporary file complete, the target perhaps removed. *)
Definition ready (refs : list ChunkRef) (fs : files) : Prop :=
  abandoned fs ∧ ∃ cs t, Forall2 (authentic v) refs cs ∧ fs !! tmp = Some (mkFile (concat cs) t).
Lemma filled_ready refs fs : filled refs fs → ready refs fs.
Proof.
  intros Hf. split; [by eapply staging_abandoned, filled_staging|]. destruct Hf as (cs & Hcs & _ & t & Ht). eauto.
Qed.
Lemma triple_clear refs :
  triple (filled refs) (if bool_decide (overwrite = OverwriteReplace) then _ ← try (os_Remove p); mret tt else mret tt)
    (fun _ => ready refs) abandoned.
Proof.
  case_bool_decide as Ho; [|apply triple_ret, filled_ready].
  apply (triple_bind _ _ (fun _ => ready refs)); [|intros _; by apply triple_ret].
  eapply triple_conseq; [apply (triple_try (filled refs) _ (fun _ => ready refs) (ready refs) abandoned)|done|by intros [] fs|done].
  apply triple_syscall; [apply filled_ready|]. intros fs t Hf. pose proof (filled_ready _ _ Hf) as Hr.
  destruct (fs !! p); [|done]. destruct Hr as [[Hq _] (cs & t' & Hcs & Ht)]. split; [split|].
  - intros q Hp Ht'. rewrite lookup_delete_ne by done. by apply Hq.
  - right. by rewrite lookup_delete_eq.
  - exists cs, t'. by rewrite lookup_delete_ne.
Qed.

(** The outcome of a complete write. *)
Definition restored (refs : list ChunkRef) (fs : files) : Prop :=
  (∀ q, q ≠ p → q ≠ tmp → fs !! q = fs0 !! q) ∧ fs !! tmp = None ∧
  ∃ cs t, Forall2 (authentic v) refs cs ∧ fs !! p = Some (mkFile (concat cs) t).
Lemma triple_final refs : triple (ready refs) (os_Rename tmp p) (fun _ => restored refs) abandoned.
Proof.
  apply triple_syscall; [by intros fs [? _]|]. intros fs t [[Hq _] (cs & t' & Hcs & Ht)]. rewrite Ht. split_and!.
  - intros q Hp Htm. rewrite lookup_insert_ne, lookup_delete_ne by done. by apply Hq.
  - by rewrite lookup_insert_ne, lookup_delete_eq.
  - exists cs, t'. by rewrite lookup_insert_eq.
Qed.
End restore.

Section restored.
Context `{GoUnicode} `{AEAD} `{Env} `{Platform} `{JSON ManifestRecord} `{JSON Index} (v : Vault).

Lemma temp_other p name pre : p ≠ [] → has_prefix (base_of p) pre = false → has_prefix name pre = true → dir_of p ++ [name] ≠ p.
Proof. intros Hp Hb Hn Ht. rewrite (dir_base p Hp) in Ht. apply app_inj_2 in Ht as [_ [= Ht]]; [congruence|done]. Qed.

(** The disk after [restoreFileWithOverwrite]. *)
Definition export_outcome (rec : FileRecord) (p : fpath) (overwrite : Overwrite) (fs0 : files) (ok : bool) (fs : files) : Prop :=
  ∃ name, has_prefix name ".seavault-export-" = true ∧ fs0 !! (dir_of p ++ [name]) = None ∧
    if ok then restored v p fs0 (dir_of p ++ [name]) (fr_Chunks rec) fs
    else abandoned p fs0 (dir_of p ++ [name]) overwrite fs.

Lemma triple_restore rec p overwrite fs0 : p ≠ [] → has_prefix (base_of p) ".seavault-export-" = false →
  triple (eq fs0) (restoreFileWithOverwrite v rec p overwrite)
    (fun _ => export_outcome rec p overwrite fs0 true) (export_outcome rec p overwrite fs0 false).
Proof.
  intros Hp Hb. unfold restoreFileWithOverwrite.
  assert (Hsame : export_outcome rec p overwrite fs0 false fs0).
  { exists (fresh_string_of_set ".seavault-export-" (names_in fs0 (dir_of p))).
    split; [apply fresh_of_set_prefix|]. split; [apply fresh_temp|]. apply staging_abandoned; [|by intros q _].
    by apply (temp_other p _ ".seavault-export-"); [| |apply fresh_of_set_prefix]. }
  apply (triple_bind _ _ (fun _ => eq fs0)).
  { eapply triple_conseq; [apply (triple_query fs0 (fun _ => Ok tt) (fun _ => eq fs0)); done|done|done|by intros fs <-]. }
  intros _. apply triple_temp; [exact Hsame|]. intros name Hn Hnew. set (tmp := dir_of p ++ [name]).
  assert (Htmp : tmp ≠ p) by (by apply (temp_other p name ".seavault-export-")).
  eapply (triple_conseq _ (filled v fs0 tmp []) _ _ (fun _ => restored v p fs0 tmp (fr_Chunks rec)) _ (abandoned p fs0 tmp overwrite)).
  - apply (triple_bind _ _ (fun _ => filled v fs0 tmp (fr_Chunks rec))).
    { eapply triple_conseq; [apply (triple_fill v fs0 tmp (fr_Chunks rec) [])|done|done|by apply staging_abandoned]. }
    intros _. apply (triple_bind _ _ (fun _ => filled v fs0 tmp (fr_Chunks rec))).
    { eapply triple_conseq; [apply (triple_try _ _ (fun _ => filled v fs0 tmp (fr_Chunks rec)) (filled v fs0 tmp (fr_Chunks rec)))|done|by intros [] fs|done].
      apply triple_keep; [apply preserves_query|done]. }
    intros [u|e].
    + apply (triple_bind _ _ (fun _ => filled v fs0 tmp (fr_Chunks rec))).
      { eapply triple_conseq; [apply (triple_keep _ (filled v fs0 tmp (fr_Chunks rec))); [apply preserves_try, preserves_query|done]|done|done|].
        intros fs Hf. eapply staging_abandoned, filled_staging, Hf. done. }
      intros _. apply (triple_bind _ _ (fun _ => filled v fs0 tmp (fr_Chunks rec))).
      { eapply triple_conseq; [apply triple_time|done|done|by apply staging_abandoned]. }
      intros _. apply (triple_bind _ _ (fun _ => ready v p fs0 tmp overwrite (fr_Chunks rec))); [by apply triple_clear|].
      intros _. by apply triple_final.
    + apply (triple_conseq _ (staging fs0 tmp) _ _ (fun _ => restored v p fs0 tmp (fr_Chunks rec)) _ (staging fs0 tmp));
        [|intros fs; apply filled_staging|done|by apply staging_abandoned].
      apply (triple_bind _ _ (fun _ => staging fs0 tmp)); [|intros _; by apply triple_fail].
      eapply triple_conseq; [apply (triple_try _ _ (fun _ => staging fs0 tmp) (staging fs0 tmp))|done|by intros [] fs|done].
      apply triple_syscall; [done|]. intros fs t Hs. destruct (fs !! tmp); [|done].
      intros q Hq. rewrite lookup_delete_ne by done. by apply Hs.
  - intros fs Hs. exists []. split; [constructor|done].
  - intros _ fs Hr. by exists name.
  - intros fs Hr. by exists name.
Qed.
End restored.

(** ** What an export promises *)

Section promises.
Context `{GoUnicode} `{AEAD} `{Env} `{Platform} `{JSON ManifestRecord} `{JSON Index} `{Zip} (v : Vault).

(** Exporting one file, whatever calls fail: no file but the target and one new
    temporary file beside it changes.  When it reports success the target holds
    exactly the chunks the record names, in order, each checked against its id, and
    the temporary file is gone; when it fails the target is as it was, except that
    under the replace policy it may be missing. *)
Theorem export_file_atomic (rec : FileRecord) (p : fpath) (overwrite : Overwrite) (s s' : St) (r : result unit) :
  p ≠ [] → has_prefix (base_of p) ".seavault-export-" = false →
  restoreFileWithOverwrite v rec p overwrite s = (s', r) →
  ∃ name, has_prefix name ".seavault-export-" = true ∧ st_files s !! (dir_of p ++ [name]) = None ∧
    (∀ q, q ≠ p → q ≠ dir_of p ++ [name] → st_files s' !! q = st_files s !! q) ∧
    match r with
    | Ok _ => st_files s' !! (dir_of p ++ [name]) = None ∧
        ∃ cs t, Forall2 (authentic v) (fr_Chunks rec) cs ∧ st_files s' !! p = Some (mkFile (concat cs) t)
    | Err _ => st_files s' !! p = st_files s !! p ∨ overwrite = OverwriteReplace ∧ st_files s' !! p = None
    end.
Proof.
  intros Hp Hb Hrun. pose proof (triple_restore v rec p overwrite (st_files s) Hp Hb s eq_refl) as Ht.
  rewrite Hrun in Ht. destruct r as [u|e]; destruct Ht as (name & Hn & Hnew & Hout); exists name; split; [done| |done|];
    (split; [done|]); destruct Hout as [Hq Hd]; by split.
Qed.

Lemma guarded_preserves (I : files → Prop) tmp (m : M unit) :
  preserves I (os_Remove tmp) → preserves I m → preserves I (guarded tmp m).
Proof.
  intros Hr Hm. unfold guarded, discard_temp. apply preserves_bind; [by apply preserves_try|]. intros [u|e]; [apply preserves_ret|].
  apply preserves_bind; [apply preserves_try, preserves_query|intros _].
  apply preserves_bind; [by apply preserves_try|intros _; apply preserves_fail].
Qed.
Lemma load_preserves (I : files → Prop) ref : preserves I (loadChunk v ref).
Proof. intros s Hs. destruct (loadChunk v ref s) as [s' r] eqn:E. apply loadChunk_authentic in E as [Hf _]. cbn. by rewrite Hf. Qed.
Lemma restore_agrees (P : fpath → Prop) fs0 rec p overwrite : ¬ P p → (∀ name, ¬ P (dir_of p ++ [name])) →
  preserves (agrees P fs0) (restoreFileWithOverwrite v rec p overwrite).
Proof.
  intros Hp Hd. unfold restoreFileWithOverwrite, os_MkdirAll, os_Quiet, restore_time. apply preserves_bind; [keep|intros _].
  apply temp_agrees; [done|]. intros name. specialize (Hd name).
  apply preserves_bind; [|keep]. apply preserves_mfold. intros _ ref. apply guarded_preserves; [by apply Remove_agrees|].
  apply preserves_bind; [apply load_preserves|]. intros c. by apply Write_agrees.
Qed.

Lemma exportMatches_preserves (I : files → Prop) virtualPath : preserves I (exportMatches v virtualPath).
Proof.
  unfold exportMatches. apply preserves_bind; [apply LoadIndex_preserves|intros idx]. apply preserves_bind; [apply preserves_lift|intros vp].
  destruct (_ && _); [apply preserves_ret|]. destruct (List.filter _ _); [apply preserves_fail|apply preserves_ret].
Qed.
Lemma mfold_preserves_in {A B : Type} (I : files → Prop) (f : B → A → M B) l :
  (∀ b a, a ∈ l → preserves I (f b a)) → ∀ b, preserves I (mfold f b l).
Proof.
  induction l as [|a l IH]; intros Hf b; cbn [mfold]; [apply preserves_ret|].
  apply preserves_bind; [apply Hf; by left|]. intros b'. apply IH. intros b2 a2 Ha. apply Hf. by right.
Qed.

Lemma export_one_agrees (P : fpath → Prop) fs0 dest overwrite dry idx rels acc p l : dest ≠ [] → Forall plain_seg dest →
  rels !! p = Some (join_slash l) → l ≠ [] → Forall plain_seg l → (∀ l, ¬ P ("" :: dest ++ l)) →
  preserves (agrees P fs0) (export_one v (at_root dest []) overwrite dry idx rels acc p).
Proof.
  intros Hd Hdp Hr Hl Hlp HP. destruct acc as [r [e|]]; unfold export_one; [apply preserves_ret|].
  apply preserves_bind; [apply preserves_try, preserves_query|]. intros [u|e]; [|apply preserves_ret].
  cbv zeta. replace (default "" (rels !! p)) with (join_slash l) by (by rewrite Hr). rewrite path_join_joined, join_at, segs_at by done. cbn [app].
  destruct dry; [apply preserves_ret|].
  assert (Hc : preserves (agrees P fs0) (checkOverwrite ("" :: dest ++ l) overwrite)) by (unfold checkOverwrite, os_Stat; keep).
  assert (Hw : preserves (agrees P fs0) (restoreFileWithOverwrite v (default zero_FileRecord (ix_Files idx !! p)) ("" :: dest ++ l) overwrite)).
  { apply restore_agrees; [apply HP|]. intros name. rewrite app_comm_cons. unfold dir_of. rewrite removelast_app by done.
    rewrite <- app_assoc. apply HP. }
  keep.
Qed.

(** Exporting files (not an archive) into a folder that is neither inside the
    vault's metadata directory nor above it leaves every file of that directory as
    it was, whatever the vault holds and whatever calls fail. *)
Theorem export_leaves_metadata (virtualPath : string) (dest : list string) (opts : ExportOptions) (s s' : St)
    (r : result (ExportResult * option err)) (q : fpath) :
  Forall plain_seg dest → dest ≠ [] → eo_Zip opts = false → below ("" :: dest) (v_MetaRoot v) = false →
  ExportPath v virtualPath (at_root dest []) opts s = (s', r) →
  below (v_MetaRoot v) q = true → st_files s' !! q = st_files s !! q.
Proof.
  intros Hd Hne Hz Hab Hrun. set (P := fun q => below (v_MetaRoot v) q = true).
  enough (Hk : agrees P (st_files s) (st_files (ExportPath v virtualPath (at_root dest []) opts s).1)) by (rewrite Hrun in Hk; apply Hk).
  unfold ExportPath. rewrite bind_run. set (gate := lift (normalizeOverwrite _) ≫= _).
  assert (Hg : preserves (agrees P (st_files s)) gate).
  { apply preserves_bind; [apply preserves_lift|intros ow]. destruct (String.eqb _ ""); [apply preserves_fail|].
    apply preserves_bind; [unfold ensureDestinationOutsideVault; keep|intros _].
    apply preserves_bind; [apply exportMatches_preserves|intros m; apply preserves_ret]. }
  specialize (Hg s (agrees_refl _ _)). unfold try. destruct (gate s) as [s1 [[ow [[matches idx] vp]]|e]] eqn:Eg; [|exact Hg].
  assert (Hout : below (v_MetaRoot v) ("" :: dest) = false).
  { unfold gate in Eg. apply M_bind_ok in Eg as (s2 & ow' & _ & Eg). destruct (String.eqb _ ""); [done|].
    apply M_bind_ok in Eg as (s3 & [] & Eg & _). unfold ensureDestinationOutsideVault in Eg.
    rewrite segs_at, app_nil_r in Eg by done. by destruct (below (v_MetaRoot v) ("" :: dest)). }
  rewrite Hz. apply (preserves_bind (agrees P (st_files s))); [|intros [r1 [e|]]; apply preserves_ret|exact Hg].
  apply mfold_preserves_in. intros acc p Hp. unfold exportTargets.
  destruct (targets_cover (ix_Files idx) vp (bool_decide (is_Some (ix_Files idx !! vp)) && negb (String.eqb vp "")) matches (∅, ∅) p
    (or_introl Hp)) as [t Ht].
  destruct (targets_shape (ix_Files idx) vp _ matches (∅, ∅) (map_Forall_empty _) p t Ht) as (l & Hl & Hpl & ->).
  apply (export_one_agrees P _ _ _ _ _ _ _ _ l); [done..|]. intros l'. unfold P. rewrite app_comm_cons, apart by done. done.
Qed.
End promises.

(** ** On concrete runs *)

Section demo.
#[local] Existing Instances demo_unicode demo_aead demo_env demo_platform json_manifest json_index.

Definition clashing : list string := ["content/A.txt"; "content/a.txt"; "content/b:c"; "content/b_c"].
Definition clashing_index : Index := MkIndex 2 "" ∅.
Lemma export_targets_apart_witness :
  (exportTargets clashing clashing_index "content" false) !! "content/b:c" = Some "b_c" ∧
  ∃ l, exportTargets clashing clashing_index "content" false !! "content/a.txt" = Some (join_slash l) ∧
    os_segs (path_join ["/out"; join_slash l]) = "" :: "out" :: l.
Proof.
  split; [vm_compute; reflexivity|].
  destruct (export_targets_apart clashing clashing_index "content" false ["out"]) as [Hall _].
  - by_decide.
  - by repeat constructor.
  - done.
  - destruct (Hall "content/a.txt") as (l & _ & _ & Hl & Hs); [right; left|]. exists l. split; [exact Hl|exact Hs].
Defined.

Definition export_rec : FileRecord := MkFileRecord 5 384 "" "2024-01-01T00:00:00Z" 7 [demo_ref] "" ∅ ∅.
Definition exported : St * result unit := restoreFileWithOverwrite demo_vault export_rec ["out"; "f"] OverwriteFail demo_stored.1.
Lemma exported_run : restoreFileWithOverwrite demo_vault export_rec ["out"; "f"] OverwriteFail demo_stored.1 = (exported.1, exported.2).
Proof. unfold exported. by destruct (restoreFileWithOverwrite _ _ _ _ _). Qed.
Lemma export_file_atomic_witness :
  f_data <$> st_files exported.1 !! ["out"; "f"] = Some (bytes_of "chunk") ∧
  ∃ name, has_prefix name ".seavault-export-" = true ∧
    ∀ q, q ≠ ["out"; "f"] → q ≠ ["out"; name] → st_files exported.1 !! q = st_files demo_stored.1 !! q.
Proof.
  split; [vm_compute; reflexivity|].
  destruct (export_file_atomic demo_vault export_rec ["out"; "f"] OverwriteFail demo_stored.1 exported.1 exported.2
    ltac:(discriminate) eq_refl exported_run) as (name & Hn & _ & Hq & _).
  exists name. split; [exact Hn|exact Hq].
Defined.

(** A vault whose metadata directory is [/r/SeaVaultData], holding a record under
    the name of that directory. *)
Definition export_vault : Vault :=
  mkVault "/r" ["";"r"; "SeaVaultData"] (v_Config demo_vault) (v_keys demo_vault) (v_chunkAEAD demo_vault) (v_indexAEAD demo_vault) "".
Definition export_start : St :=
  mkSt {[["";"r"; "SeaVaultData"; "vault.json"] := mkFile (bytes_of "config") 5]} 0
    (Some (MkIndex 2 "" {["content/SeaVaultData/note" := MkFileRecord 0 384 "" "" 1 [] "" ∅ ∅]})) 0 None.
Definition export_opts : ExportOptions := mkExportOptions "fail" false false.
Definition bytes_Fields : Fields bytes.
Proof. apply (Fields_via str_of bytes_of). apply list_byte_of_string_of_list_byte. Defined.
#[local] Existing Instance bytes_Fields.
Definition member_Fields : Fields ZipMember.
Proof. by apply (Fields_via (fun m => (zm_Name m, zm_Mode m, zm_Modified m, zm_Data m)) (fun '(a, b, c, d) => mkMember a b c d)); intros []. Defined.
#[local] Existing Instance member_Fields.
Definition demo_zip : Zip := {| zip_encode := fields_marshal; zip_decode := fields_unmarshal; zip_decode_encode l := fields_roundtrip l I |}.
#[local] Existing Instance demo_zip.

Definition exported_all : St * result (ExportResult * option err) := ExportPath export_vault "content" "/out" export_opts export_start.
Lemma exported_all_run : ExportPath export_vault "content" "/out" export_opts export_start = (exported_all.1, exported_all.2).
Proof. unfold exported_all. by destruct (ExportPath _ _ _ _ _). Qed.
Lemma export_leaves_metadata_witness :
  f_data <$> st_files exported_all.1 !! ["";"out"; "SeaVaultData"; "note"] = Some [] ∧
  st_files exported_all.1 !! ["";"r"; "SeaVaultData"; "vault.json"] = st_files export_start !! ["";"r"; "SeaVaultData"; "vault.json"].
Proof.
  split; [vm_compute; reflexivity|].
  apply (export_leaves_metadata export_vault "content" ["out"] export_opts export_start exported_all.1 exported_all.2).
  - by repeat constructor.
  - discriminate.
  - reflexivity.
  - reflexivity.
  - exact exported_all_run.
  - reflexivity.
Defined.

(** The second condition matters: an export to the folder that holds the vault
    writes plaintext into its metadata directory. *)
Example export_above_metadata :
  f_data <$> st_files (ExportPath export_vault "content" "/r" export_opts export_start).1 !! ["";"r"; "SeaVaultData"; "note"] = Some [].
Proof. vm_compute. reflexivity. Qed.
End demo.
